(* ===== verification/_CoqProject ===== *)
-Q . S2P
Prelude.v
Errors.v
CommonTypes.v
StateResult.v
TcpTransport.v
Platform.v
HostObjects.v
SerialPort.v
IdfPlatform.v
IdfTask.v
HostThreads.v
AtParser.v
HttpParser.v
HttpParserFacts.v
HttpResponses.v
HttpFraming.v
ResponseParser.v
UrcDispatcher.v
AtUart.v
AtCommands.v
MqttPacket.v
MqttClient.v
MqttSession.v
MqttProperties.v
AtChannel.v
BaudAlignment.v
HalRoutes.v
HalStreams.v
HalTcpClient.v
HalClients.v
SocketHal.v
ModemLink.v
Ml307Hal.v
Ml307Facts.v
Ml307Sockets.v
Ml307Events.v
Ml307Frame.v
Air780eHal.v
Air780eFrame.v
Air780eModes.v
Air780eOpen.v
Air780eTypes.v
Air780eDrain.v
Air780eEvents.v
CellularNetwork.v
HalTransport.v
Ml307Transport.v
Air780eSockets.v
Air780eTransport.v
CellularDevice.v
HttpRequest.v
HttpOrigin.v
HttpClient.v
HttpStream.v
HttpClientFacts.v
HttpRedirects.v
HttpReply.v
HttpConversation.v
HttpExecute.v
HttpReading.v
HttpUpload.v
HttpOverMl307.v
HttpOverAir780e.v
WsFrame.v
WsHandshake.v
Doubles.v
WsBackoff.v
WsClient.v
WsClientFacts.v
WsConnect.v
WsReceive.v
WsClosing.v
WsBounds.v
WsReconnect.v
ToolIo.v
AirProbe.v
SerialTools.v
SmokeTools.v
HttpSmoke.v
