(* ===== verification/Prelude.v ===== *)
(** * esp-modem-link: verification development

    esp-modem-link drives cellular modules (ML307, AIR780E) over a UART from an
    ESP32 or a POSIX host, and runs HTTP, MQTT and WebSocket clients over the
    sockets the module provides. This library models the program's own core
    logic, shallowly, and proves what makes it correct.

    ** Parts, and the files that model them

    From the wire up:

    - What every layer returns (src/src/error/): [NetworkError], [AtError] and
      [Result] in [Errors]; operations on an object that may fail, with their
      sequencing, in [StateResult]; the shared vocabulary
      (src/include/esp_modem_link/) in [CommonTypes].
    - The platform (src/src/platform/, src/platform/): clock and random source
      as an interface [Platform]; the desktop host's queue, event group and
      in-memory UART [HostObjects], its serial port [SerialPort], its task and
      timer (with the GPIO pin) [HostThreads]; the ESP32's ticks, event group
      and UART over the driver [IdfPlatform], its task [IdfTask]. Tasks and the
      timer are step relations whose steps are the critical sections of each
      thread.
    - The AT channel (src/src/at_channel/, src/src/at_parser/): fields
      [AtParser]; the response parser [ResponseParser]; the URC dispatcher and
      its specification [UrcDispatcher]; the channel, and how it assembles
      lines, [AtUart]; what commands guarantee [AtCommands]. The channel as the
      layers above see it is the class [IAtChannel] of [AtChannel], over which
      [BaudAlignment] settles the rate.
    - The module HALs (src/src/hal/, src/src/modules/): event routing, common to
      all modules, [HalRoutes] and what a subscriber hears [HalStreams]; the
      channel with what its receive task does while a HAL waits is the class
      [IModemLink] of [ModemLink]. The ML307 is [Ml307Hal], with [Ml307Facts],
      [Ml307Sockets] (open, send, close) and [Ml307Events] (ids and events);
      [Ml307Frame] is what its operations leave alone. The AIR780E is
      [Air780eHal], with [Air780eFrame] (what its reader leaves alone),
      [Air780eTypes] (it stays inside its arrays), [Air780eModes] (its one TLS
      switch), [Air780eOpen] (what an open answers), [Air780eDrain] (what a
      client hears) and [Air780eEvents].
    - Socket clients over a HAL [HalTcpClient], with [HalClients]; a TCP client
      as the protocol engines see it is the class [ITransport] of
      [TcpTransport]. The stack put together: the sockets of a module are the
      class [ISocketHal] of [SocketHal], of which [Ml307Transport] and
      [Air780eSockets] are the instances; a socket client over any of them, as a
      transport, is [HalTransport]; what it hears and sends is in
      [Ml307Transport] and [Air780eTransport]; an HTTP request through all of it
      in [HttpOverMl307] and [HttpOverAir780e].
    - HTTP (src/src/protocol/http/): the response parser [HttpParser], its facts
      [HttpParserFacts], whole responses [HttpResponses], body framing
      [HttpFraming]; URLs, requests and redirects [HttpRequest], [HttpOrigin];
      the engine [HttpClient] and its streaming half [HttpStream], what they do
      to the world [HttpClientFacts], redirects [HttpRedirects], responses
      [HttpReply], which request follows which [HttpConversation], and what
      follows for a caller: [HttpExecute], [HttpReading], [HttpUpload].
    - MQTT (src/src/protocol/mqtt/): the packets [MqttPacket]; the engine
      [MqttClient], its lemmas [MqttSession], properties [MqttProperties].
    - WebSocket (src/src/protocol/websocket/): frames [WsFrame]; the opening
      handshake [WsHandshake]; the engine [WsClient], what its receive path
      preserves [WsClientFacts], connecting [WsConnect], messages [WsReceive],
      closing [WsClosing], what it may hold in memory [WsBounds], reconnecting
      [WsReconnect], after delays computed in [double] ([Doubles], [WsBackoff]).
    - The application's view (src/src/network/, src/src/device/): which client
      it gets [CellularNetwork]; finding, aligning and bringing up a module,
      waiting for the network [CellularDevice], over the class [IHal], of which
      the two modules are instances.
    - The command-line tools (src/tools/): the probes [AirProbe] and
      [SerialTools] over the port and console of [ToolIo]; the smoke tests
      [SmokeTools], over a device and its sockets, and [HttpSmoke], over the
      HTTP engine.

    An engine is proved over any [ITransport], a HAL over any [IModemLink], a
    device over any [IHal] and [IAtChannel], a tool over what it is given. The
    parsers, the packet and frame streams and the channel give one answer for
    one stream of bytes however it was cut into reads; most of what is said of
    the engines rests on that.

    ** How the code is rendered

    An object is a record of its members; an operation is a function from the
    record to the record and its result, in the order and with the early returns
    of the source. Machine integers are [Z] with the wrap-around written out
    ([u16], [u32], [u64], [size_mod] for the target's [size_t]). A byte is an
    [ascii], a string a list of them.

    What other code answers is an argument or a method of an interface: a UART's
    or a transport's result for each send, what is delivered while an operation
    waits, the clock. A mutex makes each critical section one step; what other
    threads do in between is part of what a wait delivers, and where a race
    within an operation matters (the PINGREQ mark of the MQTT keep-alive, a
    reader let in by the AIR780E, the receive task while [SubscribeTcp] hands over
    what it held) the operation is split at it. A member no lock protects is read
    and written in steps of its own ([IdfTask.run_]). A write outside an array,
    which is undefined in the source, is kept in a field the source has not
    ([Air780eHal.overrun_]). A user's
    callback is a function on the whole world where calling back in matters
    ([HalRoutes], [HalTcpClient]), and a record of having been called elsewhere.

    Loops carry fuel only where they do not follow their data. [take_lines],
    [parse_loop], [SplitCsv_loop], [normalize_loop] and [lists_loop] have the
    length of their input and use some of it up each time round; so have MQTT's
    [drain_loop], whose packets take at least two bytes, and [send_chunks],
    whose commands carry at least one. [feed_loop] consumes everything its
    states can take ([HttpFraming.Feed_exhausts]). The redirect loop has one
    round more than [max_redirects], the search for an ML307 id one per id;
    neither is ever cut off ([HttpExecute.Execute_bounded],
    [Ml307Sockets.OpenSocket_ends]). The WebSocket engine's deliveries may nest,
    by a send that is answered at once: an operation out of fuel says so
    ([OutOfFuel]), and over a transport that delivers nothing from inside a send
    a fuel of one is enough ([WsReceive.frames_heard]). The AIR780E's
    [drain_loop] stops at the source's own [kMaxDrainPerWake]. [WaitForNetwork]
    has a poll for every second of its timeout and two more
    ([CellularDevice.WaitForNetwork_ends]); the WebSocket client's wait between
    two attempts has one slice for every [kMaintainTick] of the delay. A tool's
    watching loop has a round for each answer the port still holds and for each
    millisecond of its window ([ToolIo.rounds_enough]), and the HTTP smoke test
    reads a body in at most as many reads as it has bytes
    ([HttpSmoke.Drain_ends]).

    ** What the theorems show

    - The platform: however a task's threads interleave, short of a data race on
      the object, stopping it waits exactly as long as its function runs, and
      nothing is used after it is freed.
    - The AT channel: a command returns the module's answer under any split of
      the reads; a payload goes out only after its prompt; the dispatcher
      refines a map from handles to prefixes; a rate settled on is one both
      sides share, but for the write whose answer is lost.
    - The HALs: a socket is reported open only after the module said so, under
      the TLS asked for; a send puts exactly its payload on the line; payloads
      reach the socket they name, in order; ids are handed out only when free;
      the AIR780E, initialized once, never has TLS and plaintext sockets open
      together, writes nothing outside its arrays whatever the module names,
      answers an open with what the module said of it, and hands over what it held
      before the peer's close; what a client hears of its socket around its
      subscription, in order unless the receive task dispatches beside the
      hand-over; a client that reconnects in its callbacks is subscribed to the
      socket it holds.
    - HTTP: a response returned is what the parser read to its end after the
      last request, under any split of the reads; a streamed one is handed over
      whole and in order; a truncated body is never complete; over a socket of
      either module the line carries the request, under the TLS asked for, and
      the answer is the one the module had for it; redirects end, a request with
      side effects is sent again only for a 307 or 308, credentials stay with the
      caller's origin; uploads decode to what was written.
    - MQTT: the codec round trips; QoS 2 delivers exactly once; the session
      invariant of every reachable client; what [Connect] returns and leaves; a
      silent broker is given up.
    - WebSocket: frames and masking round trip; a connection is open only to a
      server that read the key; messages are heard whole, in order, pings
      answered; closing is one handshake, told once; no peer makes it hold more
      than its limits; reconnecting to a server that is gone ends when the
      retries are used up, after exactly the delays of its schedule, which never
      shrink and stay under their cap.
    - The application: an unidentified module is left as it was; waiting for the
      network ends; a client is the engine asked for, under the TLS asked for.
    - The tools: a probe sends the lines of its scenario and shows what came
      back, whatever the port answers, and a module that prompts hears them as
      they were sent; a smoke test passes on a device, a server
      and an engine that behave.

    Lemmas that show a place where the code departs from its own comments, or
    loses something it means to keep, are next to the part they are about:
    [HttpFraming], [HalStreams], [HalClients], [Ml307Events], [Air780eEvents],
    [WsClosing], [CellularNetwork], [SerialPort], [IdfPlatform], [IdfTask],
    [AirProbe] and others.

    ** Not modelled

    The operating system under the platform (the UART driver, the calls a serial
    port or a task makes are arguments) and the Windows branch of the serial
    port; debug logging. The MQTT client's destructor is its [Disconnect]. The
    tests and the examples are programs of their own.

    ** What could follow

    A scheduler in which the AIR780E's reader and its callers interleave freely;
    the MQTT and WebSocket engines joined to a module's socket as the HTTP
    engine is. *)
From stdpp Require Import base decidable list strings gmap.
From Stdlib Require Import ZArith Ascii Lia.

(** * Bytes and byte strings

    A C++ [char]/[uint8_t] is an [ascii] (eight bits); a [std::string] or
    [std::string_view] is a [list ascii].  [lit] is a string literal. *)
Abbreviation bytes := (list ascii).

Definition lit (s : string) : bytes := String.list_ascii_of_string s.
Arguments lit s%_string_scope : simpl never.

Declare Scope modem_scope.
Delimit Scope modem_scope with modem.
Open Scope modem_scope.
Open Scope Z_scope.

(** The value of a byte, [static_cast<uint8_t>(c)]. *)
Definition b2z (c : ascii) : Z := Z.of_N (N_of_ascii c).
(** The byte a value is narrowed to, [static_cast<char>(v)]. *)
Definition z2b (v : Z) : ascii := ascii_of_N (Z.to_N (v mod 256)).

(** Unsigned narrowing at the widths the sources use. *)
Definition u8 (v : Z) : Z := v mod 2 ^ 8.
Definition u16 (v : Z) : Z := v mod 2 ^ 16.
Definition u32 (v : Z) : Z := v mod 2 ^ 32.
Definition u64 (v : Z) : Z := v mod 2 ^ 64.

Definition INT_MIN : Z := - 2 ^ 31.
Definition INT_MAX : Z := 2 ^ 31 - 1.

(** [size_t] is 64 bits wide on the POSIX hosts and 32 on the ESP32 targets. *)
Inductive size_model := Size32 | Size64.
Definition size_mod (m : size_model) : Z :=
  match m with Size32 => 2 ^ 32 | Size64 => 2 ^ 64 end.

Definition CR : ascii := ascii_of_nat 13.
Definition LF : ascii := ascii_of_nat 10.
Definition TAB : ascii := ascii_of_nat 9.
Definition CRLF : bytes := [CR; LF].

#[export] Instance ascii_countable : Countable ascii :=
  inj_countable' N_of_ascii ascii_of_N ascii_N_embedding.

(** * [std::string_view] operations *)

Fixpoint starts_with (p s : bytes) : bool :=
  match p, s with
  | [], _ => true
  | x :: p', y :: s' => bool_decide (x = y) && starts_with p' s'
  | _ :: _, [] => false
  end.

(** [s.find(c)] *)
Fixpoint find_byte (c : ascii) (s : bytes) : option nat :=
  match s with
  | [] => None
  | x :: s' => if decide (x = c) then Some 0%nat else S <$> find_byte c s'
  end.

(** [s.find_first_of(cs)] *)
Fixpoint find_first_of (cs : bytes) (s : bytes) : option nat :=
  match s with
  | [] => None
  | x :: s' => if decide (x ∈ cs) then Some 0%nat else S <$> find_first_of cs s'
  end.

(** [s.rfind(c)] *)
Fixpoint rfind_byte (c : ascii) (s : bytes) : option nat :=
  match s with
  | [] => None
  | x :: s' =>
      match rfind_byte c s' with
      | Some i => Some (S i)
      | None => if decide (x = c) then Some 0%nat else None
      end
  end.

(** [s.find(p)] for a multi-byte needle *)
Fixpoint find_sub (p s : bytes) : option nat :=
  if starts_with p s then Some 0%nat
  else match s with
       | [] => None
       | _ :: s' => S <$> find_sub p s'
       end.

Definition ends_with (p s : bytes) : bool := starts_with (rev p) (rev s).

Fixpoint drop_while (f : ascii → bool) (s : bytes) : bytes :=
  match s with
  | [] => []
  | x :: s' => if f x then drop_while f s' else s
  end.

Fixpoint take_while (f : ascii → bool) (s : bytes) : bytes :=
  match s with
  | [] => []
  | x :: s' => if f x then x :: take_while f s' else []
  end.

Definition drop_while_end (f : ascii → bool) (s : bytes) : bytes :=
  rev (drop_while f (rev s)).

Definition trim_by (f : ascii → bool) (s : bytes) : bytes :=
  drop_while_end f (drop_while f s).

(** * [<cctype>] in the C locale *)

Definition in_range (lo hi v : Z) : bool := (lo <=? v) && (v <=? hi).
Definition isdigit (c : ascii) : bool := in_range 48 57 (b2z c).
Definition isupper (c : ascii) : bool := in_range 65 90 (b2z c).
Definition isspace (c : ascii) : bool := in_range 9 13 (b2z c) || (b2z c =? 32).
(** a space or a horizontal tab *)
Definition isblank (c : ascii) : bool := (b2z c =? 32) || (b2z c =? 9).
Definition tolower (c : ascii) : ascii := if isupper c then z2b (b2z c + 32) else c.

Definition to_lower (s : bytes) : bytes := tolower <$> s.

(** * Integers in text *)

Definition digit_val (c : ascii) : Z := b2z c - 48.

(** The value of a run of digits in base [base], most significant first. *)
Definition digits_value (base : Z) (ds : list Z) : Z :=
  fold_left (λ acc d, acc * base + d) ds 0.

(** [std::from_chars] for [int], whole input consumed and in range. *)
Definition int_of_digits (neg : bool) (s : bytes) : option Z :=
  match s with
  | [] => None
  | _ :: _ =>
      if forallb isdigit s then
        let v := digits_value 10 (digit_val <$> s) in
        let v := if neg then - v else v in
        if in_range INT_MIN INT_MAX v then Some v else None
      else None
  end.

Definition from_chars_int (s : bytes) : option Z :=
  match s with
  | c :: s' => if decide (c = "-"%char) then int_of_digits true s'
               else int_of_digits false s
  | [] => None
  end.

(** [std::to_string] of a non-negative value, then of any value. *)
Fixpoint dec_digits (fuel : nat) (n : Z) (acc : bytes) : bytes :=
  match fuel with
  | O => acc
  | S k =>
      let acc := z2b (48 + n mod 10) :: acc in
      if n <? 10 then acc else dec_digits k (n / 10) acc
  end.

Definition to_string (n : Z) : bytes :=
  if n <? 0 then "-"%char :: dec_digits (S (Z.to_nat (Z.log2 (- n)))) (- n) []
  else dec_digits (S (Z.to_nat (Z.log2 n))) n [].

Arguments int_of_digits : simpl never.
Arguments digits_value : simpl never.
Arguments to_string : simpl never.
Arguments z2b : simpl never.
Arguments b2z : simpl never.

(** * Lemmas: bytes *)

Lemma b2z_range c : 0 <= b2z c < 256.
Proof.
  unfold b2z. pose proof (N_ascii_bounded c) as H.
  apply N2Z.inj_lt in H. lia.
Qed.

Lemma b2z_z2b v : b2z (z2b v) = v mod 256.
Proof.
  unfold b2z, z2b. pose proof (Z.mod_pos_bound v 256 ltac:(lia)).
  rewrite N_ascii_embedding; lia.
Qed.

Lemma b2z_z2b_small v : 0 <= v < 256 → b2z (z2b v) = v.
Proof. intros. rewrite b2z_z2b. by apply Z.mod_small. Qed.

Lemma z2b_b2z c : z2b (b2z c) = c.
Proof.
  unfold z2b. rewrite Z.mod_small by apply b2z_range.
  unfold b2z. rewrite N2Z.id. apply ascii_N_embedding.
Qed.

Lemma b2z_inj c d : b2z c = b2z d → c = d.
Proof. intros H. rewrite <- (z2b_b2z c), <- (z2b_b2z d). by rewrite H. Qed.

(** Closes an equation of closed terms by running both sides, in the kernel only. *)
Ltac by_vm := match goal with |- _ = ?x => vm_cast_no_check (eq_refl x) end.

(** A statement about one byte is a finite check over its eight bits. *)
Ltac byte_cases c := destruct c as [[] [] [] [] [] [] [] []]; vm_compute; try done.

(** What holds of every byte holds of every value in byte range. *)
Lemma byte_ind (P : Z → Prop) : (∀ c, P (b2z c)) → ∀ d, 0 <= d < 256 → P d.
Proof. intros H d Hd. rewrite <- (b2z_z2b_small d Hd). apply H. Qed.

(** Close a decidable closed goal by evaluating its decision procedure. *)
Ltac decide_now := apply (bool_decide_eq_true_1 _); vm_compute; reflexivity.

Ltac solve_byte_range :=
  repeat match goal with
  | |- context [b2z ?c] =>
      lazymatch goal with
      | _ : 0 <= b2z c < 256 |- _ => fail
      | _ => pose proof (b2z_range c)
      end
  | _ : context [b2z ?c] |- _ =>
      lazymatch goal with
      | _ : 0 <= b2z c < 256 |- _ => fail
      | _ => pose proof (b2z_range c)
      end
  end; try lia.

Lemma tolower_idemp c : tolower (tolower c) = tolower c.
Proof. byte_cases c. Qed.

Lemma to_lower_idemp s : to_lower (to_lower s) = to_lower s.
Proof. unfold to_lower. induction s; csimpl; rewrite ?tolower_idemp; congruence. Qed.

Lemma isblank_isspace c : isblank c = true → isspace c = true.
Proof. byte_cases c. Qed.

(** Disjoint bit fields: or-ing a shifted value over a smaller one adds them. *)
Lemma shiftl_lor a b n : 0 <= n → 0 <= b < 2 ^ n → Z.lor (Z.shiftl a n) b = a * 2 ^ n + b.
Proof.
  intros Hn Hb. pose proof (Z.add_lor_land (Z.shiftl a n) b) as H.
  assert (Z.land (Z.shiftl a n) b = 0) as E.
  { apply Z.bits_inj'. intros i Hi. rewrite Z.land_spec, Z.bits_0.
    destruct (Z.lt_ge_cases i n); [by rewrite Z.shiftl_spec_low|].
    destruct (Z.eq_dec b 0) as [->|]; [by rewrite Z.bits_0, andb_false_r|].
    assert (0 < b) by (destruct Hb; lia).
    rewrite (Z.bits_above_log2 b i); [by rewrite andb_false_r|lia|]. apply Z.log2_lt_pow2; [lia|].
    eapply Z.lt_le_trans; [apply Hb|]. by apply Z.pow_le_mono_r. }
  rewrite E in H. rewrite <- Z.shiftl_mul_pow2 by done. lia.
Qed.

(** * Lemmas: searching *)

Lemma drop_app_S {A} (l r : list A) x : drop (length l + 1) (l ++ x :: r) = r.
Proof. by rewrite drop_app_add. Qed.

Lemma find_byte_Some c s i :
  find_byte c s = Some i →
  s = take i s ++ (c :: drop (S i) s) ∧ (c ∉ take i s) ∧ (i < length s)%nat.
Proof.
  revert i; induction s as [|x s IH]; intros i H; [done|]; simpl in H.
  case_decide; simplify_eq/=.
  { split_and!; [done | set_solver | lia]. }
  destruct (find_byte c s) as [j|] eqn:E; simplify_eq/=.
  destruct (IH j eq_refl) as (H1 & H2 & H3).
  split_and!; [by f_equal | set_solver | lia].
Qed.

Lemma find_byte_None c s : find_byte c s = None ↔ c ∉ s.
Proof.
  induction s as [|x s IH]; simpl; [set_solver|].
  case_decide; [set_solver|]. rewrite fmap_None, IH. set_solver.
Qed.

Lemma find_byte_app c l r : c ∉ l → find_byte c (l ++ c :: r) = Some (length l).
Proof.
  induction l as [|x l IH]; intros H; simpl; [by rewrite decide_True|].
  rewrite decide_False by set_solver. rewrite IH; set_solver.
Qed.

Lemma find_byte_app_l c l r i : find_byte c l = Some i → find_byte c (l ++ r) = Some i.
Proof.
  revert i; induction l as [|x l IH]; intros i H; simpl in *; [done|].
  case_decide; [done|]. destruct (find_byte c l); simplify_eq/=.
  by rewrite (IH _ eq_refl).
Qed.

Lemma find_byte_app_None c l r :
  find_byte c l = None → find_byte c (l ++ r) = Nat.add (length l) <$> find_byte c r.
Proof.
  induction l as [|x l IH]; intros H; simpl in *; [by destruct (find_byte c r)|].
  case_decide; [done|]. apply fmap_None in H. rewrite (IH H).
  by destruct (find_byte c r).
Qed.

Lemma starts_with_spec p s : starts_with p s = true ↔ ∃ r, s = p ++ r.
Proof.
  revert s; induction p as [|x p IH]; intros s; simpl.
  { split; [by exists s | done]. }
  destruct s as [|y s]; simpl.
  { split; [done | intros [r Hr]; done]. }
  rewrite andb_true_iff, bool_decide_eq_true, IH. split.
  - intros [-> [r ->]]. by exists r.
  - intros [r [= -> ->]]. eauto.
Qed.

Lemma starts_with_app p r : starts_with p (p ++ r) = true.
Proof. apply starts_with_spec. by exists r. Qed.

Lemma starts_with_app_l p s r :
  (length p <= length s)%nat → starts_with p (s ++ r) = starts_with p s.
Proof.
  revert s; induction p as [|x p IH]; intros s H; [done|].
  destruct s as [|y s]; simpl in *; [lia|]. rewrite IH by lia. done.
Qed.

Lemma find_sub_Some p s i :
  find_sub p s = Some i → s = take i s ++ p ++ drop (i + length p) s.
Proof.
  revert i; induction s as [|x s IH]; intros i H; simpl in H.
  - destruct p; simplify_eq/=. done.
  - destruct (starts_with p (x :: s)) eqn:E; simplify_eq/=.
    + apply starts_with_spec in E as [r ->]. by rewrite drop_app_length.
    + destruct (find_sub p s) as [j|]; simplify_eq/=. by rewrite <- IH.
Qed.

Lemma starts_with_length p s : starts_with p s = true → (length p <= length s)%nat.
Proof. intros (r & ->)%starts_with_spec. rewrite length_app. lia. Qed.

(** A needle found stays found where it was when more bytes follow. *)
Lemma find_sub_app_l p s r i : find_sub p s = Some i → find_sub p (s ++ r) = Some i.
Proof.
  revert i; induction s as [|x s IH]; intros i H.
  - destruct p; [by destruct r|done].
  - cbn [find_sub app] in *. destruct (starts_with p (x :: s)) eqn:E.
    + change (x :: s ++ r) with ((x :: s) ++ r).
      by rewrite (starts_with_app_l p (x :: s) r), E by (by apply starts_with_length).
    + destruct (find_sub p s) as [j|] eqn:Ej; [|done].
      change (x :: s ++ r) with ((x :: s) ++ r).
      destruct (starts_with p ((x :: s) ++ r)) eqn:E2.
      * assert (length p <= length s)%nat as Hl.
        { apply find_sub_Some in Ej. apply (f_equal length) in Ej.
          rewrite !length_app in Ej. lia. }
        rewrite starts_with_app_l, E in E2 by (simpl; lia). done.
      * by rewrite (IH j eq_refl).
Qed.

(** * Lemmas: trimming *)

Lemma drop_while_suffix f s : ∃ p, s = p ++ drop_while f s ∧ Forall (λ c, f c = true) p.
Proof.
  induction s as [|x s IH]; simpl; [by exists []|].
  destruct (f x) eqn:E; [|by exists []].
  destruct IH as (p & Hp & HF). exists (x :: p). split; [by rewrite Hp at 1|by constructor].
Qed.

Lemma drop_while_hd f s c : head (drop_while f s) = Some c → f c = false.
Proof.
  induction s as [|x s IH]; simpl; [done|].
  destruct (f x) eqn:E; [done | by intros [= <-]].
Qed.

Lemma drop_while_none f s : (∀ c, head s = Some c → f c = false) → drop_while f s = s.
Proof. destruct s as [|x s]; simpl; [done|]. intros H. by rewrite (H x). Qed.

Lemma drop_while_end_none f s :
  (∀ c, last s = Some c → f c = false) → drop_while_end f s = s.
Proof.
  intros H. unfold drop_while_end. rewrite drop_while_none; [apply rev_involutive|].
  intros c Hc. apply H. rewrite <- Hc.
  destruct s as [|x s _] using rev_ind; [done|]. by rewrite last_snoc, rev_app_distr.
Qed.

Lemma trim_by_none f s :
  (∀ c, head s = Some c → f c = false) → (∀ c, last s = Some c → f c = false) →
  trim_by f s = s.
Proof. intros H1 H2. unfold trim_by. rewrite drop_while_none, drop_while_end_none; done. Qed.

Lemma drop_while_end_last f s c : last (drop_while_end f s) = Some c → f c = false.
Proof.
  unfold drop_while_end. intros H. apply (drop_while_hd f (rev s)).
  rewrite <- H. set (l := drop_while f (rev s)). destruct l as [|x l]; [done|].
  simpl. by rewrite last_snoc.
Qed.

Lemma drop_while_end_prefix f s :
  ∃ p, s = drop_while_end f s ++ p ∧ Forall (λ c, f c = true) p.
Proof.
  unfold drop_while_end. destruct (drop_while_suffix f (rev s)) as (p & Hp & HF).
  exists (rev p). split.
  - rewrite <- rev_app_distr, <- Hp. by rewrite rev_involutive.
  - by apply Forall_rev.
Qed.

Lemma trim_by_hd f s c : head (trim_by f s) = Some c → f c = false.
Proof.
  unfold trim_by. intros H.
  destruct (drop_while_end_prefix f (drop_while f s)) as (p & Hp & _).
  apply (drop_while_hd f s). rewrite Hp.
  destruct (drop_while_end f (drop_while f s)); simplify_eq/=. done.
Qed.

Lemma trim_by_last f s c : last (trim_by f s) = Some c → f c = false.
Proof. apply drop_while_end_last. Qed.

Lemma trim_by_idemp f s : trim_by f (trim_by f s) = trim_by f s.
Proof. apply trim_by_none; intros; [by eapply trim_by_hd | by eapply trim_by_last]. Qed.

Lemma drop_while_app_l f p s : Forall (λ c, f c = true) p → drop_while f (p ++ s) = drop_while f s.
Proof. induction 1 as [|c p Hc H IH]; [done|]. simpl. by rewrite Hc. Qed.

Lemma drop_while_app_r f s r : (∀ c, head r = Some c → f c = false) →
  drop_while f (s ++ r) = drop_while f s ++ r.
Proof.
  intros H. induction s as [|x s IH]; simpl; [by apply drop_while_none|]. by destruct (f x).
Qed.

Lemma drop_while_end_app_r f s q : Forall (λ c, f c = true) q →
  drop_while_end f (s ++ q) = drop_while_end f s.
Proof.
  intros H. unfold drop_while_end. rewrite rev_app_distr, drop_while_app_l; [done|].
  by apply Forall_rev.
Qed.

(** A suffix is trimmed on its own behind a byte that stays. *)
Lemma drop_while_end_app_l f s r c : last s = Some c → f c = false →
  drop_while_end f (s ++ r) = s ++ drop_while_end f r.
Proof.
  intros Hl Hc. unfold drop_while_end. rewrite rev_app_distr, drop_while_app_r.
  - by rewrite rev_app_distr, rev_involutive.
  - intros d Hd. destruct s as [|x s] using rev_ind; [done|].
    rewrite last_snoc in Hl. rewrite rev_app_distr in Hd. simpl in Hd. congruence.
Qed.

Lemma trim_by_app_l f p s : Forall (λ c, f c = true) p → trim_by f (p ++ s) = trim_by f s.
Proof. intros H. unfold trim_by. by rewrite drop_while_app_l. Qed.

Lemma trim_by_app_r f s q : Forall (λ c, f c = true) q → trim_by f (s ++ q) = trim_by f s.
Proof.
  intros H. unfold trim_by. induction s as [|x s IH].
  - simpl. rewrite <- (app_nil_r q), drop_while_app_l by done. done.
  - simpl. destruct (f x); [done|].
    change (x :: s ++ q) with ((x :: s) ++ q). by apply drop_while_end_app_r.
Qed.

(** What [trim_by] removed. *)
Lemma trim_by_split f s : ∃ p q, s = p ++ trim_by f s ++ q ∧
  Forall (λ c, f c = true) p ∧ Forall (λ c, f c = true) q.
Proof.
  destruct (drop_while_suffix f s) as (p & Hp & HF).
  destruct (drop_while_end_prefix f (drop_while f s)) as (q & Hq & HG).
  exists p, q. unfold trim_by. by rewrite <- Hq.
Qed.

(** Trimming less first changes nothing. *)
Lemma trim_by_weaker f g s : (∀ c, f c = true → g c = true) → trim_by g (trim_by f s) = trim_by g s.
Proof.
  intros H. destruct (trim_by_split f s) as (p & q & Hs & Hp & Hq). rewrite Hs at 2.
  rewrite trim_by_app_l by (by eapply Forall_impl). by rewrite trim_by_app_r by (by eapply Forall_impl).
Qed.

(** * Lemmas: integers in text *)

Lemma digits_fold_app base ds ds' acc :
  fold_left (λ a d, a * base + d) (ds ++ ds') acc =
  fold_left (λ a d, a * base + d) ds' (fold_left (λ a d, a * base + d) ds acc).
Proof. by rewrite fold_left_app. Qed.

Lemma isdigit_spec c : isdigit c = true ↔ 48 <= b2z c <= 57.
Proof. unfold isdigit, in_range. rewrite andb_true_iff. lia. Qed.

Lemma isdigit_of_digit d : 0 <= d < 10 → isdigit (z2b (48 + d)) = true.
Proof. intros. rewrite isdigit_spec, b2z_z2b_small by lia. lia. Qed.

Lemma digit_val_of_digit d : 0 <= d < 10 → digit_val (z2b (48 + d)) = d.
Proof. intros. unfold digit_val. rewrite b2z_z2b_small; lia. Qed.

Lemma dec_digits_spec fuel n acc :
  0 <= n < 2 ^ Z.of_nat fuel →
  ∃ ds, dec_digits fuel n acc = ds ++ acc ∧ (fuel ≠ 0%nat → ds ≠ []) ∧
        forallb isdigit ds = true ∧
        digits_value 10 (digit_val <$> ds) = n.
Proof.
  revert n acc; induction fuel as [|k IH]; intros n acc Hn.
  { exists ([] : bytes). simpl in Hn. split_and!; try done. unfold digits_value; simpl. lia. }
  assert (0 <= n mod 10 < 10) as Hm by (apply Z.mod_pos_bound; lia).
  simpl. destruct (n <? 10) eqn:E.
  - exists [z2b (48 + n mod 10)]. split_and!; try done.
    + simpl. by rewrite isdigit_of_digit.
    + unfold digits_value; simpl. rewrite digit_val_of_digit by done.
      rewrite Z.mod_small; lia.
  - destruct (IH (n / 10) (z2b (48 + n mod 10) :: acc)) as (ds & H1 & H2 & H3 & H4).
    { split; [apply Z.div_pos; lia|]. apply Z.div_lt_upper_bound; [lia|].
      rewrite Nat2Z.inj_succ, Z.pow_succ_r in Hn by lia. lia. }
    exists (ds ++ [z2b (48 + n mod 10)]). rewrite H1. split_and!.
    + by rewrite <- app_assoc.
    + intros _ ?. by destruct ds.
    + rewrite forallb_app, H3. simpl. by rewrite isdigit_of_digit.
    + unfold digits_value in *. rewrite fmap_app, digits_fold_app, H4. simpl.
      rewrite digit_val_of_digit by done. pose proof (Z.div_mod n 10). lia.
Qed.

Lemma log2_fuel n : 0 <= n → 0 <= n < 2 ^ Z.of_nat (S (Z.to_nat (Z.log2 n))).
Proof.
  intros. split; [done|]. rewrite Nat2Z.inj_succ, Z2Nat.id by apply Z.log2_nonneg.
  destruct (decide (n = 0)) as [->|]; [done|]. apply Z.log2_spec. lia.
Qed.

Lemma to_string_nonneg n :
  0 <= n → to_string n ≠ [] ∧ forallb isdigit (to_string n) = true ∧
           digits_value 10 (digit_val <$> to_string n) = n.
Proof.
  intros Hn. unfold to_string. rewrite (proj2 (Z.ltb_ge n 0)) by done.
  destruct (dec_digits_spec _ n [] (log2_fuel n Hn)) as (ds & -> & H1 & H2 & H3).
  rewrite app_nil_r. split_and!; auto.
Qed.

Lemma int_of_digits_Some (neg : bool) (s : bytes) (v : Z) :
  s ≠ [] → forallb isdigit s = true → digits_value 10 (digit_val <$> s) = v →
  INT_MIN <= (if neg then - v else v) <= INT_MAX →
  int_of_digits neg s = Some (if neg then - v else v).
Proof.
  intros Hne Hd Hv Hr. unfold int_of_digits. destruct s as [|x s]; [done|].
  rewrite Hd, Hv. unfold in_range.
  destruct neg; rewrite !(proj2 (Z.leb_le _ _)); simpl; by try lia.
Qed.

Lemma to_string_neg n : n < 0 → to_string n = "-"%char :: to_string (- n).
Proof.
  intros. unfold to_string. rewrite (proj2 (Z.ltb_lt n 0)) by done.
  by rewrite (proj2 (Z.ltb_ge (- n) 0)) by lia.
Qed.

Lemma digit_not_minus c : isdigit c = true → c ≠ "-"%char.
Proof. intros H ->. discriminate H. Qed.

(** Printing an [int] and reading it back is the identity. *)
Lemma from_chars_to_string n : INT_MIN <= n <= INT_MAX → from_chars_int (to_string n) = Some n.
Proof.
  intros Hn. destruct (decide (n < 0)) as [Hneg|Hpos].
  - rewrite to_string_neg by done. simpl.
    destruct (to_string_nonneg (- n)) as (H1 & H2 & H3); [lia|].
    rewrite (int_of_digits_Some true _ (- n)) by (done || lia). f_equal; lia.
  - destruct (to_string_nonneg n) as (H1 & H2 & H3); [lia|].
    destruct (to_string n) as [|c s] eqn:E; [done|]. simpl.
    rewrite decide_False.
    + by rewrite (int_of_digits_Some false _ n) by (done || lia).
    + apply digit_not_minus. simpl in H2. by apply andb_true_iff in H2 as [? _].
Qed.

Lemma from_chars_int_range s v : from_chars_int s = Some v → INT_MIN <= v <= INT_MAX.
Proof.
  assert (∀ neg s v, int_of_digits neg s = Some v → INT_MIN <= v <= INT_MAX) as Haux.
  { intros neg [|x t] w H; unfold int_of_digits in H; [done|]. case_match; [|done].
    match type of H with (if ?b then _ else _) = _ => destruct b eqn:E end; simplify_eq.
    unfold in_range in E. apply andb_true_iff in E. lia. }
  destruct s as [|c s]; [done|]. unfold from_chars_int.
  case_decide; apply Haux.
Qed.

Create HintDb modem.
Create Rewrite HintDb modem.
#[export] Hint Rewrite b2z_z2b z2b_b2z : modem.
#[export] Hint Resolve b2z_range tolower_idemp isblank_isspace : modem.
