(* ===== verification/Errors.v ===== *)
(** The error types every layer returns: [NetworkError] and [AtError]
    (src/src/error/*.cpp, include/esp_modem_link/{network_error,at_error}.h),
    and the [Result<T>] monad over them. *)
From stdpp Require Import base decidable list strings gmap.
From Stdlib Require Import ZArith Ascii Lia.
From S2P Require Import Prelude.

(** * [std::expected] *)

Inductive result (E T : Type) := Ok (t : T) | Err (e : E).
Arguments Ok {E T} t.
Arguments Err {E T} e.

#[export] Instance result_ret {E} : MRet (result E) := λ T t, Ok t.
#[export] Instance result_bind {E} : MBind (result E) :=
  λ T U f r, match r with Ok t => f t | Err e => Err e end.

Definition is_ok {E T} (r : result E T) : bool :=
  match r with Ok _ => true | Err _ => false end.

(** * NetworkError *)

Inductive NetworkErrc :=
| kInvalidArgument
| kNotInitialized
| kNotSupported
| kTimeout
| kCanceled
| kResourceBusy
| kNoResources
| kDnsFailed
| kAlreadyConnected
| kNotConnected
| kConnectFailed
| kConnectionRefused
| kConnectionReset
| kConnectionLost
| kTlsHandshakeFailed
| kTlsCertificateInvalid
| kTlsCertificateExpired
| kTlsHostnameMismatch
| kAuthRejected
| kAuthTimeout
| kTransmitFailed
| kReceiveFailed
| kBufferOverflow
| kNetworkUnavailable
| kNetworkDetached
| kRoamingNotAllowed
| kProtocolError
| kHttpErrorStatus
| kMqttNotAuthorized
| kWsHandshakeFailed
| kAtCommandError
| kAtCmeError
| kAtCmsError
| kAtTimeout
| kModemNotResponding
| kSimNotDetected
| kSimPinRequired
| kSimPukRequired
| kUnknown.

#[export] Instance NetworkErrc_eq_dec : EqDecision NetworkErrc.
Proof. solve_decision. Defined.

Record NetworkError := MkNetworkError {
  ne_code : NetworkErrc;
  ne_native : Z;
  ne_context : bytes;
}.

#[export] Instance NetworkError_eq_dec : EqDecision NetworkError.
Proof. solve_decision. Defined.

Abbreviation Result := (result NetworkError).

Definition net_error (code : NetworkErrc) (context : string) : NetworkError :=
  MkNetworkError code 0 (lit context).
Arguments net_error code context%_string_scope.

Definition Name (code : NetworkErrc) : bytes :=
  lit match code with
      | kInvalidArgument => "invalid_argument"
      | kNotInitialized => "not_initialized"
      | kNotSupported => "not_supported"
      | kTimeout => "timeout"
      | kCanceled => "canceled"
      | kResourceBusy => "resource_busy"
      | kNoResources => "no_resources"
      | kDnsFailed => "dns_failed"
      | kAlreadyConnected => "already_connected"
      | kNotConnected => "not_connected"
      | kConnectFailed => "connect_failed"
      | kConnectionRefused => "connection_refused"
      | kConnectionReset => "connection_reset"
      | kConnectionLost => "connection_lost"
      | kTlsHandshakeFailed => "tls_handshake_failed"
      | kTlsCertificateInvalid => "tls_certificate_invalid"
      | kTlsCertificateExpired => "tls_certificate_expired"
      | kTlsHostnameMismatch => "tls_hostname_mismatch"
      | kAuthRejected => "auth_rejected"
      | kAuthTimeout => "auth_timeout"
      | kTransmitFailed => "transmit_failed"
      | kReceiveFailed => "receive_failed"
      | kBufferOverflow => "buffer_overflow"
      | kNetworkUnavailable => "network_unavailable"
      | kNetworkDetached => "network_detached"
      | kRoamingNotAllowed => "roaming_not_allowed"
      | kProtocolError => "protocol_error"
      | kHttpErrorStatus => "http_error_status"
      | kMqttNotAuthorized => "mqtt_not_authorized"
      | kWsHandshakeFailed => "ws_handshake_failed"
      | kAtCommandError => "at_command_error"
      | kAtCmeError => "at_cme_error"
      | kAtCmsError => "at_cms_error"
      | kAtTimeout => "at_timeout"
      | kModemNotResponding => "modem_not_responding"
      | kSimNotDetected => "sim_not_detected"
      | kSimPinRequired => "sim_pin_required"
      | kSimPukRequired => "sim_puk_required"
      | kUnknown => "unknown"
      end.

Definition Message (code : NetworkErrc) : bytes :=
  lit match code with
      | kInvalidArgument => "Invalid argument"
      | kNotInitialized => "Not initialized"
      | kNotSupported => "Not supported"
      | kTimeout => "Operation timed out"
      | kCanceled => "Operation canceled"
      | kResourceBusy => "Resource busy"
      | kNoResources => "No resources available"
      | kDnsFailed => "DNS resolution failed"
      | kAlreadyConnected => "Already connected"
      | kNotConnected => "Not connected"
      | kConnectFailed => "Connection failed"
      | kConnectionRefused => "Connection refused"
      | kConnectionReset => "Connection reset"
      | kConnectionLost => "Connection lost"
      | kTlsHandshakeFailed => "TLS handshake failed"
      | kTlsCertificateInvalid => "TLS certificate invalid"
      | kTlsCertificateExpired => "TLS certificate expired"
      | kTlsHostnameMismatch => "TLS hostname mismatch"
      | kAuthRejected => "Authentication rejected"
      | kAuthTimeout => "Authentication timed out"
      | kTransmitFailed => "Transmission failed"
      | kReceiveFailed => "Reception failed"
      | kBufferOverflow => "Buffer overflow"
      | kNetworkUnavailable => "Network unavailable"
      | kNetworkDetached => "Network detached"
      | kRoamingNotAllowed => "Roaming not allowed"
      | kProtocolError => "Protocol error"
      | kHttpErrorStatus => "HTTP error status"
      | kMqttNotAuthorized => "MQTT not authorized"
      | kWsHandshakeFailed => "WebSocket handshake failed"
      | kAtCommandError => "AT command error"
      | kAtCmeError => "AT CME error"
      | kAtCmsError => "AT CMS error"
      | kAtTimeout => "AT command timeout"
      | kModemNotResponding => "Modem not responding"
      | kSimNotDetected => "SIM not detected"
      | kSimPinRequired => "SIM PIN required"
      | kSimPukRequired => "SIM PUK required"
      | kUnknown => "Unknown error"
      end.

(** [NetworkError::ToString] *)
Definition NetworkError_ToString (e : NetworkError) : bytes :=
  Name (ne_code e) ++ lit ": " ++ Message (ne_code e)
  ++ (if ne_native e =? 0 then [] else lit " (native=" ++ to_string (ne_native e) ++ lit ")")
  ++ (if decide (ne_context e = []) then [] else lit " [" ++ ne_context e ++ lit "]").

Definition Timeout (ctx : string) : NetworkError := net_error kTimeout ctx.
Definition NotSupported (ctx : string) : NetworkError := net_error kNotSupported ctx.
Arguments Timeout ctx%_string_scope.
Arguments NotSupported ctx%_string_scope.

Definition DnsFailed (herr : Z) (host : bytes) : NetworkError :=
  MkNetworkError kDnsFailed herr
    (if decide (host = []) then [] else lit "host=" ++ host).

(** The [errno] values [FromErrno] names; [strerror] is the platform's. *)
Inductive errno :=
| EINVAL | ETIMEDOUT | ECONNREFUSED | ECONNRESET | ENOBUFS | ENOMEM
| ENOTCONN | EPERM | EACCES | EOTHER.

Section FromErrno.
(** [errno] numbers and their text belong to the C library of the target. *)
Context (errno_of : Z → errno) (strerror : Z → bytes).

Definition FromErrno (err : Z) : NetworkError :=
  let code := match errno_of err with
              | EINVAL => kInvalidArgument
              | ETIMEDOUT => kTimeout
              | ECONNREFUSED => kConnectionRefused
              | ECONNRESET => kConnectionReset
              | ENOBUFS | ENOMEM => kResourceBusy
              | ENOTCONN => kConnectFailed
              | EPERM | EACCES => kAuthRejected
              | EOTHER => kUnknown
              end in
  MkNetworkError code err (strerror err).
End FromErrno.

(** * AtError *)

Inductive AtErrc :=
| kAtErrTimeout | kCommandError | kCmeError | kCmsError
| kAtTransmitFailed | kAtNotInitialized | kAtNotSupported.

#[export] Instance AtErrc_eq_dec : EqDecision AtErrc.
Proof. solve_decision. Defined.

Record AtError := MkAtErrorRaw {
  at_code : AtErrc;
  at_cme : Z;
  at_cms : Z;
  at_context : bytes;
}.

#[export] Instance AtError_eq_dec : EqDecision AtError.
Proof. solve_decision. Defined.

(** [AtError(code, ctx)] *)
Definition MkAtError (code : AtErrc) (ctx : bytes) : AtError := MkAtErrorRaw code 0 0 ctx.
(** [AtError(code, cme_or_cms, ctx)] *)
Definition MkAtErrorNum (code : AtErrc) (cme_or_cms : Z) (ctx : bytes) : AtError :=
  MkAtErrorRaw code
    (if decide (code = kCmeError) then cme_or_cms else 0)
    (if decide (code = kCmsError) then cme_or_cms else 0) ctx.

Abbreviation AtValue := (result AtError).
Abbreviation AtResult := (result AtError unit).

Definition ToNetworkError (e : AtError) : NetworkError :=
  match at_code e with
  | kAtErrTimeout => MkNetworkError kAtTimeout 0 (at_context e)
  | kCommandError => MkNetworkError kAtCommandError 0 (at_context e)
  | kCmeError => MkNetworkError kAtCmeError (at_cme e) (at_context e)
  | kCmsError => MkNetworkError kAtCmsError (at_cms e) (at_context e)
  | kAtTransmitFailed => MkNetworkError kTransmitFailed 0 (at_context e)
  | kAtNotInitialized => MkNetworkError kNotInitialized 0 (at_context e)
  | kAtNotSupported => MkNetworkError kNotSupported 0 (at_context e)
  end.

(** [AtError::ToString] *)
Definition AtError_ToString (e : AtError) : bytes :=
  match at_code e with
  | kAtErrTimeout => lit "AT_TIMEOUT"
  | kCommandError => lit "AT_ERROR"
  | kCmeError => lit "CME_ERROR(" ++ to_string (at_cme e) ++ lit ")"
  | kCmsError => lit "CMS_ERROR(" ++ to_string (at_cms e) ++ lit ")"
  | kAtTransmitFailed => lit "AT_TRANSMIT_FAILED"
  | kAtNotInitialized => lit "AT_NOT_INITIALIZED"
  | kAtNotSupported => lit "AT_NOT_SUPPORTED"
  end
  ++ (if decide (at_context e = []) then [] else lit " [" ++ at_context e ++ lit "]").

(** * Properties *)

(** The error names are pairwise distinct: [Name] identifies the code. *)
Lemma Name_inj c d : Name c = Name d → c = d.
Proof. destruct c, d; done. Qed.

Lemma ToNetworkError_context e : ne_context (ToNetworkError e) = at_context e.
Proof. unfold ToNetworkError. by destruct (at_code e). Qed.

(** Distinct channel errors stay distinct network error codes. *)
Lemma ToNetworkError_code_inj e e' :
  ne_code (ToNetworkError e) = ne_code (ToNetworkError e') → at_code e = at_code e'.
Proof. unfold ToNetworkError. by destruct (at_code e), (at_code e'). Qed.

(** The module's own error number survives the conversion exactly when the code
    carries one. *)
Lemma ToNetworkError_native code n ctx :
  ne_native (ToNetworkError (MkAtErrorNum code n ctx)) =
  if decide (code = kCmeError ∨ code = kCmsError) then n else 0.
Proof. by destruct code. Qed.
