(* ===== verification/CommonTypes.v ===== *)
(** The shared vocabulary (src/include/esp_modem_link/): the configuration of the
    clients, and what the modules and the network interface speak of. *)
From stdpp Require Import base decidable list strings gmap.
From Stdlib Require Import ZArith Ascii Lia.
From S2P Require Import Prelude Errors.

(** * Configuration shared by the clients (config_types.h) *)

Record TlsConfig := MkTlsConfig {
  verify_certificate : bool;
  verify_hostname : bool;
  ca_cert : bytes;
  client_cert : bytes;
  client_key : bytes;
  alpn_protocols : bytes;
  handshake_timeout : Z;
}.

Definition default_tls : TlsConfig := MkTlsConfig false false [] [] [] [] 10.

Record ApnConfig := MkApnConfig { apn : bytes; apn_username : bytes; apn_password : bytes }.

Record SleepConfig := MkSleepConfig { enable_dtr_wakeup : bool; inactivity_timeout : Z }.

(** * The vocabulary of the modules and the network interface
    (src/include/esp_modem_link/{common_types,module_capabilities}.h).

    Where the source has the same enumerator in several enums ([kUnknown]), the
    constructor carries the enum's name. *)

Inductive ModuleType :=
| kModuleUnknown | kMl307 | kEc801E | kEc600N | kBg95 | kBg96 | kL610 | kN58 | kA7670C | kEspAt | kAir780E.

Inductive NetworkProtocol := kTcp | kSsl | kUdp | kHttp | kHttps | kMqtt | kMqtts | kWebSocket | kWss.

Inductive ProtocolMode := kAuto | kBuiltin | kSoftware.

Inductive RegistrationState :=
| kNotRegistered | kRegisteredHome | kSearching | kRegistrationDenied | kRegistrationUnknown | kRegisteredRoaming.

Inductive SimState := kSimUnknown | kNotInserted | kSimReady | kPinRequired | kPukRequired | kSimError.

#[export] Instance ModuleType_eq_dec : EqDecision ModuleType.
Proof. solve_decision. Defined.
#[export] Instance ProtocolMode_eq_dec : EqDecision ProtocolMode.
Proof. solve_decision. Defined.
#[export] Instance RegistrationState_eq_dec : EqDecision RegistrationState.
Proof. solve_decision. Defined.

Record SignalInfo := MkSignalInfo { rssi : Z; ber : Z }.
Definition default_signal : SignalInfo := MkSignalInfo 0 0.

Record ModuleCapabilities := MkCapabilities {
  cap_tcp : bool;
  cap_udp : bool;
  cap_ssl_tcp : bool;
  cap_http : bool;
  cap_https : bool;
  cap_mqtt : bool;
  cap_mqtts : bool;
  cap_file_system : bool;
  cap_low_power : bool;
  cap_max_connections : Z;
  cap_max_baud_rate : Z;
}.

(** What a 3GPP registration status says; both modules map it alike. *)
Definition registration_of (stat : Z) : RegistrationState :=
  if stat =? 0 then kNotRegistered
  else if stat =? 1 then kRegisteredHome
  else if stat =? 2 then kSearching
  else if stat =? 3 then kRegistrationDenied
  else if stat =? 5 then kRegisteredRoaming
  else kRegistrationUnknown.
