(* ===== verification/StateResult.v ===== *)
(** Operations on an object that may fail: [S → S * result E A], the state being
    what the object is left as whether or not it failed.

    [let! x := m in k] goes on with the result of [m] or stops with its error. *)
From stdpp Require Import base decidable list strings gmap.
From Stdlib Require Import ZArith Ascii Lia.
From S2P Require Import Prelude Errors.

Section Op.
Context {S E : Type}.

Definition op (A : Type) := S → S * result E A.

Definition ret {A} (a : A) : op A := λ s, (s, Ok a).
Definition fail {A} (e : E) : op A := λ s, (s, Err e).
Definition bind {A B} (m : op A) (k : A → op B) : op B :=
  λ s, let '(s, r) := m s in match r with Ok a => k a s | Err e => (s, Err e) end.
Definition modify (f : S → S) : op unit := λ s, (f s, Ok ()).
Definition gets {A} (f : S → A) : op A := λ s, (s, Ok (f s)).
(** The result as a value, as code that looks at it gets it. *)
Definition attempt {A} (m : op A) : op (result E A) := λ s, let '(s, r) := m s in (s, Ok r).
Definition of_result {A} (r : result E A) : op A := λ s, (s, r).

(** What an operation keeps. *)
Definition keeps {A} (P : S → Prop) (m : op A) : Prop := ∀ s, P s → P (m s).1.

Lemma bind_Ok {A B} (m : op A) (k : A → op B) s s' b :
  bind m k s = (s', Ok b) → ∃ s1 a, m s = (s1, Ok a) ∧ k a s1 = (s', Ok b).
Proof. unfold bind. destruct (m s) as [s1 [a|e]]; [eauto|done]. Qed.

Lemma keeps_ret {A} P (a : A) : keeps P (ret a).
Proof. by intros s H. Qed.
Lemma keeps_fail {A} P e : keeps P (fail (A := A) e).
Proof. by intros s H. Qed.
Lemma keeps_gets {A} P (f : S → A) : keeps P (gets f).
Proof. by intros s H. Qed.
Lemma keeps_of_result {A} P (r : result E A) : keeps P (of_result r).
Proof. by intros s H. Qed.
Lemma keeps_modify P f : (∀ s, P s → P (f s)) → keeps P (modify f).
Proof. intros H s Hs. by apply H. Qed.
Lemma keeps_attempt {A} P (m : op A) : keeps P m → keeps P (attempt m).
Proof. intros H s Hs. specialize (H s Hs). unfold attempt. by destruct (m s). Qed.
Lemma keeps_bind {A B} P (m : op A) (k : A → op B) : keeps P m → (∀ a, keeps P (k a)) → keeps P (bind m k).
Proof.
  intros Hm Hk s Hs. specialize (Hm s Hs). unfold bind. destruct (m s) as [s1 [a|e]]; [by apply Hk|done].
Qed.
Lemma keeps_if {A} P (b : bool) (m n : op A) : keeps P m → keeps P n → keeps P (if b then m else n).
Proof. by destruct b. Qed.
(** What holds of the result and the state it leaves. *)
Definition wp {A} (m : op A) (Q : result E A → S → Prop) (s : S) : Prop := Q (m s).2 (m s).1.

Lemma wp_ret {A} (a : A) Q s : Q (Ok a) s → wp (ret a) Q s.
Proof. done. Qed.
Lemma wp_fail {A} e Q s : Q (Err e) s → wp (fail (A := A) e) Q s.
Proof. done. Qed.
Lemma wp_gets {A} (f : S → A) Q s : Q (Ok (f s)) s → wp (gets f) Q s.
Proof. done. Qed.
Lemma wp_of_result {A} (r : result E A) Q s : Q r s → wp (of_result r) Q s.
Proof. done. Qed.
Lemma wp_modify f Q s : Q (Ok ()) (f s) → wp (modify f) Q s.
Proof. done. Qed.
Lemma wp_attempt {A} (m : op A) Q s : wp m (λ r, Q (Ok r)) s → wp (attempt m) Q s.
Proof. unfold wp, attempt. by destruct (m s). Qed.
Lemma wp_bind {A B} (m : op A) (k : A → op B) Q s :
  wp m (λ r s', match r with Ok a => wp (k a) Q s' | Err e => Q (Err e) s' end) s → wp (bind m k) Q s.
Proof. unfold wp, bind. by destruct (m s) as [s1 [a|e]]. Qed.
Lemma wp_mono {A} (m : op A) (P Q : result E A → S → Prop) s : wp m P s → (∀ r s', P r s' → Q r s') → wp m Q s.
Proof. unfold wp. auto. Qed.
Lemma wp_elim {A} (m : op A) Q s s' r : wp m Q s → m s = (s', r) → Q r s'.
Proof. unfold wp. by intros H E'; rewrite E' in H. Qed.
Lemma wp_intro {A} (m : op A) (Q : result E A → S → Prop) s : (∀ s' r, m s = (s', r) → Q r s') → wp m Q s.
Proof. intros H. unfold wp. destruct (m s) as [s' r]. by apply H. Qed.
Lemma op_result {A} (m : op A) s a : (m s).2 = Ok a → m s = ((m s).1, Ok a).
Proof. intros <-. by destruct (m s). Qed.

Lemma keeps_by_wp {A} (P : S → Prop) (m : op A) : (∀ s, P s → wp m (λ _, P) s) → keeps P m.
Proof. done. Qed.
Lemma wp_keeps {A} (P : S → Prop) (m : op A) s : keeps P m → P s → wp m (λ _, P) s.
Proof. intros H. apply H. Qed.
End Op.
Arguments op : clear implicits.

Declare Scope op_scope.
Delimit Scope op_scope with op.
Open Scope op_scope.
Notation "'let!' x ':=' m 'in' k" := (bind m (λ x, k))
  (at level 10, x pattern, m at level 100, k at level 200) : op_scope.
Notation "m ';;;' k" := (bind m (λ _, k)) (at level 199, right associativity) : op_scope.

#[export] Hint Resolve keeps_ret keeps_fail keeps_gets keeps_of_result keeps_modify keeps_attempt keeps_bind
  keeps_if : modem.

(** Runs a straight-line piece of an operation. *)
Ltac wp_step :=
  lazymatch goal with
  | |- wp (bind _ _) _ _ => apply wp_bind
  | |- wp (ret _) _ _ => apply wp_ret
  | |- wp (fail _) _ _ => apply wp_fail
  | |- wp (gets _) _ _ => apply wp_gets
  | |- wp (modify _) _ _ => apply wp_modify
  | |- wp (of_result _) _ _ => apply wp_of_result
  | |- wp (attempt _) _ _ => apply wp_attempt
  end; cbv beta iota.
Ltac wp_run := cbv beta iota; repeat wp_step.
