(* ===== verification/TcpTransport.v ===== *)
(** [TcpClient] (src/include/esp_modem_link/tcp_client.h) and the factory that
    makes one, as the protocol clients use them: an interface on the world [W] a
    client runs in.

    An operation during which the receive thread may run also says what that
    thread delivered by the time the operation returned. [await] is a wait on the
    client's condition variable: what was delivered by the time it ended. *)
From stdpp Require Import base decidable list strings gmap.
From Stdlib Require Import ZArith Ascii Lia.
From S2P Require Import Prelude Errors CommonTypes.

(** A call of one of the three callbacks. *)
Inductive tcp_event :=
| EvData (data : bytes)
| EvDisconnected
| EvError (e : NetworkError).

Class ITransport (W : Type) := {
  make_transport : bool → TlsConfig → W → W * Result unit;
  tcp_connect : bytes → Z → W → W * list tcp_event * Result unit;
  tcp_send : bytes → W → W * list tcp_event * Result Z;
  tcp_disconnect : W → W;
  await : Z → W → W * list tcp_event;
}.

(** * What a client did and heard *)

Inductive action :=
| AMake (tls : bool) (config : TlsConfig)
| AConnect (host : bytes) (port : Z)
| ASend (data : bytes)
| ADisconnect
| AHeard (events : list tcp_event)
| ASleep (ms : Z).

(** Any world, with a record of what was done to it. *)
#[export] Instance recorded `{ITransport W} : ITransport (W * list action) := {|
  make_transport tls config w :=
    let '(w1, r) := make_transport tls config w.1 in ((w1, w.2 ++ [AMake tls config]), r);
  tcp_connect host port w :=
    let '(w1, evs, r) := tcp_connect host port w.1 in
    ((w1, w.2 ++ [AConnect host port; AHeard evs]), evs, r);
  tcp_send data w :=
    let '(w1, evs, r) := tcp_send data w.1 in ((w1, w.2 ++ [ASend data; AHeard evs]), evs, r);
  tcp_disconnect w := (tcp_disconnect w.1, w.2 ++ [ADisconnect]);
  await timeout w := let '(w1, evs) := await timeout w.1 in ((w1, w.2 ++ [AHeard evs]), evs);
|}.

(** The bytes sent, send by send. *)
Definition sends (l : list action) : list bytes :=
  omap (λ a, match a with ASend d => Some d | _ => None end) l.

(** Who the bytes of a send go to: whether the transport is TLS, and what it is
    connected to. *)
Definition peer := (bool * option (bytes * Z))%type.
Definition peer_step (p : peer) (a : action) : peer :=
  match a with
  | AMake tls _ => (tls, None)
  | AConnect host port => (p.1, Some (host, port))
  | ADisconnect => (p.1, None)
  | ASend _ | AHeard _ | ASleep _ => p
  end.
Definition peer_after (p : peer) (l : list action) : peer := fold_left peer_step l p.

Fixpoint addressed (p : peer) (l : list action) : list (peer * bytes) :=
  match l with
  | [] => []
  | ASend d :: l => (p, d) :: addressed p l
  | a :: l => addressed (peer_step p a) l
  end.

Lemma sends_app l l' : sends (l ++ l') = sends l ++ sends l'.
Proof. apply omap_app. Qed.

Lemma peer_after_app p l l' : peer_after p (l ++ l') = peer_after (peer_after p l) l'.
Proof. apply fold_left_app. Qed.

Lemma addressed_app p l l' : addressed p (l ++ l') = addressed p l ++ addressed (peer_after p l) l'.
Proof.
  revert p; induction l as [|a l IH]; intros p; [done|]. cbn [app addressed peer_after fold_left].
  destruct a; cbn [app]; try apply IH. f_equal. apply IH.
Qed.

(** * A world that follows a script *)

(** What each operation answers, in the order the client asks, and the record. *)
Record script := MkScript {
  on_make : list (Result unit);
  on_connect : list (list tcp_event * Result unit);
  on_send : list (list tcp_event * Result Z);
  on_wait : list (list tcp_event);
}.

(** A script that has run out answers no factory and sends nothing. *)
Definition exhausted : NetworkError := net_error kUnknown "".

#[export] Instance scripted : ITransport script := {|
  make_transport _ _ s :=
    match on_make s with
    | [] => (s, Err exhausted)
    | r :: rs => (MkScript rs (on_connect s) (on_send s) (on_wait s), r)
    end;
  tcp_connect _ _ s :=
    match on_connect s with
    | [] => (s, [], Err exhausted)
    | (evs, r) :: rs => (MkScript (on_make s) rs (on_send s) (on_wait s), evs, r)
    end;
  tcp_send _ s :=
    match on_send s with
    | [] => (s, [], Err exhausted)
    | (evs, r) :: rs => (MkScript (on_make s) (on_connect s) rs (on_wait s), evs, r)
    end;
  tcp_disconnect s := s;
  await _ s :=
    match on_wait s with
    | [] => (s, [])
    | evs :: rs => (MkScript (on_make s) (on_connect s) (on_send s) rs, evs)
    end;
|}.
