(* ===== verification/Platform.v ===== *)
(** The platform services the protocol clients call (src/src/platform/time.h and
    random.h): the clock in milliseconds and a source of 32-bit words. *)
From stdpp Require Import base decidable list strings gmap.
From Stdlib Require Import ZArith Ascii Lia.
From S2P Require Import Prelude Errors TcpTransport.

Class IPlatform (W : Type) := {
  now_ms : W → Z;
  random32 : W → W * Z;
  (** [platform::Sleep] *)
  sleep_ms : Z → W → W;
}.

#[export] Instance recorded_platform `{IPlatform W} : IPlatform (W * list action) := {|
  now_ms w := now_ms w.1;
  random32 w := let '(w1, v) := random32 w.1 in ((w1, w.2), v);
  sleep_ms ms w := (sleep_ms ms w.1, w.2 ++ [ASleep ms]);
|}.

(** A script with a clock that moves only while one sleeps, and a predictable source. *)
Record timed := MkTimed { at_ms : Z; scripted_part : script }.

#[export] Instance timed_transport : ITransport timed := {|
  make_transport tls config t :=
    let '(s, r) := make_transport tls config (scripted_part t) in (MkTimed (at_ms t) s, r);
  tcp_connect host port t :=
    let '(s, evs, r) := tcp_connect host port (scripted_part t) in (MkTimed (at_ms t) s, evs, r);
  tcp_send data t :=
    let '(s, evs, r) := tcp_send data (scripted_part t) in (MkTimed (at_ms t) s, evs, r);
  tcp_disconnect t := MkTimed (at_ms t) (tcp_disconnect (scripted_part t));
  await timeout t := let '(s, evs) := await timeout (scripted_part t) in (MkTimed (at_ms t) s, evs);
|}.
#[export] Instance timed_platform : IPlatform timed := {|
  now_ms := at_ms;
  random32 t := (t, 0);
  sleep_ms ms t := MkTimed (at_ms t + ms) (scripted_part t);
|}.

(** A world in which every call succeeds and nothing ever arrives. *)
Inductive calm := Calm.
#[export] Instance calm_transport : ITransport calm := {|
  make_transport _ _ w := (w, Ok ());
  tcp_connect _ _ w := (w, [], Ok ());
  tcp_send data w := (w, [], Ok (Z.of_nat (length data)));
  tcp_disconnect w := w;
  await _ w := (w, []);
|}.
#[export] Instance calm_platform : IPlatform calm := {|
  now_ms _ := 0;
  random32 w := (w, 0);
  sleep_ms _ w := w;
|}.
