(* ===== verification/HostObjects.v ===== *)
(** The objects of the desktop host that threads share (src/platform/posix/): its
    bounded queue, its event group and its in-memory UART.

    A call that waits gives up the lock: [meanwhile] is what other threads did to the
    object by the time the call held it again. *)
From stdpp Require Import base decidable list strings gmap.
From Stdlib Require Import ZArith Ascii Lia.
From S2P Require Import Prelude.

(** * The bounded queue of the desktop host (src/platform/posix/posix_queue.h), and
    that it is first in, first out.

    A call that waits gives up the lock: [meanwhile] is what other threads did to the
    object by the time the call held it again. *)
Module HostQueue.

Open Scope Z_scope.

Section Queue.
Context {T : Type}.

Record PosixQueue := MkQueue { max_items_ : nat; queue_ : list T }.

Definition CreateQueue (max_items : nat) : PosixQueue := MkQueue max_items [].

Definition has_room (q : PosixQueue) : bool := (length (queue_ q) <? max_items_ q)%nat.

Definition Send (item : T) (timeout : Z) (meanwhile : PosixQueue → PosixQueue) (q : PosixQueue) : PosixQueue * bool :=
  let q := if (timeout =? 0) || has_room q then q else meanwhile q in
  if has_room q then (MkQueue (max_items_ q) (queue_ q ++ [item]), true) else (q, false).

Definition Receive (timeout : Z) (meanwhile : PosixQueue → PosixQueue) (q : PosixQueue) : PosixQueue * option T :=
  let q := if (timeout =? 0) || negb (bool_decide (length (queue_ q) = 0%nat)) then q else meanwhile q in
  match queue_ q with
  | [] => (q, None)
  | item :: rest => (MkQueue (max_items_ q) rest, Some item)
  end.

Definition Count (q : PosixQueue) : nat := length (queue_ q).
End Queue.
Arguments PosixQueue : clear implicits.

Section QueueFacts.
Context {T : Type}.

(** A wait is over when the lock is held again: from there on it is the call that
    does not wait. *)
Lemma Send_waited item timeout meanwhile (q : PosixQueue T) :
  Send item timeout meanwhile q =
  Send item 0 id (if (timeout =? 0) || has_room q then q else meanwhile q).
Proof. done. Qed.
Lemma Receive_waited timeout meanwhile (q : PosixQueue T) :
  Receive timeout meanwhile q =
  Receive 0 id (if (timeout =? 0) || negb (bool_decide (length (queue_ q) = 0%nat)) then q else meanwhile q).
Proof. done. Qed.

(** What was accepted and what was handed out, of calls by any threads in the order
    they held the lock. *)
Definition queue_step (s : PosixQueue T * list T * list T) (call : option T) : PosixQueue T * list T * list T :=
  let '(q, accepted, handed) := s in
  match call with
  | Some item => let '(q, ok) := Send item 0 id q in (q, if ok then accepted ++ [item] else accepted, handed)
  | None => let '(q, got) := Receive 0 id q in (q, accepted, handed ++ option_list got)
  end.

Definition fifo (max_items : nat) (s : PosixQueue T * list T * list T) : Prop :=
  let '(q, accepted, handed) := s in
  accepted = handed ++ queue_ q ∧ (length (queue_ q) <= max_items)%nat ∧ max_items_ q = max_items.

Lemma queue_step_fifo max_items s call : fifo max_items s → fifo max_items (queue_step s call).
Proof.
  destruct s as [[q a] h]. intros (Ea & Hl & Hm). destruct call as [item|]; cbn.
  - unfold Send, queue_step. change (has_room (if (0 =? 0) || _ then q else _)) with (has_room q).
    destruct (has_room q) eqn:E; [|by split_and!]. apply Nat.ltb_lt in E. cbn.
    rewrite Ea, app_assoc, length_app. cbn. split_and!; [done|lia|done].
  - unfold Receive. cbn. destruct (queue_ q) as [|x l] eqn:E; cbn in *.
    + rewrite E. cbn. rewrite !app_nil_r in *. split_and!; [done|lia|done].
    + rewrite Ea, <- app_assoc. split_and!; [done|lia|done].
Qed.

(** Items come out in the order they went in, each once, and no more wait than the
    queue was made for. *)
Theorem queue_fifo max_items calls :
  fifo max_items (fold_left queue_step calls (CreateQueue max_items, [], [])).
Proof.
  assert (fifo max_items (CreateQueue max_items, [], [])) as H by (split_and!; cbn; [done|lia|done]).
  revert H. generalize (CreateQueue (T:=T) max_items, @nil T, @nil T).
  induction calls as [|call calls IH]; intros s H; [done|]. by apply IH, queue_step_fifo.
Qed.
End QueueFacts.

End HostQueue.

(** * The event group of the desktop host (src/platform/posix/posix_event_group.cpp).

    A call that waits gives up the lock: [meanwhile] is what other threads did to the
    object by the time the call held it again. *)
Module HostEventGroup.

Open Scope Z_scope.

Definition forever (timeout : Z) : bool := (timeout =? -1) || (timeout =? 2 ^ 63 - 1).

(** The predicate of [WaitBits]. *)
Definition satisfied (bits : Z) (wait_all : bool) (group : Z) : bool :=
  if wait_all then Z.land group bits =? bits else negb (Z.land group bits =? 0).

Definition SetBits (bits group : Z) : Z := Z.lor group bits.
Definition ClearBits (bits group : Z) : Z := Z.land group (Z.lnot bits).
Definition GetBits (group : Z) : Z := group.

(** A wait without a limit ends only when it is satisfied: [meanwhile] is what the
    group came to by then. *)
Definition WaitBits (bits : Z) (clear_on_exit wait_all : bool) (timeout : Z) (meanwhile : Z → Z) (group : Z) : Z * Z :=
  let group := if (timeout =? 0) || satisfied bits wait_all group then group else meanwhile group in
  let result := if forever timeout then true else satisfied bits wait_all group in
  (if result && clear_on_exit then ClearBits bits group else group, if result then Z.land group bits else 0).

(** A wait that is not satisfied answers 0 and leaves the group alone; one that is
    answers bits asked for, all of them where all were waited for. *)
Theorem WaitBits_answer bits clear wait_all timeout meanwhile group :
  0 <= bits → forever timeout = false →
  let group' := if (timeout =? 0) || satisfied bits wait_all group then group else meanwhile group in
  let '(after, answer) := WaitBits bits clear wait_all timeout meanwhile group in
  (satisfied bits wait_all group' = false ∧ answer = 0 ∧ after = group') ∨
  (satisfied bits wait_all group' = true ∧ answer = Z.land group' bits ∧
   (wait_all = true → answer = bits) ∧ (clear = true → Z.land after bits = 0)).
Proof.
  intros Hb Hf. cbv zeta. unfold WaitBits. rewrite Hf. set (g := if (timeout =? 0) || _ then group else _).
  destruct (satisfied bits wait_all g) eqn:Es; [right|by left; destruct clear].
  split_and!; [done|done| |].
  - intros ->. cbn in *. unfold satisfied in Es. lia.
  - intros ->. cbn. unfold ClearBits.
    rewrite <- Z.land_assoc, (Z.land_comm (Z.lnot bits)), Z.land_lnot_diag. apply Z.land_0_r.
Qed.

End HostEventGroup.

(** * The in-memory UART of the desktop host (src/platform/posix/posix_uart.cpp).

    A call that waits gives up the lock: [meanwhile] is what other threads did to the
    object by the time the call held it again. *)
Module HostUart.

Open Scope Z_scope.

Record PosixUart := MkUart { baud_rate : Z; rx_buffer_ : bytes; tx_buffer_ : bytes; loopback_ : bool }.

Definition SetBaudRate (baud : Z) (u : PosixUart) : PosixUart := MkUart baud (rx_buffer_ u) (tx_buffer_ u) (loopback_ u).
Definition Send (data : bytes) (u : PosixUart) : PosixUart * Z :=
  (MkUart (baud_rate u) (if loopback_ u then rx_buffer_ u ++ data else rx_buffer_ u) (tx_buffer_ u ++ data) (loopback_ u),
   Z.of_nat (length data)).
Definition Receive (len : nat) (timeout : Z) (meanwhile : PosixUart → PosixUart) (u : PosixUart) : PosixUart * bytes :=
  let u := if bool_decide (rx_buffer_ u = []) && negb (timeout =? 0) then meanwhile u else u in
  (MkUart (baud_rate u) (drop len (rx_buffer_ u)) (tx_buffer_ u) (loopback_ u), take len (rx_buffer_ u)).
Definition SetLoopback (enable : bool) (u : PosixUart) : PosixUart := MkUart (baud_rate u) (rx_buffer_ u) (tx_buffer_ u) enable.
Definition InjectRx (data : bytes) (u : PosixUart) : PosixUart :=
  MkUart (baud_rate u) (rx_buffer_ u ++ data) (tx_buffer_ u) (loopback_ u).
Definition GetTxData (u : PosixUart) : PosixUart * bytes :=
  (MkUart (baud_rate u) (rx_buffer_ u) [] (loopback_ u), tx_buffer_ u).
Definition Flush (u : PosixUart) : PosixUart := MkUart (baud_rate u) [] [] (loopback_ u).

End HostUart.
