(* ===== verification/SerialPort.v ===== *)
(** The serial port of the desktop host (src/platform/posix/posix_serial_uart.cpp),
    as it is built for POSIX. What the operating system answers to [open], [write]
    and [read] is an argument.

    A call that waits gives up the lock: [meanwhile] is what other threads did to the
    object by the time the call held it again. *)
From stdpp Require Import base decidable list strings gmap.
From Stdlib Require Import ZArith Ascii Lia.
From S2P Require Import Prelude.
Open Scope Z_scope.

Definition kReadSliceTimeout : Z := 50.

(** [tty.c_cc[VTIME]], in tenths of a second: how long a read waits for a first byte. *)
Definition VTIME : Z := Z.quot kReadSliceTimeout 100 mod 2 ^ 8.

(** What [::write] returns for a piece, and [::read] for a buffer of 1024. *)
Inductive write_result := Wrote (n : nat) | WriteInterrupted | WriteFailed.
Inductive read_result := Got (data : bytes) | ReadInterrupted | ReadFailed.

(** [line_rate] is the speed the port is set to, and [wire] what went out. *)
Record SerialUart := MkSerial {
  open_ : bool;
  baud_rate : Z;
  line_rate : Z;
  reader_ : bool;
  running_ : bool;
  rx_buffer_ : bytes;
  last_error_ : bytes;
  wire : bytes;
}.

Definition BaudToSpeed (baud : Z) : Z :=
  if bool_decide (baud ∈ [9600; 19200; 38400; 57600; 115200; 230400; 460800; 921600]) then baud else 115200.

Definition new_serial (baud : Z) : SerialUart := MkSerial false baud 0 false false [] [] [].

(** [opened] is what the operating system made of opening and setting up the port:
    an error, or nothing. *)
Definition OpenLocked (opened : option bytes) (u : SerialUart) : SerialUart * bool :=
  match opened with
  | Some e => (MkSerial false (baud_rate u) (line_rate u) (reader_ u) (running_ u) (rx_buffer_ u) e (wire u), false)
  | None => (MkSerial true (baud_rate u) (BaudToSpeed (baud_rate u)) (reader_ u) (running_ u) (rx_buffer_ u) (last_error_ u) (wire u), true)
  end.

Definition Open (opened : option bytes) (u : SerialUart) : SerialUart * bool :=
  if open_ u then (u, true) else
  let '(u, ok) := OpenLocked opened u in
  if negb ok then (u, false)
  else (MkSerial (open_ u) (baud_rate u) (line_rate u) true true (rx_buffer_ u) (last_error_ u) (wire u), true).

(** [set_up] says whether the port could be told. *)
Definition ApplyBaudLocked (set_up : bool) (baud : Z) (u : SerialUart) : SerialUart :=
  if negb (open_ u) || negb set_up then u
  else MkSerial (open_ u) (baud_rate u) (BaudToSpeed baud) (reader_ u) (running_ u) (rx_buffer_ u) (last_error_ u) (wire u).

Definition SetBaudRate (set_up : bool) (baud : Z) (u : SerialUart) : SerialUart :=
  ApplyBaudLocked set_up baud
    (MkSerial (open_ u) baud (line_rate u) (reader_ u) (running_ u) (rx_buffer_ u) (last_error_ u) (wire u)).

Definition put (data : bytes) (u : SerialUart) : SerialUart :=
  MkSerial (open_ u) (baud_rate u) (line_rate u) (reader_ u) (running_ u) (rx_buffer_ u) (last_error_ u) (wire u ++ data).

(** [WriteChunk]: what it returns, and the port after it. A port takes no more than
    it is given. *)
Definition WriteChunk (r : write_result) (data : bytes) (u : SerialUart) : SerialUart * Z :=
  match r with
  | Wrote n => (put (take n data) u, Z.of_nat (Nat.min n (length data)))
  | WriteInterrupted => (u, 0)
  | WriteFailed => (u, -1)
  end.

(** The loop of [Send], by the answers to its writes; it asks for no more of them
    than there are bytes. *)
Fixpoint send_loop (results : list write_result) (data : bytes) (written : Z) (u : SerialUart) : option (SerialUart * Z) :=
  match data, results with
  | [], _ => Some (u, written)
  | _, [] => None
  | _, r :: results =>
      let '(u, n) := WriteChunk r data u in
      if n <=? 0 then Some (u, -1) else send_loop results (drop (Z.to_nat n) data) (written + n) u
  end.

Definition Send (results : list write_result) (data : bytes) (u : SerialUart) : option (SerialUart * Z) :=
  if negb (open_ u) then Some (u, -1) else send_loop results data 0 u.

Definition Receive (len : nat) (timeout : Z) (meanwhile : SerialUart → SerialUart) (u : SerialUart) : SerialUart * bytes :=
  let u := if bool_decide (rx_buffer_ u = []) && (0 <? timeout) && running_ u then meanwhile u else u in
  (MkSerial (open_ u) (baud_rate u) (line_rate u) (reader_ u) (running_ u) (drop len (rx_buffer_ u)) (last_error_ u) (wire u),
   take len (rx_buffer_ u)).

(** [ReadChunk]: a count, or -1, and the bytes. *)
Definition ReadChunk (r : read_result) : Z * bytes :=
  match r with
  | Got data => (Z.of_nat (length data), data)
  | ReadInterrupted => (0, [])
  | ReadFailed => (-1, [])
  end.

(** [ReaderLoop], for as long as it is answered; it stops for good on an error. *)
Fixpoint ReaderLoop (reads : list read_result) (u : SerialUart) : SerialUart :=
  match reads with
  | [] => u
  | r :: reads =>
      if negb (running_ u) then u else
      let '(n, data) := ReadChunk r in
      if n <? 0 then
        MkSerial (open_ u) (baud_rate u) (line_rate u) (reader_ u) false (rx_buffer_ u) (lit "read failed") (wire u)
      else if n =? 0 then ReaderLoop reads u
      else ReaderLoop reads (MkSerial (open_ u) (baud_rate u) (line_rate u) (reader_ u) (running_ u) (rx_buffer_ u ++ data)
                               (last_error_ u) (wire u))
  end.

Definition Flush (u : SerialUart) : SerialUart :=
  MkSerial (open_ u) (baud_rate u) (line_rate u) (reader_ u) (running_ u) [] (last_error_ u) (wire u).

Definition Close (u : SerialUart) : SerialUart :=
  if negb (open_ u) && negb (reader_ u) then u
  else MkSerial false (baud_rate u) (line_rate u) false false (rx_buffer_ u) (last_error_ u) (wire u).

(** [CreateSerialUart]; [None] is a null pointer. *)
Definition CreateSerialUart (opened : option bytes) (baud : Z) : option SerialUart :=
  let '(u, ok) := Open opened (new_serial baud) in if ok then Some u else None.

(** A send that succeeds put exactly its bytes on the line; one that fails put a
    proper prefix of them there. *)
Theorem serial_send_written results data u u' r : Send results data u = Some (u', r) →
  (r = Z.of_nat (length data) ∧ wire u' = wire u ++ data) ∨
  (r = -1 ∧ ∃ k, (k < length data)%nat ∧ wire u' = wire u ++ take k data) ∨ (r = -1 ∧ open_ u = false ∧ u' = u).
Proof.
  unfold Send. destruct (open_ u); cbn [negb]; [|intros [= <- <-]; by right; right].
  assert (∀ written, send_loop results data written u = Some (u', r) →
    (r = written + Z.of_nat (length data) ∧ wire u' = wire u ++ data) ∨
    (r = -1 ∧ ∃ k, (k < length data)%nat ∧ wire u' = wire u ++ take k data)) as Hloop.
  2: { intros H. destruct (Hloop 0 H) as [[-> ->]|H']; [by left|by right; left]. }
  revert data u. induction results as [|x results IH]; intros data u written; (destruct data as [|c data];
    [intros [= <- <-]; left; rewrite app_nil_r; cbn; split; [lia|done]|]); [done|].
  set (d := c :: data). intros H. change (send_loop (x :: results) d written u) with
    (let '(u, n) := WriteChunk x d u in
     if n <=? 0 then Some (u, -1) else send_loop results (drop (Z.to_nat n) d) (written + n) u) in H.
  assert (∀ v, u' = v → wire v = wire u → r = -1 → r = -1 ∧ ∃ k, (k < length d)%nat ∧ wire u' = wire u ++ take k d) as Hnone.
  { intros v -> Ev ->. split; [done|]. exists 0%nat. rewrite Ev, app_nil_r. split; [cbn; lia|done]. }
  destruct x as [n| |]; cbn [WriteChunk] in H; [|injection H as <- <-; right; by apply (Hnone u)..].
  destruct (Z.leb_spec (Z.of_nat (Nat.min n (length d))) 0) as [Hn|Hn].
  { injection H as <- <-. right. assert (n = 0%nat) as -> by (cbn in Hn; lia). apply (Hnone (put (take 0 d) u)); [done| |done].
    cbn. by rewrite app_nil_r. }
  apply IH in H. rewrite Nat2Z.id in H. set (m := Nat.min n (length d)) in *. assert (m <= length d)%nat as Hm by lia.
  assert (take n d = take m d) as Et by (unfold m; destruct (Nat.le_ge_cases n (length d)); [by rewrite Nat.min_l|
    rewrite Nat.min_r, (take_ge d n), (take_ge d (length d)) by done; done]).
  change (wire (put (take n d) u)) with (wire u ++ take n d) in H. rewrite Et in H. rewrite length_drop in H.
  destruct H as [[-> ->]|(-> & k & Hk & ->)].
  - left. rewrite <- app_assoc, take_drop. split; [lia|done].
  - right. split; [done|]. exists (m + k)%nat. split; [lia|]. rewrite <- app_assoc. f_equal. apply take_take_drop.
Qed.

(** A write the system interrupted fails the whole send: [WriteChunk] answers 0 for
    it, which [Send] takes for a failure, with nothing of the rest sent. *)
Lemma serial_interrupted_send_fails :
  let port := (Open None (new_serial 115200)).1 in
  (snd <$> Send [Wrote 2; WriteInterrupted; Wrote 2] (lit "ATE0") port) = Some (-1) ∧
  (snd <$> Send [Wrote 2; Wrote 2] (lit "ATE0") port) = Some 4.
Proof. split; vm_compute; reflexivity. Qed.

(** A rate the port does not know becomes 115200 on the line, while the port goes on
    reporting the rate asked for. *)
Lemma serial_unknown_rate :
  let port := SetBaudRate true 1000000 (Open None (new_serial 9600)).1 in
  baud_rate port = 1000000 ∧ line_rate port = 115200.
Proof. split; vm_compute; reflexivity. Qed.

(** The read timeout of 50 ms is no tenth of a second: a read does not wait at all. *)
Lemma serial_read_does_not_wait : 0 < kReadSliceTimeout ∧ VTIME = 0.
Proof. split; vm_compute; reflexivity. Qed.

(** After a failed read the port is open and nothing reads it any more; opening it
    again succeeds and changes nothing. *)
Lemma serial_read_failure_is_final :
  let port := ReaderLoop [Got (lit "OK"); ReadFailed; Got (lit "READY")] (Open None (new_serial 9600)).1 in
  open_ port = true ∧ running_ port = false ∧ Open None port = (port, true) ∧
  rx_buffer_ port = lit "OK".
Proof. split_and!; vm_compute; reflexivity. Qed.
