(* ===== verification/IdfPlatform.v ===== *)
(** The ESP32's clock, scheduler ticks, event group and UART
    (src/platform/esp_idf/). FreeRTOS's own wait for event bits and ESP-IDF's UART
    driver are arguments. *)
From stdpp Require Import base decidable list strings gmap.
From Stdlib Require Import ZArith Ascii Lia.
From S2P Require Import Prelude HostObjects.
Import HostEventGroup.

Open Scope Z_scope.

Section EspIdf.
(** The tick rate and the longest wait FreeRTOS is configured with. *)
Context (configTICK_RATE_HZ portMAX_DELAY : Z).

Definition ToTicks (ms : Z) : Z :=
  if ms <=? 0 then 0 else Z.max 1 (Z.min (Z.quot (ms * configTICK_RATE_HZ) 1000) (portMAX_DELAY - 1)).

(** [xEventGroupWaitBits]: the group after it, and what it returns. *)
Context (xEventGroupWaitBits : Z → bool → bool → Z → Z → Z * Z).

(** [group] is [None] where the group could not be allocated. *)
Definition WaitBits (bits : Z) (clear_on_exit wait_all : bool) (timeout : Z) (group : option Z) : option Z * Z :=
  match group with
  | None => (None, 0)
  | Some g =>
      let ticks := if (timeout =? 2 ^ 63 - 1) || (timeout =? -1) then portMAX_DELAY else ToTicks timeout in
      let '(g, result) := xEventGroupWaitBits bits clear_on_exit wait_all ticks g in
      (Some g, Z.land (u32 result) bits)
  end.
Definition SetBits (bits : Z) (group : option Z) : option Z := (λ g, Z.lor g bits) <$> group.
Definition ClearBits (bits : Z) (group : option Z) : option Z := (λ g, Z.land g (Z.lnot bits)) <$> group.
Definition GetBits (group : option Z) : Z := default 0 group.
End EspIdf.

(** A wait that is asked for lasts at least a tick, and never becomes the endless one;
    but its ticks are rounded down. *)
Lemma ToTicks_bounds rate longest ms : 0 < rate → 1 < longest → 0 < ms →
  1 <= ToTicks rate longest ms < longest.
Proof. unfold ToTicks. intros. destruct (Z.leb_spec ms 0); lia. Qed.
Lemma ToTicks_rounds_down : ToTicks 100 (2 ^ 32 - 1) 29 = 2.
Proof. reflexivity. Qed.

(** Waiting for two bits and timing out with one of them set: FreeRTOS returns the
    group as it stands, and the wait answers that bit, not 0. *)
Lemma idf_partial_wait :
  let timed_out := λ (_ : Z) (_ _ : bool) (_ g : Z), (g, g) in
  WaitBits 100 (2 ^ 32 - 1) timed_out 3 true true 10 (Some 1) = (Some 1, 1) ∧
  HostEventGroup.WaitBits 3 true true 10 id 1 = (1, 0).
Proof. split; vm_compute; reflexivity. Qed.

(** * The clock *)

(** [esp_timer_get_time], in microseconds, to milliseconds. *)
Definition Now (microseconds : Z) : Z := Z.quot microseconds 1000.

(** How many ticks a sleep asks the scheduler for; none if there is nothing to wait for. *)
Definition Sleep (configTICK_RATE_HZ portMAX_DELAY ms : Z) : option Z :=
  if ms <=? 0 then None
  else Some (Z.max 1 (Z.min (Z.quot (ms * configTICK_RATE_HZ) 1000) (portMAX_DELAY - 1))).

Lemma Sleep_ticks rate longest ms : Sleep rate longest ms = if ms <=? 0 then None else Some (ToTicks rate longest ms).
Proof. unfold Sleep, ToTicks. by destruct (ms <=? 0). Qed.

(** * The ESP32's UART (src/platform/esp_idf/esp_idf_uart.cpp) over ESP-IDF's driver, and the
    configuration it is made from (src/include/esp_modem_link/uart_config.h). The driver
    is an argument: each of its calls is a function on the driver's state, which the
    objects of a program share; [true] is [ESP_OK]. *)

(** * Configuration *)

Inductive UartParity := kNoParity | kEven | kOdd.
Inductive UartStopBits := kOne | kTwo.
Inductive UartFlowControl := kNoFlowControl | kRts | kCts | kRtsCts.
#[export] Instance flow_control_eq : EqDecision UartFlowControl.
Proof. solve_decision. Defined.

Record UartConfig := MkUartConfig {
  device : bytes;
  port : Z;
  tx_pin : Z;
  rx_pin : Z;
  rts_pin : Z;
  cts_pin : Z;
  baud_rate : Z;
  data_bits : Z;
  parity : UartParity;
  stop_bits : UartStopBits;
  flow_control : UartFlowControl;
  rx_buffer_size : Z;
  tx_buffer_size : Z;
}.
Definition default_uart : UartConfig :=
  MkUartConfig [] 1 (-1) (-1) (-1) (-1) 115200 8 kNoParity kOne kNoFlowControl 4096 4096.

Definition with_baud (baud : Z) (c : UartConfig) : UartConfig :=
  MkUartConfig (device c) (port c) (tx_pin c) (rx_pin c) (rts_pin c) (cts_pin c) baud (data_bits c) (parity c)
    (stop_bits c) (flow_control c) (rx_buffer_size c) (tx_buffer_size c).

(** The driver's own enumerations. *)
Inductive uart_word_length_t := UART_DATA_5_BITS | UART_DATA_6_BITS | UART_DATA_7_BITS | UART_DATA_8_BITS.
Inductive uart_parity_t := UART_PARITY_DISABLE | UART_PARITY_EVEN | UART_PARITY_ODD.
Inductive uart_stop_bits_t := UART_STOP_BITS_1 | UART_STOP_BITS_2.
Inductive uart_hw_flowcontrol_t := UART_HW_FLOWCTRL_DISABLE | UART_HW_FLOWCTRL_RTS | UART_HW_FLOWCTRL_CTS | UART_HW_FLOWCTRL_CTS_RTS.

Definition ToDataBits (bits : Z) : uart_word_length_t :=
  if bits =? 5 then UART_DATA_5_BITS else if bits =? 6 then UART_DATA_6_BITS
  else if bits =? 7 then UART_DATA_7_BITS else UART_DATA_8_BITS.
Definition ToParity (p : UartParity) : uart_parity_t :=
  match p with kEven => UART_PARITY_EVEN | kOdd => UART_PARITY_ODD | kNoParity => UART_PARITY_DISABLE end.
Definition ToStopBits (s : UartStopBits) : uart_stop_bits_t :=
  match s with kTwo => UART_STOP_BITS_2 | kOne => UART_STOP_BITS_1 end.
Definition ToFlowControl (f : UartFlowControl) : uart_hw_flowcontrol_t :=
  match f with
  | kRts => UART_HW_FLOWCTRL_RTS
  | kCts => UART_HW_FLOWCTRL_CTS
  | kRtsCts => UART_HW_FLOWCTRL_CTS_RTS
  | kNoFlowControl => UART_HW_FLOWCTRL_DISABLE
  end.

Record uart_config_t := MkDriverConfig {
  uc_baud_rate : Z;
  uc_data_bits : uart_word_length_t;
  uc_parity : uart_parity_t;
  uc_stop_bits : uart_stop_bits_t;
  uc_flow_ctrl : uart_hw_flowcontrol_t;
  uc_rx_flow_ctrl_thresh : Z;
}.

(** ESP-IDF's driver, and the constants of the chip. *)
Class IdfUartDriver (D : Type) := {
  SOC_UART_FIFO_LEN : Z;
  UART_NUM_MAX : Z;
  configTICK_RATE_HZ : Z;
  portMAX_DELAY : Z;
  uart_is_driver_installed : Z → D → bool;
  uart_param_config : Z → uart_config_t → D → D * bool;
  uart_set_pin : Z → Z → Z → Z → Z → D → D * bool;
  uart_driver_install : Z → Z → Z → D → D * bool;
  uart_driver_delete : Z → D → D;
  uart_set_baudrate : Z → Z → D → D;
  uart_get_baudrate : Z → D → option Z;
  uart_write_bytes : Z → bytes → D → D * Z;
  uart_read_bytes : Z → Z → Z → D → D * option bytes;   (* [None] is -1, an error *)
  uart_wait_tx_done : Z → Z → D → D;
  uart_flush_input : Z → D → D;
}.

(** * The UART *)

Section IdfUart.
Context {D : Type} `{IdfUartDriver D}.

Record IdfUart := MkIdfUart { port_ : Z; config_ : UartConfig; installed_ : bool }.

Definition driver_config (c : UartConfig) : uart_config_t :=
  MkDriverConfig (baud_rate c) (ToDataBits (data_bits c)) (ToParity (parity c)) (ToStopBits (stop_bits c))
    (ToFlowControl (flow_control c)) (if decide (flow_control c = kNoFlowControl) then 0 else SOC_UART_FIFO_LEN - 8).

Definition Install (u : IdfUart) (d : D) : IdfUart * D * bool :=
  let c := config_ u in
  if uart_is_driver_installed (port_ u) d then (u, d, false) else
  let '(d, ok) := uart_param_config (port_ u) (driver_config c) d in
  if negb ok then (u, d, false) else
  let '(d, ok) := uart_set_pin (port_ u) (tx_pin c) (rx_pin c) (rts_pin c) (cts_pin c) d in
  if negb ok then (u, d, false) else
  let rx_buffer := Z.max (rx_buffer_size c) (SOC_UART_FIFO_LEN * 2) in
  let '(d, ok) := uart_driver_install (port_ u) rx_buffer (tx_buffer_size c) d in
  if negb ok then (u, d, false) else
  (MkIdfUart (port_ u) c true, d, true).

(** The destructor. *)
Definition destroy (u : IdfUart) (d : D) : D := if installed_ u then uart_driver_delete (port_ u) d else d.

Definition SetBaudRate (baud : Z) (u : IdfUart) (d : D) : IdfUart * D :=
  (MkIdfUart (port_ u) (with_baud baud (config_ u)) (installed_ u),
   if installed_ u then uart_set_baudrate (port_ u) baud d else d).

Definition GetBaudRate (u : IdfUart) (d : D) : Z :=
  match (if installed_ u then uart_get_baudrate (port_ u) d else None) with
  | Some baud => baud
  | None => baud_rate (config_ u)
  end.

Definition Send (data : bytes) (u : IdfUart) (d : D) : D * Z :=
  if negb (installed_ u) then (d, -1) else uart_write_bytes (port_ u) data d.

Definition Receive (len timeout : Z) (u : IdfUart) (d : D) : D * option bytes :=
  if negb (installed_ u) then (d, Some [])
  else uart_read_bytes (port_ u) (u32 len) (ToTicks configTICK_RATE_HZ portMAX_DELAY timeout) d.

(** [pdMS_TO_TICKS(1000)] is [configTICK_RATE_HZ] ticks. *)
Definition Flush (u : IdfUart) (d : D) : D :=
  if negb (installed_ u) then d
  else uart_flush_input (port_ u) (uart_wait_tx_done (port_ u) configTICK_RATE_HZ d).

Definition CreateUart (config : UartConfig) (d : D) : D * option IdfUart :=
  if (port config <? 0) || (UART_NUM_MAX <=? port config) then (d, None) else
  let '(u, d, ok) := Install (MkIdfUart (port config) config false) d in
  if negb ok then (destroy u d, None) else (d, Some u).

(** A UART is made exactly when its port exists, nobody drives it yet and the driver
    takes all three calls - which are told the configuration, with a receive buffer
    the driver accepts - and then it is the one that drives the port. *)
Lemma CreateUart_some config d d' u : CreateUart config d = (d', Some u) ↔
  (0 <= port config < UART_NUM_MAX ∧ uart_is_driver_installed (port config) d = false ∧
   u = MkIdfUart (port config) config true ∧
   ∃ d1 d2, uart_param_config (port config) (driver_config config) d = (d1, true) ∧
     uart_set_pin (port config) (tx_pin config) (rx_pin config) (rts_pin config) (cts_pin config) d1 = (d2, true) ∧
     uart_driver_install (port config) (Z.max (rx_buffer_size config) (SOC_UART_FIFO_LEN * 2)) (tx_buffer_size config) d2
       = (d', true)).
Proof.
  unfold CreateUart, Install, destroy. cbn [port_ config_ installed_].
  destruct (Z.ltb_spec (port config) 0), (Z.leb_spec UART_NUM_MAX (port config)); cbn [orb]; try (split; [done|lia]).
  destruct (uart_is_driver_installed _ d); [split; [done|by intros (_ & ? & _)]|].
  destruct (uart_param_config _ _ d) as [d1 []]; cbn [negb installed_]; [|split; [done|intros (_ & _ & _ & ? & ? & ? & ? & ?); simplify_eq/=; congruence]].
  destruct (uart_set_pin _ _ _ _ _ d1) as [d2 []] eqn:E2; cbn [negb installed_]; [|split; [done|intros (_ & _ & _ & ? & ? & ? & ? & ?); simplify_eq/=; congruence]].
  destruct (uart_driver_install _ _ _ d2) as [d3 []] eqn:E3; cbn [negb installed_]; [|split; [done|intros (_ & _ & _ & ? & ? & ? & ? & ?); simplify_eq/=; congruence]].
  split; [intros [= -> <-]; split_and!; eauto; lia|].
  intros (_ & _ & -> & ? & ? & ? & ? & ?); simplify_eq/=; congruence.
Qed.

(** A UART that was not made leaves another owner's driver alone: nothing is deleted. *)
Lemma CreateUart_other_owner config d :
  uart_is_driver_installed (port config) d = true → CreateUart config d = (d, None).
Proof. intros E. unfold CreateUart, Install. cbn. destruct (_ || _); [done|]. by rewrite E. Qed.

(** A rate set before the port is driven is the one it is opened with. *)
Lemma GetBaudRate_set baud u d : installed_ u = false →
  let '(u, d) := SetBaudRate baud u d in GetBaudRate u d = baud.
Proof. intros E. unfold SetBaudRate, GetBaudRate. cbn. by rewrite E. Qed.
End IdfUart.
