(* ===== verification/IdfTask.v ===== *)
(** The ESP32's task (src/platform/esp_idf/esp_idf_task.cpp): threads that start and stop
    one task object, interleaved at the granularity of the steps they share. Each access
    to [run_] is a step of its own: the member is a plain [shared_ptr] and nothing locks
    it, so what holds is said of executions without a data race on it ([race_free]), and
    [concurrent_stops_hang] is what happens in one that has a race.

    A thread is in its user code, which may call [Start] or [Stop] at any moment -
    the task's own function included - or at a step of a call. A [shared_ptr<Run>]
    is a holder of its [Run]; the [Run] is freed with its last holder. The name, the
    stack size and the priority are constants. *)
From stdpp Require Import base decidable list gmap functions countable.
From Stdlib Require Import ZArith Lia.
From S2P Require Import Prelude.

(** * What the constructor fixes *)

Section Constants.
Context (configMAX_TASK_NAME_LEN configMINIMAL_STACK_SIZE configMAX_PRIORITIES : Z).
Definition kMaxNameLength : Z := configMAX_TASK_NAME_LEN - 1.
Definition task_name (name : bytes) : bytes := take (Z.to_nat kMaxNameLength) name.
Definition task_stack (stack_size : Z) : Z := Z.max stack_size configMINIMAL_STACK_SIZE.
Definition task_priority (priority : Z) : Z := Z.max 1 (Z.min priority (configMAX_PRIORITIES - 1)).
End Constants.

(** * Threads and runs *)

(** The thread of the [k]-th run's function, and any other. *)
Inductive thread := Outside (n : nat) | Task (k : nat).
#[export] Instance thread_eq : EqDecision thread.
Proof. solve_decision. Defined.
#[export] Instance thread_countable : Countable thread.
Proof.
  refine (inj_countable' (λ t, match t with Outside n => inl n | Task k => inr k end)
                         (λ s, match s with inl n => Outside n | inr k => Task k end) _).
  by intros [].
Defined.

(** Who has a reference to a [Run]: the object's [run_], a call in progress, or [Entry]. *)
Inductive holder := TheObject | Local (t : thread) | TheEntry.
#[export] Instance holder_eq : EqDecision holder.
Proof. solve_decision. Defined.
#[export] Instance holder_countable : Countable holder.
Proof.
  refine (inj_countable' (λ h, match h with TheObject => inl false | TheEntry => inl true | Local t => inr t end)
                         (λ s, match s with inl false => TheObject | inl true => TheEntry | inr t => Local t end) _).
  by intros [].
Defined.

Record Run := MkRun { running : bool; done : bool; refs : gset holder }.

(** Where a thread is. [again]: the [Stop] is the one inside a [Start]. *)
Inductive pc :=
  | NotStarted
  | InUser
  | StartCheck
  | StopCopy (again : bool)
  | StopReset (copy : option nat) (again : bool)
  | StopRun (k : nat) (again : bool)
  | Take (k : nat) (again : bool)
  | StopDrop (k : nat) (again : bool)
  | Create
  | Spawn (k : nat)
  | Assign (k : nat)
  | StartDrop (k : nat)
  | MarkEnded
  | Give
  | ResetRun
  | Finished.

Record IdfTask := MkTask { run_ : option nat; runs : gmap nat Run; next_run : nat; at_ : thread → pc }.

Definition new_task : IdfTask :=
  MkTask None ∅ 0 (λ t, match t with Outside _ => InUser | Task _ => NotStarted end).

Definition goto (t : thread) (p : pc) (c : IdfTask) : IdfTask := MkTask (run_ c) (runs c) (next_run c) (<[t := p]> (at_ c)).
Definition set_run (r : option nat) (c : IdfTask) : IdfTask := MkTask r (runs c) (next_run c) (at_ c).
Definition update_run (f : Run → Run) (k : nat) (c : IdfTask) : IdfTask :=
  MkTask (run_ c) (alter f k (runs c)) (next_run c) (at_ c).
Definition set_running (b : bool) : nat → IdfTask → IdfTask := update_run (λ r, MkRun b (done r) (refs r)).
Definition set_done (b : bool) : nat → IdfTask → IdfTask := update_run (λ r, MkRun (running r) b (refs r)).
Definition hold (h : holder) : nat → IdfTask → IdfTask :=
  update_run (λ r, MkRun (running r) (done r) ({[h]} ∪ refs r)).
Definition make_run (h : holder) (c : IdfTask) : IdfTask :=
  MkTask (run_ c) (<[next_run c := MkRun true false {[h]}]> (runs c)) (S (next_run c)) (at_ c).
Definition release (h : holder) (k : nat) (c : IdfTask) : IdfTask :=
  MkTask (run_ c) (partial_alter (λ r, r ≫= λ r,
    let left := refs r ∖ {[h]} in if decide (left = ∅) then None else Some (MkRun (running r) (done r) left)) k (runs c))
    (next_run c) (at_ c).

(** * Steps *)

(** What is open at a step: which call the user makes, and whether the kernel has
    the memory it is asked for. *)
Inductive choice := CallStart | CallStop | Return | Go | OutOfMemory.
#[export] Instance choice_eq : EqDecision choice.
Proof. solve_decision. Defined.

Definition after_stop (again : bool) : pc := if again then Create else InUser.

(** The next step of thread [t]; [None] where it cannot go on. *)
Definition step (t : thread) (ch : choice) (c : IdfTask) : option IdfTask :=
  match at_ c t with
  | NotStarted | Finished => None
  | InUser =>
      match ch, t with
      | CallStart, _ => Some (goto t StartCheck c)
      | CallStop, _ => Some (goto t (StopCopy false) c)
      | Return, Task _ => Some (goto t MarkEnded c)
      | _, _ => None
      end
  | StartCheck => Some (goto t (if run_ c is Some _ then StopCopy true else Create) c)
  | StopCopy again =>
      Some (goto t (StopReset (run_ c) again) (match run_ c with Some k => hold (Local t) k c | None => c end))
  | StopReset copy again =>
      let c' := match run_ c with Some old => release TheObject old c | None => c end in
      Some (goto t (match copy with Some k => StopRun k again | None => after_stop again end) (set_run None c'))
  | StopRun k again =>
      if decide (t = Task k) then Some (goto t (StopDrop k again) (set_running false k c))
      else Some (goto t (Take k again) c)
  | Take k again =>
      match runs c !! k with
      | Some r => if done r then Some (goto t (StopDrop k again) (set_done false k c)) else None
      | None => None
      end
  | StopDrop k again => Some (goto t (after_stop again) (release (Local t) k c))
  | Create =>
      if decide (ch = OutOfMemory) then Some (goto t InUser c)
      else Some (goto t (Spawn (next_run c)) (make_run (Local t) c))
  | Spawn k =>
      if decide (ch = OutOfMemory) then Some (goto t (StartDrop k) c)
      else Some (goto t (Assign k) (goto (Task k) InUser (hold TheEntry k c)))
  | Assign k =>
      let c' := match run_ c with Some old => release TheObject old c | None => c end in
      Some (goto t InUser (set_run (Some k) (release (Local t) k (hold TheObject k c'))))
  | StartDrop k => Some (goto t InUser (release (Local t) k c))
  | MarkEnded => match t with Task k => Some (goto t Give (set_running false k c)) | _ => None end
  | Give => match t with Task k => Some (goto t ResetRun (set_done true k c)) | _ => None end
  | ResetRun => match t with Task k => Some (goto t Finished (release TheEntry k c)) | _ => None end
  end.

Definition IsRunning (c : IdfTask) : bool :=
  match run_ c ≫= (runs c !!.) with Some r => running r | None => false end.

(** What a thread's next step does to [run_]. *)
Inductive access := ReadAccess | WriteAccess.
Definition next_access (p : pc) : option access :=
  match p with
  | StartCheck | StopCopy _ => Some ReadAccess
  | StopReset _ _ | Assign _ => Some WriteAccess
  | _ => None
  end.
Definition conflict (a b : option access) : bool :=
  match a, b with
  | Some WriteAccess, Some _ | Some _, Some WriteAccess => true
  | _, _ => false
  end.

(** No two threads are about to access [run_], one of them to write it: what the
    language asks of a program, and the callers of the object have to see to. *)
Definition race_free (c : IdfTask) : Prop :=
  ∀ t t', t ≠ t' → conflict (next_access (at_ c t)) (next_access (at_ c t')) = false.

(** The states of the executions without a data race. *)
Inductive reachable : IdfTask → Prop :=
  | reachable_new : reachable new_task
  | reachable_step t ch c c' : reachable c → step t ch c = Some c' → race_free c' → reachable c'.

(** A schedule, run. *)
Definition run_schedule (s : list (thread * choice)) : IdfTask → option IdfTask :=
  λ c, foldl (λ c tc, c ≫= step tc.1 tc.2) (Some c) s.

(** * Who holds what *)

(** The run a thread's call refers to. *)
Definition local_run (p : pc) : option nat :=
  match p with
  | StopReset (Some k) _ | StopRun k _ | Take k _ | StopDrop k _ | Spawn k | Assign k | StartDrop k => Some k
  | _ => None
  end.
(** The run a thread's call is starting or stopping. *)
Definition owned_run (p : pc) : option nat :=
  match p with StopRun k _ | Take k _ | Spawn k | Assign k => Some k | _ => None end.
Definition alive (p : pc) : bool := match p with NotStarted | Finished => false | _ => true end.
(** The function has returned, and the semaphore has been given. *)
Definition gave (p : pc) : bool := match p with ResetRun | Finished => true | _ => false end.
Definition ending (p : pc) : bool := match p with MarkEnded | Give | ResetRun => true | _ => false end.

Definition holds (c : IdfTask) (h : holder) (k : nat) : Prop :=
  match h with
  | TheObject => run_ c = Some k
  | Local t => local_run (at_ c t) = Some k
  | TheEntry => alive (at_ c (Task k)) = true
  end.
(** Whoever will wait for the run's function, or may yet come to. *)
Definition owns (c : IdfTask) (h : holder) (k : nat) : Prop :=
  match h with
  | TheObject => run_ c = Some k
  | Local t => owned_run (at_ c t) = Some k
  | TheEntry => False
  end.
Definition recorded (c : IdfTask) (h : holder) (k : nat) : Prop := ∃ r, runs c !! k = Some r ∧ h ∈ refs r.

Record invariant (c : IdfTask) : Prop := {
  (* the references are exactly those held, and a run without any is freed *)
  inv_refs : ∀ h k, recorded c h k ↔ holds c h k;
  inv_freed : ∀ k r, runs c !! k = Some r → refs r ≠ ∅;
  (* runs to come *)
  inv_fresh : ∀ k, (next_run c ≤ k)%nat → at_ c (Task k) = NotStarted;
  inv_made : ∀ h k, holds c h k → (k < next_run c)%nat;
  (* one owner *)
  inv_owner : ∀ h h' k, owns c h k → owns c h' k → h = h';
  inv_spawn : ∀ t k, at_ c t = Spawn k → at_ c (Task k) = NotStarted;
  inv_take : ∀ t k again, at_ c t = Take k again → t ≠ Task k;
  (* a copy that is about to be reset is of what is there *)
  inv_copy : ∀ t o again, at_ c t = StopReset o again → run_ c = o;
  inv_race : race_free c;
  (* the semaphore *)
  inv_given : ∀ k r, runs c !! k = Some r → done r = true → gave (at_ c (Task k)) = true;
  inv_token : ∀ h k r, runs c !! k = Some r → owns c h k → gave (at_ c (Task k)) = true → done r = true;
  inv_outside : ∀ n, alive (at_ c (Outside n)) = true ∧ ending (at_ c (Outside n)) = false;
}.

(** * The invariant *)

Lemma fn_at {A B} `{EqDecision A} (f : A → B) a b x : <[a := b]> f x = if decide (x = a) then b else f x.
Proof. case_decide; subst; [apply fn_lookup_insert|by apply fn_lookup_insert_ne]. Qed.

Lemma recorded_hold c h k h' k' : is_Some (runs c !! k) →
  recorded (hold h k c) h' k' ↔ recorded c h' k' ∨ h' = h ∧ k' = k.
Proof.
  intros [r Hr]. unfold recorded, hold, update_run. cbn. destruct (decide (k' = k)) as [->|Hn].
  - rewrite lookup_alter_eq, Hr. cbn. split.
    + intros (? & [= <-] & Hin). cbn in Hin. apply elem_of_union in Hin as [->%elem_of_singleton|]; [by right|left; eauto].
    + intros [(? & [= <-] & ?)|[-> _]]; eexists; (split; [done|]); cbn; set_solver.
  - rewrite lookup_alter_ne by done. naive_solver.
Qed.

Lemma recorded_release c h k h' k' :
  recorded (release h k c) h' k' ↔ recorded c h' k' ∧ ¬ (h' = h ∧ k' = k).
Proof.
  unfold recorded, release. cbn. destruct (decide (k' = k)) as [->|Hn].
  - rewrite lookup_partial_alter_eq. destruct (runs c !! k) as [r|]; cbn; [|naive_solver].
    case_decide as Hd; cbn.
    + split; [by intros (? & ? & _)|]. intros [(? & [= <-] & ?) Hn]. exfalso. apply Hn. split; [set_solver|done].
    + split.
      * intros (? & [= <-] & Hin). cbn in Hin. split; [exists r|]; set_solver.
      * intros [(? & [= <-] & ?) Hn]. eexists. split; [done|]. cbn. set_solver.
  - rewrite lookup_partial_alter_ne by done. naive_solver.
Qed.

Lemma recorded_set_running b c k h' k' : recorded (set_running b k c) h' k' ↔ recorded c h' k'.
Proof.
  unfold recorded, set_running, update_run. cbn. destruct (decide (k' = k)) as [->|Hn]; [|by rewrite lookup_alter_ne].
  rewrite lookup_alter_eq. destruct (runs c !! k); cbn; naive_solver.
Qed.
Lemma recorded_set_done b c k h' k' : recorded (set_done b k c) h' k' ↔ recorded c h' k'.
Proof.
  unfold recorded, set_done, update_run. cbn. destruct (decide (k' = k)) as [->|Hn]; [|by rewrite lookup_alter_ne].
  rewrite lookup_alter_eq. destruct (runs c !! k); cbn; naive_solver.
Qed.
Lemma recorded_make_run h c h' k' : runs c !! next_run c = None →
  recorded (make_run h c) h' k' ↔ recorded c h' k' ∨ h' = h ∧ k' = next_run c.
Proof.
  intros Hn. unfold recorded, make_run. cbn. destruct (decide (k' = next_run c)) as [->|Hk].
  - rewrite lookup_insert_eq, Hn. split.
    + intros (? & [= <-] & Hin). cbn in Hin. apply elem_of_singleton in Hin as ->. by right.
    + intros [(? & ? & _)|[-> _]]; [done|]. eexists. split; [done|]. cbn. set_solver.
  - rewrite lookup_insert_ne by done. naive_solver.
Qed.
Lemma recorded_goto c t p h k : recorded (goto t p c) h k ↔ recorded c h k.
Proof. done. Qed.
Lemma recorded_set_run c o h k : recorded (set_run o c) h k ↔ recorded c h k.
Proof. done. Qed.

(** A step, by where its thread is. *)
Ltac step_cases :=
  match goal with
  | Hs : step ?t ?ch ?c = Some ?c' |- _ =>
      unfold step in Hs; destruct (at_ c t) as [| | |again|copy again|? again|? again|? again| | | | | | | |] eqn:Ep;
        try destruct again; try destruct copy; repeat case_match; simplify_eq
  end.

Lemma holds_run c h k : invariant c → holds c h k → is_Some (runs c !! k).
Proof. intros Hi Hh. apply (inv_refs c Hi) in Hh as (r & Hr & _). eauto. Qed.

Lemma next_free c : invariant c → runs c !! next_run c = None.
Proof.
  intros Hi. destruct (runs c !! next_run c) as [r|] eqn:Er; [|done]. exfalso.
  destruct (set_choose_L (refs r)) as [h Hh]; [by apply (inv_freed c Hi (next_run c))|].
  assert (holds c h (next_run c)) as Hl%(inv_made c Hi) by (apply (inv_refs c Hi); by exists r). lia.
Qed.

Lemma recorded_run c h k : recorded c h k → is_Some (runs c !! k).
Proof. intros (r & Hr & _). eauto. Qed.

Lemma step_refs t ch c c' : invariant c → step t ch c = Some c' → ∀ h k, recorded c' h k ↔ holds c' h k.
Proof.
  intros Hi Hs h k. pose proof (inv_refs c Hi) as Hr. pose proof (next_free c Hi) as Hf1. pose proof (inv_fresh c Hi (next_run c) (Nat.le_refl _)) as Hf2.
  assert (∀ k0, run_ c = Some k0 → is_Some (runs c !! k0)) as Hh1 by (intros k0; apply (holds_run c TheObject k0 Hi)).
  assert (∀ k0, local_run (at_ c t) = Some k0 → is_Some (runs c !! k0)) as Hh2 by (intros k0; apply (holds_run c (Local t) k0 Hi)).
  assert (∀ k0 n, local_run (at_ c t) = Some k0 → is_Some (runs (release TheObject n c) !! k0)) as Hh3.
  { intros k0 n E. apply (recorded_run _ (Local t)). apply recorded_release. split; [by apply Hr|naive_solver]. }
  pose proof (inv_spawn c Hi t) as Hsp. clear Hi.
  step_cases; rewrite ?Ep in Hh2, Hh3; cbn [local_run] in Hh2, Hh3;
  rewrite ?recorded_goto, ?recorded_set_run, ?recorded_release, ?recorded_set_running, ?recorded_set_done, ?recorded_make_run,
    ?recorded_hold, ?recorded_release, ?Hr by auto; clear Hr Hh1 Hh2 Hh3.
  all: try (destruct h as [|t'|]; cbn; rewrite ?fn_at; repeat case_decide; simplify_eq/=; rewrite ?Ep, ?Hsp by done; naive_solver).
Qed.

(** The runs after an operation are those before it, or fewer. *)
Definition kept (c c' : IdfTask) : Prop :=
  ∀ k r', runs c' !! k = Some r' → ∃ r, runs c !! k = Some r ∧ done r' = done r.
Definition no_orphan (c : IdfTask) : Prop := ∀ k r, runs c !! k = Some r → refs r ≠ ∅.

Lemma kept_refl c : kept c c.
Proof. unfold kept. eauto. Qed.
Lemma kept_trans c1 c2 c3 : kept c1 c2 → kept c2 c3 → kept c1 c3.
Proof. intros H1 H2 k r3 E3. destruct (H2 k r3 E3) as (r2 & E2 & ->). by apply H1. Qed.
Lemma kept_update f k c : (∀ r, done (f r) = done r) → kept c (update_run f k c).
Proof.
  intros Hf k' r' E. cbn in E. apply lookup_alter_Some in E as [(-> & r & E & ->)|[_ E]]; eauto.
Qed.
Lemma kept_release h k c : kept c (release h k c).
Proof.
  intros k' r' E. cbn in E. destruct (decide (k' = k)) as [->|Hn].
  - rewrite lookup_partial_alter_eq in E. destruct (runs c !! k) as [r|]; [|done]. cbn in E. case_decide; naive_solver.
  - rewrite lookup_partial_alter_ne in E by done. eauto.
Qed.
Lemma orphan_update f k c : (∀ r, refs r ≠ ∅ → refs (f r) ≠ ∅) → no_orphan c → no_orphan (update_run f k c).
Proof.
  intros Hf Hc k' r' E. cbn in E. apply lookup_alter_Some in E as [(-> & r & E & ->)|[_ E]]; eauto.
Qed.
Lemma orphan_release h k c : no_orphan c → no_orphan (release h k c).
Proof.
  intros Hc k' r' E. cbn in E. destruct (decide (k' = k)) as [->|Hn].
  - rewrite lookup_partial_alter_eq in E. destruct (runs c !! k) as [r|]; [|done]. cbn in E. case_decide; naive_solver.
  - rewrite lookup_partial_alter_ne in E by done. eauto.
Qed.
Lemma orphan_make_run h c : no_orphan c → no_orphan (make_run h c).
Proof. intros Hc k r. cbn. rewrite lookup_insert_Some. intros [[_ <-]|[_ E]]; cbn; [set_solver|eauto]. Qed.

Lemma step_freed t ch c c' : invariant c → step t ch c = Some c' → no_orphan c'.
Proof.
  intros Hi Hs. pose proof (inv_freed c Hi : no_orphan c) as Hr. clear Hi.
  assert (∀ o c, no_orphan c → no_orphan (set_run o c)) as H1 by done.
  assert (∀ t p c, no_orphan c → no_orphan (goto t p c)) as H2 by done.
  assert (∀ h k c, no_orphan c → no_orphan (hold h k c)) as H3 by (intros; apply orphan_update; [cbn; set_solver|done]).
  assert (∀ b k c, no_orphan c → no_orphan (set_running b k c)) as H4 by (intros; by apply orphan_update).
  assert (∀ b k c, no_orphan c → no_orphan (set_done b k c)) as H5 by (intros; by apply orphan_update).
  step_cases; auto 7 using orphan_release, orphan_make_run.
Qed.

(** Facts on where the threads are: by the step, and whether a thread is the one that
    makes it. *)
Ltac by_place :=
  step_cases; cbn in *; rewrite ?fn_at in *; repeat case_decide; simplify_eq/=.

Lemma step_next t ch c c' : step t ch c = Some c' → (next_run c ≤ next_run c')%nat.
Proof. intros Hs. step_cases; cbn; lia. Qed.

Lemma step_fresh t ch c c' : invariant c → step t ch c = Some c' →
  ∀ k, (next_run c' ≤ k)%nat → at_ c' (Task k) = NotStarted.
Proof.
  intros Hi Hs k Hk. pose proof (step_next _ _ _ _ Hs) as Hn. pose proof (inv_fresh c Hi k ltac:(lia)) as E.
  pose proof (λ k, inv_made c Hi (Local t) k) as Hm. cbn in Hm. clear Hi.
  by_place; try done; try congruence. specialize (Hm _ eq_refl). lia.
Qed.

Lemma step_made t ch c c' : invariant c → step t ch c = Some c' → ∀ h k, holds c' h k → (k < next_run c')%nat.
Proof.
  intros Hi Hs h k Hh. pose proof (step_next _ _ _ _ Hs) as Hn. pose proof (inv_made c Hi) as Hm.
  pose proof (Hm TheObject) as H1. pose proof (Hm (Local t)) as H2. specialize (Hm h k). clear Hi. cbn in H1, H2.
  destruct h as [|t'|]; cbn in *; by_place; rewrite ?Ep in *; cbn in *; try done; try lia; eauto using Nat.lt_lt_succ_r.
Qed.

Lemma copy_here c t : invariant c → match at_ c t with StopReset o _ => run_ c = o | _ => True end.
Proof. intros Hi. destruct (at_ c t) eqn:Ep; try done. by apply (inv_copy c Hi t _ again). Qed.

Lemma step_owner t ch c c' : invariant c → step t ch c = Some c' →
  ∀ h h' k, owns c' h k → owns c' h' k → h = h'.
Proof.
  intros Hi Hs h h' k Ho Ho'. pose proof (inv_owner c Hi) as Hw. pose proof (inv_made c Hi) as Hm.
  assert (∀ h, owns c h (next_run c) → False) as Hnew.
  { intros [|t0|] E; cbn in E; [apply (Hm TheObject) in E; lia| |done].
    destruct (at_ c t0) eqn:E0; cbn in E; simplify_eq; pose proof (Hm (Local t0) (next_run c)) as H1; cbn in H1; rewrite E0 in H1;
      specialize (H1 (f_equal Some (eq_refl _))); lia. }
  pose proof (Hw TheObject) as H1. pose proof (Hw (Local t)) as H2. pose proof (Hnew h) as H3. pose proof (Hnew h') as H4.
  pose proof (H1 h k) as H5. pose proof (H1 h' k) as H6. pose proof (H2 h k) as H7. pose proof (H2 h' k) as H8.
  specialize (Hw h h' k). pose proof (copy_here c t Hi) as Hc. clear Hi Hm Hnew H1 H2.
  destruct h as [|t1|], h' as [|t2|]; cbn in *; try done; by_place; rewrite ?Ep in *; cbn in *; simplify_eq/=; try done; eauto; naive_solver.
Qed.

Lemma step_spawn t ch c c' : invariant c → step t ch c = Some c' →
  ∀ t' k, at_ c' t' = Spawn k → at_ c' (Task k) = NotStarted.
Proof.
  intros Hi Hs t' k E. pose proof (inv_spawn c Hi t' k) as Hsp. pose proof (inv_fresh c Hi (next_run c) ltac:(lia)) as Hf.
  assert (at_ c t' = Spawn k → owned_run (at_ c t) = Some k → t' = t) as Hw.
  { intros E1 E2. pose proof (inv_owner c Hi (Local t') (Local t) k) as Hw. cbn in Hw. rewrite E1 in Hw. naive_solver. }
  clear Hi. by_place; rewrite ?Ep in *; cbn in *; try done; eauto; naive_solver.
Qed.

Lemma step_take t ch c c' : invariant c → step t ch c = Some c' →
  ∀ t' k again, at_ c' t' = Take k again → t' ≠ Task k.
Proof.
  intros Hi Hs t' k b E. pose proof (inv_take c Hi t' k b) as Ht. clear Hi.
  by_place; rewrite ?Ep in *; cbn in *; try done; eauto; congruence.
Qed.

Lemma step_outside t ch c c' : invariant c → step t ch c = Some c' →
  ∀ n, alive (at_ c' (Outside n)) = true ∧ ending (at_ c' (Outside n)) = false.
Proof.
  intros Hi Hs n. pose proof (inv_outside c Hi n) as Ho. clear Hi.
  by_place; rewrite ?Ep in *; cbn in *; try done; eauto.
Qed.

(** What a step does to a semaphore. *)
Lemma step_done t ch c c' k r' : step t ch c = Some c' → runs c' !! k = Some r' →
  (∃ r, runs c !! k = Some r ∧ done r' = done r ∧ (∀ again, at_ c t ≠ Take k again) ∧ ¬ (t = Task k ∧ at_ c t = Give)) ∨
  done r' = false ∧ ((∃ again, at_ c t = Take k again) ∨ at_ c t = Create ∧ k = next_run c) ∨
  done r' = true ∧ t = Task k ∧ at_ c t = Give.
Proof.
  intros Hs Er.
  assert (kept c c' → (∀ again, at_ c t ≠ Take k again) → ¬ (t = Task k ∧ at_ c t = Give) →
    ∃ r, runs c !! k = Some r ∧ done r' = done r ∧ (∀ again, at_ c t ≠ Take k again) ∧ ¬ (t = Task k ∧ at_ c t = Give)) as Hl.
  { intros Hk H1 H2. destruct (Hk k r' Er) as (r & ? & ?). eauto. }
  assert (∀ t p c1, kept c c1 → kept c (goto t p c1)) as H1 by done.
  assert (∀ o c1, kept c c1 → kept c (set_run o c1)) as H2 by done.
  assert (∀ h k c1, kept c c1 → kept c (hold h k c1)) as H3 by (intros; eapply kept_trans; [done|by apply kept_update]).
  assert (∀ b k c1, kept c c1 → kept c (set_running b k c1)) as H4 by (intros; eapply kept_trans; [done|by apply kept_update]).
  assert (∀ h k c1, kept c c1 → kept c (release h k c1)) as H5 by (intros; eapply kept_trans; [done|by apply kept_release]).
  step_cases; try (left; apply Hl; [by auto 7 using kept_refl|congruence|naive_solver]); clear Hl H1 H2 H3 H4 H5.
  3: { cbn in Er. apply lookup_insert_Some in Er as [[<- <-]|[Hn E1]]; [right; left; auto|].
       left; exists r'; split_and!; [done|done|congruence|intros [??]; congruence]. }
  all: cbn in Er; apply lookup_alter_Some in Er as [(-> & r1 & E1 & ->)|[Hn E1]]; [cbn; eauto 7|].
  all: left; exists r'; split_and!; [done|done|congruence|intros [??]; congruence].
Qed.

(** What has been given stays given: a run's number is not used again. *)
Lemma gave_kept t ch c c' k : step t ch c = Some c' → (at_ c t = Spawn k → at_ c (Task k) = NotStarted) →
  gave (at_ c (Task k)) = true → gave (at_ c' (Task k)) = true.
Proof.
  intros Hs Hsp Hg. by_place; rewrite ?Ep in *; cbn in *; try done. by rewrite Hsp in Hg.
Qed.

Lemma step_given t ch c c' : invariant c → step t ch c = Some c' →
  ∀ k r, runs c' !! k = Some r → done r = true → gave (at_ c' (Task k)) = true.
Proof.
  intros Hi Hs k r' Er Ed.
  destruct (step_done _ _ _ _ _ _ Hs Er) as [(r & E & Ed' & Ht & Hn)|[(E & _)|(_ & -> & E)]]; [|congruence|].
  - eapply gave_kept; [done|apply (inv_spawn c Hi)|]. eapply (inv_given c Hi); [done|congruence].
  - unfold step in Hs. rewrite E in Hs. simplify_eq/=. by rewrite fn_at, decide_True.
Qed.

Lemma owner_before t ch c c' h k : invariant c → step t ch c = Some c' → owns c' h k →
  (∃ h0, owns c h0 k) ∨ at_ c t = Create ∧ k = next_run c.
Proof.
  intros Hi Hs Ho. assert (∀ t0, owned_run (at_ c t0) = Some k → ∃ h0, owns c h0 k) as H1 by (intros t0; by exists (Local t0)).
  assert (run_ c = Some k → ∃ h0, owns c h0 k) as H2 by (by exists TheObject). pose proof (H1 t) as H3.
  pose proof (copy_here c t Hi) as Hc.
  destruct h as [|t'|]; cbn [owns] in Ho; [| |done]; clear - Hs Ho H1 H2 H3 Hc.
  - step_cases; rewrite ?Ep in *; cbn in *; naive_solver.
  - specialize (H1 t'). by_place; rewrite ?Ep in *; cbn in *; try done; auto.
Qed.

Lemma gave_before t ch c c' k : step t ch c = Some c' → gave (at_ c' (Task k)) = true →
  gave (at_ c (Task k)) = true ∨ t = Task k ∧ at_ c t = Give.
Proof. intros Hs Hg. by_place; rewrite ?Ep in *; cbn in *; try done; auto. Qed.

(** A call that has waited for a run is done with it, and nobody else was to. *)
Lemma take_ends t ch c c' h k b : invariant c → step t ch c = Some c' → at_ c t = Take k b → ¬ owns c' h k.
Proof.
  intros Hi Hs Ep Ho. pose proof (inv_owner c Hi (Local t) h k) as Hw. clear Hi. unfold step in Hs. rewrite Ep in Hs.
  cbn in Hw. rewrite Ep in Hw. repeat case_match; simplify_eq/=.
  destruct h as [|t'|]; cbn in *; [by specialize (Hw eq_refl Ho)| |done].
  rewrite fn_at in Ho. case_decide; [done|]. by specialize (Hw eq_refl Ho) as [= ->].
Qed.

Lemma step_token t ch c c' : invariant c → step t ch c = Some c' →
  ∀ h k r, runs c' !! k = Some r → owns c' h k → gave (at_ c' (Task k)) = true → done r = true.
Proof.
  intros Hi Hs h k r' Er Ho Hg. pose proof (inv_fresh c Hi (next_run c) ltac:(lia)) as Hf.
  destruct (step_done _ _ _ _ _ _ Hs Er) as [(r & E & -> & Ht & Hn)|[(_ & [[b E]|[E ->]])|[-> _]]]; [| | |done].
  - destruct (gave_before _ _ _ _ _ Hs Hg) as [Hg0|]; [|tauto].
    destruct (owner_before _ _ _ _ _ _ Hi Hs Ho) as [[h0 Ho0]|[_ ->]]; [by eapply (inv_token c Hi)|by rewrite Hf in Hg0].
  - by destruct (take_ends t ch c c' h k b).
  - destruct (gave_before _ _ _ _ _ Hs Hg) as [Hg0|[-> ?]]; [by rewrite Hf in Hg0|congruence].
Qed.

Lemma invariant_new : invariant new_task.
Proof.
  split; cbn; try done.
  - intros [|[n|j]|] k; cbn; split; try done; by intros (? & ? & _).
  - by intros [|[n|j]|] k.
  - by intros [|[n|j]|] h' k.
  - by intros [n|j] k.
  - by intros [n|j] o again.
  - by intros [n|j] [n'|j'] _.
Qed.

Lemma step_copy t ch c c' : invariant c → step t ch c = Some c' →
  ∀ t' o again, at_ c' t' = StopReset o again → run_ c' = o.
Proof.
  intros Hi Hs t' o b E. pose proof (inv_copy c Hi t' o b) as Ho. pose proof (inv_race c Hi t t') as Hr. clear Hi.
  by_place; rewrite ?Ep in *; cbn in *; try done; eauto; specialize (Hr ltac:(congruence)); rewrite E in Hr; done.
Qed.

Lemma invariant_step t ch c c' : invariant c → step t ch c = Some c' → race_free c' → invariant c'.
Proof.
  intros Hi Hs Hr. split;
  eauto using step_refs, step_freed, step_fresh, step_made, step_owner, step_spawn, step_take, step_copy, step_given, step_token, step_outside.
  by apply (step_freed t ch c).
Qed.

Lemma reachable_invariant c : reachable c → invariant c.
Proof. induction 1; eauto using invariant_new, invariant_step. Qed.

(** * Stopping *)

(** In the middle of a call, or of the end of a task. *)
Definition calling (p : pc) : bool := match p with NotStarted | InUser | Finished => false | _ => true end.

(** C12: stopping the ESP32's task. Let [Start] and [Stop] be called by any threads, the
    task's function included, and their steps interleave in any way that is no data
    race on [run_]: no two threads are about to access it with one of them to write
    it. (The object has no lock: keeping its calls apart is the callers' part, and
    [concurrent_stops_hang] shows what a race does.) Then a call is held up exactly
    while it is a [Stop] that another thread than the task's makes and the task's
    function has not returned; so a [Stop] neither comes back early nor waits for
    ever on a function that returned, and the task's own never waits. And a [Run] is there as long as somebody refers to it, and no longer: none
    is used after it was freed, and none is leaked. *)
Theorem Stop_joins c t : reachable c →
  (calling (at_ c t) = true →
   (step t Go c = None ↔ ∃ k again, at_ c t = Take k again ∧ t ≠ Task k ∧ gave (at_ c (Task k)) = false)) ∧
  (∀ k, is_Some (runs c !! k) ↔ ∃ h, holds c h k).
Proof.
  intros Hc%reachable_invariant. split.
  - intros Hcall. destruct (at_ c t) as [| | |again|copy again|k again|k again|k again| | | | | | | |] eqn:Ep; try done.
    5: { pose proof (inv_take c Hc t k again Ep) as Hne.
         destruct (holds_run c (Local t) k Hc) as [r Hr]; [cbn; by rewrite Ep|].
         assert (done r = gave (at_ c (Task k))) as Ed.
         { apply Bool.eq_true_iff_eq. split; [by apply (inv_given c Hc)|].
           apply (inv_token c Hc (Local t) k r Hr). cbn. by rewrite Ep. }
         unfold step. rewrite Ep, Hr, Ed. destruct (gave _) eqn:Eg; split; try done; [|by eauto].
         intros (k' & a' & [= <- <-] & _ & E). congruence. }
    all: split; [|by intros (? & ? & ? & _)]; unfold step; rewrite Ep; repeat case_match; try done.
    all: destruct (inv_outside c Hc n) as [_ H1]; rewrite Ep in H1; done.
  - intros k. split.
    + intros [r Hr]. destruct (set_choose_L (refs r)) as [h Hh]; [by apply (inv_freed c Hc k)|].
      exists h. apply (inv_refs c Hc). by exists r.
    + intros [h Hh]. by eapply holds_run.
Qed.

(** * Witness, and what differs from the desktop host *)

Definition calls (t : thread) (ch : choice) (steps : nat) : list (thread * choice) := (t, ch) :: replicate steps (t, Go).
Definition after (s : list (thread * choice)) : IdfTask := default new_task (run_schedule s new_task).

(** One thread makes every call: the others are in their own code, or ending. *)
Definition lone (t0 : thread) (c : IdfTask) : Prop :=
  ∀ t, t ≠ t0 → next_access (at_ c t) = None ∧ calling (at_ c t) = ending (at_ c t).

Lemma lone_race_free t0 c : lone t0 c → race_free c.
Proof.
  intros Hl t t' Hne. destruct (decide (t = t0)) as [->|Ht].
  - destruct (Hl t') as [-> _]; [done|]. by destruct (next_access _) as [[]|].
  - by destruct (Hl t Ht) as [-> _].
Qed.

Lemma lone_step t0 t ch c c' : t = t0 ∨ ch ≠ CallStart ∧ ch ≠ CallStop → lone t0 c → step t ch c = Some c' → lone t0 c'.
Proof.
  intros Hc Hl Hs t' Ht'. specialize (Hl t' Ht') as [H1 H2]. by_place; rewrite ?Ep in *; cbn in *; try done; tauto.
Qed.

Lemma lone_reachable t0 s c c' : Forall (λ tc, tc.1 = t0 ∨ tc.2 ≠ CallStart ∧ tc.2 ≠ CallStop) s →
  reachable c → lone t0 c → run_schedule s c = Some c' → reachable c'.
Proof.
  unfold run_schedule. intros Hs. revert c. induction Hs as [|[t ch] s Ht _ IH]; intros c Hc Hl E; cbn in E; [by simplify_eq|].
  destruct (step t ch c) as [c1|] eqn:E1; [|exfalso; clear -E; by induction s].
  assert (lone t0 c1) as Hl1 by (by eapply lone_step).
  eapply IH; [|exact Hl1|exact E]. eapply reachable_step; [done|done|by eapply lone_race_free].
Qed.

Lemma after_reachable t0 s : is_Some (run_schedule s new_task) →
  Forall (λ tc, tc.1 = t0 ∨ tc.2 ≠ CallStart ∧ tc.2 ≠ CallStop) s → reachable (after s).
Proof.
  intros [c Hc] Hs. unfold after. rewrite Hc. eapply lone_reachable; [exact Hs|constructor| |exact Hc].
  by intros [n|k] _.
Qed.

(** A task started, and being stopped by the same thread; then its function returns. *)
Definition stopping : list (thread * choice) := calls (Outside 0) CallStart 4 ++ calls (Outside 0) CallStop 3.
Definition returning : list (thread * choice) := stopping ++ calls (Task 0) Return 2.

Lemma Stop_joins_witness :
  step (Outside 0) Go (after stopping) = None ∧ step (Outside 0) Go (after returning) ≠ None ∧
  is_Some (runs (after returning) !! 0%nat).
Proof.
  assert (reachable (after stopping)) as H1 by (apply (after_reachable (Outside 0)); [vm_compute; eauto|decide_now]).
  assert (reachable (after returning)) as H2 by (apply (after_reachable (Outside 0)); [vm_compute; eauto|decide_now]).
  split; [|split].
  - apply (proj1 (Stop_joins (after stopping) (Outside 0) H1)); [by vm_compute|].
    exists 0%nat, false. split_and!; by vm_compute.
  - intros E. apply (proj1 (Stop_joins (after returning) (Outside 0) H2)) in E as (k & b & E1 & _ & E3); [|by vm_compute].
    vm_compute in E1. injection E1 as <- <-. by vm_compute in E3.
  - apply (proj2 (Stop_joins (after returning) (Outside 0) H2)). exists (Local (Outside 0)). by vm_compute.
Defined.

(** The task's own function stops it, and goes on: nothing is waited for. *)
Lemma self_stop_returns :
  at_ (after (calls (Outside 0) CallStart 4 ++ calls (Task 0) CallStop 4)) (Task 0) = InUser.
Proof. by vm_compute. Qed.

(** Starting it again while it runs waits for its function to return. *)
Lemma start_again_waits :
  step (Outside 0) Go (after (calls (Outside 0) CallStart 4 ++ calls (Outside 0) CallStart 4)) = None.
Proof. by vm_compute. Qed.

(** Two threads that stop the task at once: both copy [run_] before either resets it,
    both wait for the one token the task gives, and the one that comes second waits
    for ever, whatever happens after. *)
Definition both_copy : list (thread * choice) :=
  calls (Outside 0) CallStart 4 ++ calls (Outside 0) CallStop 1 ++ calls (Outside 1) CallStop 1.
Definition one_token : list (thread * choice) :=
  both_copy ++ replicate 2 (Outside 0, Go) ++ replicate 2 (Outside 1, Go) ++ calls (Task 0) Return 3 ++ replicate 2 (Outside 0, Go).

Definition hangs (c : IdfTask) : Prop :=
  at_ c (Outside 1) = Take 0 false ∧ at_ c (Task 0) = Finished ∧ (∀ r, runs c !! 0%nat = Some r → done r = false) ∧
  (0 < next_run c)%nat ∧ ∀ t, at_ c t ≠ Spawn 0.

Lemma hangs_step t ch c c' : hangs c → step t ch c = Some c' → hangs c'.
Proof.
  intros (H1 & H2 & H3 & H4 & H5) Hs. pose proof (step_next _ _ _ _ Hs) as Hn.
  assert (∀ r, runs c' !! 0%nat = Some r → done r = false) as H3'.
  { intros r Hr. destruct (step_done _ _ _ _ _ _ Hs Hr) as [(r0 & E0 & -> & _)|[[-> _]|(_ & -> & E)]]; [by apply H3|done|congruence]. }
  assert (t ≠ Outside 1) as Ht.
  { intros ->. unfold step in Hs. rewrite H1 in Hs. destruct (runs c !! 0%nat) as [r|] eqn:Er; [|done]. by rewrite (H3 r eq_refl) in Hs. }
  assert (t ≠ Task 0) as Ht' by (intros ->; unfold step in Hs; by rewrite H2 in Hs).
  pose proof (H5 t) as H6.
  split_and!; [| |done|lia|intros t'; specialize (H5 t')];
    clear Hn H3 H3'; by_place; rewrite ?Ep in *; cbn in *; try done; try congruence; naive_solver lia.
Qed.

Lemma hangs_run s c c' : hangs c → run_schedule s c = Some c' → hangs c'.
Proof.
  unfold run_schedule. revert c. induction s as [|[t ch] s IH]; intros c Hc E; cbn in E; [by simplify_eq|].
  destruct (step t ch c) as [c1|] eqn:E1; [by eapply IH; [eapply hangs_step|]|]. exfalso. clear -E. by induction s.
Qed.

Lemma run_schedule_app s s' c c1 : run_schedule s c = Some c1 → run_schedule (s ++ s') c = run_schedule s' c1.
Proof. unfold run_schedule. rewrite foldl_app. by intros ->. Qed.

Lemma after_one_token : run_schedule one_token new_task = Some (after one_token).
Proof.
  assert (is_Some (run_schedule one_token new_task)) as [c Hc] by (vm_compute; eauto).
  unfold after. by rewrite Hc.
Qed.

Lemma concurrent_stops_hang s c :
  run_schedule (one_token ++ s) new_task = Some c →
  at_ c (Task 0) = Finished ∧ at_ c (Outside 1) = Take 0 false ∧ step (Outside 1) Go c = None.
Proof.
  intros E. assert (hangs c) as (H1 & H2 & H3 & _).
  { eapply (hangs_run s (after one_token)).
    - split_and!; [by vm_compute..| | |]; [|by vm_compute|].
      + intros r Hr. vm_compute in Hr. by injection Hr as <-.
      + intros [[|[|n]]|[|k]]; by vm_compute.
    - rewrite <- E. symmetry. by apply run_schedule_app, after_one_token. }
  split_and!; [done..|]. unfold step. rewrite H1. destruct (runs c !! 0%nat) as [r|] eqn:Er; [|done]. by rewrite (H3 r eq_refl).
Qed.

(** It is a race that lets them: both are about to write [run_]. *)
Lemma both_copy_race : ¬ race_free (after both_copy).
Proof. intros H. by specialize (H (Outside 0) (Outside 1) ltac:(done)). Qed.
