(* ===== verification/HostThreads.v ===== *)
(** The threads of the desktop host (src/platform/posix/): its task and its timer, as
    step relations whose steps are the critical sections of each thread, and the GPIO
    pin next to them. *)
From stdpp Require Import base decidable list functions.
From Stdlib Require Import ZArith Lia.
From S2P Require Import Prelude IdfTask.

(** * The desktop host's task (src/platform/posix/posix_task.cpp): threads that start and
    stop one task object over a [std::jthread], interleaved at the granularity of the
    steps they share. The name, the stack size and the priority are kept and not
    used. *)
Module HostTask.

(** Where a thread is. [Thrown]: out of the standard library came
    [resource_deadlock_would_occur], a thread having been asked to join itself. *)
Inductive place :=
  | NotBegun
  | Outside_
  | StartTest
  | StartMark
  | StartThread
  | StartAssign (k : nat)
  | StopMark
  | StopJoin
  | EndMark
  | Over
  | Thrown.

Record PosixTask := MkPosixTask { running_ : bool; thread_ : option nat; next_thread : nat; where_ : thread → place }.

Definition new_posix_task : PosixTask :=
  MkPosixTask false None 0 (λ t, match t with Outside _ => Outside_ | Task _ => NotBegun end).

Definition to (t : thread) (p : place) (c : PosixTask) : PosixTask :=
  MkPosixTask (running_ c) (thread_ c) (next_thread c) (<[t := p]> (where_ c)).
Definition mark (b : bool) (c : PosixTask) : PosixTask := MkPosixTask b (thread_ c) (next_thread c) (where_ c).
Definition set_thread (o : option nat) (c : PosixTask) : PosixTask := MkPosixTask (running_ c) o (next_thread c) (where_ c).

(** Joining what [thread_] names, if it names a thread, and going on with [k]. *)
Definition join_thread (t : thread) (k : PosixTask → PosixTask) (c : PosixTask) : option PosixTask :=
  match thread_ c with
  | None => Some (k c)
  | Some j =>
      if decide (t = Task j) then Some (to t Thrown c)
      else match where_ c (Task j) with Over => Some (k (set_thread None c)) | _ => None end
  end.

(** The next step of thread [t]; [None] where it cannot go on. *)
Definition posix_step (t : thread) (ch : choice) (c : PosixTask) : option PosixTask :=
  match where_ c t with
  | NotBegun | Over | Thrown => None
  | Outside_ =>
      match ch, t with
      | CallStart, _ => Some (to t StartTest c)
      | CallStop, _ => Some (to t StopMark c)
      | Return, Task _ => Some (to t EndMark c)
      | _, _ => None
      end
  | StartTest => Some (to t (if running_ c then Outside_ else StartMark) c)
  | StartMark => Some (to t StartThread (mark true c))
  | StartThread =>
      let k := next_thread c in
      Some (to t (StartAssign k) (to (Task k) Outside_ (MkPosixTask (running_ c) (thread_ c) (S k) (where_ c))))
  | StartAssign k => join_thread t (λ c, to t Outside_ (set_thread (Some k) c)) c
  | StopMark => Some (to t StopJoin (mark false c))
  | StopJoin => join_thread t (to t Outside_) c
  | EndMark => Some (to t Over (mark false c))
  end.

Definition posix_run (s : list (thread * choice)) (c : PosixTask) : option PosixTask :=
  foldl (λ c tc, c ≫= posix_step tc.1 tc.2) (Some c) s.
Definition posix_after (s : list (thread * choice)) : PosixTask := default new_posix_task (posix_run s new_posix_task).

Inductive posix_reachable : PosixTask → Prop :=
  | posix_new : posix_reachable new_posix_task
  | posix_next t ch c c' : posix_reachable c → posix_step t ch c = Some c' → posix_reachable c'.

(** A [Stop] that comes back, from the task's function or not, has seen the thread
    [thread_] named run to its end. *)
Lemma posix_stop_joins t ch c c' k : where_ c t = StopJoin → thread_ c = Some k →
  posix_step t ch c = Some c' → where_ c' t = Outside_ → where_ c (Task k) = Over ∧ thread_ c' = None.
Proof.
  intros Et Ek Hs Ht. unfold posix_step, join_thread in Hs. rewrite Et, Ek in Hs. case_decide; simplify_eq/=.
  - by rewrite fn_at, decide_True in Ht.
  - destruct (where_ c (Task k)); by simplify_eq/=.
Qed.

(** * Where the hosts differ *)

(** The task's own function stops it: on the desktop host that throws - out of a
    destructor, if the object is being destroyed - where the ESP32 goes on
    ([IdfTask.self_stop_returns]). *)
Lemma posix_self_stop_throws :
  where_ (posix_after (calls (Outside 0) CallStart 4 ++ calls (Task 0) CallStop 2)) (Task 0) = Thrown.
Proof. by vm_compute. Qed.

(** A start while the task runs does nothing, where the ESP32 waits for the function
    to return and starts it again ([IdfTask.start_again_waits]). *)
Lemma posix_start_again_nothing :
  where_ (posix_after (calls (Outside 0) CallStart 4 ++ calls (Outside 0) CallStart 1)) (Outside 0) = Outside_ ∧
  next_thread (posix_after (calls (Outside 0) CallStart 4 ++ calls (Outside 0) CallStart 1)) = 1%nat.
Proof. by vm_compute. Qed.

(** Stopped, the task can be started again. *)
Lemma posix_restart :
  let c := posix_after (calls (Outside 0) CallStart 4 ++ calls (Outside 0) CallStop 1 ++ calls (Task 0) Return 1 ++
                        [(Outside 0, Go)] ++ calls (Outside 0) CallStart 4) in
  running_ c = true ∧ thread_ c = Some 1%nat ∧ where_ c (Task 1) = Outside_ ∧ where_ c (Outside 0) = Outside_.
Proof. by vm_compute. Qed.

End HostTask.

(** * The desktop host's timer and GPIO pin (src/platform/posix/posix_timer.cpp and
    posix_gpio.cpp).

    The timer is two threads, the one that starts and stops it and its own, at the
    granularity of the steps they share; only the timer's thread takes the mutex. How
    long a period is does not matter to the steps: a wait ends when it has elapsed,
    when it is notified, or for no reason. *)
Module HostTimer.

(** Where the timer's thread is; [TimedOut] is the predicate's last evaluation,
    inside [wait_for]. *)
Inductive worker := NoThread | LoopTest | WaitTest | FallingAsleep | Asleep | TimedOut | Firing | InCallback | AfterCallback | Ending | Done.

(** Where the other thread is: [restart] is the [Start] a [Stop] is part of. *)
Inductive caller := Idle | Mark (restart : option (Z * bool)) | Notify (restart : option (Z * bool))
  | Request (restart : option (Z * bool)) | Join (restart : option (Z * bool)) | Launch (period : Z) (periodic : bool).

(** [stop_] is the stop token of [thread_]; [fired] counts the callbacks since the last
    [Start], [late] those since a [Stop] began. *)
Record PosixTimer := MkTimer {
  running_ : bool; period_ : Z; periodic_ : bool; stop_ : bool; thread_ : worker; caller_ : caller; fired : nat; late : nat;
}.
Definition new_timer : PosixTimer := MkTimer false 0 false false NoThread Idle 0 0.

Definition at_worker (w : worker) (c : PosixTimer) : PosixTimer :=
  MkTimer (running_ c) (period_ c) (periodic_ c) (stop_ c) w (caller_ c) (fired c) (late c).
Definition at_caller (o : caller) (c : PosixTimer) : PosixTimer :=
  MkTimer (running_ c) (period_ c) (periodic_ c) (stop_ c) (thread_ c) o (fired c) (late c).
Definition set_running (b : bool) (c : PosixTimer) : PosixTimer :=
  MkTimer b (period_ c) (periodic_ c) (stop_ c) (thread_ c) (caller_ c) (fired c) (late c).

(** The predicate of the wait. *)
Definition stopped (c : PosixTimer) : bool := negb (running_ c) || stop_ c.
Definition stopping (c : PosixTimer) : bool :=
  match caller_ c with Notify _ | Request _ | Join _ => true | _ => false end.

Inductive wakeup := Elapsed | Spurious.

Definition worker_step (wake : option wakeup) (c : PosixTimer) : option PosixTimer :=
  match thread_ c with
  | NoThread | Done => None
  | LoopTest => Some (at_worker (if stopped c then Ending else WaitTest) c)
  | WaitTest => Some (at_worker (if stopped c then Ending else FallingAsleep) c)
  | FallingAsleep => Some (at_worker Asleep c)
  | Asleep =>
      match wake with
      | Some Elapsed => Some (at_worker TimedOut c)
      | Some Spurious => Some (at_worker WaitTest c)
      | None => None
      end
  | TimedOut => Some (at_worker (if stopped c then Ending else Firing) c)
  | Firing => Some (MkTimer (running_ c) (period_ c) (periodic_ c) (stop_ c) InCallback (caller_ c) (S (fired c))
                      (if stopping c then S (late c) else late c))
  | InCallback => Some (at_worker AfterCallback c)
  | AfterCallback => Some (at_worker (if periodic_ c then LoopTest else Ending) c)
  | Ending => Some (at_worker Done (set_running false c))
  end.

Definition after_stop (restart : option (Z * bool)) : caller :=
  match restart with Some (period, periodic) => Launch period periodic | None => Idle end.

Inductive request := CallStart (period : Z) (periodic : bool) | CallStop.

Definition caller_step (r : option request) (c : PosixTimer) : option PosixTimer :=
  match caller_ c with
  | Idle =>
      match r with
      | Some (CallStart period periodic) => Some (at_caller (Mark (Some (period, periodic))) c)
      | Some CallStop => Some (at_caller (Mark None) c)
      | None => None
      end
  | Mark n => Some (MkTimer false (period_ c) (periodic_ c) (stop_ c) (thread_ c) (Notify n) (fired c) 0)
  | Notify n => Some (at_caller (Request n) (match thread_ c with Asleep => at_worker WaitTest c | _ => c end))
  | Request n =>
      match thread_ c with
      | NoThread => Some (at_caller (after_stop n) c)
      | _ => Some (MkTimer (running_ c) (period_ c) (periodic_ c) true (thread_ c) (Join n) (fired c) (late c))
      end
  | Join n => match thread_ c with Done => Some (at_caller (after_stop n) (at_worker NoThread c)) | _ => None end
  | Launch period periodic => Some (MkTimer true period periodic false LoopTest Idle 0 0)
  end.

Inductive reachable : PosixTimer → Prop :=
  | reachable_new : reachable new_timer
  | reachable_worker w c c' : reachable c → worker_step w c = Some c' → reachable c'
  | reachable_caller r c c' : reachable c → caller_step r c = Some c' → reachable c'.

(** * What holds *)

Definition before_callback (w : worker) : bool :=
  match w with LoopTest | WaitTest | FallingAsleep | Asleep | TimedOut | Firing => true | _ => false end.

(** A timer that is not periodic fires at most once for a [Start]. *)
Definition fired_bound (c : PosixTimer) : Prop :=
  periodic_ c = false → (fired c ≤ 1)%nat ∧ (before_callback (thread_ c) = true → fired c = 0%nat).

(** At most one callback starts after the timer began to be stopped: the one whose wait
    was over. *)
Definition late_bound (c : PosixTimer) : Prop :=
  stopping c = true → running_ c = false ∧ (late c ≤ 1)%nat ∧ (thread_ c = Firing → late c = 0%nat).

Ltac cases_in Hs := repeat (match type of Hs with context [match ?x with _ => _ end] => destruct x eqn:? end; try done); simplify_eq/=.
Ltac timer_step := match goal with
  | Hs : worker_step _ ?c = Some _ |- _ => unfold worker_step in Hs; cases_in Hs
  | Hs : caller_step _ ?c = Some _ |- _ => unfold caller_step in Hs; cases_in Hs
  end.

Lemma reachable_fired c : reachable c → fired_bound c.
Proof.
  unfold fired_bound. induction 1 as [|w c c' Hc IH Hs|r c c' Hc IH Hs]; [cbn; lia| |];
  timer_step; intros E; try congruence; try specialize (IH E) as [H1 H2];
  repeat match goal with H : thread_ c = _ |- _ => rewrite H in * end; cbn in *; split; done || lia.
Qed.

Lemma reachable_late c : reachable c → late_bound c.
Proof.
  unfold late_bound. induction 1 as [|w c c' Hc IH Hs|r c c' Hc IH Hs]; [done| |].
  - assert (stopping c' = stopping c) as -> by (timer_step; done). intros E. destruct (IH E) as (H1 & H2 & H3).
    assert (stopped c = true) as Hd by (unfold stopped; by rewrite H1). clear IH.
    timer_step; split_and!; try done; try lia; rewrite H3 by done; lia.
  - timer_step; intros E; try done; cbn in *;
    try (destruct IH as (H1 & H2 & H3); [unfold stopping; repeat match goal with H : caller_ c = _ |- _ => rewrite H end; done|]);
    split_and!; try done; try lia; intros ?; try congruence; auto.
Qed.

(** * Stopping *)

(** How many steps of its own the timer's thread is from its end, once stopped. *)
Definition rank (w : worker) : nat :=
  match w with
  | NoThread | Done => 0 | Ending => 1 | LoopTest | WaitTest | TimedOut => 2
  | Asleep | AfterCallback => 3 | InCallback | FallingAsleep => 4 | Firing => 5
  end%nat.

(** A timer that is being stopped ends in five steps of its thread at most, a wake-up
    and the return of its callback among them. *)
Lemma stopping_ends w c c' : stopped c = true → worker_step w c = Some c' →
  stopped c' = true ∧ (rank (thread_ c') < rank (thread_ c))%nat.
Proof.
  intros Hd Hs. unfold worker_step in Hs. rewrite Hd in Hs. cases_in Hs; split; try done; try lia.
Qed.

(** The notification comes between the predicate and the sleep - [Stop] does not take
    the mutex - and is lost: the timer sleeps its period out, and [Stop] with it. *)
Inductive turn := Worker (wake : option wakeup) | Caller (r : option request).
Definition take_turn (c : option PosixTimer) (x : turn) : option PosixTimer :=
  c ≫= match x with Worker w => worker_step w | Caller r => caller_step r end.
Definition turns (s : list turn) : option PosixTimer := foldl take_turn (Some new_timer) s.
Definition lost : list turn :=
  Caller (Some (CallStart 60000 false)) :: replicate 4 (Caller None) ++ replicate 2 (Worker None) ++
  Caller (Some CallStop) :: replicate 3 (Caller None) ++ [Worker None].

Lemma wakeup_lost : ∃ c, turns lost = Some c ∧ running_ c = false ∧ stop_ c = true ∧ thread_ c = Asleep ∧
  caller_step None c = None ∧ worker_step None c = None ∧
  thread_ <$> worker_step (Some Elapsed) c = Some TimedOut.
Proof. eexists. split; [vm_compute; reflexivity|]. by vm_compute. Qed.

(** * The GPIO pin: levels are kept, and no handler is ever called. *)

Inductive GpioLevel := kLow | kHigh.
Inductive GpioEdge := kRising | kFalling | kBoth.
Record PosixGpio (H : Type) := MkGpio { pin_ : Z; level_ : GpioLevel; output_ : bool; edge_ : GpioEdge; handler_ : option H }.
Arguments MkGpio {_}. Arguments pin_ {_}. Arguments level_ {_}. Arguments output_ {_}. Arguments edge_ {_}. Arguments handler_ {_}.
Section Gpio.
Context {H : Type}.
Implicit Types g : PosixGpio H.
Definition CreateGpio (pin : Z) : PosixGpio H := MkGpio pin kLow false kRising None.
Definition SetLevel (level : GpioLevel) g : PosixGpio H := MkGpio (pin_ g) level (output_ g) (edge_ g) (handler_ g).
Definition GetLevel g : GpioLevel := level_ g.
Definition SetDirection (output : bool) g : PosixGpio H := MkGpio (pin_ g) (level_ g) output (edge_ g) (handler_ g).
Definition EnableInterrupt (edge : GpioEdge) (handler : H) g : PosixGpio H :=
  MkGpio (pin_ g) (level_ g) (output_ g) edge (Some handler).
Definition DisableInterrupt g : PosixGpio H := MkGpio (pin_ g) (level_ g) (output_ g) (edge_ g) None.
End Gpio.

End HostTimer.
