(* ===== verification/AtParser.v ===== *)
(** The AT field parsers, src/src/at_parser/at_parser.cpp: CSV fields, key
    prefixes, integers and hexadecimal payloads. *)
From stdpp Require Import base decidable list strings gmap.
From Stdlib Require Import ZArith Ascii Lia.
From S2P Require Import Prelude Errors.

Definition QUOTE : ascii := ascii_of_nat 34.
Definition COMMA : ascii := ","%char.

Definition is_not (c x : ascii) : bool := negb (bool_decide (x = c)).

(** * Operations *)

(** The loop of [SplitCsv]; [s] is the part of the line from index [i] on. *)
Fixpoint SplitCsv_loop (fuel : nat) (s : bytes) : list bytes :=
  match fuel with
  | O => []
  | S k =>
      if decide (head s = Some QUOTE) then
        let s := tail s in
        let field := take_while (is_not QUOTE) s in
        let s := tail (drop_while (is_not QUOTE) s) in
        field :: (if decide (head s = Some COMMA) then SplitCsv_loop k (tail s) else [])
      else
        let field := take_while (is_not COMMA) s in
        let s := drop_while (is_not COMMA) s in
        field :: (match s with [] => [] | _ :: s => SplitCsv_loop k s end)
  end.

Definition SplitCsv (line : bytes) : list bytes := SplitCsv_loop (S (length line)) line.

Definition StripQuotes (s : bytes) : bytes :=
  if (2 <=? length s)%nat && bool_decide (head s = Some QUOTE)
     && bool_decide (last s = Some QUOTE)
  then take (length s - 2) (drop 1 s) else s.

Definition StripKeyPrefix (line : bytes) : bytes :=
  match find_byte ":" line with
  | None => line
  | Some colon => trim_by isblank (drop (colon + 1) line)
  end.

Definition ParseInt (s : bytes) : option Z :=
  if decide (s = []) then None else from_chars_int s.

(** [None] is the [false] return; [key] and [value] are the out parameters. *)
Definition ParseKeyValue (line : bytes) : option (bool * bytes * bytes) :=
  match find_byte ":" line with
  | None => None
  | Some colon_pos =>
      let key := take colon_pos line in
      let value := drop_while (λ c, bool_decide (c = " "%char)) (drop (colon_pos + 1) line) in
      Some (bool_decide (key ≠ []), key, value)
  end.

Definition HexCharToNibble (c : ascii) : Z :=
  let v := b2z c in
  if in_range 48 57 v then v - 48
  else if in_range 97 102 v then v - 97 + 10
  else if in_range 65 70 v then v - 65 + 10
  else -1.

(** The loop of [ParseHex]: an unusable pair advances by one digit only. *)
Fixpoint ParseHex (hex : bytes) : bytes :=
  match hex with
  | a :: ((b :: rest) as tl) =>
      let hi := HexCharToNibble a in
      let lo := HexCharToNibble b in
      if (hi <? 0) || (lo <? 0) then ParseHex tl
      else z2b (Z.lor (Z.shiftl hi 4) lo) :: ParseHex rest
  | _ => []
  end.

Definition kDigits : bytes := lit "0123456789abcdef".
Definition hex_digit (n : Z) : ascii := nth (Z.to_nat n) kDigits "0"%char.

Definition EncodeHex (data : bytes) : bytes :=
  data ≫= λ c, [hex_digit (Z.shiftr (b2z c) 4); hex_digit (Z.land (b2z c) 15)].

(** [while (value > 0) { out.push_back(...); value >>= 4; }] *)
Fixpoint ToHexString_loop (fuel : nat) (value : Z) (out : bytes) : bytes :=
  match fuel with
  | O => out
  | S k => if 0 <? value
           then ToHexString_loop k (Z.shiftr value 4) (out ++ [hex_digit (Z.land value 15)])
           else out
  end.

(** Sixteen digits hold any [uint64_t]. *)
Definition ToHexString (value : Z) : bytes :=
  if value =? 0 then lit "0" else rev (ToHexString_loop 16 value []).

Definition ParseIntList (line : bytes) : list Z := omap ParseInt (SplitCsv line).

(** * Specification of a CSV line *)

(** A field as a module writes it: quoted, or plain. *)
Inductive csv_field := Quoted (s : bytes) | Plain (s : bytes).

Definition field_text (f : csv_field) : bytes := match f with Quoted s | Plain s => s end.

Definition render_field (f : csv_field) : bytes :=
  match f with Quoted s => QUOTE :: s ++ [QUOTE] | Plain s => s end.

Fixpoint render_csv (fs : list csv_field) : bytes :=
  match fs with
  | [] => []
  | [f] => render_field f
  | f :: fs => render_field f ++ COMMA :: render_csv fs
  end.

(** Quoted text holds no quote, plain text no comma and no leading quote. *)
Definition field_ok (f : csv_field) : Prop :=
  match f with
  | Quoted s => QUOTE ∉ s
  | Plain s => (COMMA ∉ s) ∧ (head s ≠ Some QUOTE)
  end.

#[export] Instance field_ok_dec f : Decision (field_ok f).
Proof. destruct f; apply _. Defined.

Arguments SplitCsv_loop : simpl never.

(** * Lemmas *)

Lemma take_drop_while_not c l r :
  c ∉ l → take_while (is_not c) (l ++ c :: r) = l ∧ drop_while (is_not c) (l ++ c :: r) = c :: r.
Proof.
  induction l as [|x l IH]; intros H; simpl; unfold is_not at 1 3.
  - by rewrite bool_decide_true.
  - rewrite bool_decide_false by set_solver. simpl.
    destruct IH as [-> ->]; set_solver.
Qed.

Lemma take_drop_while_not_all c l :
  c ∉ l → take_while (is_not c) l = l ∧ drop_while (is_not c) l = [].
Proof.
  induction l as [|x l IH]; intros H; simpl; [done|]. unfold is_not at 1 3.
  rewrite bool_decide_false by set_solver. simpl.
  destruct IH as [-> ->]; set_solver.
Qed.

Lemma drop_while_length f s : (length (drop_while f s) <= length s)%nat.
Proof. induction s as [|x s IH]; simpl; [done|]. destruct (f x); simpl; lia. Qed.

Lemma SplitCsv_loop_S k s :
  SplitCsv_loop (S k) s =
  if decide (head s = Some QUOTE) then
    take_while (is_not QUOTE) (tail s) ::
    let t := tail (drop_while (is_not QUOTE) (tail s)) in
    (if decide (head t = Some COMMA) then SplitCsv_loop k (tail t) else [])
  else
    take_while (is_not COMMA) s ::
    match drop_while (is_not COMMA) s with [] => [] | _ :: t => SplitCsv_loop k t end.
Proof. done. Qed.

(** One more unit of fuel than characters is always enough. *)
Lemma SplitCsv_fuel k k' s :
  (length s < k)%nat → (length s < k')%nat → SplitCsv_loop k s = SplitCsv_loop k' s.
Proof.
  revert k' s; induction k as [|k IH]; intros [|k'] s H H'; try lia. rewrite !SplitCsv_loop_S; simpl.
  case_decide as Hq.
  - destruct s as [|c s]; simplify_eq/=. f_equal. case_decide as Hc; [|done].
    pose proof (drop_while_length (is_not QUOTE) s) as Hl.
    destruct (drop_while (is_not QUOTE) s) as [|y [|z t]]; simplify_eq/=. apply IH; lia.
  - f_equal. pose proof (drop_while_length (is_not COMMA) s) as Hl.
    destruct (drop_while (is_not COMMA) s); [done|]. simpl in Hl. apply IH; lia.
Qed.

Lemma SplitCsv_cons s r : COMMA ∉ s → head s ≠ Some QUOTE →
  SplitCsv (s ++ COMMA :: r) = s :: SplitCsv r.
Proof.
  intros Hc Hq. unfold SplitCsv at 1. rewrite SplitCsv_loop_S, decide_False.
  - destruct (take_drop_while_not COMMA s r Hc) as [-> ->]. f_equal.
    apply SplitCsv_fuel; rewrite ?length_app; simpl; lia.
  - by destruct s.
Qed.

Lemma SplitCsv_quoted s r : QUOTE ∉ s →
  SplitCsv (QUOTE :: s ++ QUOTE :: r) =
  s :: (if decide (head r = Some COMMA) then SplitCsv (tail r) else []).
Proof.
  intros Hq. unfold SplitCsv at 1. rewrite SplitCsv_loop_S. simpl.
  destruct (take_drop_while_not QUOTE s r Hq) as [-> ->]. simpl. f_equal.
  case_decide; [|done]. apply SplitCsv_fuel; destruct r; rewrite ?length_app; simpl; lia.
Qed.

Lemma hex_nibbles c :
  HexCharToNibble (hex_digit (Z.shiftr (b2z c) 4)) = Z.shiftr (b2z c) 4 ∧
  HexCharToNibble (hex_digit (Z.land (b2z c) 15)) = Z.land (b2z c) 15 ∧
  z2b (Z.lor (Z.shiftl (Z.shiftr (b2z c) 4) 4) (Z.land (b2z c) 15)) = c ∧
  (Z.shiftr (b2z c) 4 <? 0) = false ∧ (Z.land (b2z c) 15 <? 0) = false.
Proof. byte_cases c. Qed.

Lemma hex_digit_nibble n : 0 <= n < 16 → HexCharToNibble (hex_digit n) = n.
Proof.
  intros H. assert (∃ k, (k < 16)%nat ∧ n = Z.of_nat k) as (k & Hk & ->).
  { exists (Z.to_nat n). lia. }
  do 16 (destruct k as [|k]; [done|]). lia.
Qed.

Lemma hex_loop_out k v out : ToHexString_loop k v out = out ++ ToHexString_loop k v [].
Proof.
  revert v out; induction k as [|k IH]; intros v out; simpl; [by rewrite app_nil_r|].
  destruct (0 <? v); [|by rewrite app_nil_r].
  rewrite IH, (IH _ [_]). by rewrite <- app_assoc.
Qed.

Lemma hex_loop_S k v : 0 < v →
  rev (ToHexString_loop (S k) v []) =
  rev (ToHexString_loop k (Z.shiftr v 4) []) ++ [hex_digit (Z.land v 15)].
Proof.
  intros H. simpl. rewrite (proj2 (Z.ltb_lt 0 v)) by done.
  by rewrite hex_loop_out, rev_app_distr.
Qed.

Lemma low_nibble v : Z.land v 15 = v mod 16.
Proof. change 15 with (Z.ones 4). by rewrite Z.land_ones. Qed.

Lemma high_nibbles v : Z.shiftr v 4 = v / 16.
Proof. by rewrite Z.shiftr_div_pow2. Qed.

Lemma hex_loop_value k v : 0 <= v < 16 ^ Z.of_nat k →
  digits_value 16 (HexCharToNibble <$> rev (ToHexString_loop k v [])) = v.
Proof.
  revert v; induction k as [|k IH]; intros v Hv; [simpl in *; unfold digits_value; simpl; lia|].
  destruct (decide (v = 0)) as [->|Hne]; [done|].
  rewrite hex_loop_S by lia. rewrite Nat2Z.inj_succ, Z.pow_succ_r in Hv by lia.
  pose proof (Z.mod_pos_bound v 16). pose proof (Z.div_mod v 16).
  unfold digits_value. rewrite fmap_app, digits_fold_app.
  fold (digits_value 16 (HexCharToNibble <$> rev (ToHexString_loop k (Z.shiftr v 4) []))).
  rewrite IH, low_nibble, high_nibbles by
    (rewrite high_nibbles; split; [apply Z.div_pos | apply Z.div_lt_upper_bound]; lia).
  simpl. rewrite hex_digit_nibble; lia.
Qed.

Lemma hex_digit_valid n : 0 <= n < 16 → 0 <= HexCharToNibble (hex_digit n).
Proof. intros. rewrite hex_digit_nibble; lia. Qed.

Lemma hex_loop_digits k v :
  Forall (λ c, 0 <= HexCharToNibble c) (rev (ToHexString_loop k v [])).
Proof.
  revert v; induction k as [|k IH]; intros v; [constructor|].
  destruct (decide (0 < v)).
  - rewrite hex_loop_S by done. apply Forall_app; split; [apply IH|].
    repeat constructor. apply hex_digit_valid. rewrite low_nibble. apply Z.mod_pos_bound. lia.
  - simpl. rewrite (proj2 (Z.ltb_ge 0 v)) by lia. constructor.
Qed.

(** The head of the rendering is the most significant digit, which is not zero. *)
Lemma hex_loop_head k v : 0 < v < 16 ^ Z.of_nat k →
  ∃ c t, rev (ToHexString_loop k v []) = c :: t ∧ HexCharToNibble c ≠ 0.
Proof.
  revert v; induction k as [|k IH]; intros v Hv; [simpl in Hv; lia|].
  rewrite hex_loop_S by lia. rewrite Nat2Z.inj_succ, Z.pow_succ_r in Hv by lia.
  pose proof (Z.div_mod v 16). pose proof (Z.mod_pos_bound v 16).
  destruct (decide (0 < v / 16)).
  - destruct (IH (Z.shiftr v 4)) as (c & t & -> & Hc).
    { rewrite high_nibbles. split; [lia|]. apply Z.div_lt_upper_bound; lia. }
    by exists c, (t ++ [hex_digit (Z.land v 15)]).
  - assert (v / 16 = 0) as E by (pose proof (Z.div_pos v 16); lia).
    rewrite high_nibbles, E. destruct k; simpl.
    all: eexists _, []; split; [done|]; rewrite low_nibble, hex_digit_nibble; lia.
Qed.

Lemma ToHexString_spec v : 0 <= v < 2 ^ 64 →
  ToHexString v ≠ [] ∧ Forall (λ c, 0 <= HexCharToNibble c) (ToHexString v) ∧
  digits_value 16 (HexCharToNibble <$> ToHexString v) = v.
Proof.
  intros Hv. unfold ToHexString. destruct (Z.eqb_spec v 0) as [->|Hne].
  { split_and!; [done | repeat constructor; done | done]. }
  split_and!; [|apply hex_loop_digits | apply hex_loop_value; exact Hv].
  destruct (hex_loop_head 16 v) as (c & t & -> & _); [|done]. change (16 ^ Z.of_nat 16) with (2 ^ 64). lia.
Qed.

Lemma digit_not_blank c : isdigit c = true → isblank c = false.
Proof. byte_cases c. Qed.

Lemma minus_or_digits n :
  (∀ c, head (to_string n) = Some c → isblank c = false) ∧
  (∀ c, last (to_string n) = Some c → isblank c = false).
Proof.
  assert (∀ m, 0 <= m → Forall (λ c, isblank c = false) (to_string m)) as Hm.
  { intros m H. destruct (to_string_nonneg m H) as (_ & Hd & _).
    apply Forall_forall. intros c Hc. apply digit_not_blank.
    rewrite forallb_forall in Hd. apply Hd. by apply list_elem_of_In. }
  assert (Forall (λ c, isblank c = false) (to_string n)) as H.
  { destruct (decide (0 <= n)); [by apply Hm|]. rewrite to_string_neg by lia.
    constructor; [done | apply Hm; lia]. }
  split; intros c Hc; rewrite Forall_forall in H; apply H.
  - by apply head_Some_elem_of.
  - apply last_Some_elem_of in Hc. done.
Qed.

Lemma ParseInt_to_string n : INT_MIN <= n <= INT_MAX → ParseInt (to_string n) = Some n.
Proof.
  intros H. unfold ParseInt. rewrite decide_False; [by apply from_chars_to_string|].
  intros E. pose proof (from_chars_to_string n H) as F. by rewrite E in F.
Qed.

Lemma ParseInt_range s v : ParseInt s = Some v → INT_MIN <= v <= INT_MAX.
Proof. unfold ParseInt. case_decide; [done|]. apply from_chars_int_range. Qed.

(** ** Fields of plain text *)

Definition plain_char (c : ascii) : bool :=
  negb (isspace c) && bool_decide (c ≠ COMMA) && bool_decide (c ≠ QUOTE) && bool_decide (c ≠ ":"%char).

Lemma digit_plain c : isdigit c = true → plain_char c = true.
Proof. byte_cases c. Qed.
Lemma nibble_plain c : 0 <= HexCharToNibble c → plain_char c = true.
Proof. byte_cases c. Qed.
Lemma plain_facts c : plain_char c = true → isspace c = false ∧ c ≠ COMMA ∧ c ≠ QUOTE ∧ c ≠ CR ∧ c ≠ LF.
Proof. byte_cases c. Qed.

Lemma number_plain n : Forall (λ c, plain_char c = true) (to_string n).
Proof.
  assert (∀ m, 0 <= m → Forall (λ c, plain_char c = true) (to_string m)) as Hm.
  { intros m Hm. destruct (to_string_nonneg m Hm) as (_ & Hd & _). apply Forall_forall. intros c Hc.
    apply digit_plain. rewrite forallb_forall in Hd. by apply Hd, list_elem_of_In. }
  destruct (decide (0 <= n)); [by apply Hm|]. rewrite to_string_neg by lia. constructor; [done|apply Hm; lia].
Qed.

Lemma plain_ok s : Forall (λ c, plain_char c = true) s → field_ok (Plain s).
Proof.
  rewrite Forall_forall. intros Hs. split.
  - intros Hin. by destruct (plain_facts _ (Hs _ Hin)) as (_ & ? & _).
  - intros Hh. apply head_Some_elem_of in Hh. by destruct (plain_facts _ (Hs _ Hh)) as (_ & _ & ? & _).
Qed.

(** * Properties *)

(** splitting a line inverts writing it. For every non-empty list of fields
    whose quoted texts hold no quote and whose plain texts hold no comma and do
    not start with a quote, [SplitCsv] of the rendered line is the list of the
    fields' texts: commas inside quotes do not split, and a trailing empty
    field is kept. *)
Theorem SplitCsv_render (fs : list csv_field) :
  fs ≠ [] → Forall field_ok fs → SplitCsv (render_csv fs) = field_text <$> fs.
Proof.
  intros Hne HF. induction HF as [|f fs Hf HF IH]; [done|]. clear Hne.
  destruct fs as [|g fs].
  - destruct f as [s|s]; simpl in *.
    + by rewrite SplitCsv_quoted.
    + destruct Hf as [Hc Hq]. unfold SplitCsv. rewrite SplitCsv_loop_S, decide_False by done.
      by destruct (take_drop_while_not_all COMMA s Hc) as [-> ->].
  - specialize (IH ltac:(done)). rewrite fmap_cons, <- IH.
    change (render_csv (f :: g :: fs)) with (render_field f ++ COMMA :: render_csv (g :: fs)).
    clear IH.
    destruct f as [s|s]; simpl in Hf |- *.
    + rewrite <- app_assoc. simpl. by rewrite SplitCsv_quoted.
    + destruct Hf. by rewrite SplitCsv_cons.
Qed.

Lemma SplitCsv_render_witness :
  SplitCsv (lit "1," ++ QUOTE :: lit "a,b" ++ [QUOTE; COMMA]) = [lit "1"; lit "a,b"; lit ""].
Proof.
  apply (SplitCsv_render [Plain (lit "1"); Quoted (lit "a,b"); Plain []]).
  - discriminate.
  - decide_now.
Defined.

(** the payload encoding round-trips: decoding the hexadecimal text
    [EncodeHex] produces gives back every byte string, of any length and any
    content. *)
Theorem ParseHex_EncodeHex (data : bytes) : ParseHex (EncodeHex data) = data.
Proof.
  induction data as [|c data IH]; [done|].
  change (EncodeHex (c :: data)) with
    (hex_digit (Z.shiftr (b2z c) 4) :: hex_digit (Z.land (b2z c) 15) :: EncodeHex data).
  cbn [ParseHex]. destruct (hex_nibbles c) as (-> & -> & -> & -> & ->). simpl. by rewrite IH.
Qed.
