(* ===== verification/HttpParser.v ===== *)
(** The incremental HTTP/1.1 response parser,
    src/src/protocol/http/http_parser.{h,cpp}: the parser's members as a record,
    one definition per [Feed*] step, the [Feed] loop, [Finish], [GetHeader] and
    [Reset].  The body callback is the flag [on_body]; what it has received so
    far is [sunk]. *)
From stdpp Require Import base decidable list strings gmap.
From Stdlib Require Import ZArith Ascii Lia.
From S2P Require Import Prelude Errors AtParser.

(** * State *)

Inductive HttpState :=
| kStatusLine | kHeaders | kBody | kChunkSize | kChunkData
| kChunkDataEnd | kChunkTrailer | kComplete | kError.

#[export] Instance HttpState_eq_dec : EqDecision HttpState.
Proof. solve_decision. Defined.

Record HttpParser := MkHttpParser {
  state : HttpState;
  buffer : bytes;
  http_major : Z;
  http_minor : Z;
  status_code : Z;
  reason : bytes;
  headers : gmap bytes bytes;
  body : bytes;
  on_body : bool;
  sunk : bytes;
  content_length : Z;
  has_content_length : bool;
  chunked : bool;
  body_remaining : Z;
  chunk_remaining : Z;
}.

Definition set_state (p : HttpParser) (s : HttpState) : HttpParser := {|
  state := s;
  buffer := buffer p;
  http_major := http_major p;
  http_minor := http_minor p;
  status_code := status_code p;
  reason := reason p;
  headers := headers p;
  body := body p;
  on_body := on_body p;
  sunk := sunk p;
  content_length := content_length p;
  has_content_length := has_content_length p;
  chunked := chunked p;
  body_remaining := body_remaining p;
  chunk_remaining := chunk_remaining p;
|}.

Definition set_buffer (p : HttpParser) (b : bytes) : HttpParser := {|
  state := state p;
  buffer := b;
  http_major := http_major p;
  http_minor := http_minor p;
  status_code := status_code p;
  reason := reason p;
  headers := headers p;
  body := body p;
  on_body := on_body p;
  sunk := sunk p;
  content_length := content_length p;
  has_content_length := has_content_length p;
  chunked := chunked p;
  body_remaining := body_remaining p;
  chunk_remaining := chunk_remaining p;
|}.

Definition set_version (p : HttpParser) (major minor : Z) : HttpParser := {|
  state := state p;
  buffer := buffer p;
  http_major := major;
  http_minor := minor;
  status_code := status_code p;
  reason := reason p;
  headers := headers p;
  body := body p;
  on_body := on_body p;
  sunk := sunk p;
  content_length := content_length p;
  has_content_length := has_content_length p;
  chunked := chunked p;
  body_remaining := body_remaining p;
  chunk_remaining := chunk_remaining p;
|}.

Definition set_status (p : HttpParser) (code : Z) (r : bytes) : HttpParser := {|
  state := state p;
  buffer := buffer p;
  http_major := http_major p;
  http_minor := http_minor p;
  status_code := code;
  reason := r;
  headers := headers p;
  body := body p;
  on_body := on_body p;
  sunk := sunk p;
  content_length := content_length p;
  has_content_length := has_content_length p;
  chunked := chunked p;
  body_remaining := body_remaining p;
  chunk_remaining := chunk_remaining p;
|}.

Definition set_headers (p : HttpParser) (h : gmap bytes bytes) : HttpParser := {|
  state := state p;
  buffer := buffer p;
  http_major := http_major p;
  http_minor := http_minor p;
  status_code := status_code p;
  reason := reason p;
  headers := h;
  body := body p;
  on_body := on_body p;
  sunk := sunk p;
  content_length := content_length p;
  has_content_length := has_content_length p;
  chunked := chunked p;
  body_remaining := body_remaining p;
  chunk_remaining := chunk_remaining p;
|}.

Definition set_content_length (p : HttpParser) (n : Z) : HttpParser := {|
  state := state p;
  buffer := buffer p;
  http_major := http_major p;
  http_minor := http_minor p;
  status_code := status_code p;
  reason := reason p;
  headers := headers p;
  body := body p;
  on_body := on_body p;
  sunk := sunk p;
  content_length := n;
  has_content_length := true;
  chunked := chunked p;
  body_remaining := body_remaining p;
  chunk_remaining := chunk_remaining p;
|}.

Definition set_chunked (p : HttpParser)  : HttpParser := {|
  state := state p;
  buffer := buffer p;
  http_major := http_major p;
  http_minor := http_minor p;
  status_code := status_code p;
  reason := reason p;
  headers := headers p;
  body := body p;
  on_body := on_body p;
  sunk := sunk p;
  content_length := content_length p;
  has_content_length := has_content_length p;
  chunked := true;
  body_remaining := body_remaining p;
  chunk_remaining := chunk_remaining p;
|}.

Definition set_body_remaining (p : HttpParser) (n : Z) : HttpParser := {|
  state := state p;
  buffer := buffer p;
  http_major := http_major p;
  http_minor := http_minor p;
  status_code := status_code p;
  reason := reason p;
  headers := headers p;
  body := body p;
  on_body := on_body p;
  sunk := sunk p;
  content_length := content_length p;
  has_content_length := has_content_length p;
  chunked := chunked p;
  body_remaining := n;
  chunk_remaining := chunk_remaining p;
|}.

Definition set_chunk_remaining (p : HttpParser) (n : Z) : HttpParser := {|
  state := state p;
  buffer := buffer p;
  http_major := http_major p;
  http_minor := http_minor p;
  status_code := status_code p;
  reason := reason p;
  headers := headers p;
  body := body p;
  on_body := on_body p;
  sunk := sunk p;
  content_length := content_length p;
  has_content_length := has_content_length p;
  chunked := chunked p;
  body_remaining := body_remaining p;
  chunk_remaining := n;
|}.

Definition set_body (p : HttpParser) (b : bytes) : HttpParser := {|
  state := state p;
  buffer := buffer p;
  http_major := http_major p;
  http_minor := http_minor p;
  status_code := status_code p;
  reason := reason p;
  headers := headers p;
  body := b;
  on_body := on_body p;
  sunk := sunk p;
  content_length := content_length p;
  has_content_length := has_content_length p;
  chunked := chunked p;
  body_remaining := body_remaining p;
  chunk_remaining := chunk_remaining p;
|}.

Definition set_sunk (p : HttpParser) (b : bytes) : HttpParser := {|
  state := state p;
  buffer := buffer p;
  http_major := http_major p;
  http_minor := http_minor p;
  status_code := status_code p;
  reason := reason p;
  headers := headers p;
  body := body p;
  on_body := on_body p;
  sunk := b;
  content_length := content_length p;
  has_content_length := has_content_length p;
  chunked := chunked p;
  body_remaining := body_remaining p;
  chunk_remaining := chunk_remaining p;
|}.

(** A parser as constructed, with or without a body callback. *)
Definition new_parser (cb : bool) : HttpParser := {|
  state := kStatusLine; buffer := []; http_major := 0; http_minor := 0;
  status_code := 0; reason := []; headers := ∅; body := []; on_body := cb;
  sunk := []; content_length := 0; has_content_length := false;
  chunked := false; body_remaining := 0; chunk_remaining := 0;
|}.

Definition ended (p : HttpParser) : bool :=
  bool_decide (state p = kComplete) || bool_decide (state p = kError).

(** * Operations *)

(** [Trim] of http_parser.cpp drops spaces and tabs only. *)
Definition Trim (s : bytes) : bytes := trim_by isblank s.

Definition EmitBody (p : HttpParser) (data : bytes) : HttpParser :=
  if decide (data = []) then p
  else if on_body p then set_sunk p (sunk p ++ data)
  else set_body p (body p ++ data).

(** The line without its terminator, and the bytes it took. *)
Definition TakeLine (data : bytes) : option (bytes * nat) :=
  match find_sub CRLF data with
  | Some pos => Some (take pos data, (pos + 2)%nat)
  | None =>
      match find_byte LF data with
      | Some pos => Some (take pos data, (pos + 1)%nat)
      | None => None
      end
  end.

Definition protocol_error (p : HttpParser) (ctx : string) : HttpParser * Result nat :=
  (p, Err (net_error kProtocolError ctx)).
Arguments protocol_error p ctx%_string_scope.

Definition FeedStatusLine (p : HttpParser) (data : bytes) : HttpParser * Result nat :=
  match TakeLine data with
  | None => (p, Ok 0%nat)
  | Some (line, consumed) =>
      if negb (starts_with (lit "HTTP/") line) then
        protocol_error p "malformed HTTP status line"
      else
      let rest := drop 5 line in
      match find_byte " " rest with
      | None => protocol_error p "HTTP status line has no status code"
      | Some space =>
          let version := take space rest in
          match find_byte "." version with
          | None => protocol_error p "malformed HTTP version"
          | Some dot =>
              match ParseInt (take dot version), ParseInt (drop (dot + 1) version) with
              | Some major, Some minor =>
                  let p := set_version p major minor in
                  let remainder := Trim (drop (space + 1) rest) in
                  let code_end := find_byte " " remainder in
                  let code_field := match code_end with
                                    | None => remainder
                                    | Some e => take e remainder
                                    end in
                  match ParseInt code_field with
                  | None => protocol_error p "malformed HTTP status code"
                  | Some code =>
                      let r := match code_end with
                               | None => []
                               | Some e => Trim (drop (e + 1) remainder)
                               end in
                      (set_state (set_status p code r) kHeaders, Ok consumed)
                  end
              | _, _ => protocol_error p "malformed HTTP version"
              end
          end
      end
  end.

(** The blank line that ends the header block. *)
Definition end_headers (p : HttpParser) : HttpParser :=
  if chunked p then set_state p kChunkSize
  else if has_content_length p then
    let p := set_body_remaining p (content_length p) in
    if body_remaining p =? 0 then set_state p kComplete else set_state p kBody
  else set_body_remaining (set_state p kBody) 0.

Section Parser.
(** The width of [size_t] on the target. *)
Context (sm : size_model).

Definition to_size (v : Z) : Z := v mod size_mod sm.

Definition FeedHeaders (p : HttpParser) (data : bytes) : HttpParser * Result nat :=
  match TakeLine data with
  | None => (p, Ok 0%nat)
  | Some (line, consumed) =>
      if decide (line = []) then (end_headers p, Ok consumed) else
      match find_byte ":" line with
      | None => protocol_error p "malformed HTTP header line"
      | Some colon =>
          let name := to_lower (Trim (take colon line)) in
          let value := Trim (drop (colon + 1) line) in
          if decide (name = []) then protocol_error p "empty HTTP header name"
          else if decide (name = lit "content-length") then
            match ParseInt value with
            | None => protocol_error p "malformed Content-Length"
            | Some len =>
                let p := set_content_length p (to_size len) in
                (set_headers p (<[name := value]> (headers p)), Ok consumed)
            end
          else
            let p := if decide (name = lit "transfer-encoding")
                     then match find_sub (lit "chunked") (to_lower value) with
                          | Some _ => set_chunked p
                          | None => p
                          end
                     else p in
            (set_headers p (<[name := value]> (headers p)), Ok consumed)
      end
  end.

Definition FeedBody (p : HttpParser) (data : bytes) : HttpParser * Result nat :=
  if (body_remaining p =? 0) && negb (has_content_length p) then
    (EmitBody p data, Ok (length data))
  else
    let n := Z.min (Z.of_nat (length data)) (body_remaining p) in
    let p := EmitBody p (take (Z.to_nat n) data) in
    let p := set_body_remaining p (body_remaining p - n) in
    let p := if body_remaining p =? 0 then set_state p kComplete else p in
    (p, Ok (Z.to_nat n)).

(** The digit loop of [FeedChunkSize], in [size_t] arithmetic. *)
Fixpoint chunk_size_loop (value : Z) (size_field : bytes) : option Z :=
  match size_field with
  | [] => Some value
  | c :: s =>
      let digit := HexCharToNibble c in
      if digit <? 0 then None else chunk_size_loop (to_size (value * 16 + digit)) s
  end.

Definition FeedChunkSize (p : HttpParser) (data : bytes) : HttpParser * Result nat :=
  match TakeLine data with
  | None => (p, Ok 0%nat)
  | Some (line, consumed) =>
      let size_field := Trim line in
      let size_field := match find_byte ";" size_field with
                        | Some semi => Trim (take semi size_field)
                        | None => size_field
                        end in
      if decide (size_field = []) then protocol_error p "empty chunk size" else
      match chunk_size_loop 0 size_field with
      | None => protocol_error p "malformed chunk size"
      | Some value =>
          if value =? 0 then (set_state p kChunkTrailer, Ok consumed)
          else (set_state (set_chunk_remaining p value) kChunkData, Ok consumed)
      end
  end.

Definition FeedChunkData (p : HttpParser) (data : bytes) : HttpParser * Result nat :=
  let n := Z.min (Z.of_nat (length data)) (chunk_remaining p) in
  let p := EmitBody p (take (Z.to_nat n) data) in
  let p := set_chunk_remaining p (chunk_remaining p - n) in
  let p := if chunk_remaining p =? 0 then set_state p kChunkDataEnd else p in
  (p, Ok (Z.to_nat n)).

Definition FeedChunkDataEnd (p : HttpParser) (data : bytes) : HttpParser * Result nat :=
  if decide (head data = Some LF) then (set_state p kChunkSize, Ok 1%nat)
  else if (length data <? 2)%nat then (p, Ok 0%nat)
  else if decide (take 2 data = CRLF) then (set_state p kChunkSize, Ok 2%nat)
  else protocol_error p "chunk data not terminated by CRLF".

Definition FeedChunkTrailer (p : HttpParser) (data : bytes) : HttpParser * Result nat :=
  match TakeLine data with
  | None => (p, Ok 0%nat)
  | Some (line, consumed) =>
      (if decide (line = []) then set_state p kComplete else p, Ok consumed)
  end.

(** The [switch] of [Feed]. *)
Definition feed_step (p : HttpParser) (rest : bytes) : HttpParser * Result nat :=
  match state p with
  | kStatusLine => FeedStatusLine p rest
  | kHeaders => FeedHeaders p rest
  | kBody => FeedBody p rest
  | kChunkSize => FeedChunkSize p rest
  | kChunkData => FeedChunkData p rest
  | kChunkDataEnd => FeedChunkDataEnd p rest
  | kChunkTrailer => FeedChunkTrailer p rest
  | kComplete | kError => (p, Ok 0%nat)
  end.

(** The [while] loop of [Feed]; every iteration that goes on consumes a byte,
    so the bound of [Feed] is reached only when nothing is left to do: that is
    [Feed_exhausts] of HttpFraming. *)
Fixpoint feed_loop (fuel : nat) (p : HttpParser) (data : bytes) (consumed : nat)
  : HttpParser * Result nat :=
  match fuel with
  | O => (p, Ok consumed)
  | S k =>
      if (consumed <? length data)%nat && negb (ended p) then
        match feed_step p (drop consumed data) with
        | (p, Err e) => (p, Err e)
        | (p, Ok step) =>
            if (step =? 0)%nat then (p, Ok consumed)
            else feed_loop k p data (consumed + step)
        end
      else (p, Ok consumed)
  end.

Definition Feed (p : HttpParser) (incoming : bytes) : HttpParser * Result nat :=
  if ended p then (p, Ok 0%nat) else
  let banked := length (buffer p) in
  let data := buffer p ++ incoming in
  match feed_loop (length data) p data 0 with
  | (p, Err e) => (set_buffer (set_state p kError) [], Err e)
  | (p, Ok consumed) =>
      (set_buffer p (if ended p then [] else drop consumed data),
       Ok (if (banked <? consumed)%nat then consumed - banked else 0)%nat)
  end.

Definition Finish (p : HttpParser) : HttpParser :=
  if ended p then p
  else if bool_decide (state p = kBody) && negb (has_content_length p) && negb (chunked p)
  then set_state p kComplete else p.

(** [std::map::find] of the lowered name; absent is the empty view. *)
Definition GetHeader (p : HttpParser) (name : bytes) : bytes :=
  default [] (headers p !! to_lower (Trim name)).

(** [Reset] keeps the callback, and with it what the callback has received. *)
Definition Reset (p : HttpParser) : HttpParser :=
  set_sunk (new_parser (on_body p)) (sunk p).

Definition OnBody (p : HttpParser) (cb : bool) : HttpParser := {|
  state := state p; buffer := buffer p; http_major := http_major p;
  http_minor := http_minor p; status_code := status_code p; reason := reason p;
  headers := headers p; body := body p; on_body := cb; sunk := sunk p;
  content_length := content_length p; has_content_length := has_content_length p;
  chunked := chunked p; body_remaining := body_remaining p;
  chunk_remaining := chunk_remaining p;
|}.
End Parser.
