(* ===== verification/HttpParserFacts.v ===== *)
(** The response parser's correctness: termination and progress of [Feed], its
    well-formedness invariant, independence from how the stream was split
    across reads, and exact accounting of a body of announced length. *)
From stdpp Require Import base decidable list strings gmap.
From Stdlib Require Import ZArith Ascii Lia.
From S2P Require Import Prelude Errors AtParser HttpParser.

(** * Specification vocabulary *)

(** The states that read a CRLF-terminated line. *)
Definition line_state (p : HttpParser) : bool :=
  match state p with
  | kStatusLine | kHeaders | kChunkSize | kChunkTrailer => true
  | _ => false
  end.

(** The first LF of [s], if any, is preceded by CR. *)
Definition crlf_line (s : bytes) : bool :=
  match find_byte LF s with
  | None => true
  | Some O => false
  | Some (S j) => bool_decide (s !! j = Some CR)
  end.

(** Body bytes the parser has handed on, whichever sink took them. *)
Definition received (p : HttpParser) : nat := (length (body p) + length (sunk p))%nat.

Section Facts.
Context (sm : size_model).
Local Abbreviation feed_step := (feed_step sm).
Local Abbreviation feed_loop := (feed_loop sm).
Local Abbreviation Feed := (Feed sm).

(** The same loop on what is left of the data instead of on an index into it. *)
Fixpoint run (fuel : nat) (p : HttpParser) (s : bytes) : HttpParser * Result bytes :=
  match fuel with
  | O => (p, Ok s)
  | S k =>
      if ended p || bool_decide (s = []) then (p, Ok s) else
      match feed_step p s with
      | (p, Err e) => (p, Err e)
      | (p, Ok n) => if (n =? 0)%nat then (p, Ok s) else run k p (drop n s)
      end
  end.

(** Every line the parser reads out of [s], starting from [p], ends in CRLF.
    Body and chunk bytes are not constrained. *)
Fixpoint clean (fuel : nat) (p : HttpParser) (s : bytes) : bool :=
  match fuel with
  | O => true
  | S k =>
      if ended p || bool_decide (s = []) then true else
      (if line_state p then crlf_line s else true) &&
      match feed_step p s with
      | (_, Err _) => true
      | (p, Ok n) => if (n =? 0)%nat then true else clean k p (drop n s)
      end
  end.

(** What holds between two calls of [Feed]. *)
Record wf (p : HttpParser) : Prop := {
  wf_content : 0 <= content_length p < size_mod sm;
  wf_body : state p = kBody → 0 <= body_remaining p;
  wf_body_len : state p = kBody → has_content_length p = true → 0 < body_remaining p;
  wf_body_close : state p = kBody → has_content_length p = false → body_remaining p = 0;
  wf_chunk : state p = kChunkData → 0 < chunk_remaining p;
}.

(** Between the blank line and the end of a body of announced length, what has
    been handed on and what is still owed add up to the announcement. *)
Record accounted (base : nat) (p : HttpParser) : Prop := {
  acc_before : state p = kStatusLine ∨ state p = kHeaders → received p = base;
  acc_body : state p = kBody → has_content_length p = true →
    chunked p = false ∧ Z.of_nat (received p) - Z.of_nat base + body_remaining p = content_length p;
  acc_done : state p = kComplete → has_content_length p = true → chunked p = false →
    Z.of_nat (received p) - Z.of_nat base = content_length p;
  acc_chunked : state p = kChunkSize ∨ state p = kChunkData ∨ state p = kChunkDataEnd
                ∨ state p = kChunkTrailer → chunked p = true;
}.

(** ** TakeLine *)

Lemma TakeLine_consumed data line n :
  TakeLine data = Some (line, n) → (0 < n <= length data)%nat.
Proof.
  unfold TakeLine. destruct (find_sub CRLF data) as [i|] eqn:E.
  - intros [= <- <-]. apply find_sub_Some in E. apply (f_equal length) in E.
    rewrite !length_app, length_take, length_drop in E. simpl in E. lia.
  - destruct (find_byte LF data) as [i|] eqn:F; [|done]. intros [= <- <-].
    apply find_byte_Some in F as (_ & _ & ?). lia.
Qed.

Lemma find_sub_CRLF_clean s : crlf_line s = true → find_sub CRLF s = pred <$> find_byte LF s.
Proof.
  unfold crlf_line.
  induction s as [|x s IH]; [done|]. cbn [find_byte]. case_decide as Hx; [done|].
  destruct (find_byte LF s) as [[|j]|] eqn:E; simpl; intros H.
  - apply bool_decide_eq_true in H. simplify_eq. destruct s as [|y s]; [done|].
    simpl in E. case_decide; [|by destruct (find_byte LF s)]. by subst.
  - assert (starts_with CRLF (x :: s) = false) as Hs.
    { destruct s as [|y s]; [done|]. simpl in E. case_decide; simplify_eq.
      apply not_true_is_false. intros (r & Hr)%starts_with_spec. simplify_eq/=. }
    unfold CRLF in Hs. simpl in Hs. rewrite Hs. apply bool_decide_eq_true in H. simpl in H.
    rewrite IH; [done|by apply bool_decide_eq_true].
  - assert (starts_with CRLF (x :: s) = false) as Hs.
    { apply not_true_is_false. intros (r & Hr)%starts_with_spec. by simplify_eq/=. }
    unfold CRLF in Hs. simpl in Hs. rewrite Hs, IH by done. done.
Qed.

Lemma TakeLine_clean s : crlf_line s = true →
  TakeLine s = (λ q, (take (pred q) s, S q)) <$> find_byte LF s.
Proof.
  intros H. unfold TakeLine. rewrite find_sub_CRLF_clean by done.
  unfold crlf_line in H. destruct (find_byte LF s) as [[|q]|]; simpl in *; try done.
  by rewrite Nat.add_comm.
Qed.

Lemma crlf_line_app_l x y : crlf_line (x ++ y) = true → crlf_line x = true.
Proof.
  unfold crlf_line. destruct (find_byte LF x) as [q|] eqn:E; [|done].
  rewrite (find_byte_app_l _ _ _ _ E). destruct q as [|q]; [done|].
  apply find_byte_Some in E as (_ & _ & ?). by rewrite lookup_app_l by lia.
Qed.

(** A complete line stays the line it is when more bytes follow. *)
Lemma TakeLine_app x y r : crlf_line (x ++ y) = true →
  TakeLine x = Some r → TakeLine (x ++ y) = Some r.
Proof.
  intros Hc. rewrite TakeLine_clean by (by eapply crlf_line_app_l).
  rewrite (TakeLine_clean _ Hc). destruct (find_byte LF x) as [q|] eqn:E; [|done].
  rewrite (find_byte_app_l _ _ _ _ E). simpl. intros [= <-].
  apply find_byte_Some in E as (_ & _ & ?). by rewrite take_app_le by lia.
Qed.

(** ** One step of the parser *)

(** A line state waits for a line and then consumes exactly that line. *)
Lemma line_step p : line_state p = true →
  ∃ K, (∀ data, feed_step p data =
                match TakeLine data with
                | None => (p, Ok 0%nat)
                | Some (line, consumed) => K line consumed
                end) ∧
       (∀ line n p' m, K line n = (p', Ok m) → m = n).
Proof.
  unfold line_state, HttpParser.feed_step. destruct (state p); intros Hl; try done; clear Hl.
  - eexists; split; [intros data; unfold FeedStatusLine; reflexivity|].
    unfold protocol_error. intros line n p' m H. repeat (case_match; simplify_eq/=; try done).
  - eexists; split; [intros data; unfold FeedHeaders; reflexivity|].
    unfold protocol_error. intros line n p' m H. repeat (case_match; simplify_eq/=; try done).
  - eexists; split; [intros data; unfold FeedChunkSize; reflexivity|].
    unfold protocol_error. intros line n p' m H. repeat (case_match; simplify_eq/=; try done).
  - eexists; split; [intros data; unfold FeedChunkTrailer; reflexivity|].
    intros line n p' m H. by simplify_eq/=.
Qed.

Lemma EmitBody_app p x y : EmitBody (EmitBody p x) y = EmitBody p (x ++ y).
Proof.
  unfold EmitBody. destruct (decide (x = [])) as [->|Hx]; [done|].
  destruct (decide (y = [])) as [->|Hy]; [by rewrite app_nil_r, decide_False|].
  rewrite decide_False by (intros ?; by destruct x).
  destruct (on_body p) eqn:E; simpl; rewrite E;
    [destruct p; simpl; unfold set_sunk; simpl; by rewrite app_assoc|].
  destruct p; simpl; unfold set_body; simpl; by rewrite app_assoc.
Qed.

Lemma EmitBody_fields p x :
  state (EmitBody p x) = state p ∧ body_remaining (EmitBody p x) = body_remaining p ∧
  chunk_remaining (EmitBody p x) = chunk_remaining p ∧
  has_content_length (EmitBody p x) = has_content_length p ∧
  content_length (EmitBody p x) = content_length p ∧ chunked (EmitBody p x) = chunked p ∧
  received (EmitBody p x) = (received p + length x)%nat.
Proof.
  unfold EmitBody, received. destruct (decide (x = [])) as [->|]; [simpl; split_and!; lia || done|].
  destruct (on_body p); simpl; split_and!; try done; rewrite length_app; lia.
Qed.

Lemma feed_step_bound p s p' n : wf p → feed_step p s = (p', Ok n) → (n <= length s)%nat.
Proof.
  intros Hw H. destruct (line_state p) eqn:Hl.
  - destruct (line_step p Hl) as (K & HK & Hn). rewrite HK in H.
    destruct (TakeLine s) as [[l m]|] eqn:E; simplify_eq/=; [|lia].
    apply Hn in H. apply TakeLine_consumed in E. lia.
  - unfold line_state, HttpParser.feed_step in *. destruct (state p) eqn:Es; simplify_eq/=; try lia.
    + unfold FeedBody in H. pose proof (wf_body _ Hw Es). case_match; simplify_eq/=; [done|]. lia.
    + unfold FeedChunkData in H. pose proof (wf_chunk _ Hw Es). simplify_eq/=. lia.
    + unfold FeedChunkDataEnd, protocol_error in H.
      repeat case_match; simplify_eq/=; try lia; [destruct s; simplify_eq/=; lia|].
      match goal with H : (_ <? _)%nat = false |- _ => apply Nat.ltb_ge in H end. lia.
Qed.

(** A step that consumes nothing changes nothing. *)
Lemma feed_step_stall p s p' : wf p → s ≠ [] → ended p = false →
  feed_step p s = (p', Ok 0%nat) → p' = p.
Proof.
  intros Hw Hs He H. destruct (line_state p) eqn:Hl.
  - destruct (line_step p Hl) as (K & HK & Hn). rewrite HK in H.
    destruct (TakeLine s) as [[l m]|] eqn:E; simplify_eq/=; [|done].
    apply Hn in H. apply TakeLine_consumed in E. lia.
  - assert (0 < length s)%nat by (destruct s; simpl; [done|lia]).
    unfold line_state, HttpParser.feed_step in *.
    destruct (state p) eqn:Es; simplify_eq/=.
    + unfold FeedBody in H. pose proof (wf_body_len _ Hw Es).
      destruct (has_content_length p) eqn:Ec; rewrite ?andb_false_r in H; simplify_eq/=; [lia|].
      rewrite (wf_body_close _ Hw Es Ec) in H. simplify_eq/=. lia.
    + unfold FeedChunkData in H. pose proof (wf_chunk _ Hw Es). simplify_eq/=. lia.
    + unfold FeedChunkDataEnd, protocol_error in H. repeat case_match; by simplify_eq/=.
    + unfold ended in He. rewrite Es in He. done.
    + unfold ended in He. rewrite Es in He. done.
Qed.

Lemma size_mod_pos : 0 < size_mod sm.
Proof. by destruct sm. Qed.

Lemma to_size_range v : 0 <= to_size sm v < size_mod sm.
Proof. apply Z.mod_pos_bound, size_mod_pos. Qed.

Lemma chunk_size_loop_range v s n : 0 <= v → chunk_size_loop sm v s = Some n → 0 <= n.
Proof.
  revert v; induction s as [|c s IH]; intros v Hv H; simpl in H; [by simplify_eq|].
  case_match; [done|]. eapply IH; [|done]. apply to_size_range.
Qed.

(** Fields a step of the header states leaves alone, in the form [wf] needs. *)
Local Ltac wf_auto Hw :=
  pose proof (wf_content _ Hw);
  constructor; simpl; intros; try done; try lia; try apply to_size_range.

Lemma feed_step_wf p s p' r : wf p → feed_step p s = (p', r) → wf p'.
Proof.
  intros Hw H. unfold HttpParser.feed_step in H.
  destruct (state p) eqn:Es; simplify_eq/=; try done.
  - unfold FeedStatusLine, protocol_error in H.
    repeat (case_match; simplify_eq/=; try done); try by wf_auto Hw.
    all: constructor; simpl; rewrite ?Es; try done; apply Hw.
  - unfold FeedHeaders, protocol_error in H.
    repeat (case_match; simplify_eq/=; try done).
    all: try (constructor; simpl; rewrite ?Es; try done; first [apply to_size_range | apply Hw]).
    unfold end_headers. pose proof (wf_content _ Hw).
    destruct (chunked p), (has_content_length p) eqn:Ec; simpl; try by wf_auto Hw.
    all: try (destruct (Z.eqb_spec (content_length p) 0)); constructor; simpl; intros;
         rewrite ?Ec in *; try done; lia.
  - unfold FeedBody in H. pose proof (wf_body _ Hw Es).
    destruct (EmitBody_fields p s) as (E1 & E2 & E3 & E4 & E5 & _).
    pose proof (wf_body_close _ Hw Es). pose proof (wf_content _ Hw).
    case_match eqn:Eb; simplify_eq/=.
    { apply andb_true_iff in Eb as [Eb%Z.eqb_eq Ec%negb_true_iff].
      constructor; rewrite ?E1, ?E2, ?E3, ?E4, ?E5, ?Es; simpl; try done; intros; try congruence; lia. }
    destruct (has_content_length p) eqn:Ec;
      [|by match goal with H : _ → body_remaining p = 0 |- _ => rewrite (H eq_refl) in Eb end].
    set (t := take _ _) in *; clearbody t.
    destruct (EmitBody_fields p t) as (F1 & F2 & F3 & F4 & F5 & _).
    rewrite F2. destruct (Z.eqb_spec (body_remaining p - Z.min (Z.of_nat (length s)) (body_remaining p)) 0);
      constructor; simpl; rewrite ?F1, ?F2, ?F3, ?F4, ?F5, ?Es in *; try done; intros; first [congruence | lia].
  - unfold FeedChunkSize, protocol_error in H.
    pose proof (wf_content _ Hw).
    destruct (TakeLine s) as [[l m]|]; simplify_eq/=; [|done].
    case_decide; simplify_eq/=; [done|].
    destruct (chunk_size_loop _ _ _) as [v|] eqn:Ev; simplify_eq/=; [|done].
    apply chunk_size_loop_range in Ev; [|lia].
    destruct (Z.eqb_spec v 0); simplify_eq/=; constructor; simpl; try done; intros; lia.
  - unfold FeedChunkData in H. pose proof (wf_chunk _ Hw Es). pose proof (wf_content _ Hw).
    set (t := take _ _) in *; clearbody t.
    destruct (EmitBody_fields p t) as (F1 & F2 & F3 & F4 & F5 & _).
    simplify_eq/=.
    rewrite F3. destruct (Z.eqb_spec (chunk_remaining p - Z.min (Z.of_nat (length s)) (chunk_remaining p)) 0);
      constructor; simpl; rewrite ?F1, ?F2, ?F3, ?F4, ?F5, ?Es in *; try done; intros; first [congruence | lia].
  - unfold FeedChunkDataEnd, protocol_error in H.
    repeat case_match; simplify_eq/=; try done; by wf_auto Hw.
  - unfold FeedChunkTrailer in H. repeat case_match; simplify_eq/=; try done.
    case_decide; [by wf_auto Hw|done].
Qed.

(** ** More bytes behind the ones a step already acts on *)

(** Either the step is the same step, or it swallowed all it was given and the
    continuation of the body takes up where it stopped. *)
Definition step_extends (p : HttpParser) (x y : bytes) (p' : HttpParser) (n : nat) : Prop :=
  feed_step p (x ++ y) = (p', Ok n) ∨
  (n = length x ∧ ended p' = false ∧ line_state p' = false ∧
   (y ≠ [] → ∃ p'' m, feed_step p' y = (p'', Ok m) ∧ (0 < m)%nat ∧
                      feed_step p (x ++ y) = (p'', Ok (length x + m)%nat))).

Lemma set_body_remaining_twice p v w :
  set_body_remaining (set_body_remaining p v) w = set_body_remaining p w.
Proof. done. Qed.

Lemma set_chunk_remaining_twice p v w :
  set_chunk_remaining (set_chunk_remaining p v) w = set_chunk_remaining p w.
Proof. done. Qed.

Lemma EmitBody_set_body_remaining p v x :
  EmitBody (set_body_remaining p v) x = set_body_remaining (EmitBody p x) v.
Proof. unfold EmitBody. case_decide; [done|]. simpl. by destruct (on_body p). Qed.

Lemma EmitBody_set_chunk_remaining p v x :
  EmitBody (set_chunk_remaining p v) x = set_chunk_remaining (EmitBody p x) v.
Proof. unfold EmitBody. case_decide; [done|]. simpl. by destruct (on_body p). Qed.

Lemma FeedBody_extends p x y p' n :
  wf p → state p = kBody → feed_step p x = (p', Ok n) → step_extends p x y p' n.
Proof.
  intros Hw Es. unfold step_extends, HttpParser.feed_step. rewrite Es. unfold FeedBody.
  destruct (has_content_length p) eqn:Ec.
  - pose proof (wf_body_len _ Hw Es Ec). rewrite !andb_false_r.
    destruct (decide (body_remaining p <= Z.of_nat (length x))) as [Hle|Hlt].
    + rewrite !Z.min_r by (rewrite ?length_app; lia). rewrite take_app_le by lia.
      intros [= <- <-]. by left.
    + rewrite (Z.min_l (Z.of_nat (length x))) by lia.
      rewrite Nat2Z.id, firstn_all. simpl.
      destruct (EmitBody_fields p x) as (F1 & F2 & F3 & F4 & _). rewrite F2.
      rewrite (proj2 (Z.eqb_neq _ 0)) by lia. intros [= <- <-]. right.
      split_and!; [done| unfold ended; simpl; by rewrite F1, Es
                      | unfold line_state; simpl; by rewrite F1, Es |].
      intros Hy. assert (0 < length y)%nat by (destruct y; simpl; [done|lia]).
      simpl. rewrite F1, Es, F4, Ec, andb_false_r.
      rewrite EmitBody_set_body_remaining, EmitBody_app, set_body_remaining_twice. simpl.
      eexists _, _; split_and!; [reflexivity|lia|].
      rewrite length_app.
      replace (Z.min (Z.of_nat (length x + length y)) (body_remaining p)) with
        (Z.of_nat (length x) + Z.min (Z.of_nat (length y)) (body_remaining p - Z.of_nat (length x))) by lia.
      rewrite Z2Nat.inj_add, Nat2Z.id, take_app_add by lia.
      set (d := take _ y). destruct (EmitBody_fields p (x ++ d)) as (_ & G2 & _).
      by rewrite ?G2, Z.sub_add_distr.
  - rewrite (wf_body_close _ Hw Es Ec). simpl. intros [= <- <-]. right.
    destruct (EmitBody_fields p x) as (F1 & F2 & F3 & F4 & _).
    split_and!; [done| unfold ended; by rewrite F1, Es
                | unfold line_state; by rewrite F1, Es |].
    intros Hy. assert (0 < length y)%nat by (destruct y; simpl; [done|lia]).
    rewrite F1, Es, F4, Ec, F2, (wf_body_close _ Hw Es Ec). simpl.
    eexists _, _; split_and!; [reflexivity|lia|]. by rewrite EmitBody_app, length_app.
Qed.

Lemma FeedChunkData_extends p x y p' n :
  wf p → state p = kChunkData → feed_step p x = (p', Ok n) → step_extends p x y p' n.
Proof.
  intros Hw Es. unfold step_extends, HttpParser.feed_step. rewrite Es. unfold FeedChunkData.
  pose proof (wf_chunk _ Hw Es).
  destruct (decide (chunk_remaining p <= Z.of_nat (length x))) as [Hle|Hlt].
  - rewrite !Z.min_r by (rewrite ?length_app; lia). rewrite take_app_le by lia.
    intros [= <- <-]. by left.
  - rewrite (Z.min_l (Z.of_nat (length x))) by lia.
    rewrite Nat2Z.id, firstn_all. simpl.
    destruct (EmitBody_fields p x) as (F1 & _ & F3 & F4 & _). rewrite F3.
    rewrite (proj2 (Z.eqb_neq _ 0)) by lia. intros [= <- <-]. right.
    split_and!; [done| unfold ended; simpl; by rewrite F1, Es
                      | unfold line_state; simpl; by rewrite F1, Es |].
    intros Hy. assert (0 < length y)%nat by (destruct y; simpl; [done|lia]).
    simpl. rewrite F1, Es.
    rewrite EmitBody_set_chunk_remaining, EmitBody_app, set_chunk_remaining_twice. simpl.
    eexists _, _; split_and!; [reflexivity|lia|].
    rewrite length_app.
    replace (Z.min (Z.of_nat (length x + length y)) (chunk_remaining p)) with
      (Z.of_nat (length x) + Z.min (Z.of_nat (length y)) (chunk_remaining p - Z.of_nat (length x))) by lia.
    rewrite Z2Nat.inj_add, Nat2Z.id, take_app_add by lia.
    set (d := take _ y). destruct (EmitBody_fields p (x ++ d)) as (_ & _ & G3 & _).
    by rewrite ?G3, Z.sub_add_distr.
Qed.

Lemma feed_step_extends p x y p' n :
  wf p → (line_state p = true → crlf_line (x ++ y) = true) →
  feed_step p x = (p', Ok n) → (0 < n)%nat → step_extends p x y p' n.
Proof.
  intros Hw Hc H Hn. destruct (line_state p) eqn:Hl.
  { destruct (line_step p Hl) as (K & HK & _). unfold step_extends. rewrite HK in H |- *.
    destruct (TakeLine x) as [[l m]|] eqn:E; [|simplify_eq; lia].
    left. by rewrite (TakeLine_app _ _ _ (Hc eq_refl) E). }
  destruct (state p) eqn:Es; try (unfold line_state in Hl; by rewrite Es in Hl).
  - by apply FeedBody_extends.
  - by apply FeedChunkData_extends.
  - left. unfold HttpParser.feed_step in *. rewrite Es in *.
    unfold FeedChunkDataEnd, protocol_error in *.
    destruct x as [|a [|b x]]; simpl in *; repeat case_match; simplify_eq/=; try done; lia.
  - unfold HttpParser.feed_step in H. rewrite Es in H. simplify_eq. lia.
  - unfold HttpParser.feed_step in H. rewrite Es in H. simplify_eq. lia.
Qed.

Lemma feed_step_error_extends p x y p' e :
  (line_state p = true → crlf_line (x ++ y) = true) →
  feed_step p x = (p', Err e) → feed_step p (x ++ y) = (p', Err e).
Proof.
  intros Hc H. destruct (line_state p) eqn:Hl.
  { destruct (line_step p Hl) as (K & HK & _). rewrite HK in H |- *.
    destruct (TakeLine x) as [[l m]|] eqn:E; [|simplify_eq].
    by rewrite (TakeLine_app _ _ _ (Hc eq_refl) E). }
  unfold line_state, HttpParser.feed_step in *. destruct (state p) eqn:Es; try done.
  - unfold FeedBody in H. case_match; done.
  - unfold FeedChunkDataEnd, protocol_error in *.
    destruct x as [|a [|b x]]; simpl in *; repeat case_match; simplify_eq/=; done.
Qed.

(** ** The loop *)

Lemma ended_step_nil p : ended p = false → state p ≠ kComplete ∧ state p ≠ kError.
Proof. unfold ended. rewrite orb_false_iff, !bool_decide_eq_false. done. Qed.

Lemma run_fuel k k' p s : wf p → (length s <= k)%nat → (length s <= k')%nat →
  run k p s = run k' p s.
Proof.
  revert k' p s; induction k as [|k IH]; intros k' p s Hw H H'.
  { destruct s; [|simpl in H; lia]. destruct k'; [done|]. simpl. by rewrite orb_true_r. }
  destruct k' as [|k'].
  { destruct s; [|simpl in H'; lia]. simpl. by rewrite orb_true_r. }
  simpl. destruct (_ || _) eqn:Es; [done|].
  apply orb_false_iff in Es as [_ Es%bool_decide_eq_false].
  destruct (feed_step p s) as [p' [n|e]] eqn:E; [|done].
  destruct (Nat.eqb_spec n 0); [done|]. assert (0 < length s)%nat by (destruct s; simpl; [done|lia]).
  apply IH; [by eapply feed_step_wf | rewrite length_drop; lia | rewrite length_drop; lia].
Qed.

Definition runs (p : HttpParser) (s : bytes) : HttpParser * Result bytes := run (length s) p s.
Definition cleans (p : HttpParser) (s : bytes) : bool := clean (length s) p s.

Lemma runs_unfold p s : wf p → s ≠ [] → ended p = false →
  runs p s = match feed_step p s with
             | (p', Err e) => (p', Err e)
             | (p', Ok n) => if (n =? 0)%nat then (p', Ok s) else runs p' (drop n s)
             end.
Proof.
  intros Hw Hs He. unfold runs at 1. destruct s as [|a s]; [done|].
  cbn [length run]. rewrite He, bool_decide_false by done. simpl.
  destruct (feed_step p (a :: s)) as [p' [n|e]] eqn:E; [|done].
  destruct (Nat.eqb_spec n 0); [done|].
  apply run_fuel; [by eapply feed_step_wf | rewrite length_drop; simpl; lia | done].
Qed.

Lemma clean_fuel k k' p s : wf p → (length s <= k)%nat → (length s <= k')%nat →
  clean k p s = clean k' p s.
Proof.
  revert k' p s; induction k as [|k IH]; intros k' p s Hw H H'.
  { destruct s; [|simpl in H; lia]. destruct k'; [done|]. simpl. by rewrite orb_true_r. }
  destruct k' as [|k'].
  { destruct s; [|simpl in H'; lia]. simpl. by rewrite orb_true_r. }
  simpl. destruct (_ || _) eqn:Es; [done|].
  apply orb_false_iff in Es as [_ Es%bool_decide_eq_false]. f_equal.
  destruct (feed_step p s) as [p' [n|e]] eqn:E; [|done].
  destruct (Nat.eqb_spec n 0); [done|]. assert (0 < length s)%nat by (destruct s; simpl; [done|lia]).
  apply IH; [by eapply feed_step_wf | rewrite length_drop; lia | rewrite length_drop; lia].
Qed.

Lemma cleans_unfold p s : wf p → s ≠ [] → ended p = false →
  cleans p s = (if line_state p then crlf_line s else true) &&
               match feed_step p s with
               | (_, Err _) => true
               | (p', Ok n) => if (n =? 0)%nat then true else cleans p' (drop n s)
               end.
Proof.
  intros Hw Hs He. unfold cleans at 1. destruct s as [|a s]; [done|].
  cbn [length clean]. rewrite He, bool_decide_false by done. simpl. f_equal.
  destruct (feed_step p (a :: s)) as [p' [n|e]] eqn:E; [|done].
  destruct (Nat.eqb_spec n 0); [done|].
  apply clean_fuel; [by eapply feed_step_wf | rewrite length_drop; simpl; lia | done].
Qed.

Lemma runs_nil p : runs p [] = (p, Ok []).
Proof. done. Qed.

Lemma runs_ended p s : ended p = true → runs p s = (p, Ok s).
Proof. intros H. unfold runs. destruct s; [done|]. simpl. by rewrite H. Qed.

Lemma run_wf k p s : wf p → wf (run k p s).1.
Proof.
  revert p s; induction k as [|k IH]; intros p s Hw; [done|]. simpl.
  destruct (_ || _); [done|].
  destruct (feed_step p s) as [p' [n|e]] eqn:E; pose proof (feed_step_wf _ _ _ _ Hw E); [|done].
  by destruct (n =? 0)%nat; [|apply IH].
Qed.

(** The run over a stream is the run over its first part continued with what
    that part left over. *)
Lemma runs_app p x y : wf p → cleans p (x ++ y) = true →
  runs p (x ++ y) = match runs p x with
                    | (p', Ok r) => runs p' (r ++ y)
                    | (p', Err e) => (p', Err e)
                    end.
Proof.
  remember (length x) as len eqn:Hlen. revert p x Hlen.
  induction len as [len IH] using lt_wf_ind. intros p x -> Hw Hc.
  destruct (decide (x = [])) as [->|Hx]; [done|].
  destruct (ended p) eqn:He; [by rewrite (runs_ended _ x)|].
  assert (x ++ y ≠ []) as Hxy by (by destruct x).
  rewrite cleans_unfold in Hc by done. apply andb_true_iff in Hc as [Hl Hc].
  assert (line_state p = true → crlf_line (x ++ y) = true) as Hl'.
  { intros Hls. by rewrite Hls in Hl. }
  rewrite (runs_unfold p x) by done. destruct (feed_step p x) as [p' [n|e]] eqn:E.
  2: { rewrite runs_unfold by done. by rewrite (feed_step_error_extends _ _ _ _ _ Hl' E). }
  destruct (Nat.eqb_spec n 0) as [->|Hn]; [by rewrite (feed_step_stall p x p')|].
  assert (wf p') as Hw' by (by eapply feed_step_wf).
  pose proof (feed_step_bound _ _ _ _ Hw E) as Hb.
  destruct (feed_step_extends p x y p' n Hw Hl' E ltac:(lia)) as [Hs | (-> & He' & Hl2 & Hs)].
  - rewrite runs_unfold, Hs by done. rewrite Hs in Hc.
    rewrite (proj2 (Nat.eqb_neq n 0) Hn) in *. rewrite drop_app_le in * by lia.
    apply (IH (length (drop n x))); [|done|done|done].
    rewrite length_drop. destruct x; simpl in *; [done|lia].
  - rewrite drop_all, runs_nil. simpl.
    destruct (decide (y = [])) as [->|Hy].
    { rewrite app_nil_r, runs_unfold, E by done.
      by rewrite (proj2 (Nat.eqb_neq _ 0) Hn), drop_all. }
    destruct (Hs Hy) as (p'' & m & E' & Hm & E'').
    rewrite (runs_unfold p), (runs_unfold p'), E', E'' by done.
    rewrite !(proj2 (Nat.eqb_neq _ 0)) by lia. by rewrite drop_app_add.
Qed.

(** What the run over a first part leaves over reads lines as cleanly as the
    whole did. *)
Lemma cleans_app p x y p' r : wf p → cleans p (x ++ y) = true →
  runs p x = (p', Ok r) → cleans p' (r ++ y) = true.
Proof.
  remember (length x) as len eqn:Hlen. revert p x Hlen.
  induction len as [len IH] using lt_wf_ind. intros p x -> Hw Hc Hr.
  destruct (decide (x = [])) as [->|Hx].
  { rewrite runs_nil in Hr. by injection Hr as <- <-. }
  destruct (ended p) eqn:He.
  { rewrite runs_ended in Hr by done. by injection Hr as <- <-. }
  assert (x ++ y ≠ []) as Hxy by (by destruct x).
  pose proof Hc as Hc0. rewrite cleans_unfold in Hc by done. apply andb_true_iff in Hc as [Hl Hc].
  assert (line_state p = true → crlf_line (x ++ y) = true) as Hl'.
  { intros Hls. by rewrite Hls in Hl. }
  rewrite (runs_unfold p x) in Hr by done.
  destruct (feed_step p x) as [q [n|e]] eqn:E; [|done].
  destruct (Nat.eqb_spec n 0) as [->|Hn].
  { apply feed_step_stall in E; [|done..]. by injection Hr as <- <-; subst. }
  assert (wf q) as Hw' by (by eapply feed_step_wf).
  pose proof (feed_step_bound _ _ _ _ Hw E) as Hb.
  destruct (feed_step_extends p x y q n Hw Hl' E ltac:(lia)) as [Hs | (-> & He' & Hl2 & Hs)].
  - rewrite Hs, (proj2 (Nat.eqb_neq n 0) Hn), drop_app_le in Hc by lia.
    apply (IH (length (drop n x)) ltac:(rewrite length_drop; destruct x; simpl in *; [done|lia])
             q (drop n x) eq_refl Hw' Hc Hr).
  - rewrite drop_all, runs_nil in Hr. injection Hr as <- <-. simpl.
    destruct (decide (y = [])) as [->|Hy]; [done|].
    destruct (Hs Hy) as (p'' & m & E' & Hm & E''). rewrite E'' in Hc.
    rewrite cleans_unfold, Hl2, E' by done. simpl.
    rewrite (proj2 (Nat.eqb_neq m 0)) by lia.
    rewrite (proj2 (Nat.eqb_neq _ 0)), drop_app_add in Hc by lia. done.
Qed.

(** ** Feed *)

Lemma EmitBody_set_buffer p b x : EmitBody (set_buffer p b) x = set_buffer (EmitBody p x) b.
Proof. unfold EmitBody. case_decide; [done|]. simpl. by destruct (on_body p). Qed.

(** The banked bytes are read by [Feed] only, never by a step. *)
Lemma feed_step_set_buffer p b s :
  feed_step (set_buffer p b) s =
  (set_buffer (feed_step p s).1 b, (feed_step p s).2).
Proof.
  unfold HttpParser.feed_step. cbn [state set_buffer]. destruct (state p); try done.
  - unfold FeedStatusLine, protocol_error. by repeat case_match; simplify_eq/=.
  - unfold FeedHeaders, protocol_error, end_headers. cbn.
    by repeat case_match; simplify_eq/=.
  - unfold FeedBody. rewrite !EmitBody_set_buffer. cbn [body_remaining set_buffer has_content_length].
    case_match; [done|]. cbn. by case_match.
  - unfold FeedChunkSize, protocol_error. by repeat case_match; simplify_eq/=.
  - unfold FeedChunkData. rewrite !EmitBody_set_buffer. cbn. by case_match.
  - unfold FeedChunkDataEnd, protocol_error. by repeat case_match; simplify_eq/=.
  - unfold FeedChunkTrailer. by repeat case_match; simplify_eq/=.
Qed.

Lemma run_set_buffer k p b s :
  run k (set_buffer p b) s = (set_buffer (run k p s).1 b, (run k p s).2).
Proof.
  revert p s; induction k as [|k IH]; intros p s; [done|]. cbn [run].
  change (ended (set_buffer p b)) with (ended p). case_match; [done|].
  rewrite feed_step_set_buffer. destruct (feed_step p s) as [p' [n|e]]; simpl; [|done].
  by destruct (n =? 0)%nat; [|apply IH].
Qed.

Lemma runs_set_buffer p b s :
  runs (set_buffer p b) s = (set_buffer (runs p s).1 b, (runs p s).2).
Proof. apply run_set_buffer. Qed.

Lemma feed_loop_runs k p data c : wf p → (c <= length data)%nat → (length data - c <= k)%nat →
  match run k p (drop c data) with
  | (p', Err e) => feed_loop k p data c = (p', Err e)
  | (p', Ok r) => ∃ c', feed_loop k p data c = (p', Ok c') ∧ r = drop c' data ∧
                        (c <= c' <= length data)%nat
  end.
Proof.
  revert p c; induction k as [|k IH]; intros p c Hw Hc Hk; simpl.
  { exists c. split_and!; (done || lia). }
  destruct (ended p) eqn:He; simpl.
  { rewrite andb_false_r. exists c. split_and!; (done || lia). }
  rewrite andb_true_r. destruct (Nat.ltb_spec c (length data)) as [Hlt|Hge].
  2: { rewrite bool_decide_true by (apply drop_ge; lia). exists c. split_and!; (done || lia). }
  rewrite bool_decide_false.
  2: { intros E. apply (f_equal length) in E. rewrite length_drop in E. simpl in E. lia. }
  destruct (feed_step p (drop c data)) as [p' [n|e]] eqn:E; [|done].
  pose proof (feed_step_bound _ _ _ _ Hw E) as Hb. rewrite length_drop in Hb.
  apply feed_step_wf in E; [|done].
  destruct (Nat.eqb_spec n 0); [exists c; split_and!; (done || lia)|].
  rewrite drop_drop. specialize (IH p' (c + n)%nat E ltac:(lia) ltac:(lia)).
  destruct (run k p' _) as [q [r|e]]; [|done].
  destruct IH as (c' & H1 & H2 & H3). exists c'. split_and!; (done || lia).
Qed.

Lemma Feed_runs p a : wf p → ended p = false →
  match runs p (buffer p ++ a) with
  | (p', Err e) => Feed p a = (set_buffer (set_state p' kError) [], Err e)
  | (p', Ok r) => ∃ c, Feed p a = (set_buffer p' (if ended p' then [] else r),
                                   Ok (c - length (buffer p))%nat) ∧
                       r = drop c (buffer p ++ a) ∧ (c <= length (buffer p ++ a))%nat
  end.
Proof.
  intros Hw He. unfold HttpParser.Feed. rewrite He.
  pose proof (feed_loop_runs (length (buffer p ++ a)) p (buffer p ++ a) 0 Hw
                ltac:(lia) ltac:(lia)) as H.
  rewrite drop_0 in H. unfold runs. destruct (run _ p _) as [p' [r|e]].
  - destruct H as (c & -> & -> & Hc). exists c. split_and!; [|done|lia].
    do 2 f_equal. destruct (Nat.ltb_spec (length (buffer p)) c); lia.
  - by rewrite H.
Qed.

Lemma set_buffer_twice p b b' : set_buffer (set_buffer p b) b' = set_buffer p b'.
Proof. done. Qed.

Lemma wf_set_buffer p b : wf p → wf (set_buffer p b).
Proof. by intros [? ? ? ? ?]. Qed.

Lemma runs_wf p s : wf p → wf (runs p s).1.
Proof. apply run_wf. Qed.

Lemma Feed_wf p a : wf p → wf (Feed p a).1.
Proof.
  intros Hw. destruct (ended p) eqn:He; [unfold HttpParser.Feed; by rewrite He|].
  pose proof (Feed_runs p a Hw He) as H. pose proof (runs_wf p (buffer p ++ a) Hw) as Hr.
  destruct (runs p _) as [p' [r|e]]; simpl in Hr.
  - destruct H as (c & -> & _). simpl. by apply wf_set_buffer.
  - rewrite H. simpl. destruct Hr. constructor; simpl; done.
Qed.

Lemma new_parser_wf cb : wf (new_parser cb).
Proof. constructor; simpl; try done. split; [lia | apply size_mod_pos]. Qed.

(** The state after feeding [a] and then [b] is the state after feeding both at
    once. *)
Lemma Feed_app p a b : wf p → cleans p (buffer p ++ a ++ b) = true →
  (Feed (Feed p a).1 b).1 = (Feed p (a ++ b)).1.
Proof.
  intros Hw Hc. destruct (ended p) eqn:He.
  { unfold HttpParser.Feed. rewrite He. simpl. by rewrite He. }
  rewrite app_assoc in Hc. pose proof (runs_app _ _ _ Hw Hc) as Happ.
  pose proof (Feed_runs p a Hw He) as Ha. pose proof (Feed_runs p (a ++ b) Hw He) as Hab.
  pose proof (runs_wf p (buffer p ++ a) Hw) as Hw'.
  rewrite app_assoc, Happ in Hab. clear Happ.
  destruct (runs p (buffer p ++ a)) as [p' [r|e]]; [|rewrite Ha, Hab; done].
  destruct Ha as (c & -> & _). simpl in Hw' |- *.
  destruct (ended p') eqn:He'.
  { rewrite runs_ended in Hab by done. destruct Hab as (c' & -> & _).
    unfold HttpParser.Feed. change (ended (set_buffer p' [])) with (ended p').
    by rewrite !He'. }
  pose proof (Feed_runs (set_buffer p' r) b (wf_set_buffer _ _ Hw') He') as Hb.
  rewrite runs_set_buffer in Hb. cbn [buffer set_buffer] in Hb.
  destruct (runs p' (r ++ b)) as [p'' [r''|e'']]; simpl in Hb, Hab.
  - destruct Hb as (c1 & -> & _), Hab as (c2 & -> & _). done.
  - by rewrite Hb, Hab.
Qed.

(** ** Streams read in pieces *)

(** The parser after the receive thread has fed it a sequence of reads. *)
Definition feed_all (p : HttpParser) (pieces : list bytes) : HttpParser :=
  fold_left (λ p a, (Feed p a).1) pieces p.

Lemma clean_set_buffer k p b s : clean k (set_buffer p b) s = clean k p s.
Proof.
  revert p s; induction k as [|k IH]; intros p s; [done|]. cbn [clean].
  change (ended (set_buffer p b)) with (ended p).
  change (line_state (set_buffer p b)) with (line_state p).
  rewrite feed_step_set_buffer. case_match; [done|]. f_equal.
  destruct (feed_step p s) as [q [n|e]]; simpl; [|done]. by rewrite IH.
Qed.

Lemma cleans_ended p s : ended p = true → cleans p s = true.
Proof. intros H. unfold cleans. destruct s; [done|]. simpl. by rewrite H. Qed.

Lemma Feed_cleans p a b : wf p → ended p = false → cleans p (buffer p ++ a ++ b) = true →
  cleans (Feed p a).1 (buffer (Feed p a).1 ++ b) = true.
Proof.
  intros Hw He Hc. rewrite app_assoc in Hc.
  pose proof (Feed_runs p a Hw He) as Ha.
  destruct (runs p (buffer p ++ a)) as [p' [r|e]] eqn:E; [|rewrite Ha; by apply cleans_ended].
  destruct Ha as (c & -> & _). simpl. destruct (ended p') eqn:He'; [by apply cleans_ended|].
  unfold cleans. rewrite clean_set_buffer. by apply (cleans_app p (buffer p ++ a) b p' r).
Qed.

Lemma Feed_ended p a : ended p = true → Feed p a = (p, Ok 0%nat).
Proof. intros H. unfold HttpParser.Feed. by rewrite H. Qed.

Lemma feed_all_ended p pieces : ended p = true → feed_all p pieces = p.
Proof.
  intros H. induction pieces as [|a pieces IH]; [done|]. simpl. by rewrite Feed_ended.
Qed.

Lemma Feed_nil p : wf p → buffer p = [] → (Feed p []).1 = p.
Proof.
  intros Hw Hb. unfold HttpParser.Feed. destruct (ended p) eqn:He; [done|].
  rewrite Hb. simpl. rewrite He. destruct p; simpl in *; by subst.
Qed.

Lemma feed_all_concat p pieces : wf p → buffer p = [] → cleans p (concat pieces) = true →
  feed_all p pieces = (Feed p (concat pieces)).1.
Proof.
  intros Hw Hb Hc.
  assert (∀ q, wf q → cleans q (buffer q ++ concat pieces) = true →
               pieces ≠ [] → feed_all q pieces = (Feed q (concat pieces)).1) as Haux.
  { clear p Hw Hb Hc. induction pieces as [|a ps IH]; intros q Hw Hc Hne; [done|]. simpl.
    destruct (ended q) eqn:He.
    { rewrite !Feed_ended by done. simpl. by apply feed_all_ended. }
    destruct (decide (ps = [])) as [->|Hps]; [simpl; by rewrite app_nil_r|].
    simpl in Hc. rewrite <- (Feed_app q a (concat ps) Hw Hc).
    apply IH; [by apply Feed_wf | by apply Feed_cleans | done]. }
  destruct (decide (pieces = [])) as [->|Hne]; [by rewrite Feed_nil|].
  apply Haux; [done| by rewrite Hb |done].
Qed.

(** ** Accounting for the body *)

Lemma accounted_chunk_data base p q :
  accounted base p →
  state q = kChunkData ∨ state q = kChunkDataEnd → chunked q = chunked p →
  state p = kChunkData → accounted base q.
Proof.
  intros Ha Hs Hc Hp. pose proof (acc_chunked _ _ Ha ltac:(tauto)).
  destruct Hs as [Hs|Hs]; constructor; rewrite Hs; intros; try (by intuition); congruence.
Qed.

Lemma end_headers_accounted base p : state p = kHeaders →
  accounted base p → accounted base (end_headers p).
Proof.
  intros Hs Ha. pose proof (acc_before _ _ Ha (or_intror Hs)) as Hr.
  unfold end_headers. destruct (chunked p) eqn:Hc.
  { constructor; simpl; intros; try done; by destruct_or!. }
  destruct (has_content_length p) eqn:Hh; simpl.
  - destruct (Z.eqb_spec (content_length p) 0); simpl; constructor; simpl; intros; try done;
      try (by destruct_or!); unfold received in *; simpl; try (split; [done|]); lia.
  - constructor; simpl; intros; try done; try (by destruct_or!); congruence.
Qed.

Lemma feed_step_accounted base p s p' r : wf p → accounted base p →
  feed_step p s = (p', r) → is_ok r = true → accounted base p'.
Proof.
  intros Hw Ha H Hok. unfold HttpParser.feed_step in H. destruct (state p) eqn:Es.
  - unfold FeedStatusLine, protocol_error in H.
    pose proof (acc_before _ _ Ha (or_introl Es)) as Hb.
    repeat (case_match; simplify_eq/=; try done).
    all: constructor; simpl; intros; try done; by destruct_or!.
  - unfold FeedHeaders, protocol_error in H.
    pose proof (acc_before _ _ Ha (or_intror Es)) as Hb.
    destruct (TakeLine s) as [[line n]|]; [|by simplify_eq].
    case_decide; [simplify_eq; by apply end_headers_accounted|].
    repeat (case_match; simplify_eq/=; try done).
    all: constructor; simpl; intros; rewrite ?Es in *; try done; by destruct_or!.
  - pose proof (acc_body _ _ Ha Es) as Hb. unfold FeedBody in H.
    destruct (has_content_length p) eqn:Ec; [|rewrite (wf_body_close _ Hw Es Ec) in H].
    + destruct (Hb eq_refl) as [Hch Hb']. rewrite andb_false_r in H.
      pose proof (wf_body_len _ Hw Es Ec).
      set (n := Z.min (Z.of_nat (length s)) (body_remaining p)) in *.
      assert (length (take (Z.to_nat n) s) = Z.to_nat n) as Hlen by (rewrite length_take; lia).
      set (t := take (Z.to_nat n) s) in *.
      destruct (EmitBody_fields p t) as (F1 & F2 & F3 & F4 & F5 & F6 & F7).
      assert (received p + length t = received (EmitBody p t))%nat as Hrec by done.
      clearbody t. simplify_eq/=. rewrite F2.
      destruct (Z.eqb_spec (body_remaining p - n) 0); constructor; simpl; unfold received in *; simpl;
        rewrite ?F1, ?F2, ?F4, ?F5, ?F6, ?Es; intros; try done; try (by destruct_or!);
        try (split; [done|]); lia.
    + simpl in H. simplify_eq/=.
      destruct (EmitBody_fields p s) as (F1 & F2 & F3 & F4 & F5 & F6 & F7).
      constructor; rewrite ?F1, ?F4, ?Es; intros; try (by destruct_or!); congruence.
  - pose proof (acc_chunked _ _ Ha ltac:(tauto)). unfold FeedChunkSize, protocol_error in H.
    repeat (case_match; simplify_eq/=; try done);
      constructor; simpl; intros; rewrite ?Es in *; try done; by destruct_or!.
  - unfold FeedChunkData in H. set (n := Z.min _ _) in *. set (t := take _ s) in *.
    destruct (EmitBody_fields p t) as (F1 & F2 & F3 & F4 & F5 & F6 & F7). clearbody t.
    simplify_eq/=. eapply (accounted_chunk_data base p); [done|..|done]; case_match; simpl;
      rewrite ?F1, ?F6; unfold received in *; simpl; auto.
  - pose proof (acc_chunked _ _ Ha ltac:(tauto)). unfold FeedChunkDataEnd, protocol_error in H.
    repeat (case_match; simplify_eq/=; try done);
      constructor; simpl; intros; rewrite ?Es in *; try done; by destruct_or!.
  - pose proof (acc_chunked _ _ Ha ltac:(tauto)). unfold FeedChunkTrailer in H.
    repeat (case_match; simplify_eq/=; try done);
      constructor; simpl; intros; rewrite ?Es in *; try done; (by destruct_or!) || congruence.
  - by simplify_eq.
  - by simplify_eq.
Qed.

Lemma run_accounted base k p s p' r : wf p → accounted base p →
  run k p s = (p', Ok r) → accounted base p'.
Proof.
  revert p s; induction k as [|k IH]; intros p s Hw Ha H; simpl in H; [by simplify_eq|].
  case_match; [by simplify_eq|].
  destruct (feed_step p s) as [q [n|e]] eqn:E; [|done].
  pose proof (feed_step_accounted base p s q _ Hw Ha E eq_refl).
  case_match; [by simplify_eq|]. eapply IH; [by eapply feed_step_wf|done|done].
Qed.

Lemma accounted_set_buffer base p b : accounted base p → accounted base (set_buffer p b).
Proof. by intros [? ? ? ?]. Qed.

Lemma Feed_accounted base p a : wf p → accounted base p → accounted base (Feed p a).1.
Proof.
  intros Hw Ha. destruct (ended p) eqn:He; [by rewrite Feed_ended|].
  pose proof (Feed_runs p a Hw He) as H. destruct (runs p _) as [p' [r|e]] eqn:E.
  - destruct H as (c & -> & _). simpl. apply accounted_set_buffer.
    by eapply run_accounted.
  - rewrite H. simpl. constructor; simpl; intros; try done; by destruct_or!.
Qed.

Lemma feed_all_accounted base p pieces : wf p → accounted base p →
  wf (feed_all p pieces) ∧ accounted base (feed_all p pieces).
Proof.
  revert p; induction pieces as [|a ps IH]; intros p Hw Ha; [done|].
  apply IH; [by apply Feed_wf | by apply Feed_accounted].
Qed.

Lemma Finish_accounted base p : accounted base p → accounted base (Finish p).
Proof.
  intros Ha. unfold Finish. destruct (ended p); [done|].
  destruct (bool_decide (state p = kBody) && negb (has_content_length p) && negb (chunked p)) eqn:E; [|done].
  apply andb_true_iff in E as [[_ E%negb_true_iff]%andb_true_iff _].
  constructor; simpl; intros; try congruence; by destruct_or!.
Qed.

Lemma Reset_wf p : wf (Reset p).
Proof. constructor; simpl; try done. split; [lia|apply size_mod_pos]. Qed.

Lemma Reset_accounted p : accounted (received (Reset p)) (Reset p).
Proof. constructor; simpl; intros; try done; by destruct_or!. Qed.
End Facts.
