(* ===== verification/HttpResponses.v ===== *)
(** Whole responses: what the parser makes of a well-formed response however its bytes
    were split across reads, for both framings of the body, and what a truncated,
    chunked or oddly framed stream does. *)
From stdpp Require Import base decidable list strings gmap.
From Stdlib Require Import ZArith Ascii Lia.
From S2P Require Import Prelude Errors AtParser HttpParser HttpParserFacts.

(** * The chunk framing [SoftwareHttpClient::Write] and [EndBody] put on the wire
    (src/src/protocol/http/software_http_client.cpp) *)

(** One chunk: size in hexadecimal, payload, and the CRLF that ends it. *)
Definition ChunkFrame (buffer : bytes) : bytes :=
  ToHexString (Z.of_nat (length buffer)) ++ CRLF ++ buffer ++ CRLF.

(** The zero-length chunk and the empty trailer [EndBody] sends. *)
Definition kTerminator : bytes := lit "0" ++ CRLF ++ CRLF.

(** * A response as a server renders it *)

Record response := MkResponse {
  r_major : Z;
  r_minor : Z;
  r_code : Z;
  r_reason : bytes;
  r_headers : list (bytes * bytes);
}.

Definition status_line (r : response) : bytes :=
  lit "HTTP/" ++ to_string (r_major r) ++ lit "." ++ to_string (r_minor r) ++ lit " "
  ++ to_string (r_code r) ++ lit " " ++ r_reason r.

Definition header_line (h : bytes * bytes) : bytes := h.1 ++ lit ": " ++ h.2.

Definition render_lines (ls : list bytes) : bytes := ls ≫= λ l, l ++ CRLF.

(** The head of a response with one more header line, and the blank line. *)
Definition render_head (r : response) (extra : bytes * bytes) : bytes :=
  render_lines (status_line r :: (header_line <$> r_headers r) ++ [header_line extra]) ++ CRLF.

Definition content_length_header (n : nat) : bytes * bytes :=
  (lit "Content-Length", to_string (Z.of_nat n)).
Definition chunked_header : bytes * bytes := (lit "Transfer-Encoding", lit "chunked").

(** Text that survives a header line: no line feed, no blank at either end. *)
Definition trimmed (s : bytes) : Prop := LF ∉ s ∧ trim_by isblank s = s.

#[export] Instance trimmed_dec s : Decision (trimmed s).
Proof. apply _. Defined.

(** A header that does not decide how the body is framed. *)
Definition plain_header (h : bytes * bytes) : Prop :=
  trimmed h.1 ∧ trimmed h.2 ∧ h.1 ≠ [] ∧ (":"%char ∉ h.1) ∧
  to_lower h.1 ≠ lit "content-length" ∧ to_lower h.1 ≠ lit "transfer-encoding".

#[export] Instance plain_header_dec h : Decision (plain_header h).
Proof. apply _. Defined.

Record response_ok (r : response) : Prop := {
  ok_major : 0 <= r_major r <= INT_MAX;
  ok_minor : 0 <= r_minor r <= INT_MAX;
  ok_code : 0 <= r_code r <= INT_MAX;
  ok_reason : trimmed (r_reason r);
  ok_headers : Forall plain_header (r_headers r);
}.

(** The header map the parser builds: names lowered, later ones replacing. *)
Definition header_map (hs : list (bytes * bytes)) : gmap bytes bytes :=
  fold_left (λ m h, <[to_lower h.1 := h.2]> m) hs ∅.

(** What was handed on to the sink in use. *)
Definition delivered (p : HttpParser) : bytes := if on_body p then sunk p else body p.

(** * Lemmas *)

Section Lines.
Context (sm : size_model).

Lemma find_sub_crlf_after line rest : LF ∉ line →
  find_sub CRLF (line ++ CRLF ++ rest) = Some (length line).
Proof.
  induction line as [|c l IH]; intros H; [done|].
  assert (starts_with CRLF ((c :: l) ++ CRLF ++ rest) = false) as Hs.
  { apply not_true_is_false. intros (r & Hr)%starts_with_spec.
    destruct l as [|d l]; simplify_eq/=. set_solver. }
  cbn [app find_sub]. cbn [app] in Hs. rewrite Hs. cbn [app] in IH. rewrite IH; [done|set_solver].
Qed.

Lemma TakeLine_crlf line rest : LF ∉ line →
  TakeLine (line ++ CRLF ++ rest) = Some (line, (length line + 2)%nat).
Proof.
  intros H. unfold TakeLine. rewrite find_sub_crlf_after by done. by rewrite take_app_length.
Qed.

Lemma crlf_line_crlf line rest : LF ∉ line → crlf_line (line ++ CRLF ++ rest) = true.
Proof.
  intros H. unfold crlf_line.
  rewrite find_byte_app_None by (by apply find_byte_None). simpl.
  rewrite Nat.add_1_r. apply bool_decide_eq_true.
  rewrite lookup_app_r by lia. by rewrite Nat.sub_diag.
Qed.

(** A line state that accepts a line goes on with what follows it. *)
Lemma line_advance p p' line rest : wf sm p → line_state p = true → LF ∉ line →
  feed_step sm p (line ++ CRLF ++ rest) = (p', Ok (length line + 2)%nat) →
  runs sm p (line ++ CRLF ++ rest) = runs sm p' rest ∧
  cleans sm p (line ++ CRLF ++ rest) = cleans sm p' rest.
Proof.
  intros Hw Hl Hn Hs.
  assert (ended p = false) as He by (unfold ended, line_state in *; by destruct (state p)).
  assert (line ++ CRLF ++ rest ≠ []) as Hne by (by destruct line).
  assert (drop (length line + 2) (line ++ CRLF ++ rest) = rest) as Hd.
  { by rewrite drop_app_add. }
  rewrite runs_unfold, cleans_unfold, Hs, Hl, crlf_line_crlf, Hd by done. simpl.
  rewrite !(proj2 (Nat.eqb_neq (length line + 2) 0)) by lia. done.
Qed.

Lemma trimmed_hd s c : trimmed s → head s = Some c → isblank c = false.
Proof. intros [_ Ht] H. rewrite <- Ht in H. by eapply trim_by_hd. Qed.

Lemma trimmed_last s c : trimmed s → last s = Some c → isblank c = false.
Proof. intros [_ Ht] H. rewrite <- Ht in H. by eapply trim_by_last. Qed.

Lemma to_string_digits n : 0 <= n → Forall (λ c, isdigit c = true) (to_string n).
Proof.
  intros H. destruct (to_string_nonneg n H) as (_ & Hd & _).
  apply Forall_forall. intros c Hc. rewrite forallb_forall in Hd.
  apply Hd. by apply list_elem_of_In.
Qed.

Lemma not_in_digits c n : 0 <= n → isdigit c = false → c ∉ to_string n.
Proof.
  intros Hn Hc Hin. pose proof (to_string_digits n Hn) as H.
  rewrite Forall_forall in H. rewrite (H c Hin) in Hc. done.
Qed.

Lemma status_line_no_lf r : response_ok r → LF ∉ status_line r.
Proof.
  intros [H1 H2 H3 [H4 _] _]. unfold status_line.
  rewrite !not_elem_of_app.
  split_and!; first [assumption | apply not_in_digits; (lia || done) | decide_now].
Qed.

Lemma find_byte_digits c n rest : 0 <= n → isdigit c = false →
  find_byte c (to_string n ++ c :: rest) = Some (length (to_string n)).
Proof. intros. apply find_byte_app. by apply not_in_digits. Qed.

Lemma Trim_digits n : Trim (to_string n) = to_string n.
Proof. apply trim_by_none; apply minus_or_digits. Qed.

Lemma Trim_code_reason code reason : 0 <= code → trimmed reason →
  Trim (to_string code ++ lit " " ++ reason) =
  if decide (reason = []) then to_string code else to_string code ++ lit " " ++ reason.
Proof.
  intros Hc Hr. destruct (to_string_nonneg code Hc) as (Hne & _).
  destruct (minus_or_digits code) as [Hh Hl].
  assert (∀ t c, head (to_string code ++ t) = Some c → isblank c = false) as Hhd.
  { intros t c H. apply Hh. destruct (to_string code); [done|]. done. }
  destruct (decide (reason = [])) as [->|Hne'].
  - unfold Trim, trim_by. rewrite drop_while_none by apply Hhd.
    unfold drop_while_end. rewrite app_nil_r, rev_app_distr. simpl.
    fold (drop_while_end isblank (to_string code)). by apply drop_while_end_none.
  - apply trim_by_none; [apply Hhd|]. intros c H. apply (trimmed_last reason c Hr).
    rewrite <- H. rewrite app_assoc, last_app. by destruct (last reason) eqn:E;
      [|apply last_None in E].
Qed.

(** The status line of a well-formed response is accepted as it was written. *)
Lemma status_line_step r p rest : response_ok r → state p = kStatusLine →
  feed_step sm p (status_line r ++ CRLF ++ rest) =
  (set_state (set_status (set_version p (r_major r) (r_minor r)) (r_code r) (r_reason r)) kHeaders,
   Ok (length (status_line r) + 2)%nat).
Proof.
  intros Hok Hs. unfold feed_step. rewrite Hs. unfold FeedStatusLine.
  rewrite TakeLine_crlf by (by apply status_line_no_lf).
  destruct Hok as [H1 H2 H3 H4 _]. unfold status_line.
  rewrite starts_with_app. cbn [negb].
  change 5%nat with (length (lit "HTTP/")). rewrite drop_app_length.
  set (ver := to_string (r_major r) ++ lit "." ++ to_string (r_minor r)).
  replace (to_string (r_major r) ++ lit "." ++ to_string (r_minor r) ++ lit " "
           ++ to_string (r_code r) ++ lit " " ++ r_reason r)
    with (ver ++ " "%char :: (to_string (r_code r) ++ lit " " ++ r_reason r))
    by (unfold ver; by rewrite <- !app_assoc).
  assert (" "%char ∉ ver) as Hv.
  { unfold ver. rewrite !not_elem_of_app.
    split_and!; first [apply not_in_digits; (lia || done) | decide_now]. }
  rewrite (find_byte_app _ _ _ Hv), take_app_length, drop_app_S. unfold ver at 1.
  change (lit "." ++ to_string (r_minor r)) with ("."%char :: to_string (r_minor r)) at 1.
  rewrite find_byte_digits by (lia || done). unfold ver.
  rewrite take_app_length.
  change (lit "." ++ to_string (r_minor r)) with ("."%char :: to_string (r_minor r)).
  rewrite drop_app_S, !ParseInt_to_string by (unfold INT_MIN; lia).
  rewrite Trim_code_reason by (lia || done). case_decide as Hr.
  - rewrite (proj2 (find_byte_None _ _)) by (apply not_in_digits; (lia || done)).
    rewrite ParseInt_to_string by (unfold INT_MIN; lia). by rewrite Hr.
  - change (lit " " ++ r_reason r) with (" "%char :: r_reason r).
    rewrite find_byte_digits by (lia || done). rewrite take_app_length, drop_app_S.
    rewrite ParseInt_to_string by (unfold INT_MIN; lia).
    unfold Trim. by rewrite (proj2 H4).
Qed.

Lemma Trim_space v : trimmed v → Trim (lit " " ++ v) = v.
Proof.
  intros Hv. unfold Trim, trim_by. change (drop_while isblank (lit " " ++ v)) with (drop_while isblank v).
  rewrite drop_while_none by (intros c Hc; by eapply trimmed_hd).
  apply drop_while_end_none. intros c Hc. by eapply trimmed_last.
Qed.

Lemma header_line_no_lf h : trimmed h.1 → trimmed h.2 → LF ∉ header_line h.
Proof.
  intros [H1 _] [H2 _]. unfold header_line. rewrite !not_elem_of_app.
  split_and!; first [assumption | decide_now].
Qed.

(** What the header step does once the line is split into name and value. *)
Definition apply_header (p : HttpParser) (name value : bytes) : HttpParser :=
  let p := if decide (name = lit "content-length")
           then set_content_length p (to_size sm (default 0 (ParseInt value)))
           else if decide (name = lit "transfer-encoding")
           then match find_sub (lit "chunked") (to_lower value) with
                | Some _ => set_chunked p
                | None => p
                end
           else p in
  set_headers p (<[name := value]> (headers p)).

Lemma apply_content_length p v n : ParseInt v = Some n →
  apply_header p (lit "content-length") v =
  set_headers (set_content_length p (to_size sm n)) (<[lit "content-length" := v]> (headers p)).
Proof. intros H. unfold apply_header. by rewrite decide_True, H. Qed.

Lemma apply_chunked p :
  apply_header p (lit "transfer-encoding") (lit "chunked") =
  set_headers (set_chunked p) (<[lit "transfer-encoding" := lit "chunked"]> (headers p)).
Proof. unfold apply_header. rewrite decide_False by decide_now. by rewrite decide_True. Qed.

Lemma header_line_step h p rest :
  state p = kHeaders → trimmed h.1 → trimmed h.2 → h.1 ≠ [] → ":"%char ∉ h.1 →
  (to_lower h.1 = lit "content-length" → is_Some (ParseInt h.2)) →
  feed_step sm p (header_line h ++ CRLF ++ rest) =
  (apply_header p (to_lower h.1) h.2, Ok (length (header_line h) + 2)%nat).
Proof.
  intros Hs H1 H2 Hne Hc Hcl. unfold feed_step. rewrite Hs. unfold FeedHeaders.
  rewrite TakeLine_crlf by (by apply header_line_no_lf).
  rewrite decide_False by (unfold header_line; by destruct h.1).
  set (n := length (header_line h)). unfold header_line.
  change (lit ": " ++ h.2) with (":"%char :: (lit " " ++ h.2)).
  rewrite find_byte_app, take_app_length, drop_app_S, Trim_space by done.
  unfold Trim. rewrite (proj2 H1). unfold apply_header.
  rewrite decide_False by (by destruct h.1).
  destruct (decide (to_lower h.1 = lit "content-length")) as [E|E].
  - destruct (Hcl E) as [v ->]. done.
  - case_decide; [|done]. by case_match.
Qed.

Lemma plain_header_step h p rest : state p = kHeaders → plain_header h →
  feed_step sm p (header_line h ++ CRLF ++ rest) =
  (set_headers p (<[to_lower h.1 := h.2]> (headers p)), Ok (length (header_line h) + 2)%nat).
Proof.
  intros Hs (H1 & H2 & H3 & H4 & H5 & H6).
  rewrite header_line_step by done. unfold apply_header. by rewrite !decide_False by done.
Qed.

Lemma set_headers_same p : set_headers p (headers p) = p.
Proof. by destruct p. Qed.

Lemma render_lines_cons l ls rest :
  render_lines (l :: ls) ++ rest = l ++ CRLF ++ (render_lines ls ++ rest).
Proof. unfold render_lines. simpl. by rewrite <- !app_assoc. Qed.

(** A block of framing-neutral headers only fills the map. *)
Lemma plain_headers_advance hs p rest : wf sm p → state p = kHeaders → Forall plain_header hs →
  let p' := set_headers p (fold_left (λ m h, <[to_lower h.1 := h.2]> m) hs (headers p)) in
  wf sm p' ∧
  runs sm p (render_lines (header_line <$> hs) ++ rest) = runs sm p' rest ∧
  cleans sm p (render_lines (header_line <$> hs) ++ rest) = cleans sm p' rest.
Proof.
  intros Hw Hs HF. revert p Hw Hs. induction HF as [|h hs Hh HF IH]; intros p Hw Hs.
  { simpl. by rewrite set_headers_same. }
  cbn zeta. rewrite fmap_cons, render_lines_cons.
  pose proof (plain_header_step h p (render_lines (header_line <$> hs) ++ rest) Hs Hh) as Hst.
  assert (line_state p = true) as Hl by (unfold line_state; by rewrite Hs).
  pose proof (feed_step_wf _ _ _ _ _ Hw Hst) as Hw'.
  assert (LF ∉ header_line h) as Hlf by (destruct Hh as (? & ? & _); by apply header_line_no_lf).
  destruct (line_advance _ _ _ _ Hw Hl Hlf Hst) as [-> ->].
  apply (IH (set_headers p _) Hw' Hs).
Qed.

Lemma blank_line_step p rest : state p = kHeaders →
  feed_step sm p ([] ++ CRLF ++ rest) = (end_headers p, Ok (length ([] : bytes) + 2)%nat).
Proof. intros Hs. unfold feed_step. rewrite Hs. unfold FeedHeaders. by rewrite (TakeLine_crlf []) by apply not_elem_of_nil. Qed.

(** The parser as it stands after the head of a response. *)
Definition after_head (p : HttpParser) (r : response) (extra : bytes * bytes) : HttpParser :=
  let p := set_status (set_version p (r_major r) (r_minor r)) (r_code r) (r_reason r) in
  let p := set_headers (set_state p kHeaders)
             (fold_left (λ m h, <[to_lower h.1 := h.2]> m) (r_headers r) (headers p)) in
  end_headers (apply_header p (to_lower extra.1) extra.2).

Lemma head_advance p r extra rest :
  wf sm p → state p = kStatusLine → response_ok r →
  trimmed extra.1 → trimmed extra.2 → extra.1 ≠ [] → ":"%char ∉ extra.1 →
  (to_lower extra.1 = lit "content-length" → is_Some (ParseInt extra.2)) →
  wf sm (after_head p r extra) ∧
  runs sm p (render_head r extra ++ rest) = runs sm (after_head p r extra) rest ∧
  cleans sm p (render_head r extra ++ rest) = cleans sm (after_head p r extra) rest.
Proof.
  intros Hw Hs Hok H1 H2 H3 H4 H5. unfold render_head.
  rewrite <- app_assoc, render_lines_cons.
  pose proof (status_line_step r p (render_lines ((header_line <$> r_headers r) ++ [header_line extra])
                                      ++ CRLF ++ rest) Hok Hs) as Hst.
  assert (line_state p = true) as Hl by (unfold line_state; by rewrite Hs).
  pose proof (feed_step_wf _ _ _ _ _ Hw Hst) as Hw1.
  destruct (line_advance _ _ _ _ Hw Hl (status_line_no_lf r Hok) Hst) as [-> ->]. clear Hst.
  unfold render_lines. rewrite bind_app, <- app_assoc. fold (render_lines (header_line <$> r_headers r)).
  change ([header_line extra] ≫= λ l, l ++ CRLF) with (render_lines [header_line extra]).
  destruct (plain_headers_advance (r_headers r) _
              (render_lines [header_line extra] ++ CRLF ++ rest) Hw1 eq_refl (ok_headers _ Hok))
    as (Hw2 & -> & ->).
  rewrite render_lines_cons. cbn [headers set_state set_status set_version] in *.
  set (q := set_headers _ _) in *.
  assert (state q = kHeaders) as Hq by done.
  pose proof (header_line_step extra q (render_lines [] ++ CRLF ++ rest) Hq H1 H2 H3 H4 H5) as Hst.
  assert (LF ∉ header_line extra) as Hlf by (by apply header_line_no_lf).
  pose proof (feed_step_wf _ _ _ _ _ Hw2 Hst) as Hw3.
  destruct (line_advance _ _ _ _ Hw2 ltac:(unfold line_state; by rewrite Hq) Hlf Hst) as [-> ->].
  clear Hst. change (render_lines [] ++ CRLF ++ rest) with ([] ++ CRLF ++ rest).
  set (q' := apply_header q _ _) in *.
  assert (state q' = kHeaders) as Hq'.
  { unfold q', apply_header. repeat case_decide; try case_match; done. }
  pose proof (blank_line_step q' rest Hq') as Hst.
  pose proof (feed_step_wf _ _ _ _ _ Hw3 Hst) as Hw4.
  destruct (line_advance _ _ [] rest Hw3 ltac:(unfold line_state; by rewrite Hq') (not_elem_of_nil _) Hst)
    as [-> ->]. done.
Qed.
End Lines.

(** * Chunk framing *)

Section Chunks.
Context (sm : size_model).

Lemma fold_mod base ds v M : 0 < M →
  fold_left (λ a d, a * base + d) ds (v mod M) mod M =
  fold_left (λ a d, a * base + d) ds v mod M.
Proof.
  intros HM. revert v; induction ds as [|d ds IH]; intros v; simpl.
  { by rewrite Z.mod_mod by lia. }
  rewrite <- IH, <- (IH (v * base + d)). do 2 f_equal.
  rewrite <- Z.add_mod_idemp_l, Z.mul_mod_idemp_l, Z.add_mod_idemp_l by lia. done.
Qed.

(** The digit loop computes the number in [size_t] arithmetic. *)
Lemma chunk_size_loop_value s v : 0 <= v < size_mod sm →
  Forall (λ c, 0 <= HexCharToNibble c) s →
  chunk_size_loop sm v s =
  Some (fold_left (λ a d, a * 16 + d) (HexCharToNibble <$> s) v mod size_mod sm).
Proof.
  intros Hv HF. revert v Hv. induction HF as [|c s Hc HF IH]; intros v Hv; simpl.
  { by rewrite Z.mod_small. }
  rewrite (proj2 (Z.ltb_ge _ 0)) by done. rewrite IH by apply to_size_range.
  unfold to_size. by rewrite fold_mod by apply size_mod_pos.
Qed.

Lemma nibble_facts c : 0 <= HexCharToNibble c →
  isblank c = false ∧ c ≠ ";"%char ∧ c ≠ LF.
Proof. byte_cases c. Qed.

Lemma hex_line s : Forall (λ c, 0 <= HexCharToNibble c) s →
  Trim s = s ∧ find_byte ";" s = None ∧ LF ∉ s.
Proof.
  intros H. rewrite Forall_forall in H. split_and!.
  - apply trim_by_none; intros c Hc; apply nibble_facts, H;
      [by apply head_Some_elem_of | by apply last_Some_elem_of].
  - apply find_byte_None. intros Hin. by destruct (nibble_facts _ (H _ Hin)) as (_ & ? & _).
  - intros Hin. by destruct (nibble_facts _ (H _ Hin)) as (_ & _ & ?).
Qed.

Lemma hex_size_step p n rest :
  state p = kChunkSize → 0 <= n < size_mod sm →
  let s := ToHexString n in
  LF ∉ s ∧
  feed_step sm p (s ++ CRLF ++ rest) =
  (if n =? 0 then set_state p kChunkTrailer else set_state (set_chunk_remaining p n) kChunkData,
   Ok (length s + 2)%nat).
Proof.
  intros Hs Hn. assert (0 <= n < 2 ^ 64) as Hn64 by (destruct sm; simpl in Hn; lia).
  destruct (ToHexString_spec n Hn64) as (Hne & Hd & Hv). cbn zeta.
  destruct (hex_line _ Hd) as (Ht & Hsemi & Hlf). split; [done|].
  unfold feed_step. rewrite Hs. unfold FeedChunkSize.
  rewrite TakeLine_crlf, Ht, Hsemi, decide_False by done.
  rewrite chunk_size_loop_value by (done || (split; [done|apply size_mod_pos])).
  unfold digits_value in Hv. rewrite Hv, Z.mod_small by done. by destruct (n =? 0).
Qed.

(** Everything of the response except its body and the framing counters. *)
Definition same_head (p q : HttpParser) : Prop :=
  status_code q = status_code p ∧ reason q = reason p ∧ headers q = headers p ∧
  http_major q = http_major p ∧ http_minor q = http_minor p ∧ on_body q = on_body p ∧
  chunked q = chunked p.

Lemma EmitBody_delivered p d :
  delivered (EmitBody p d) = delivered p ++ d ∧ same_head p (EmitBody p d).
Proof.
  unfold EmitBody, delivered, same_head. case_decide; subst; [by rewrite app_nil_r|].
  destruct (on_body p) eqn:E; simpl; by rewrite E.
Qed.

Lemma same_head_trans p q r : same_head p q → same_head q r → same_head p r.
Proof. unfold same_head. intuition congruence. Qed.

Lemma runs_step p p' s rest n : wf sm p → ended p = false → line_state p = false →
  feed_step sm p (s ++ rest) = (p', Ok n) → n = length s → s ≠ [] →
  wf sm p' ∧ runs sm p (s ++ rest) = runs sm p' rest ∧
  cleans sm p (s ++ rest) = cleans sm p' rest.
Proof.
  intros Hw He Hl Hst -> Hs. split; [by eapply feed_step_wf|].
  assert (s ++ rest ≠ []) by (by destruct s).
  assert (length s ≠ 0%nat) by (by destruct s).
  rewrite runs_unfold, cleans_unfold, Hst, Hl by done. simpl.
  rewrite !(proj2 (Nat.eqb_neq (length s) 0)), drop_app_length by done. done.
Qed.

(** One chunk is taken off the stream whole and its payload delivered. *)
Lemma chunk_advance p d rest :
  wf sm p → state p = kChunkSize → d ≠ [] → Z.of_nat (length d) < size_mod sm →
  ∃ p', wf sm p' ∧ state p' = kChunkSize ∧ delivered p' = delivered p ++ d ∧ same_head p p' ∧
        runs sm p (ChunkFrame d ++ rest) = runs sm p' rest ∧
        cleans sm p (ChunkFrame d ++ rest) = cleans sm p' rest.
Proof.
  intros Hw Hs Hd Hlen. assert (0 < Z.of_nat (length d)) by (destruct d; simpl; [done|lia]).
  unfold ChunkFrame. set (h := ToHexString _).
  replace ((h ++ CRLF ++ d ++ CRLF) ++ rest) with (h ++ CRLF ++ (d ++ (CRLF ++ rest)))
    by (by rewrite <- !app_assoc).
  destruct (hex_size_step p (Z.of_nat (length d)) (d ++ CRLF ++ rest) Hs ltac:(lia)) as [Hlf Hst].
  rewrite (proj2 (Z.eqb_neq _ 0)) in Hst by lia. fold h in Hst, Hlf.
  pose proof (feed_step_wf _ _ _ _ _ Hw Hst) as Hw1.
  destruct (line_advance _ _ _ _ _ Hw ltac:(unfold line_state; by rewrite Hs) Hlf Hst) as [-> ->].
  clear Hst. set (q := set_state _ _) in *.
  destruct (EmitBody_delivered q d) as [Hdel Hsame].
  destruct (EmitBody_fields q d) as (_ & _ & F3 & _).
  set (q2 := set_state (set_chunk_remaining (EmitBody q d) 0) kChunkDataEnd).
  assert (feed_step sm q (d ++ CRLF ++ rest) = (q2, Ok (length d))) as Hst.
  { unfold feed_step. cbn [state q set_state]. unfold FeedChunkData.
    rewrite Z.min_r by (rewrite length_app; cbn; lia). cbn [chunk_remaining q set_state set_chunk_remaining].
    rewrite Nat2Z.id, take_app_length.
    change (set_state (set_chunk_remaining p (Z.of_nat (length d))) kChunkData) with q.
    rewrite F3. cbn [chunk_remaining q set_state set_chunk_remaining].
    rewrite Z.sub_diag. done. }
  destruct (runs_step q q2 d (CRLF ++ rest) _ Hw1 eq_refl eq_refl Hst eq_refl Hd) as (Hw2 & -> & ->).
  clear Hst.
  destruct (runs_step q2 (set_state q2 kChunkSize) CRLF rest 2 Hw2 eq_refl eq_refl eq_refl eq_refl)
    as (Hw3 & -> & ->); [done|].
  exists (set_state q2 kChunkSize). split_and!; try done.
Qed.

Lemma chunks_advance ds p rest :
  wf sm p → state p = kChunkSize →
  Forall (λ d, d ≠ [] ∧ Z.of_nat (length d) < size_mod sm) ds →
  ∃ p', wf sm p' ∧ state p' = kChunkSize ∧ delivered p' = delivered p ++ concat ds ∧
        same_head p p' ∧
        runs sm p (concat (ChunkFrame <$> ds) ++ rest) = runs sm p' rest ∧
        cleans sm p (concat (ChunkFrame <$> ds) ++ rest) = cleans sm p' rest.
Proof.
  intros Hw Hs HF. revert p Hw Hs. induction HF as [|d ds [Hd Hl] HF IH]; intros p Hw Hs.
  { exists p. simpl. rewrite app_nil_r. unfold same_head. by split_and!. }
  rewrite fmap_cons. cbn [concat]. rewrite <- app_assoc.
  destruct (chunk_advance p d (concat (ChunkFrame <$> ds) ++ rest) Hw Hs Hd Hl)
    as (p1 & Hw1 & Hs1 & Hd1 & Hh1 & -> & ->).
  destruct (IH p1 Hw1 Hs1) as (p2 & Hw2 & Hs2 & Hd2 & Hh2 & -> & ->).
  exists p2. split_and!; try done; [|by eapply same_head_trans].
  by rewrite Hd2, Hd1, <- app_assoc.
Qed.

Lemma terminator_advance p : wf sm p → state p = kChunkSize →
  ∃ p', state p' = kComplete ∧ delivered p' = delivered p ∧ same_head p p' ∧
        runs sm p kTerminator = (p', Ok []) ∧ cleans sm p kTerminator = true.
Proof.
  intros Hw Hs.
  destruct (hex_size_step p 0 CRLF Hs ltac:(split; [done|apply size_mod_pos])) as [Hlf Hst].
  pose proof (feed_step_wf _ _ _ _ _ Hw Hst) as Hw1.
  destruct (line_advance _ _ _ _ _ Hw ltac:(unfold line_state; by rewrite Hs) Hlf Hst) as [E1 E2].
  change (ToHexString 0 ++ CRLF ++ CRLF) with kTerminator in *. clear Hst.
  cbn [Z.eqb] in *. set (q := set_state p kChunkTrailer) in *.
  assert (feed_step sm q ([] ++ CRLF ++ []) = (set_state q kComplete, Ok 2%nat)) as Hst by done.
  destruct (line_advance _ _ _ [] [] Hw1 eq_refl (not_elem_of_nil _) Hst) as [E3 E4].
  exists (set_state q kComplete). split_and!; try done.
Qed.
End Chunks.

(** * The head of either kind of response *)

Lemma content_length_name n : to_lower (content_length_header n).1 = lit "content-length".
Proof. reflexivity. Qed.

Lemma chunked_name : to_lower chunked_header.1 = lit "transfer-encoding".
Proof. reflexivity. Qed.

Lemma header_map_snoc hs h : header_map (hs ++ [h]) = <[to_lower h.1 := h.2]> (header_map hs).
Proof. unfold header_map. by rewrite fold_left_app. Qed.

(** The parser once the header lines of [r] are in. *)
Definition head_read (cb : bool) (r : response) : HttpParser :=
  set_headers (set_state (set_status (set_version (new_parser cb) (r_major r) (r_minor r))
                            (r_code r) (r_reason r)) kHeaders) (header_map (r_headers r)).

Lemma after_head_content_length sm cb r n : Z.of_nat n <= INT_MAX →
  after_head sm (new_parser cb) r (content_length_header n) =
  end_headers (set_headers (set_content_length (head_read cb r) (Z.of_nat n))
                 (header_map (r_headers r ++ [content_length_header n]))).
Proof.
  intros Hn. unfold after_head. rewrite header_map_snoc, content_length_name.
  rewrite (apply_content_length _ _ _ (Z.of_nat n)).
  - unfold to_size. rewrite Z.mod_small by (unfold INT_MAX in *; destruct sm; simpl; lia).
    reflexivity.
  - apply ParseInt_to_string. unfold INT_MIN. lia.
Qed.

Lemma after_head_chunked sm cb r :
  after_head sm (new_parser cb) r chunked_header =
  set_state (set_headers (set_chunked (head_read cb r))
               (header_map (r_headers r ++ [chunked_header]))) kChunkSize.
Proof.
  unfold after_head. rewrite header_map_snoc, chunked_name.
  change (chunked_header.2) with (lit "chunked"). by rewrite apply_chunked.
Qed.

(** A body of announced length is delivered whole and completes the response. *)
Lemma announced_body_advance sm q b :
  wf sm q → state q = kBody → has_content_length q = true →
  body_remaining q = Z.of_nat (length b) →
  ∃ q', runs sm q b = (q', Ok []) ∧ cleans sm q b = true ∧ state q' = kComplete ∧
        same_head q q' ∧ delivered q' = delivered q ++ b.
Proof.
  intros Hw Hs Hh Hb. pose proof (wf_body_len _ _ Hw Hs Hh).
  assert (length b ≠ 0%nat) by lia. assert (b ≠ []) by (by destruct b).
  destruct (EmitBody_delivered q b) as [Hd Hsame]. destruct (EmitBody_fields q b) as (_ & E2 & _).
  assert (feed_step sm q b = (set_state (set_body_remaining (EmitBody q b) 0) kComplete,
                              Ok (length b))) as Hstep.
  { unfold feed_step. rewrite Hs. unfold FeedBody.
    by rewrite Hh, andb_false_r, Hb, Z.min_id, Nat2Z.id, firstn_all, E2, Hb, Z.sub_diag. }
  assert (ended q = false) as He by (unfold ended; by rewrite Hs).
  assert (line_state q = false) as Hl by (unfold line_state; by rewrite Hs).
  eexists. rewrite runs_unfold, cleans_unfold, Hstep, Hl by done. simpl.
  rewrite !(proj2 (Nat.eqb_neq (length b) 0)), drop_all, runs_nil by done.
  split_and!; [reflexivity|done|done|done|]. unfold delivered in *. simpl. done.
Qed.

(** The same from the blank line on, for a body that may be empty. *)
Lemma announced_end_advance sm q b :
  wf sm (end_headers q) → chunked q = false → has_content_length q = true →
  content_length q = Z.of_nat (length b) → delivered q = [] →
  ∃ q', runs sm (end_headers q) b = (q', Ok []) ∧ cleans sm (end_headers q) b = true ∧
        state q' = kComplete ∧ same_head q q' ∧ delivered q' = b.
Proof.
  intros Hw Hc Hh Hl Hd. unfold end_headers in *. rewrite Hc, Hh in *.
  change (content_length (set_body_remaining q (content_length q))) with (content_length q) in *.
  rewrite Hl in *. destruct b as [|c b].
  - change (Z.of_nat (length []) =? 0) with true in *.
    exists (set_state (set_body_remaining q 0) kComplete).
    split_and!; first [apply runs_nil | done].
  - rewrite (proj2 (Z.eqb_neq _ 0)) in * by (simpl; lia).
    destruct (announced_body_advance sm _ (c :: b) Hw eq_refl Hh eq_refl)
      as (q' & H1 & H2 & H3 & H4 & H5).
    exists q'. split_and!; [exact H1|exact H2|exact H3|exact H4|].
    rewrite H5. change (delivered q ++ c :: b = c :: b). by rewrite Hd.
Qed.

Lemma head_read_delivered cb r n m :
  delivered (set_headers (set_content_length (head_read cb r) n) m) = [].
Proof. by destruct cb. Qed.

Lemma chunked_start_delivered cb r m :
  delivered (set_state (set_headers (set_chunked (head_read cb r)) m) kChunkSize) = [].
Proof. by destruct cb. Qed.

(** From the run of the parser over the whole stream to any sequence of reads. *)
Lemma feed_all_completes sm p reads q : wf sm p → buffer p = [] → ended p = false →
  runs sm p (concat reads) = (q, Ok []) → cleans sm p (concat reads) = true →
  state q = kComplete → feed_all sm p reads = set_buffer q [].
Proof.
  intros Hw Hb He Hr Hc Hs. rewrite feed_all_concat by done.
  pose proof (Feed_runs sm p (concat reads) Hw He) as HF.
  rewrite Hb in HF. cbn [app] in HF. rewrite Hr in HF. destruct HF as (c & -> & _).
  unfold ended. by rewrite Hs.
Qed.

Lemma content_length_read sm cb (r : response) (b : bytes) (reads : list bytes) :
  response_ok r → Z.of_nat (length b) <= INT_MAX →
  concat reads = render_head r (content_length_header (length b)) ++ b →
  let p := feed_all sm (new_parser cb) reads in
  state p = kComplete ∧ http_major p = r_major r ∧ http_minor p = r_minor r ∧
  status_code p = r_code r ∧ reason p = r_reason r ∧
  headers p = header_map (r_headers r ++ [content_length_header (length b)]) ∧
  delivered p = b.
Proof.
  intros Hok Hb Hr. pose proof (new_parser_wf sm cb) as Hw. set (n := length b) in *.
  assert (is_Some (ParseInt (to_string (Z.of_nat n)))) as Hp.
  { exists (Z.of_nat n). apply ParseInt_to_string. unfold INT_MIN. lia. }
  destruct (head_advance sm (new_parser cb) r (content_length_header n) b Hw eq_refl Hok)
    as (Hwq & Hrun & Hcl); [decide_now| |discriminate|decide_now|done|].
  { split; [apply not_in_digits; (lia || done) | apply Trim_digits]. }
  rewrite <- Hr in Hrun, Hcl. rewrite (after_head_content_length sm cb r n Hb) in Hwq, Hrun, Hcl.
  destruct (announced_end_advance sm _ b Hwq eq_refl eq_refl eq_refl (head_read_delivered _ _ _ _))
    as (q' & Hrun' & Hcl' & Hst & Hsame & Hdel).
  cbn zeta. rewrite (feed_all_completes sm _ reads q') by (by rewrite ?Hrun, ?Hcl).
  destruct Hsame as (S1 & S2 & S3 & S4 & S5 & S6 & _).
  split_and!; first [exact Hst | exact Hdel | exact S1 | exact S2 | exact S3 | exact S4 | exact S5].
Qed.

(** * Properties *)

(** C1: how the transport split the stream across reads does not matter. For a
    parser between responses and any two sequences of reads that carry the same
    bytes, if every line read out of that stream ends in CRLF (body bytes are
    unconstrained), both leave the parser in the same state: same phase, status,
    headers, delivered body, framing counters and banked remainder. (Of a line that
    ends in a bare LF, [HttpFraming.bare_lf_split_dependence] shows that the split
    does matter.) *)
Theorem Feed_split_invariant sm (p : HttpParser) (reads reads' : list bytes) :
  wf sm p → buffer p = [] → concat reads = concat reads' →
  cleans sm p (concat reads) = true →
  feed_all sm p reads = feed_all sm p reads'.
Proof.
  intros Hw Hb He Hc. rewrite !feed_all_concat; try done; by rewrite <- ?He.
Qed.

Lemma Feed_split_invariant_witness :
  let s := lit "HTTP/1.1 200 OK" ++ CRLF ++ lit "Content-Length: 3" ++ CRLF ++ CRLF ++ [LF; LF; CR] in
  feed_all Size32 (new_parser true) [s] = feed_all Size32 (new_parser true) ((λ c, [c]) <$> s).
Proof.
  apply (Feed_split_invariant Size32 (new_parser true)).
  - apply new_parser_wf.
  - reflexivity.
  - vm_compute. reflexivity.
  - vm_compute. reflexivity.
Defined.

(** C30: a response with a body of announced length is read back as it was sent,
    however it was split. Once the reads carrying the status line, the headers
    with [Content-Length], the blank line and the body are fed, the parser is
    complete and holds the version, status code, reason, lowered header map and
    exactly the body. *)
Theorem content_length_roundtrip sm cb (r : response) (b : bytes) (reads : list bytes) :
  response_ok r → Z.of_nat (length b) <= INT_MAX →
  concat reads = render_head r (content_length_header (length b)) ++ b →
  let p := feed_all sm (new_parser cb) reads in
  state p = kComplete ∧ http_major p = r_major r ∧ http_minor p = r_minor r ∧
  status_code p = r_code r ∧ reason p = r_reason r ∧
  headers p = header_map (r_headers r ++ [content_length_header (length b)]) ∧
  delivered p = b.
Proof. apply content_length_read. Qed.

Definition sample_response : response :=
  MkResponse 1 1 200 (lit "OK") [(lit "Server", lit "esp"); (lit "X-A", lit "b c")].

Lemma sample_response_ok : response_ok sample_response.
Proof. constructor; try decide_now; by split. Qed.

Lemma content_length_roundtrip_witness :
  let b := lit "hello" in
  let s := render_head sample_response (content_length_header (length b)) ++ b in
  state (feed_all Size32 (new_parser false) [take 7 s; drop 7 s]) = kComplete.
Proof.
  cbn zeta.
  apply (content_length_roundtrip Size32 false sample_response (lit "hello")
           [take 7 (render_head sample_response (content_length_header (length (lit "hello"))) ++ lit "hello");
            drop 7 (render_head sample_response (content_length_header (length (lit "hello"))) ++ lit "hello")]).
  - apply sample_response_ok.
  - vm_compute. discriminate.
  - vm_compute. reflexivity.
Defined.

(** C31: a chunked response, as the request writer's own [ChunkFrame] and
    terminator lay out its body, is read back as it was sent, however it was
    split: complete, with the version, status, reason and lowered header map, and
    the chunks' payloads delivered in order with no framing bytes. *)
Theorem chunked_roundtrip sm cb (r : response) (ds reads : list bytes) :
  response_ok r → Forall (λ d, d ≠ [] ∧ Z.of_nat (length d) < size_mod sm) ds →
  concat reads = render_head r chunked_header ++ concat (ChunkFrame <$> ds) ++ kTerminator →
  let p := feed_all sm (new_parser cb) reads in
  state p = kComplete ∧ http_major p = r_major r ∧ http_minor p = r_minor r ∧
  status_code p = r_code r ∧ reason p = r_reason r ∧
  headers p = header_map (r_headers r ++ [chunked_header]) ∧ delivered p = concat ds.
Proof.
  intros Hok Hds Hr. pose proof (new_parser_wf sm cb) as Hw.
  destruct (head_advance sm (new_parser cb) r chunked_header
              (concat (ChunkFrame <$> ds) ++ kTerminator) Hw eq_refl Hok)
    as (Hwq & Hrun & Hcl); [decide_now|decide_now|discriminate|decide_now|done|].
  rewrite <- Hr in Hrun, Hcl. rewrite after_head_chunked in Hwq, Hrun, Hcl.
  pose proof (chunked_start_delivered cb r (header_map (r_headers r ++ [chunked_header]))) as Hd0.
  destruct (chunks_advance sm ds _ kTerminator Hwq eq_refl Hds)
    as (p1 & Hw1 & Hs1 & Hd1 & Hh1 & Hrun1 & Hcl1).
  destruct (terminator_advance sm p1 Hw1 Hs1) as (q & Hs2 & Hd2 & Hh2 & Hrun2 & Hcl2).
  pose proof (same_head_trans _ _ _ Hh1 Hh2) as (S1 & S2 & S3 & S4 & S5 & S6 & _).
  cbn zeta. rewrite (feed_all_completes sm _ reads q);
    [|done|done|done|by rewrite Hrun, Hrun1|by rewrite Hcl, Hcl1|done].
  assert (delivered q = concat ds) as Hdel by (by rewrite Hd2, Hd1, Hd0).
  split_and!; first [exact Hs2 | exact Hdel | exact S1 | exact S2 | exact S3 | exact S4 | exact S5].
Qed.

Lemma chunked_roundtrip_witness :
  let ds := [lit "Wiki"; lit "pedia"] in
  let s := render_head sample_response chunked_header ++ concat (ChunkFrame <$> ds) ++ kTerminator in
  state (feed_all Size64 (new_parser true) ((λ c, [c]) <$> s)) = kComplete.
Proof.
  cbn zeta. apply (chunked_roundtrip Size64 true sample_response [lit "Wiki"; lit "pedia"]).
  - apply sample_response_ok.
  - repeat constructor; try discriminate.
  - vm_compute. reflexivity.
Defined.
