(* ===== verification/HttpFraming.v ===== *)
(** How a response body ends: exact accounting of an announced length, what a
    truncated or close-delimited body comes to, progress of [Feed], and the
    places where framing arithmetic wraps. *)
From stdpp Require Import base decidable list strings gmap.
From Stdlib Require Import ZArith Ascii Lia.
From S2P Require Import Prelude Errors AtParser HttpParser HttpParserFacts HttpResponses.

(** ** Lemmas *)

(** When the loop stops without an error nothing more can be taken off what is
    left: it is empty, the response has ended, or the step waits for more. *)
Lemma run_exhausts sm k p s p' r : wf sm p → (length s <= k)%nat →
  run sm k p s = (p', Ok r) →
  r = [] ∨ ended p' = true ∨ feed_step sm p' r = (p', Ok 0%nat).
Proof.
  revert p s; induction k as [|k IH]; intros p s Hw Hk H; simpl in H.
  { destruct s; [|simpl in Hk; lia]. simplify_eq. by left. }
  destruct (ended p) eqn:He; simpl in H; [simplify_eq; auto|].
  case_bool_decide; [simplify_eq; auto|].
  destruct (feed_step sm p s) as [q [n|e]] eqn:E; [|done].
  destruct (Nat.eqb_spec n 0) as [->|Hn].
  - simplify_eq. pose proof (feed_step_stall sm p r p' Hw H0 He E). subst. auto.
  - assert (0 < length s)%nat by (destruct s; simpl; [done|lia]).
    eapply IH; [by eapply feed_step_wf | | done]. rewrite length_drop; lia.
Qed.

(** The parser once a head framing the body by [Content-Length] is in. *)
Definition head_with_length (sm : size_model) (cb : bool) (r : response) (v : Z) : HttpParser :=
  set_headers (set_content_length (head_read cb r) (to_size sm v))
    (header_map (r_headers r ++ [(lit "Content-Length", to_string v)])).

Lemma to_string_trimmed v : trimmed (to_string v).
Proof.
  split; [|apply Trim_digits]. unfold to_string.
  destruct (v <? 0) eqn:E; apply Z.ltb_nlt in E || apply Z.ltb_lt in E.
  - rewrite not_elem_of_cons. split; [decide_now|].
    pose proof (not_in_digits LF (- v) ltac:(lia) eq_refl) as H. unfold to_string in H.
    by rewrite (proj2 (Z.ltb_ge _ _)) in H by lia.
  - pose proof (not_in_digits LF v ltac:(lia) eq_refl) as H. unfold to_string in H.
    by rewrite (proj2 (Z.ltb_ge _ _)) in H by lia.
Qed.

Lemma length_head_advance sm cb r v rest :
  response_ok r → INT_MIN <= v <= INT_MAX →
  let s := render_head r (lit "Content-Length", to_string v) ++ rest in
  let q := end_headers (head_with_length sm cb r v) in
  wf sm q ∧ runs sm (new_parser cb) s = runs sm q rest ∧
  cleans sm (new_parser cb) s = cleans sm q rest.
Proof.
  intros Hok Hv. cbn zeta.
  pose proof (ParseInt_to_string v Hv) as Hp.
  destruct (head_advance sm (new_parser cb) r (lit "Content-Length", to_string v) rest
              (new_parser_wf sm cb) eq_refl Hok) as (H1 & H2 & H3);
    [decide_now|apply to_string_trimmed|discriminate|decide_now|by exists v|].
  assert (after_head sm (new_parser cb) r (lit "Content-Length", to_string v) =
          end_headers (head_with_length sm cb r v)) as E.
  { unfold after_head. f_equal. unfold head_with_length. rewrite header_map_snoc.
    change (to_lower (lit "Content-Length", to_string v).1) with (lit "content-length").
    by rewrite (apply_content_length _ _ _ v). }
  by rewrite E in H1, H2, H3.
Qed.

(** A body shorter than announced leaves the parser in the body, owing the rest. *)
Lemma short_body_advance sm q b : wf sm q → state q = kBody → has_content_length q = true →
  Z.of_nat (length b) < body_remaining q →
  ∃ q', runs sm q b = (q', Ok []) ∧ cleans sm q b = true ∧ state q' = kBody ∧
        has_content_length q' = true ∧ body_remaining q' = body_remaining q - Z.of_nat (length b).
Proof.
  intros Hw Hs Hh Hb. destruct b as [|c b'] eqn:Eb.
  { exists q. rewrite runs_nil. simpl. split_and!; (done || lia). }
  rewrite <- Eb in *. assert (b ≠ []) by (by subst). clear Eb.
  assert (length b ≠ 0%nat) by (by destruct b).
  destruct (EmitBody_fields q b) as (E1 & E2 & _ & E4 & _).
  set (q' := set_body_remaining (EmitBody q b) (body_remaining q - Z.of_nat (length b))).
  assert (feed_step sm q b = (q', Ok (length b))) as Hst.
  { unfold feed_step. rewrite Hs. unfold FeedBody. rewrite Hh, andb_false_r.
    rewrite Z.min_l, Nat2Z.id, firstn_all, E2 by lia. cbn [body_remaining set_body_remaining].
    by rewrite (proj2 (Z.eqb_neq _ 0)) by lia. }
  destruct (runs_step sm q q' b [] (length b) Hw) as (_ & H1 & H2); try done.
  - unfold ended. by rewrite Hs.
  - unfold line_state. by rewrite Hs.
  - by rewrite app_nil_r.
  - rewrite app_nil_r in H1, H2. exists q'. rewrite H1, H2. split_and!; try done.
    + by rewrite <- Hs, <- E1.
    + by rewrite <- Hh, <- E4.
Qed.

(** From the run over the stream to any reads, when the stream ends mid-response. *)
Lemma feed_all_pending sm p reads q r : wf sm p → buffer p = [] → ended p = false →
  runs sm p (concat reads) = (q, Ok r) → cleans sm p (concat reads) = true →
  ended q = false → feed_all sm p reads = set_buffer q r.
Proof.
  intros Hw Hb He Hr Hc Hs. rewrite feed_all_concat by done.
  pose proof (Feed_runs sm p (concat reads) Hw He) as HF.
  rewrite Hb in HF. cbn [app] in HF. rewrite Hr in HF. destruct HF as (c & -> & _).
  by rewrite Hs.
Qed.

(** The stream ended inside a body of announced length. *)
Lemma feed_all_in_body sm cb reads q :
  runs sm (new_parser cb) (concat reads) = (q, Ok []) →
  cleans sm (new_parser cb) (concat reads) = true →
  state q = kBody → has_content_length q = true →
  let p := feed_all sm (new_parser cb) reads in
  state p = kBody ∧ has_content_length p = true ∧ body_remaining p = body_remaining q.
Proof.
  intros Hr Hc Hs Hh. cbn zeta. rewrite (feed_all_pending sm _ reads q []); try done.
  - apply new_parser_wf.
  - unfold ended. by rewrite Hs.
Qed.

(** A digit string of a chunk-size line, whatever number it spells. *)
Lemma chunk_size_line_step sm p s rest : state p = kChunkSize → s ≠ [] →
  Forall (λ c, 0 <= HexCharToNibble c) s →
  feed_step sm p (s ++ CRLF ++ rest) =
  (let n := digits_value 16 (HexCharToNibble <$> s) mod size_mod sm in
   if n =? 0 then set_state p kChunkTrailer else set_state (set_chunk_remaining p n) kChunkData,
   Ok (length s + 2)%nat).
Proof.
  intros Hs Hne Hd. destruct (hex_line _ Hd) as (Ht & Hsemi & Hlf).
  unfold feed_step. rewrite Hs. unfold FeedChunkSize.
  rewrite TakeLine_crlf, Ht, Hsemi, decide_False by done.
  rewrite chunk_size_loop_value by (done || (split; [done|apply size_mod_pos])).
  unfold digits_value. cbn zeta. by case_match.
Qed.

(** What the blank line makes of a head that announces a length. *)
Lemma end_headers_body q : chunked q = false → has_content_length q = true →
  content_length q ≠ 0 →
  state (end_headers q) = kBody ∧ has_content_length (end_headers q) = true ∧
  body_remaining (end_headers q) = content_length q.
Proof.
  intros Hc Hh Hl. unfold end_headers. rewrite Hc, Hh.
  cbn [body_remaining set_body_remaining]. by rewrite (proj2 (Z.eqb_neq _ 0)).
Qed.

Lemma end_headers_length sm cb r v : to_size sm v ≠ 0 →
  let q := end_headers (head_with_length sm cb r v) in
  state q = kBody ∧ has_content_length q = true ∧ body_remaining q = to_size sm v.
Proof. intros Hv. by apply (end_headers_body (head_with_length sm cb r v)). Qed.

(** A body shorter than announced, however it was read. *)
Lemma short_body_read sm cb (r : response) (n : nat) (b : bytes) (reads : list bytes) :
  response_ok r → Z.of_nat n <= INT_MAX → (length b < n)%nat →
  concat reads = render_head r (content_length_header n) ++ b →
  let p := feed_all sm (new_parser cb) reads in
  state p = kBody ∧ body_remaining p = Z.of_nat n - Z.of_nat (length b) ∧ Finish p = p.
Proof.
  intros Hok Hn Hb Hr.
  destruct (length_head_advance sm cb r (Z.of_nat n) b Hok) as (Hw & Hrun & Hcl);
    [unfold INT_MIN; lia|].
  change (lit "Content-Length", to_string (Z.of_nat n)) with (content_length_header n) in *.
  rewrite <- Hr in Hrun, Hcl.
  assert (to_size sm (Z.of_nat n) = Z.of_nat n) as Hsz.
  { unfold to_size. apply Z.mod_small. unfold INT_MAX in *. destruct sm; simpl; lia. }
  pose proof (end_headers_length sm cb r (Z.of_nat n)) as (Hs & Hh & Hbr); [rewrite Hsz; lia|].
  rewrite Hsz in Hbr.
  destruct (short_body_advance sm _ b Hw Hs Hh) as (q & H1 & H2 & H3 & H4 & H5); [lia|].
  cbn zeta. rewrite (feed_all_pending sm _ reads q []); try done.
  - unfold Finish. change (ended (set_buffer q [])) with (ended q).
    assert (ended q = false) as -> by (unfold ended; by rewrite H3).
    change (has_content_length (set_buffer q [])) with (has_content_length q).
    rewrite H4, andb_false_r. simpl. split_and!; [done|lia|done].
  - apply new_parser_wf.
  - by rewrite Hrun.
  - by rewrite Hcl.
  - unfold ended. by rewrite H3.
Qed.

(** ** Properties *)

(** a response that announced its length is complete only when exactly that
    many body bytes have been handed on. Whatever the reads were, from a reset
    parser and even after [Finish], a complete response with a [Content-Length]
    and no chunking delivered neither more nor less than it announced. *)
Theorem complete_body_exact sm (p : HttpParser) (reads : list bytes) :
  let q := Finish (feed_all sm (Reset p) reads) in
  state q = kComplete → has_content_length q = true → chunked q = false →
  Z.of_nat (received q) = Z.of_nat (received (Reset p)) + content_length q.
Proof.
  cbn zeta. intros Hs Hh Hc.
  destruct (feed_all_accounted sm (received (Reset p)) (Reset p) reads (Reset_wf sm p) (Reset_accounted p))
    as [_ Ha].
  pose proof (acc_done _ _ (Finish_accounted _ _ Ha) Hs Hh Hc). lia.
Qed.

Lemma complete_body_exact_witness :
  Z.of_nat (received (Finish (feed_all Size32 (Reset (new_parser false))
    [lit "HTTP/1.1 200 OK" ++ CRLF ++ lit "Content-Length: 2" ++ CRLF ++ CRLF ++ lit "hi there"]))) = 0 + 2.
Proof.
  apply (complete_body_exact Size32 (new_parser false)
    [lit "HTTP/1.1 200 OK" ++ CRLF ++ lit "Content-Length: 2" ++ CRLF ++ CRLF ++ lit "hi there"]);
    vm_compute; reflexivity.
Defined.

(** a truncated body is not presented as a whole one. When the peer closes
    after fewer bytes than [Content-Length] announced, [Finish] does not complete
    the response: the parser is still in the body, owing the difference. *)
Theorem truncated_body_incomplete sm cb (r : response) (n : nat) (b : bytes) (reads : list bytes) :
  response_ok r → Z.of_nat n <= INT_MAX → (length b < n)%nat →
  concat reads = render_head r (content_length_header n) ++ b →
  let p := Finish (feed_all sm (new_parser cb) reads) in
  state p = kBody ∧ body_remaining p = Z.of_nat n - Z.of_nat (length b).
Proof.
  intros Hok Hn Hb Hr. destruct (short_body_read sm cb r n b reads Hok Hn Hb Hr) as (Hs & Hrem & Hf).
  cbn zeta. by rewrite Hf.
Qed.

Lemma truncated_body_incomplete_witness :
  state (Finish (feed_all Size32 (new_parser false)
    [render_head sample_response (content_length_header 5); lit "hell"])) = kBody.
Proof.
  apply (truncated_body_incomplete Size32 false sample_response 5 (lit "hell")
    [render_head sample_response (content_length_header 5); lit "hell"]).
  - apply sample_response_ok.
  - vm_compute. discriminate.
  - vm_compute. repeat constructor.
  - vm_compute. reflexivity.
Defined.

(** [Feed] terminates having consumed all it can. After a call that neither
    failed nor ended the response, the bytes kept for the next call are none, or
    bytes of which the step that reads them consumes nothing. *)
Theorem Feed_exhausts sm (p p' : HttpParser) (incoming : bytes) (n : nat) :
  wf sm p → Feed sm p incoming = (p', Ok n) → ended p' = false →
  buffer p' = [] ∨ feed_step sm p' (buffer p') = (p', Ok 0%nat).
Proof.
  intros Hw HF He'. destruct (ended p) eqn:He; [rewrite Feed_ended in HF by done; congruence|].
  pose proof (Feed_runs sm p incoming Hw He) as H.
  destruct (runs sm p (buffer p ++ incoming)) as [q [r|e]] eqn:E; [|rewrite H in HF; done].
  destruct H as (c & HFq & _). rewrite HFq in HF. simplify_eq.
  change (ended (set_buffer q _)) with (ended q) in He'. rewrite He'. cbn [buffer set_buffer].
  destruct (run_exhausts sm _ _ _ _ _ Hw (le_n _) E) as [->|[?|Hst]]; [by left|congruence|].
  right. by rewrite feed_step_set_buffer, Hst.
Qed.

Lemma Feed_exhausts_witness :
  let p := (Feed Size32 (new_parser false) (lit "HTTP/1.1 200")).1 in
  buffer p = [] ∨ feed_step Size32 p (buffer p) = (p, Ok 0%nat).
Proof.
  cbn zeta. apply (Feed_exhausts Size32 (new_parser false) _ (lit "HTTP/1.1 200") 0).
  - apply new_parser_wf.
  - vm_compute. reflexivity.
  - vm_compute. reflexivity.
Defined.

(** a negative [Content-Length] is not refused. The [int] the header parses
    to is cast to [size_t], so a head announcing [v < 0] opens a body of
    [2^32 + v] (or [2^64 + v]) bytes that the exchange then waits for. *)
Theorem negative_content_length_wraps sm cb (r : response) (v : Z) (reads : list bytes) :
  response_ok r → INT_MIN <= v < 0 →
  concat reads = render_head r (lit "Content-Length", to_string v) →
  let p := feed_all sm (new_parser cb) reads in
  state p = kBody ∧ has_content_length p = true ∧ body_remaining p = size_mod sm + v.
Proof.
  intros Hok Hv Hr.
  destruct (length_head_advance sm cb r v [] Hok) as (Hw & Hrun & Hcl);
    [unfold INT_MAX; lia|].
  rewrite app_nil_r, <- Hr in Hrun, Hcl.
  assert (to_size sm v = size_mod sm + v) as Hsz.
  { unfold INT_MIN in *. unfold to_size. symmetry.
    apply (Z.mod_unique v (size_mod sm) (-1)); [left|]; destruct sm; simpl; lia. }
  pose proof (end_headers_length sm cb r v) as (Hs & Hh & Hbr);
    [unfold INT_MIN in *; destruct sm; simpl in Hsz; lia|].
  rewrite <- Hsz, <- Hbr. rewrite runs_nil in Hrun.
  exact (feed_all_in_body sm cb reads _ Hrun Hcl Hs Hh).
Qed.

Lemma negative_content_length_wraps_witness :
  body_remaining (feed_all Size32 (new_parser false)
    [render_head sample_response (lit "Content-Length", to_string (-1))]) = 4294967295.
Proof.
  apply (negative_content_length_wraps Size32 false sample_response (-1)
    [render_head sample_response (lit "Content-Length", to_string (-1))]).
  - apply sample_response_ok.
  - split; [discriminate|reflexivity].
  - vm_compute. reflexivity.
Defined.

(** the chunk-size number is computed modulo [size_t]. A size line spelling a
    nonzero multiple of the modulus in hex is taken for the last chunk: the
    parser goes to the trailer and the chunk's payload is read as trailer lines. *)
Theorem chunk_size_wraps_to_end sm (p : HttpParser) (s rest : bytes) :
  state p = kChunkSize → s ≠ [] → Forall (λ c, 0 <= HexCharToNibble c) s →
  digits_value 16 (HexCharToNibble <$> s) mod size_mod sm = 0 →
  feed_step sm p (s ++ CRLF ++ rest) = (set_state p kChunkTrailer, Ok (length s + 2)%nat).
Proof. intros Hs Hne Hd Hv. rewrite chunk_size_line_step by done. by rewrite Hv. Qed.

Lemma chunk_size_wraps_to_end_witness :
  let p := set_state (new_parser false) kChunkSize in
  feed_step Size32 p (lit "100000000" ++ CRLF ++ lit "data") = (set_state p kChunkTrailer, Ok 11%nat).
Proof.
  cbn zeta. apply (chunk_size_wraps_to_end Size32 (set_state (new_parser false) kChunkSize)
                     (lit "100000000") (lit "data")).
  - reflexivity.
  - discriminate.
  - repeat constructor; vm_compute; discriminate.
  - vm_compute. reflexivity.
Defined.

(** A response whose status line ends in a bare LF. *)
Definition bare_lf_response : bytes :=
  lit "HTTP/1.1 200 OK" ++ [LF] ++ lit "Content-Length: 0" ++ CRLF ++ CRLF.

(** with a bare LF the split does matter. The same bytes in one read and
    one byte at a time leave the parser in different states: [TakeLine] looks
    for CRLF before LF, so with both in view the header line becomes part of
    the reason phrase and the response never completes. *)
Theorem bare_lf_split_dependence sm :
  state (feed_all sm (new_parser false) ((λ c, [c]) <$> bare_lf_response)) = kComplete ∧
  state (feed_all sm (new_parser false) [bare_lf_response]) = kBody ∧
  reason (feed_all sm (new_parser false) [bare_lf_response]) =
    lit "OK" ++ [LF] ++ lit "Content-Length: 0".
Proof. destruct sm; vm_compute; by split_and!. Qed.
