(* ===== verification/ResponseParser.v ===== *)
(** The AT response parser (src/src/at_channel/response_parser.cpp). *)
From stdpp Require Import base decidable list strings gmap.
From Stdlib Require Import ZArith Ascii Lia.
From S2P Require Import Prelude Errors.

Record ParsedAtResponse := MkParsed {
  p_ok : bool;
  p_error : AtError;
  p_lines : list bytes;
}.

Definition empty_response : ParsedAtResponse := MkParsed false (MkAtError kCommandError []) [].

Definition TrimSpace (s : bytes) : bytes := trim_by isspace s.

(** The decimal digits at the front of a code field. The C++ accumulates in an
    [int]; past ten digits that overflows, which the model does not follow. *)
Fixpoint leading_code (code : Z) (s : bytes) : Z :=
  match s with
  | [] => code
  | c :: s => if isdigit c then leading_code (code * 10 + digit_val c) s else code
  end.

Definition CME : bytes := lit "+CME ERROR:".
Definition CMS : bytes := lit "+CMS ERROR:".

(** [IsStatusLine]: the error it leaves in [out_error], for a final status line. *)
Definition IsStatusLine (line : bytes) : option AtError :=
  let trimmed := TrimSpace line in
  if decide (trimmed = lit "OK") then Some (MkAtError kCommandError [])
  else if decide (trimmed = lit "ERROR") then Some (MkAtError kCommandError [])
  else if starts_with CME trimmed then
    let code_str := TrimSpace (drop 11 trimmed) in
    Some (MkAtErrorNum kCmeError (leading_code 0 code_str) code_str)
  else if starts_with CMS trimmed then
    let code_str := TrimSpace (drop 11 trimmed) in
    Some (MkAtErrorNum kCmsError (leading_code 0 code_str) code_str)
  else if decide (trimmed = lit ">") then Some (MkAtError kCommandError [])
  else None.

(** The [while] loop of [ParseResponse]; each iteration but the last consumes a
    CRLF, so [length raw] iterations reach the end. *)
Fixpoint parse_loop (fuel : nat) (raw : bytes) (first_line : bool) (lines : list bytes)
  : ParsedAtResponse :=
  match fuel with
  | O => MkParsed false (MkAtError kCommandError []) lines
  | S k =>
      match raw with
      | [] => MkParsed false (MkAtError kCommandError []) lines
      | _ :: _ =>
          let '(line, raw) := match find_sub CRLF raw with
                              | None => (TrimSpace raw, [])
                              | Some line_end => (TrimSpace (take line_end raw), drop (line_end + 2) raw)
                              end in
          if decide (line = []) then parse_loop k raw first_line lines
          else if first_line && (starts_with (lit "AT") line || starts_with (lit "at") line)
          then parse_loop k raw false lines
          else match IsStatusLine line with
               | Some err =>
                   let ok := starts_with (lit "OK") line || starts_with (lit ">") line in
                   MkParsed ok (if ok then MkAtError kCommandError [] else err) lines
               | None => parse_loop k raw false (lines ++ [line])
               end
      end
  end.

Definition ParseResponse (raw : bytes) : ParsedAtResponse := parse_loop (length raw) raw true [].
