(* ===== verification/UrcDispatcher.v ===== *)
(** The URC dispatcher (src/src/at_channel/urc_dispatcher.{h,cpp}): handlers
    keyed by prefix, and the delivery of a line to those whose prefix it has; and the
    dispatcher against its specification, a map from handle to prefix and handler.

    A handler is known by its handle; [he_callable] says its [std::function] is
    not null. The map is an [unordered_map], so the order in which prefixes are
    visited is left to [map_to_list] and nothing below depends on it. *)
From stdpp Require Import base decidable list strings gmap.
From Stdlib Require Import ZArith Ascii Lia.
From S2P Require Import Prelude ResponseParser.

Record HandlerEntry := MkHandlerEntry {
  he_handle : Z;
  he_prefix : bytes;
  he_callable : bool;
}.

Record UrcDispatcher := MkUrcDispatcher {
  handlers : gmap bytes (list HandlerEntry);
  next_handle : Z;
}.

Definition new_dispatcher : UrcDispatcher := MkUrcDispatcher ∅ 1.

Definition Subscribe (d : UrcDispatcher) (prefix : bytes) (callable : bool) : UrcDispatcher * Z :=
  let handle := next_handle d in
  let entries := default [] (handlers d !! prefix) in
  (MkUrcDispatcher (<[prefix := entries ++ [MkHandlerEntry handle prefix callable]]> (handlers d))
     (u64 (handle + 1)), handle).

(** The loop of [Unsubscribe]: the first vector that held the handle loses it. *)
Fixpoint unsubscribe_loop (visited : list (bytes * list HandlerEntry)) (handle : Z)
  (m : gmap bytes (list HandlerEntry)) : gmap bytes (list HandlerEntry) :=
  match visited with
  | [] => m
  | (prefix, entries) :: visited =>
      if existsb (λ e, he_handle e =? handle) entries
      then <[prefix := filter (λ e, he_handle e ≠ handle) entries]> m
      else unsubscribe_loop visited handle m
  end.

Definition Unsubscribe (d : UrcDispatcher) (handle : Z) : UrcDispatcher :=
  MkUrcDispatcher (unsubscribe_loop (map_to_list (handlers d)) handle (handlers d)) (next_handle d).

(** The command and the arguments a line is split into. *)
Definition split_urc (line : bytes) : bytes * bytes :=
  match find_byte ":" line with
  | Some colon => (take colon line, TrimSpace (drop (colon + 1) line))
  | None => (line, [])
  end.

Record invocation := MkInvocation { iv_handle : Z; iv_command : bytes; iv_arguments : bytes }.

(** The handlers a line reaches, in the order they are called. *)
Definition Dispatch (d : UrcDispatcher) (line : bytes) : list invocation :=
  let line := TrimSpace line in
  if decide (line = []) then [] else
  let '(command, arguments) := split_urc line in
  let matches := map_to_list (handlers d) ≫= λ '(prefix, entries),
    if starts_with prefix command then filter (λ e, he_callable e = true) entries else [] in
  (λ e, MkInvocation (he_handle e) command arguments) <$> matches.

(** * The URC dispatcher against its specification: a map from handle to prefix
    and handler. The vectors per prefix and the handle counter are how the code
    implements it, and nothing of them shows. *)

(** * Specification *)

(** The subscriptions there are: the prefix, and whether the handler can be called. *)
Abbreviation subscriptions := (gmap Z (bytes * bool)).

Inductive urc_op := OpSubscribe (prefix : bytes) (callable : bool) | OpUnsubscribe (handle : Z).

(** Handles are given out from 1 up. *)
Definition spec_op (m : subscriptions * Z) (op : urc_op) : subscriptions * Z :=
  match op with
  | OpSubscribe prefix callable => (<[m.2 := (prefix, callable)]> m.1, m.2 + 1)
  | OpUnsubscribe handle => (delete handle m.1, m.2)
  end.

Definition urc_step (d : UrcDispatcher) (op : urc_op) : UrcDispatcher :=
  match op with
  | OpSubscribe prefix callable => (Subscribe d prefix callable).1
  | OpUnsubscribe handle => Unsubscribe d handle
  end.

Definition entry_of (b : Z * (bytes * bool)) : HandlerEntry := MkHandlerEntry b.1 b.2.1 b.2.2.

(** Every entry held, over all prefixes. *)
Definition all_entries (h : gmap bytes (list HandlerEntry)) : list HandlerEntry := map_to_list h ≫= snd.

Record refines (d : UrcDispatcher) (m : subscriptions * Z) : Prop := {
  ref_entries : all_entries (handlers d) ≡ₚ entry_of <$> map_to_list m.1;
  ref_prefix : ∀ p es, handlers d !! p = Some es → Forall (λ e, he_prefix e = p) es;
  ref_next : next_handle d = m.2;
  ref_fresh : ∀ h, is_Some (m.1 !! h) → 1 <= h < m.2;
}.

(** * Lemmas *)

Lemma filter_all_id {A} (P : A → Prop) `{!∀ x, Decision (P x)} l : Forall P l → filter P l = l.
Proof. induction 1 as [|x l Hx Hl IH]; [done|]. by rewrite filter_cons_True, IH. Qed.

Lemma all_entries_insert p es h :
  all_entries (<[p := es]> h) ≡ₚ es ++ all_entries (delete p h).
Proof.
  unfold all_entries. rewrite <- insert_delete_eq, map_to_list_insert by apply lookup_delete_eq.
  done.
Qed.

Lemma all_entries_delete p h : all_entries h ≡ₚ default [] (h !! p) ++ all_entries (delete p h).
Proof.
  destruct (h !! p) as [es|] eqn:E; simpl.
  - rewrite <- (insert_id h p es) at 1 by done. apply all_entries_insert.
  - by rewrite delete_id.
Qed.

Lemma refines_nodup d m : refines d m → NoDup (he_handle <$> all_entries (handlers d)).
Proof.
  intros H. rewrite (ref_entries _ _ H), <- list_fmap_compose.
  apply (NoDup_fmap_fst (map_to_list m.1)); [|apply NoDup_map_to_list].
  intros h a b Ha Hb. apply elem_of_map_to_list in Ha, Hb. congruence.
Qed.

Lemma entries_delete (m : subscriptions) h :
  entry_of <$> map_to_list (delete h m) ≡ₚ filter (λ e, he_handle e ≠ h) (entry_of <$> map_to_list m).
Proof.
  assert (∀ l : list (Z * (bytes * bool)), (∀ v, (h, v) ∉ l) → filter (λ e, he_handle e ≠ h) (entry_of <$> l) = entry_of <$> l) as Hf.
  { intros l Hl. apply filter_all_id. apply Forall_forall. intros e He Heq.
    apply list_elem_of_fmap in He as ([h' v] & -> & He). simpl in Heq. subst. by apply (Hl v). }
  destruct (m !! h) as [v|] eqn:E.
  - rewrite <- (insert_id m h v) at 2 by done.
    rewrite <- insert_delete_eq, (map_to_list_insert (delete h m)) by apply lookup_delete_eq.
    rewrite fmap_cons, filter_cons_False by (intros H; by apply H).
    rewrite Hf; [done|]. intros w Hw%elem_of_map_to_list. by rewrite lookup_delete_eq in Hw.
  - rewrite delete_id, Hf by (done || intros w Hw%elem_of_map_to_list; congruence). done.
Qed.

(** The loop takes out the entry of the handle, wherever it is. *)
Lemma unsubscribe_loop_entries v h m : NoDup (he_handle <$> all_entries m) →
  (∀ p es, (p, es) ∈ v → m !! p = Some es) →
  (∀ p es, m !! p = Some es → (p, es) ∈ v ∨ h ∉ (he_handle <$> es)) →
  all_entries (unsubscribe_loop v h m) ≡ₚ filter (λ e, he_handle e ≠ h) (all_entries m).
Proof.
  intros Hnd. assert (∀ l : list HandlerEntry, h ∉ (he_handle <$> l) → filter (λ e, he_handle e ≠ h) l = l) as Hf.
  { intros l Hl. apply filter_all_id, Forall_forall. intros e He Heq. apply Hl, list_elem_of_fmap. by exists e. }
  induction v as [|[p es] v IH]; intros Hv Hcov; cbn [unsubscribe_loop].
  - rewrite Hf; [done|]. intros Hin. unfold all_entries in Hin.
    apply list_elem_of_fmap in Hin as (e & He & Hin). apply list_elem_of_bind in Hin as ([p es] & Hes & Hin).
    apply elem_of_map_to_list in Hin. destruct (Hcov _ _ Hin) as [?|Hno]; [set_solver|].
    apply Hno, list_elem_of_fmap. by exists e.
  - assert (m !! p = Some es) as Hp by (apply Hv; set_solver).
    destruct (existsb (λ e, he_handle e =? h) es) eqn:E.
    + pose proof (all_entries_delete p m) as Hd. rewrite Hp in Hd. simpl in Hd.
      rewrite all_entries_insert, Hd, filter_app. f_equiv.
      rewrite Hf; [done|]. rewrite Hd, fmap_app, NoDup_app in Hnd. destruct Hnd as (_ & Hnd & _).
      apply Hnd. apply existsb_exists in E as (e & He & Heq). apply list_elem_of_fmap. exists e.
      split; [lia|by apply list_elem_of_In].
    + apply IH; [set_solver|]. intros q fs Hq. destruct (Hcov _ _ Hq) as [Hin|]; [|by right].
      apply list_elem_of_In in Hin as [Hin|Hin]; [|left; by apply list_elem_of_In].
      injection Hin as <- <-. right. intros (e & -> & He)%list_elem_of_fmap.
      assert (existsb (λ e0, he_handle e0 =? he_handle e) es = true) as E'; [|congruence].
      apply existsb_exists. exists e. split; [by apply list_elem_of_In|lia].
Qed.

Lemma unsubscribe_loop_lookup v h m p es : (∀ p es, (p, es) ∈ v → m !! p = Some es) →
  unsubscribe_loop v h m !! p = Some es → ∃ es', m !! p = Some es' ∧ es ⊆ es'.
Proof.
  intros Hv. induction v as [|[q fs] v IH]; cbn [unsubscribe_loop]; [eauto|].
  destruct (existsb _ fs); [|by apply IH; set_solver].
  destruct (decide (p = q)) as [->|]; [rewrite lookup_insert_eq|rewrite lookup_insert_ne by done; eauto].
  intros [= <-]. exists fs. split; [by apply Hv; set_solver|]. intros e He. by apply list_elem_of_filter in He as [_ He].
Qed.

Lemma refines_Subscribe d m p b : refines d m → 1 <= m.2 < 2 ^ 64 - 1 →
  refines (Subscribe d p b).1 (spec_op m (OpSubscribe p b)).
Proof.
  intros H Hm. unfold Subscribe. cbn [fst spec_op]. split; cbn [handlers next_handle fst snd].
  - assert (m.1 !! m.2 = None) as Hnone.
    { destruct (m.1 !! m.2) eqn:E; [|done]. pose proof (ref_fresh _ _ H m.2 ltac:(by eexists)). lia. }
    rewrite all_entries_insert, map_to_list_insert by done. rewrite fmap_cons.
    rewrite <- (ref_entries _ _ H), (all_entries_delete p (handlers d)), (ref_next _ _ H).
    rewrite <- app_assoc. cbn [app]. by rewrite <- Permutation_middle.
  - intros q es. destruct (decide (q = p)) as [->|]; [rewrite lookup_insert_eq|rewrite lookup_insert_ne by done; apply H].
    intros [= <-]. apply Forall_app. split; [|by repeat constructor].
    destruct (handlers d !! p) eqn:E; simpl; [by eapply ref_prefix|done].
  - rewrite (ref_next _ _ H). unfold u64. apply Z.mod_small. lia.
  - intros h. destruct (decide (h = m.2)) as [->|]; [lia|]. rewrite lookup_insert_ne by done.
    intros Hh%(ref_fresh _ _ H). lia.
Qed.

Lemma refines_Unsubscribe d m h : refines d m → refines (Unsubscribe d h) (spec_op m (OpUnsubscribe h)).
Proof.
  intros H. unfold Unsubscribe. split; cbn [handlers next_handle fst snd spec_op].
  - rewrite unsubscribe_loop_entries; [by rewrite entries_delete, (ref_entries _ _ H)|by eapply refines_nodup| |].
    + intros p es. apply elem_of_map_to_list.
    + intros p es Hp. left. by apply elem_of_map_to_list.
  - intros p es Hp. apply unsubscribe_loop_lookup in Hp as (es' & Hp & Hsub); [|intros ??; apply elem_of_map_to_list].
    apply (ref_prefix _ _ H) in Hp. rewrite Forall_forall in *. intros e He. by apply Hp, Hsub.
  - apply H.
  - intros k. destruct (decide (k = h)) as [->|].
    + rewrite lookup_delete_eq. by intros [].
    + rewrite lookup_delete_ne by done. apply H.
Qed.

(** The lines reach the entries whose own prefix the command has. *)
Lemma Dispatch_entries d m line : refines d m →
  iv_handle <$> Dispatch d line ⊆+ he_handle <$> all_entries (handlers d) ∧
  ∀ iv, iv ∈ Dispatch d line ↔
    TrimSpace line ≠ [] ∧ iv_command iv = (split_urc (TrimSpace line)).1 ∧
    iv_arguments iv = (split_urc (TrimSpace line)).2 ∧
    ∃ p, m.1 !! iv_handle iv = Some (p, true) ∧ starts_with p (iv_command iv) = true.
Proof.
  intros H. unfold Dispatch. case_decide as Ht.
  { split; [apply submseteq_nil_l|]. intros iv. split; [set_solver|]. by intros [? _]. }
  destruct (split_urc _) as [command arguments]. cbn [fst snd]. set (matches := _ ≫= _). split.
  - rewrite <- list_fmap_compose. change (iv_handle ∘ _) with he_handle. apply fmap_submseteq.
    subst matches. unfold all_entries. induction (map_to_list (handlers d)) as [|[p es] l IH]; [done|].
    cbn [mbind list_bind snd]. apply submseteq_app; [|exact IH].
    destruct (starts_with p command); [apply sublist_submseteq, sublist_filter|apply submseteq_nil_l].
  - intros iv. subst matches. rewrite list_elem_of_fmap. setoid_rewrite list_elem_of_bind. split.
    + intros (e & -> & ([p es] & He & Hin)). apply elem_of_map_to_list in Hin. cbn [iv_handle iv_command iv_arguments].
      destruct (starts_with p command) eqn:E; [|set_solver]. apply list_elem_of_filter in He as [Hc He].
      split; [done|]. split; [done|]. split; [done|]. exists p. split; [|done].
      assert (e ∈ all_entries (handlers d)) as Ha.
      { unfold all_entries. apply list_elem_of_bind. exists (p, es). by rewrite elem_of_map_to_list. }
      rewrite (ref_entries _ _ H) in Ha. apply list_elem_of_fmap in Ha as ([h [q b]] & Heq & Ha).
      apply elem_of_map_to_list in Ha. subst e. cbn in *. subst b.
      apply (ref_prefix _ _ H) in Hin. rewrite Forall_forall in Hin. by rewrite <- (Hin _ He).
    + destruct iv as [h cmd args]. cbn. intros (_ & -> & -> & p & Hm & Hs).
      exists (MkHandlerEntry h p true). split; [done|].
      assert (MkHandlerEntry h p true ∈ all_entries (handlers d)) as Ha.
      { rewrite (ref_entries _ _ H). apply list_elem_of_fmap. exists (h, (p, true)).
        split; [done|]. by apply elem_of_map_to_list. }
      apply list_elem_of_bind in Ha as ([q es] & He & Hin). exists (q, es). split; [|done].
      apply elem_of_map_to_list in Hin. apply (ref_prefix _ _ H) in Hin. rewrite Forall_forall in Hin.
      specialize (Hin _ He). cbn in Hin. subst q. rewrite Hs. by apply list_elem_of_filter.
Qed.

(** * Property *)

(** The operations that hand out a handle. *)
Definition is_subscribe (op : urc_op) : bool := if op is OpSubscribe _ _ then true else false.
Definition subscribes (ops : list urc_op) : Z := Z.of_nat (length (filter is_subscribe ops)).

Lemma refines_run ops d m : refines d m → 1 <= m.2 → m.2 + subscribes ops < 2 ^ 64 →
  refines (fold_left urc_step ops d) (fold_left spec_op ops m).
Proof.
  unfold subscribes. revert d m; induction ops as [|[p b|h] ops IH]; intros d m H H1 H2; [done| |];
    cbn [fold_left].
  - rewrite filter_cons_True in H2 by done. cbn [length] in H2.
    apply IH; [apply refines_Subscribe; [done|lia]|simpl; lia|simpl; lia].
  - rewrite filter_cons_False in H2 by (by intros []).
    apply IH; [by apply refines_Unsubscribe|done|done].
Qed.

(** C23: Whatever subscriptions were taken and given up, in any order: a line
    that arrives calls exactly the handlers still subscribed whose prefix its
    command begins with, each of them once, with the command and its arguments. *)
Theorem Dispatch_refines ops line : subscribes ops < 2 ^ 64 - 1 →
  let d := fold_left urc_step ops new_dispatcher in
  let m := (fold_left spec_op ops (∅, 1)).1 in
  NoDup (iv_handle <$> Dispatch d line) ∧
  ∀ h command arguments,
    MkInvocation h command arguments ∈ Dispatch d line ↔
    TrimSpace line ≠ [] ∧ (command, arguments) = split_urc (TrimSpace line) ∧
    ∃ p, m !! h = Some (p, true) ∧ starts_with p command = true.
Proof.
  intros Hn d m. assert (refines d (fold_left spec_op ops (∅, 1))) as H.
  { apply refines_run; [|done|simpl; lia]. split; [done|by intros p es|done|]. by intros h []. }
  destruct (Dispatch_entries _ _ line H) as (Hsub & Hiff). split.
  - apply submseteq_Permutation in Hsub as (k & Hk). pose proof (refines_nodup _ _ H) as Hnd.
    rewrite Hk in Hnd. by apply NoDup_app in Hnd as (? & _).
  - intros h command arguments. rewrite (Hiff (MkInvocation h command arguments)). cbn.
    destruct (split_urc _) as [c a]. cbn. split.
    + by intros (? & -> & -> & ?).
    + by intros (? & [= -> ->] & ?).
Qed.

Lemma Dispatch_refines_witness :
  let ops := [OpSubscribe (lit "+CEREG") true; OpSubscribe (lit "+C") true; OpUnsubscribe 1;
              OpSubscribe (lit "+MIP") true] in
  subscribes ops < 2 ^ 64 - 1 ∧
  MkInvocation 2 (lit "+CEREG") (lit "1") ∈ Dispatch (fold_left urc_step ops new_dispatcher) (lit "+CEREG: 1").
Proof.
  pose proof (Dispatch_refines [OpSubscribe (lit "+CEREG") true; OpSubscribe (lit "+C") true; OpUnsubscribe 1;
    OpSubscribe (lit "+MIP") true] (lit "+CEREG: 1") eq_refl) as H.
  cbv zeta. split; [reflexivity|]. apply H.
  split; [discriminate|]. split; [reflexivity|]. exists (lit "+C"). by split; vm_compute.
Defined.
