(* ===== verification/AtUart.v ===== *)
(** The AT command channel (src/src/at_channel/at_uart.{h,cpp}): assembling the
    received bytes into lines, recognising data prompts, folding lines into the
    response of the command in flight and handing them to the URC handlers, and
    the command operations.

    A command operation runs against [reads], what the UART delivers to the
    receive task between the command going out and the wait ending; the wait is
    satisfied exactly when those reads raised the event waited for.

    The last part shows that the lines of a stream do not depend on how it was split
    across reads. *)
From stdpp Require Import base decidable list strings gmap.
From Stdlib Require Import ZArith Ascii Lia.
From S2P Require Import Prelude Errors ResponseParser UrcDispatcher.

(** * State *)

Record AtUart := MkAtUart {
  line_buffer : bytes;
  response_buffer : bytes;
  parsed_response : ParsedAtResponse;
  command_in_progress : bool;
  prompt_armed : bool;
  discard_partial_line : bool;
  ev_response_done : bool;
  ev_data_prompt : bool;
  urc_dispatcher : UrcDispatcher;
  baud_rate : Z;
  written : list bytes;               (* what IUart::Send was given *)
  dispatched : list invocation;       (* the handler calls made *)
}.

Definition set_line (c : AtUart) (v : bytes) : AtUart :=
  MkAtUart v (response_buffer c) (parsed_response c) (command_in_progress c) (prompt_armed
    c) (discard_partial_line c) (ev_response_done c) (ev_data_prompt c) (urc_dispatcher c)
    (baud_rate c) (written c) (dispatched c).
Definition set_response (c : AtUart) (b : bytes) (p : ParsedAtResponse) : AtUart :=
  MkAtUart (line_buffer c) b p (command_in_progress c) (prompt_armed c)
    (discard_partial_line c) (ev_response_done c) (ev_data_prompt c) (urc_dispatcher c)
    (baud_rate c) (written c) (dispatched c).
Definition set_in_progress (c : AtUart) (v : bool) : AtUart :=
  MkAtUart (line_buffer c) (response_buffer c) (parsed_response c) v (prompt_armed c)
    (discard_partial_line c) (ev_response_done c) (ev_data_prompt c) (urc_dispatcher c)
    (baud_rate c) (written c) (dispatched c).
Definition set_armed (c : AtUart) (v : bool) : AtUart :=
  MkAtUart (line_buffer c) (response_buffer c) (parsed_response c) (command_in_progress c) v
    (discard_partial_line c) (ev_response_done c) (ev_data_prompt c) (urc_dispatcher c)
    (baud_rate c) (written c) (dispatched c).
Definition set_discard (c : AtUart) (v : bool) : AtUart :=
  MkAtUart (line_buffer c) (response_buffer c) (parsed_response c) (command_in_progress c)
    (prompt_armed c) v (ev_response_done c) (ev_data_prompt c) (urc_dispatcher c) (baud_rate
    c) (written c) (dispatched c).
Definition set_events (c : AtUart) (d : bool) (p : bool) : AtUart :=
  MkAtUart (line_buffer c) (response_buffer c) (parsed_response c) (command_in_progress c)
    (prompt_armed c) (discard_partial_line c) d p (urc_dispatcher c) (baud_rate c) (written
    c) (dispatched c).
Definition set_urc (c : AtUart) (d : UrcDispatcher) : AtUart :=
  MkAtUart (line_buffer c) (response_buffer c) (parsed_response c) (command_in_progress c)
    (prompt_armed c) (discard_partial_line c) (ev_response_done c) (ev_data_prompt c) d
    (baud_rate c) (written c) (dispatched c).
Definition set_baud (c : AtUart) (v : Z) : AtUart :=
  MkAtUart (line_buffer c) (response_buffer c) (parsed_response c) (command_in_progress c)
    (prompt_armed c) (discard_partial_line c) (ev_response_done c) (ev_data_prompt c)
    (urc_dispatcher c) v (written c) (dispatched c).
Definition add_written (c : AtUart) (l : list bytes) : AtUart :=
  MkAtUart (line_buffer c) (response_buffer c) (parsed_response c) (command_in_progress c)
    (prompt_armed c) (discard_partial_line c) (ev_response_done c) (ev_data_prompt c)
    (urc_dispatcher c) (baud_rate c) l (dispatched c).
Definition add_dispatched (c : AtUart) (l : list invocation) : AtUart :=
  MkAtUart (line_buffer c) (response_buffer c) (parsed_response c) (command_in_progress c)
    (prompt_armed c) (discard_partial_line c) (ev_response_done c) (ev_data_prompt c)
    (urc_dispatcher c) (baud_rate c) (written c) l.

Definition new_uart (baud : Z) : AtUart :=
  MkAtUart [] [] empty_response false false false false false new_dispatcher baud [] [].

Definition uart_send (c : AtUart) (data : bytes) : AtUart := add_written c (written c ++ [data]).

(** * The receive task *)

(** ["OK"], ["ERROR"] or a CME/CMS error, blanks around it aside. *)
Definition is_status (line : bytes) : bool :=
  let trimmed := trim_by isblank line in
  bool_decide (trimmed = lit "OK") || bool_decide (trimmed = lit "ERROR")
  || starts_with CME trimmed || starts_with CMS trimmed.

Definition ProcessLine (c : AtUart) (line : bytes) : AtUart :=
  let line := if decide (last line = Some CR) then removelast line else line in
  if forallb isblank line then c else
  let c := add_dispatched c (dispatched c ++ Dispatch (urc_dispatcher c) line) in
  if command_in_progress c then
    let c := set_response c (response_buffer c ++ line ++ CRLF) (parsed_response c) in
    let c := if decide (line = lit ">") then set_events c (ev_response_done c) true else c in
    if is_status line then
      let c := set_response c (response_buffer c) (ParseResponse (response_buffer c)) in
      set_events c true (ev_data_prompt c)
    else c
  else c.

Definition IsDataPrompt (pending : bytes) : bool :=
  match pending with
  | [] => false
  | c :: rest => bool_decide (c = ">"%char) && forallb isblank rest
  end.

(** The inner [while] of [ReceiveTask]: the complete lines of the buffer in order,
    and what is left of it. Each iteration consumes a CRLF. *)
Fixpoint take_lines (fuel : nat) (buffer : bytes) : list bytes * bytes :=
  match fuel with
  | O => ([], buffer)
  | S k =>
      match find_sub CRLF buffer with
      | None => ([], buffer)
      | Some line_end =>
          let '(ls, rest) := take_lines k (drop (line_end + 2) buffer) in
          (take line_end buffer :: ls, rest)
      end
  end.

(** [if (discard_partial_line_.exchange(false)) line_buffer.clear();] *)
Definition discard_check (c : AtUart) : AtUart :=
  if discard_partial_line c then set_line (set_discard c false) [] else c.

(** The rest of one iteration of [ReceiveTask], once [Receive] has returned. *)
Definition receive (c : AtUart) (data : bytes) : AtUart :=
  if discard_partial_line c then discard_check c else
  if decide (data = []) then c else
  let buffer := line_buffer c ++ data in
  let '(ls, rest) := take_lines (length buffer) buffer in
  let c := set_line (fold_left ProcessLine ls c) rest in
  if IsDataPrompt (line_buffer c) then
    let c := if prompt_armed c then set_events (set_armed c false) (ev_response_done c) true else c in
    set_line c []
  else c.

(** One whole iteration: the check before the read, and the read. *)
Definition receive_iteration (c : AtUart) (data : bytes) : AtUart := receive (discard_check c) data.

Definition receive_all (c : AtUart) (reads : list bytes) : AtUart := fold_left receive_iteration reads c.

(** * Commands *)

(** A fresh response window. *)
Definition open_response (c : AtUart) : AtUart :=
  set_response (set_in_progress c true) [] empty_response.

Definition send_ok (sent : Z) (data : bytes) : bool :=
  negb (sent <? 0) && (sent =? Z.of_nat (length data)).

(** [WaitBits(kEventResponseDone, clear, ...)] *)
Definition take_done (c : AtUart) : AtUart * bool :=
  (if ev_response_done c then set_events c false (ev_data_prompt c) else c, ev_response_done c).

(** What the response window says once the command is over. *)
Definition response_result (c : AtUart) : AtResult :=
  if p_ok (parsed_response c) then Ok () else Err (p_error (parsed_response c)).

(** [sent] is what [IUart::Send] returned. *)
Definition SendCommand (c : AtUart) (cmd : bytes) (sent : Z) (reads : list bytes) : AtUart * AtResult :=
  let c := open_response c in
  let c := set_events c false (ev_data_prompt c) in
  let full_cmd := cmd ++ CRLF in
  let c := uart_send c full_cmd in
  if negb (send_ok sent full_cmd) then
    (set_in_progress c false, Err (MkAtError kAtTransmitFailed (lit "failed to send command")))
  else
    let '(c, got) := take_done (receive_all c reads) in
    let c := set_in_progress c false in
    if negb got then (c, Err (MkAtError kAtErrTimeout (lit "command timeout: " ++ cmd)))
    else (c, response_result c).

(** [reads] before the data prompt wait ends, [reads'] before the response wait
    does; [sent], [sent'] what the two checked sends returned. *)
Definition SendCommandWithData (c : AtUart) (cmd_prefix data cmd_suffix : bytes)
  (sent sent' : Z) (reads reads' : list bytes) : AtUart * AtResult :=
  let c := open_response c in
  let c := set_events c false false in
  let prefix_str := if decide (cmd_suffix = []) then cmd_prefix else cmd_prefix ++ CRLF in
  let c := uart_send c prefix_str in
  if negb (send_ok sent prefix_str) then
    (set_in_progress c false, Err (MkAtError kAtTransmitFailed (lit "failed to send command prefix")))
  else
    let finish c :=
      let '(c, got) := take_done (receive_all c reads') in
      let c := set_in_progress c false in
      if negb got then (c, Err (MkAtError kAtErrTimeout (lit "command with data timeout")))
      else (c, response_result c) in
    if decide (cmd_suffix = []) then finish c
    else
      let c := receive_all c reads in
      if negb (ev_data_prompt c) then
        (set_in_progress c false, Err (MkAtError kAtErrTimeout (lit "data prompt timeout")))
      else
        let c := set_events c (ev_response_done c) false in
        let c := uart_send c data in
        if negb (send_ok sent' data) then
          (set_in_progress c false, Err (MkAtError kAtTransmitFailed (lit "failed to send data")))
        else finish (uart_send c cmd_suffix).

Definition SendLine (c : AtUart) (cmd : bytes) (sent : Z) : AtUart * AtResult :=
  let full_cmd := cmd ++ CRLF in
  let c := uart_send c full_cmd in
  if negb (send_ok sent full_cmd) then
    (c, Err (MkAtError kAtTransmitFailed (lit "failed to send command")))
  else (c, Ok ()).

(** The wait is for either bit and clears those it was for. *)
Definition SendDataAfterPrompt (c : AtUart) (prefix data : bytes) (sent sent' : Z) (reads : list bytes)
  : AtUart * AtResult :=
  let c := open_response c in
  let c := set_events c false false in
  let c := set_armed c true in
  let full_cmd := prefix ++ CRLF in
  let c := uart_send c full_cmd in
  if negb (send_ok sent full_cmd) then
    (set_in_progress (set_armed c false) false,
     Err (MkAtError kAtTransmitFailed (lit "failed to send command prefix")))
  else
    let c := receive_all c reads in
    let prompt := ev_data_prompt c in
    let done := ev_response_done c in
    let c := set_events c false false in
    let c := set_armed c false in
    if prompt then
      let c := uart_send c data in
      let c := set_in_progress c false in
      if negb (send_ok sent' data) then
        (c, Err (MkAtError kAtTransmitFailed (lit "failed to send data")))
      else (c, Ok ())
    else
      let c := set_in_progress c false in
      if done then
        if p_ok (parsed_response c)
        then (c, Err (MkAtError kAtErrTimeout (lit "no data prompt after a successful command")))
        else (c, Err (p_error (parsed_response c)))
      else (c, Err (MkAtError kAtErrTimeout (lit "data prompt timeout: " ++ prefix))).

Definition GetResponse (c : AtUart) : bytes := response_buffer c.
Definition GetResponseLines (c : AtUart) : list bytes := p_lines (parsed_response c).

Definition SubscribeUrc (c : AtUart) (prefix : bytes) (callable : bool) : AtUart * Z :=
  let '(d, h) := Subscribe (urc_dispatcher c) prefix callable in (set_urc c d, h).
Definition UnsubscribeUrc (c : AtUart) (handle : Z) : AtUart :=
  set_urc c (Unsubscribe (urc_dispatcher c) handle).

Definition EnterDataMode (c : AtUart) : AtResult :=
  Err (MkAtError kAtNotInitialized (lit "data mode not supported")).
Definition ExitDataMode (c : AtUart) : AtResult :=
  Err (MkAtError kAtNotInitialized (lit "data mode not supported")).

Definition SendRaw (c : AtUart) (data : bytes) (sent : Z) : AtUart * Result Z :=
  (uart_send c data,
   if sent <? 0 then Err (net_error kTransmitFailed "uart send failed") else Ok sent).

(** [Flush] drops what the UART has not delivered yet, which no [reads] holds. *)
Definition SetBaudRate (c : AtUart) (baud : Z) : AtUart * AtResult :=
  (set_discard (set_baud c baud) true, Ok ()).

(** * How the receive task assembles lines: the lines of a stream do not depend on
    how it was split across reads, and what they do to the command in flight. *)

(** * Specification vocabulary *)

(** The complete lines of a stream and the partial line after them. *)
Definition lines_of (s : bytes) : list bytes * bytes := take_lines (length s) s.

(** A line as it goes over the wire. *)
Definition wire (ls : list bytes) : bytes := ls ≫= λ l, l ++ CRLF.

Definition starts_prompt (l : bytes) : bool := bool_decide (head l = Some ">"%char).

(** No line of the stream, nor the partial one after them, begins with the
    prompt character. *)
Definition no_prompt (s : bytes) : Prop :=
  Forall (λ l, starts_prompt l = false) ((lines_of s).1 ++ [(lines_of s).2]).

(** * Lemmas: lines of a stream *)

Lemma find_crlf_shorter s i : find_sub CRLF s = Some i → (i + 2 <= length s)%nat.
Proof. intros H. apply find_sub_Some in H. apply (f_equal length) in H. rewrite !length_app in H.
  rewrite length_take, length_drop in H. simpl in H. lia. Qed.

Lemma take_lines_fuel k k' s : (length s <= k)%nat → (length s <= k')%nat →
  take_lines k s = take_lines k' s.
Proof.
  revert k' s; induction k as [|k IH]; intros k' s H H'.
  { destruct s; [|simpl in H; lia]. by destruct k'. }
  destruct k' as [|k']; [destruct s; [done|simpl in H'; lia]|]. cbn [take_lines].
  destruct (find_sub CRLF s) as [i|] eqn:E; [|done]. pose proof (find_crlf_shorter _ _ E).
  by rewrite (IH k') by (rewrite length_drop; lia).
Qed.

Lemma lines_of_unfold s :
  lines_of s = match find_sub CRLF s with
               | None => ([], s)
               | Some i => (take i s :: (lines_of (drop (i + 2) s)).1, (lines_of (drop (i + 2) s)).2)
               end.
Proof.
  unfold lines_of at 1. destruct s as [|c s]; [done|]. cbn [length take_lines].
  destruct (find_sub CRLF (c :: s)) as [i|] eqn:E; [|done].
  pose proof (find_crlf_shorter _ _ E) as Hl. simpl in Hl.
  unfold lines_of. rewrite (take_lines_fuel _ (length (drop (i + 2) (c :: s)))) by
    (rewrite ?length_drop; simpl; lia).
  by destruct (take_lines _ _).
Qed.

Lemma lines_of_app a b :
  lines_of (a ++ b) = ((lines_of a).1 ++ (lines_of ((lines_of a).2 ++ b)).1,
                       (lines_of ((lines_of a).2 ++ b)).2).
Proof.
  induction a as [a IH] using (induction_ltof1 _ (@length ascii)). unfold ltof in IH.
  rewrite (lines_of_unfold a). destruct (find_sub CRLF a) as [i|] eqn:E; cbn [fst snd app].
  - pose proof (find_crlf_shorter _ _ E).
    rewrite (lines_of_unfold (a ++ b)), (find_sub_app_l _ _ _ _ E).
    rewrite take_app_le, drop_app_le by lia. rewrite IH by (rewrite length_drop; lia). done.
  - by destruct (lines_of (a ++ b)).
Qed.

(** What is left holds no complete line. *)
Lemma lines_of_rest s : (lines_of (lines_of s).2).1 = [].
Proof.
  induction s as [s IH] using (induction_ltof1 _ (@length ascii)). unfold ltof in IH.
  rewrite (lines_of_unfold s). destruct (find_sub CRLF s) as [i|] eqn:E; cbn [snd].
  - pose proof (find_crlf_shorter _ _ E). apply IH. rewrite length_drop. lia.
  - rewrite lines_of_unfold, E. done.
Qed.

(** A line without CR or LF, and its terminator, come off as that line. *)
Lemma lines_of_line l s : CR ∉ l → LF ∉ l →
  lines_of (l ++ CRLF ++ s) = (l :: (lines_of s).1, (lines_of s).2).
Proof.
  intros Hc Hl. rewrite lines_of_unfold.
  assert (find_sub CRLF (l ++ CRLF ++ s) = Some (length l)) as ->.
  { clear Hl. induction l as [|c l IH]; [done|]. apply not_elem_of_cons in Hc as [H1 H2].
    assert (starts_with CRLF ((c :: l) ++ CRLF ++ s) = false) as Hs.
    { apply not_true_is_false. intros (r & Hr)%starts_with_spec. by simplify_eq/=. }
    cbn [app find_sub] in *. cbn [app] in IH. by rewrite Hs, IH. }
  rewrite take_app_length, <- (drop_drop _ 2 (length l)), drop_app_length. done.
Qed.

Lemma wire_cons l ls : wire (l :: ls) = l ++ CRLF ++ wire ls.
Proof. unfold wire. simpl. by rewrite <- app_assoc. Qed.

Lemma wire_app ls ls' : wire (ls ++ ls') = wire ls ++ wire ls'.
Proof. unfold wire. apply bind_app. Qed.

Lemma lines_of_wire ls s : Forall (λ l, CR ∉ l ∧ LF ∉ l) ls →
  lines_of (wire ls ++ s) = (ls ++ (lines_of s).1, (lines_of s).2).
Proof.
  induction 1 as [|l ls [Hc Hl] H IH].
  { change (wire [] ++ s) with s. by destruct (lines_of s). }
  rewrite wire_cons, <- !app_assoc, (lines_of_line l) by done. by rewrite IH.
Qed.

(** The partial line of a prefix of the stream is a prefix of a line of it. *)
Lemma no_prompt_partial a b : no_prompt (a ++ b) → IsDataPrompt (lines_of a).2 = false.
Proof.
  unfold no_prompt. rewrite lines_of_app. cbn [fst snd]. rewrite <- app_assoc, Forall_app.
  intros [_ H]. set (p := (lines_of a).2) in *. destruct p as [|c p]; [done|]. simpl.
  assert (∀ l, starts_prompt (c :: l) = false → c ≠ ">"%char) as Hc.
  { intros l Hl ->. unfold starts_prompt in Hl. by rewrite bool_decide_true in Hl. }
  rewrite bool_decide_false; [done|]. rewrite lines_of_unfold in H.
  destruct (find_sub CRLF ((c :: p) ++ b)) as [[|i]|] eqn:E; cbn [fst snd app] in H.
  - apply find_sub_Some in E. cbn in E. by simplify_eq.
  - apply Forall_cons in H as [H _]. by apply (Hc (take i (p ++ b))).
  - apply Forall_cons in H as [H _]. by apply (Hc (p ++ b)).
Qed.

Lemma no_prompt_app a b : no_prompt (a ++ b) → no_prompt ((lines_of a).2 ++ b).
Proof.
  unfold no_prompt. rewrite (lines_of_app a b). cbn [fst snd]. rewrite <- app_assoc, Forall_app. tauto.
Qed.

(** * Lemmas: the receive task *)

Ltac process_line :=
  unfold ProcessLine; cbv zeta; set (trimmed := if decide (last _ = _) then _ else _);
  destruct (forallb isblank trimmed); [by split_and! || done|]; cbn [command_in_progress add_dispatched set_line];
  match goal with |- context [command_in_progress ?c] => destruct (command_in_progress c) eqn:? end;
  [destruct (decide (trimmed = lit ">")), (is_status trimmed)|]; by split_and! || done.

Lemma ProcessLine_line c l v : ProcessLine (set_line c v) l = set_line (ProcessLine c l) v.
Proof. process_line. Qed.

Lemma ProcessLines_line ls c v : fold_left ProcessLine ls (set_line c v) = set_line (fold_left ProcessLine ls c) v.
Proof. revert c; induction ls as [|l ls IH]; intros c; [done|]. simpl. by rewrite ProcessLine_line, IH. Qed.

(** What a line leaves alone. *)
Lemma ProcessLine_frame c l :
  let c' := ProcessLine c l in
  line_buffer c' = line_buffer c ∧ discard_partial_line c' = discard_partial_line c ∧
  prompt_armed c' = prompt_armed c ∧ command_in_progress c' = command_in_progress c ∧
  written c' = written c ∧ urc_dispatcher c' = urc_dispatcher c.
Proof. process_line. Qed.

Lemma ProcessLines_frame ls c :
  let c' := fold_left ProcessLine ls c in
  line_buffer c' = line_buffer c ∧ discard_partial_line c' = discard_partial_line c ∧
  prompt_armed c' = prompt_armed c ∧ command_in_progress c' = command_in_progress c ∧
  written c' = written c ∧ urc_dispatcher c' = urc_dispatcher c.
Proof.
  revert c; induction ls as [|l ls IH]; intros c; [by split_and!|]. simpl.
  destruct (IH (ProcessLine c l)) as (E1 & E2 & E3 & E4 & E5 & E6).
  destruct (ProcessLine_frame c l) as (F1 & F2 & F3 & F4 & F5 & F6).
  rewrite E1, E2, E3, E4, E5, E6. by split_and!.
Qed.

Lemma set_line_same c : set_line c (line_buffer c) = c.
Proof. by destruct c. Qed.

Lemma set_line_twice c a b : set_line (set_line c a) b = set_line c b.
Proof. done. Qed.

(** One read, when no rate change is pending. *)
Lemma receive_iteration_lines c d : discard_partial_line c = false → d ≠ [] →
  receive_iteration c d =
  (let '(ls, rest) := lines_of (line_buffer c ++ d) in
   let c := set_line (fold_left ProcessLine ls c) rest in
   if IsDataPrompt rest then
     set_line (if prompt_armed c then set_events (set_armed c false) (ev_response_done c) true else c) []
   else c).
Proof.
  intros Hd Hne. unfold receive_iteration, discard_check. rewrite Hd. unfold receive.
  rewrite Hd, decide_False by done. cbv zeta. fold (lines_of (line_buffer c ++ d)).
  by destruct (lines_of (line_buffer c ++ d)) as [ls rest].
Qed.

(** Any reads of a stream with no prompt in it process its lines in order and
    keep the partial one, however the stream was split. *)
Lemma receive_all_lines reads c : discard_partial_line c = false →
  (lines_of (line_buffer c)).1 = [] → no_prompt (line_buffer c ++ concat reads) →
  receive_all c reads =
  set_line (fold_left ProcessLine (lines_of (line_buffer c ++ concat reads)).1 c)
    (lines_of (line_buffer c ++ concat reads)).2.
Proof.
  revert c; induction reads as [|d reads IH]; intros c Hd Hb Hp.
  { cbn [concat] in *. rewrite app_nil_r in *. rewrite Hb. cbn [fold_left receive_all].
    assert ((lines_of (line_buffer c)).2 = line_buffer c) as ->.
    { rewrite lines_of_unfold in *. by destruct (find_sub CRLF (line_buffer c)). }
    by rewrite set_line_same. }
  unfold receive_all in *. cbn [fold_left concat] in *.
  destruct (decide (d = [])) as [->|Hne].
  { unfold receive_iteration at 2, discard_check. rewrite Hd. unfold receive. rewrite Hd.
    cbn [app]. by apply IH. }
  rewrite receive_iteration_lines by done. rewrite app_assoc in Hp.
  pose proof (no_prompt_partial _ _ Hp) as Hnp. pose proof (no_prompt_app _ _ Hp) as Hp'.
  rewrite app_assoc, (lines_of_app (line_buffer c ++ d)).
  destruct (lines_of (line_buffer c ++ d)) as [ls rest] eqn:E. cbn [fst snd] in *. cbv zeta.
  rewrite Hnp. destruct (ProcessLines_frame ls c) as (F1 & F2 & _).
  assert ((lines_of rest).1 = []) as Hr.
  { assert (rest = (lines_of (line_buffer c ++ d)).2) as -> by (by rewrite E).
    apply lines_of_rest. }
  rewrite IH; [|by rewrite <- Hd, <- F2|done|done]. cbn [line_buffer set_line].
  rewrite fold_left_app. by rewrite ProcessLines_line.
Qed.
