(* ===== verification/AtCommands.v ===== *)
(** The command channel's guarantees: a command's result is the module's answer
    however its bytes were split, and a payload goes out only after a prompt. *)
From stdpp Require Import base decidable list strings gmap.
From Stdlib Require Import ZArith Ascii Lia.
From S2P Require Import Prelude Errors ResponseParser UrcDispatcher AtUart.

(** * Specification vocabulary *)

(** A line of a response that is not its end. *)
Record text_line (l : bytes) : Prop := {
  tl_cr : CR ∉ l;
  tl_lf : LF ∉ l;
  tl_prompt : starts_prompt l = false;
  tl_text : TrimSpace l ≠ [];
  tl_status : IsStatusLine l = None;
}.

(** The line that ends a response. *)
Record status_line (l : bytes) : Prop := {
  sl_cr : CR ∉ l;
  sl_lf : LF ∉ l;
  sl_prompt : starts_prompt l = false;
  sl_status : is_status l = true;
}.

Definition is_echo (l : bytes) : bool :=
  starts_with (lit "AT") (TrimSpace l) || starts_with (lit "at") (TrimSpace l).

(** The lines a command's caller is given: an echo of the command left out. *)
Definition response_lines (ls : list bytes) : list bytes :=
  match ls with
  | [] => []
  | l :: ls' => TrimSpace <$> (if is_echo l then ls' else ls)
  end.

(** What a final status line says of the command. *)
Definition status_result (l : bytes) : AtResult :=
  if decide (TrimSpace l = lit "OK") then Ok ()
  else Err (default (MkAtError kCommandError []) (IsStatusLine l)).

(** * Lemmas: status lines *)

Lemma TrimSpace_blank l : TrimSpace (trim_by isblank l) = TrimSpace l.
Proof. apply trim_by_weaker. apply isblank_isspace. Qed.

(** A prefix whose ends are not space survives trimming. *)
Lemma TrimSpace_prefix p s c d : head p = Some c → isspace c = false → last p = Some d →
  isspace d = false → starts_with p s = true → starts_with p (TrimSpace s) = true.
Proof.
  intros Hh Hc Hl Hd (r & ->)%starts_with_spec. unfold TrimSpace, trim_by.
  rewrite drop_while_none by (intros x Hx; destruct p; [done|]; simpl in *; congruence).
  rewrite (drop_while_end_app_l _ _ _ d) by done. apply starts_with_app.
Qed.

Lemma is_status_parsed l : is_status l = true →
  ∃ e, IsStatusLine l = Some e ∧ is_echo l = false ∧ TrimSpace l ≠ [] ∧ starts_prompt (TrimSpace l) = false ∧
       (starts_with (lit "OK") (TrimSpace l) = true ↔ TrimSpace l = lit "OK").
Proof.
  unfold is_status, IsStatusLine, is_echo. rewrite <- TrimSpace_blank.
  set (t := trim_by isblank l). rewrite !orb_true_iff, !bool_decide_eq_true.
  assert (∀ p : bytes, (p = CME ∨ p = CMS) → starts_with p t = true → starts_with p (TrimSpace t) = true) as HP.
  { intros p Hp. apply (TrimSpace_prefix p t "+" ":"); destruct Hp as [-> | ->]; done. }
  assert (∀ s r, TrimSpace s = CME ++ r ∨ TrimSpace s = CMS ++ r →
    is_echo s = false ∧ TrimSpace s ≠ [] ∧ starts_prompt (TrimSpace s) = false ∧
    starts_with (lit "OK") (TrimSpace s) = false ∧ TrimSpace s ≠ lit "OK" ∧ TrimSpace s ≠ lit "ERROR") as HQ.
  { intros s r. unfold is_echo. intros [-> | ->]; by split_and!. }
  intros [[[-> | ->]|H]|H].
  - eexists. split; [reflexivity|]. by split_and!.
  - eexists. split; [reflexivity|]. by split_and!.
  - apply HP in H; [|by left]. pose proof H as H'. apply starts_with_spec in H' as (r & Hr).
    destruct (HQ t r ltac:(by left)) as (Q1 & Q2 & Q3 & Q4 & Q5 & Q6). rewrite !decide_False by done. rewrite H.
    eexists. split; [reflexivity|]. rewrite Q4. by split_and!.
  - apply HP in H; [|by right]. pose proof H as H'. apply starts_with_spec in H' as (r & Hr).
    destruct (HQ t r ltac:(by right)) as (Q1 & Q2 & Q3 & Q4 & Q5 & Q6). rewrite !decide_False by done.
    destruct (starts_with CME (TrimSpace t)); [|rewrite H]; (eexists; split; [reflexivity|]);
      rewrite Q4; by split_and!.
Qed.

Lemma text_not_status l : IsStatusLine l = None → is_status l = false.
Proof.
  intros H. destruct (is_status l) eqn:E; [|done]. apply is_status_parsed in E as (e & E & _). congruence.
Qed.

Lemma text_not_blank l : TrimSpace l ≠ [] → forallb isblank l = false.
Proof.
  intros H. apply not_true_is_false. intros Hb. apply H. clear H.
  rewrite forallb_forall in Hb. rewrite <- (app_nil_r l). unfold TrimSpace.
  rewrite trim_by_app_l; [done|]. apply Forall_forall. intros c Hc. apply isblank_isspace, Hb.
  by apply list_elem_of_In.
Qed.

Lemma last_not_cr l : CR ∉ l → last l ≠ Some CR.
Proof. intros H Hl. apply H. by apply last_Some_elem_of. Qed.

(** * Lemmas: the response of a run of lines *)

Lemma parse_loop_line k l raw first acc : CR ∉ l → TrimSpace l ≠ [] → (0 < k)%nat →
  parse_loop k (l ++ CRLF ++ raw) first acc =
  (if first && is_echo l then parse_loop (pred k) raw false acc
   else match IsStatusLine (TrimSpace l) with
        | Some err =>
            let ok := starts_with (lit "OK") (TrimSpace l) || starts_with (lit ">") (TrimSpace l) in
            MkParsed ok (if ok then MkAtError kCommandError [] else err) acc
        | None => parse_loop (pred k) raw false (acc ++ [TrimSpace l])
        end).
Proof.
  intros Hc Ht Hk. destruct k as [|k]; [lia|]. cbn [parse_loop pred].
  destruct (l ++ CRLF ++ raw) as [|x s] eqn:E; [by destruct l|]. rewrite <- E. clear E.
  assert (find_sub CRLF (l ++ CRLF ++ raw) = Some (length l)) as ->.
  { clear Ht. induction l as [|c l IH]; [done|]. apply not_elem_of_cons in Hc as [H1 H2].
    assert (starts_with CRLF ((c :: l) ++ CRLF ++ raw) = false) as Hs.
    { apply not_true_is_false. intros (r & Hr)%starts_with_spec. by simplify_eq/=. }
    cbn [app find_sub] in *. cbn [app] in IH. by rewrite Hs, IH. }
  rewrite take_app_length, <- (drop_drop _ 2 (length l)), drop_app_length.
  change (drop 2 (CRLF ++ raw)) with raw. by rewrite decide_False.
Qed.

Lemma TrimSpace_idemp l : TrimSpace (TrimSpace l) = TrimSpace l.
Proof. apply trim_by_idemp. Qed.

Lemma IsStatusLine_trim l : IsStatusLine (TrimSpace l) = IsStatusLine l.
Proof. unfold IsStatusLine. by rewrite TrimSpace_idemp. Qed.

(** The lines after the first, and the status line that ends them. *)
Lemma parse_loop_wire k ls st acc : Forall text_line ls → status_line st → (length ls < k)%nat →
  ∃ e, IsStatusLine st = Some e ∧
    parse_loop k (wire (ls ++ [st])) false acc =
    MkParsed (bool_decide (TrimSpace st = lit "OK"))
      (if decide (TrimSpace st = lit "OK") then MkAtError kCommandError [] else e)
      (acc ++ (TrimSpace <$> ls)).
Proof.
  intros Hls Hst. destruct (is_status_parsed _ (sl_status _ Hst)) as (e & He & _ & Ht & Hp & Hok).
  revert k acc. induction Hls as [|l ls Hl _ IH]; intros k acc Hk; cbn [app length] in *.
  - exists e. split; [done|]. rewrite wire_cons, parse_loop_line by (done || lia || apply Hst).
    cbn [andb]. rewrite IsStatusLine_trim, He, app_nil_r. cbv zeta.
    assert (starts_with (lit ">") (TrimSpace st) = false) as ->.
    { unfold starts_prompt in Hp. destruct (TrimSpace st) as [|c t]; [done|]. simpl in *.
      apply bool_decide_eq_false in Hp. rewrite bool_decide_false; [done|]. congruence. }
    rewrite orb_false_r. case_decide as E.
    + rewrite (proj2 Hok E). by rewrite bool_decide_true.
    + rewrite bool_decide_false by done.
      destruct (starts_with (lit "OK") (TrimSpace st)); [|done]. by destruct E, (proj1 Hok).
  - rewrite wire_cons, parse_loop_line by (apply Hl || lia). cbn [andb].
    rewrite IsStatusLine_trim, (tl_status _ Hl).
    destruct (IH (pred k) (acc ++ [TrimSpace l])) as (e' & He' & ->); [lia|].
    exists e'. split; [done|]. by rewrite <- app_assoc.
Qed.

Lemma length_wire ls : (length ls <= length (wire ls))%nat.
Proof. induction ls as [|l ls IH]; [done|]. rewrite wire_cons, !length_app. simpl. lia. Qed.

(** What the parser makes of a whole response. *)
Lemma ParseResponse_wire ls st : Forall text_line ls → status_line st →
  ∃ e, IsStatusLine st = Some e ∧
    ParseResponse (wire (ls ++ [st])) =
    MkParsed (bool_decide (TrimSpace st = lit "OK"))
      (if decide (TrimSpace st = lit "OK") then MkAtError kCommandError [] else e) (response_lines ls).
Proof.
  intros Hls Hst. unfold ParseResponse.
  assert (length (ls ++ [st]) <= length (wire (ls ++ [st])))%nat as Hlen by apply length_wire.
  rewrite length_app in Hlen. simpl in Hlen. revert Hlen.
  generalize (length (wire (ls ++ [st]))). intros k Hk.
  destruct Hls as [|l ls Hl Hls].
  - destruct (parse_loop_wire k [] st [] ltac:(done) Hst) as (e & He & Hp); [simpl in *; lia|].
    exists e. split; [done|]. cbn [app] in *. refine (eq_trans _ Hp). rewrite wire_cons.
    destruct (is_status_parsed _ (sl_status _ Hst)) as (_ & _ & Hecho & Ht & _).
    rewrite !parse_loop_line by (done || apply Hst || lia). by rewrite Hecho.
  - cbn [app]. rewrite wire_cons, parse_loop_line by (apply Hl || simpl in *; lia).
    cbn [andb response_lines]. cbn [app length] in Hk. destruct (is_echo l) eqn:E.
    + by destruct (parse_loop_wire (pred k) ls st [] Hls Hst ltac:(lia)) as (e & He & ->); eauto.
    + cbn [app]. rewrite IsStatusLine_trim, (tl_status _ Hl).
      by destruct (parse_loop_wire (pred k) ls st [TrimSpace l] Hls Hst ltac:(lia)) as (e & He & ->); eauto.
Qed.

(** * Lemmas: the lines of a response, processed *)

Lemma starts_prompt_not_gt l : starts_prompt l = false → l ≠ lit ">".
Proof. by intros H ->. Qed.

(** A line of text of the command in flight joins its response. *)
Lemma ProcessLine_text c l : command_in_progress c = true → text_line l →
  ProcessLine c l =
  set_response (add_dispatched c (dispatched c ++ Dispatch (urc_dispatcher c) l))
    (response_buffer c ++ l ++ CRLF) (parsed_response c).
Proof.
  intros Hc Hl. unfold ProcessLine.
  rewrite decide_False by apply last_not_cr, Hl. cbv zeta.
  rewrite text_not_blank by apply Hl. cbn [command_in_progress add_dispatched]. rewrite Hc.
  rewrite decide_False by apply starts_prompt_not_gt, Hl. by rewrite text_not_status by apply Hl.
Qed.

(** A status line closes it. *)
Lemma ProcessLine_status c l : command_in_progress c = true → status_line l →
  ProcessLine c l =
  set_events (set_response (add_dispatched c (dispatched c ++ Dispatch (urc_dispatcher c) l))
    (response_buffer c ++ l ++ CRLF) (ParseResponse (response_buffer c ++ l ++ CRLF))) true (ev_data_prompt c).
Proof.
  intros Hc Hl. destruct (is_status_parsed _ (sl_status _ Hl)) as (e & _ & _ & Ht & _). unfold ProcessLine.
  rewrite decide_False by apply last_not_cr, Hl. cbv zeta.
  rewrite text_not_blank by done. cbn [command_in_progress add_dispatched]. rewrite Hc.
  rewrite decide_False by apply starts_prompt_not_gt, Hl. by rewrite (sl_status _ Hl).
Qed.

Arguments wire : simpl never.
Arguments Dispatch : simpl never.

(** What the lines before the status line leave. *)
Lemma ProcessLines_text ls c : command_in_progress c = true → Forall text_line ls →
  fold_left ProcessLine ls c =
  set_response (add_dispatched c (dispatched c ++ (ls ≫= Dispatch (urc_dispatcher c))))
    (response_buffer c ++ wire ls) (parsed_response c).
Proof.
  intros Hc H. revert c Hc. induction H as [|l ls Hl H IH]; intros c Hc.
  { destruct c. cbn. unfold set_response, add_dispatched. cbn. by rewrite !app_nil_r. }
  cbn [fold_left]. rewrite ProcessLine_text by done. rewrite IH by done. destruct c.
  unfold set_response, add_dispatched. cbn. by rewrite wire_cons, <- !app_assoc.
Qed.

(** The whole response, and every line of it to the URC handlers. *)
Lemma ProcessLines_response ls st c : command_in_progress c = true →
  Forall text_line ls → status_line st →
  let r := response_buffer c ++ wire (ls ++ [st]) in
  fold_left ProcessLine (ls ++ [st]) c =
  set_events (set_response
      (add_dispatched c (dispatched c ++ ((ls ++ [st]) ≫= Dispatch (urc_dispatcher c)))) r (ParseResponse r))
    true (ev_data_prompt c).
Proof.
  intros Hc Hls Hst r. rewrite fold_left_app. cbn [fold_left]. rewrite ProcessLines_text by done.
  rewrite ProcessLine_status by done. subst r. destruct c. unfold set_response, add_dispatched, set_events. cbn.
  rewrite wire_app, bind_app. cbn [mbind list_bind]. rewrite (wire_cons st []), app_nil_r.
  change (wire []) with ([] : bytes). by rewrite app_nil_r, <- !app_assoc.
Qed.

Lemma text_lines_clean ls st : Forall text_line ls → status_line st →
  Forall (λ l, CR ∉ l ∧ LF ∉ l) (ls ++ [st]).
Proof.
  intros H Hs. apply Forall_app. split; [|by repeat constructor; apply Hs].
  eapply Forall_impl; [exact H|]. intros l Hl. by split; apply Hl.
Qed.

Lemma response_no_prompt ls st : Forall text_line ls → status_line st → no_prompt (wire (ls ++ [st])).
Proof.
  intros H Hs. unfold no_prompt. rewrite <- (app_nil_r (wire _)), lines_of_wire by by apply text_lines_clean.
  change (lines_of []) with ([] : list bytes, [] : bytes). cbn [fst snd]. rewrite app_nil_r.
  rewrite !Forall_app. repeat split; [|by repeat constructor; apply Hs|by repeat constructor].
  eapply Forall_impl; [exact H|]. intros l Hl. apply Hl.
Qed.

(** * Properties: plain commands *)

Lemma receive_all_response reads c ls st : discard_partial_line c = false → line_buffer c = [] →
  command_in_progress c = true → Forall text_line ls → status_line st →
  concat reads = wire (ls ++ [st]) →
  receive_all c reads = set_line (fold_left ProcessLine (ls ++ [st]) c) [].
Proof.
  intros Hd Hb Hc Hls Hst Hr. rewrite receive_all_lines; rewrite ?Hb, ?Hr; try done.
  - cbn [app]. rewrite <- (app_nil_r (wire _)), lines_of_wire by by apply text_lines_clean.
    by rewrite app_nil_r.
  - by apply response_no_prompt.
Qed.

(** C21: Whatever the module answers to a command, line by line and then a final
    status line, split across reads in any way: the command returns success
    exactly for OK and the module's error otherwise, the lines its caller then
    reads are the answer's, an echo left out, and each line of the answer went
    to the URC handlers once, in order. *)
Theorem SendCommand_answer c cmd sent reads ls st :
  discard_partial_line c = false → line_buffer c = [] →
  send_ok sent (cmd ++ CRLF) = true →
  Forall text_line ls → status_line st → concat reads = wire (ls ++ [st]) →
  let '(c', r) := SendCommand c cmd sent reads in
  r = status_result st ∧ GetResponseLines c' = response_lines ls ∧
  GetResponse c' = wire (ls ++ [st]) ∧
  dispatched c' = dispatched c ++ ((ls ++ [st]) ≫= Dispatch (urc_dispatcher c)) ∧
  written c' = written c ++ [cmd ++ CRLF] ∧
  command_in_progress c' = false ∧ ev_response_done c' = false ∧ line_buffer c' = [].
Proof.
  intros Hd Hb Hs Hls Hst Hr. unfold SendCommand. cbv zeta. rewrite Hs. cbn [negb].
  erewrite receive_all_response by (done || by rewrite Hr).
  rewrite ProcessLines_response by done. cbn [response_buffer uart_send add_written set_events open_response set_response].
  rewrite app_nil_l. destruct (ParseResponse_wire ls st Hls Hst) as (e & He & ->).
  cbn [negb]. unfold response_result, status_result, GetResponseLines, GetResponse. rewrite He.
  cbn. case_decide; [rewrite bool_decide_true by done|rewrite bool_decide_false by done]; by split_and!.
Qed.

Lemma SendCommand_answer_witness :
  let ls := [lit "AT+CGSN"; lit "  867034060000012 "] in let st := lit "OK" in
  concat [lit "AT+CGSN"; CRLF ++ lit "  8670340600"; lit "00012 " ++ CRLF ++ lit "O"; lit "K" ++ [CR]; [LF]]
    = wire (ls ++ [st]) ∧ status_result st = Ok ().
Proof.
  pose proof (SendCommand_answer (new_uart 115200) (lit "AT+CGSN") 9
    [lit "AT+CGSN"; CRLF ++ lit "  8670340600"; lit "00012 " ++ CRLF ++ lit "O"; lit "K" ++ [CR]; [LF]]
    [lit "AT+CGSN"; lit "  867034060000012 "] (lit "OK") eq_refl eq_refl eq_refl) as H.
  split; [vm_compute; reflexivity|].
  destruct (SendCommand _ _ _ _) as [c' r] eqn:E. 
  destruct H as (H & _).
  - repeat constructor; try decide_now; vm_compute; reflexivity || discriminate.
  - constructor; decide_now.
  - vm_compute; reflexivity.
  - vm_compute. reflexivity.
Defined.

(** * Lemmas: what reception leaves alone, and prompts *)

Lemma receive_iteration_written c d : written (receive_iteration c d) = written c.
Proof.
  unfold receive_iteration, receive, discard_check.
  destruct (discard_partial_line c) eqn:E; cbn [discard_partial_line set_line set_discard]; rewrite ?E;
    case_decide; try done; destruct (take_lines _ _) as [ls rest]; cbv zeta;
    destruct (IsDataPrompt _); [destruct (prompt_armed _)| |destruct (prompt_armed _)|];
    cbn [written set_line set_events set_armed]; by destruct (ProcessLines_frame ls
      (if discard_partial_line c then set_line (set_discard c false) [] else c))
      as (_ & _ & _ & _ & F & _); rewrite E in F.
Qed.

(** Only the command operations write to the UART. *)
Lemma receive_all_written reads c : written (receive_all c reads) = written c.
Proof.
  unfold receive_all. revert c; induction reads as [|d reads IH]; intros c; [done|].
  cbn [fold_left]. by rewrite IH, receive_iteration_written.
Qed.

Lemma ProcessLine_prompt_stays c l : ev_data_prompt c = true → ev_data_prompt (ProcessLine c l) = true.
Proof. intros H. process_line. Qed.

Lemma ProcessLines_prompt_stays ls c : ev_data_prompt c = true → ev_data_prompt (fold_left ProcessLine ls c) = true.
Proof. revert c; induction ls as [|l ls IH]; intros c H; [done|]. by apply IH, ProcessLine_prompt_stays. Qed.

Lemma receive_all_prompt_stays reads c : ev_data_prompt c = true → ev_data_prompt (receive_all c reads) = true.
Proof.
  unfold receive_all. revert c; induction reads as [|d reads IH]; intros c H; [done|]. apply IH.
  unfold receive_iteration. assert (ev_data_prompt (discard_check c) = true) as H'.
  { unfold discard_check. by destruct (discard_partial_line c). }
  revert H'. generalize (discard_check c). clear. intros c H. unfold receive, discard_check.
  destruct (discard_partial_line c); [done|]. case_decide; [done|]. destruct (take_lines _ _) as [ls rest].
  cbv zeta. pose proof (ProcessLines_prompt_stays ls _ H).
  destruct (IsDataPrompt _); [|done]. by destruct (prompt_armed _).
Qed.

(** A line that is not the prompt alone does not raise the event. *)
Lemma ProcessLines_no_prompt ls c : Forall (λ l, starts_prompt l = false) ls →
  ev_data_prompt (fold_left ProcessLine ls c) = ev_data_prompt c.
Proof.
  intros H. revert c. induction H as [|l ls Hl H IH]; intros c; [done|]. cbn [fold_left]. rewrite IH.
  unfold ProcessLine. cbv zeta. set (t := if decide (last _ = _) then _ else _).
  assert (t ≠ lit ">") as Ht.
  { subst t. case_decide as E; [|by apply starts_prompt_not_gt].
    destruct l as [|x [|y l]]; [done|done|]. unfold starts_prompt in Hl. apply bool_decide_eq_false in Hl.
    change (removelast (x :: y :: l)) with (x :: removelast (y :: l)). intros [= -> _]. by apply Hl. }
  destruct (forallb isblank t); [done|]. cbn [command_in_progress add_dispatched].
  destruct (command_in_progress c); [|done]. rewrite decide_False by done. by destruct (is_status t).
Qed.

(** Where one byte of a stream was read. *)
Lemma concat_split (reads : list bytes) a x b : concat reads = a ++ x :: b →
  ∃ r1 d1 d2 r2, reads = r1 ++ (d1 ++ x :: d2) :: r2 ∧ concat r1 ++ d1 = a ∧ d2 ++ concat r2 = b.
Proof.
  revert a; induction reads as [|d reads IH]; intros a H; [by destruct a|]. cbn [concat] in H.
  apply app_eq_app in H as (l & [[-> H]|[-> H]]).
  - destruct l as [|y l].
    + simpl in H. destruct (IH [] (eq_sym H)) as (r1 & d1 & d2 & r2 & -> & Hr & Hb).
      exists ((a ++ []) :: r1), d1, d2, r2. split; [done|]. split; [|done].
      apply app_nil in Hr as [Hr ->]. simpl. by rewrite Hr, !app_nil_r.
    + injection H as <- ->. by exists [], a, l, reads.
  - destruct (IH _ H) as (r1 & d1 & d2 & r2 & -> & <- & <-).
    exists (d :: r1), d1, d2, r2. split; [done|]. simpl. by rewrite app_assoc.
Qed.

Lemma no_prompt_prefix a b : no_prompt (a ++ b) → no_prompt a.
Proof.
  unfold no_prompt.
  rewrite lines_of_app. cbn [fst snd]. rewrite <- app_assoc, Forall_app. intros [H H'].
  apply Forall_app. split; [done|].
  apply Forall_singleton. destruct (lines_of a).2 as [|c p]; [done|]. unfold starts_prompt. simpl.
  apply bool_decide_false. intros [= ->].
  rewrite lines_of_unfold in H'. destruct (find_sub CRLF _) as [[|i]|] eqn:E; cbn [fst snd app] in H'.
  - apply find_sub_Some in E. cbn in E. by simplify_eq.
  - by apply Forall_cons in H' as [H' _].
  - by apply Forall_cons in H' as [H' _].
Qed.

(** A prompt behind whole lines raises the event it is armed for, however the
    bytes were split. *)
Lemma receive_all_prompt reads c ls bl : discard_partial_line c = false → line_buffer c = [] →
  prompt_armed c = true → Forall (λ l, CR ∉ l ∧ LF ∉ l ∧ starts_prompt l = false) ls →
  forallb isblank bl = true → concat reads = wire ls ++ ">"%char :: bl →
  ev_data_prompt (receive_all c reads) = true.
Proof.
  intros Hd Hb Ha Hls Hbl Hr. assert (Forall (λ l, CR ∉ l ∧ LF ∉ l) ls) as Hc.
  { eapply Forall_impl; [exact Hls|]. intros l Hl. by split; apply Hl. }
  apply concat_split in Hr as (r1 & d1 & d2 & r2 & -> & Hr & <-).
  assert (no_prompt (wire ls)) as Hnp.
  { unfold no_prompt. rewrite <- (app_nil_r (wire _)), lines_of_wire by done. cbn [fst snd].
    apply Forall_app. split; [|by repeat constructor]. rewrite app_nil_r.
    eapply Forall_impl; [exact Hls|]. intros l Hl. apply Hl. }
  unfold receive_all. rewrite fold_left_app. fold (receive_all c r1). cbn [fold_left].
  apply receive_all_prompt_stays.
  rewrite receive_all_lines; rewrite ?Hb; try done.
  2: { cbn [app]. rewrite <- Hr in Hnp. by eapply no_prompt_prefix. }
  cbn [app]. destruct (ProcessLines_frame (lines_of (concat r1)).1 c) as (_ & F2 & F3 & _).
  set (c' := fold_left _ _ _) in *.
  rewrite receive_iteration_lines; [|by rewrite <- Hd, <- F2|by destruct d1].
  cbn [line_buffer set_line].
  assert ((lines_of ((lines_of (concat r1)).2 ++ d1 ++ ">"%char :: d2)).2 = ">"%char :: d2) as E.
  { pose proof (f_equal snd (lines_of_app (concat r1) (d1 ++ ">"%char :: d2))) as E. cbn [snd] in E.
    rewrite <- E, app_assoc, Hr, lines_of_wire by done. cbn [snd].
    rewrite lines_of_unfold. destruct (find_sub CRLF _) as [i|] eqn:Ef; [|done]. exfalso.
    apply find_sub_Some in Ef. assert (CR ∈ ">"%char :: d2) as Hin by (rewrite Ef; set_solver).
    apply list_elem_of_In in Hin as [Hin|Hin]; [done|].
    rewrite forallb_app in Hbl. apply andb_true_iff in Hbl as [Hbl _].
    rewrite forallb_forall in Hbl. by apply Hbl in Hin. }
  destruct (lines_of ((lines_of (concat r1)).2 ++ d1 ++ _)) as [ls' rest]. cbn [snd] in E. subst rest. cbv zeta. cbn [IsDataPrompt].
  rewrite forallb_app in Hbl. apply andb_true_iff in Hbl as [-> _]. rewrite bool_decide_true by done. cbn [andb].
  assert (prompt_armed (set_line (fold_left ProcessLine ls' (set_line c' (lines_of (concat r1)).2)) (">"%char :: d2)) = true) as ->;
    [|done].
  cbn [prompt_armed set_line]. destruct (ProcessLines_frame ls' (set_line c' (lines_of (concat r1)).2)) as (_ & _ & G & _).
  rewrite G. cbn [prompt_armed set_line]. by rewrite F3.
Qed.

(** * Properties: payloads *)

(** The state a payload command waits in. *)
Definition awaiting_prompt (c : AtUart) (prefix : bytes) : AtUart :=
  uart_send (set_armed (set_events (open_response c) false false) true) (prefix ++ CRLF).

(** Without a prompt in the stream, its event is not raised. *)
Lemma receive_all_no_prompt reads c : discard_partial_line c = false → line_buffer c = [] →
  no_prompt (concat reads) → ev_data_prompt (receive_all c reads) = ev_data_prompt c.
Proof.
  intros Hd Hb Hp. rewrite receive_all_lines; rewrite ?Hb; try done. cbn [app ev_data_prompt set_line].
  apply ProcessLines_no_prompt. by apply Forall_app in Hp as [Hp _].
Qed.

(** C22: A payload is written only after the prompt for it: with no prompt in what
    the module sends, the command line is all that went out and the command fails,
    with the module's own error when it answered one; once the prompt comes, the
    payload goes out next and the command succeeds, however the prompt was split. *)
Theorem payload_only_after_prompt c prefix data sent sent' reads :
  discard_partial_line c = false → line_buffer c = [] →
  send_ok sent (prefix ++ CRLF) = true → send_ok sent' data = true →
  let '(c', r) := SendDataAfterPrompt c prefix data sent sent' reads in
  (no_prompt (concat reads) → (∃ e, r = Err e) ∧ written c' = written c ++ [prefix ++ CRLF]) ∧
  (∀ ls st e, Forall text_line ls → status_line st → status_result st = Err e →
     concat reads = wire (ls ++ [st]) → r = Err e) ∧
  (∀ ls bl, Forall (λ l, CR ∉ l ∧ LF ∉ l ∧ starts_prompt l = false) ls → forallb isblank bl = true →
     concat reads = wire ls ++ ">"%char :: bl →
     r = Ok () ∧ written c' = written c ++ [prefix ++ CRLF; data]).
Proof.
  intros Hd Hb Hs Hs'. unfold SendDataAfterPrompt. cbv zeta. rewrite Hs. cbn [negb].
  fold (awaiting_prompt c prefix). set (w := awaiting_prompt c prefix).
  assert (written (receive_all w reads) = written c ++ [prefix ++ CRLF]) as Hw.
  { by rewrite receive_all_written. }
  assert (no_prompt (concat reads) → ev_data_prompt (receive_all w reads) = false) as Hn.
  { intros Hn. by rewrite receive_all_no_prompt. }
  rewrite Hs'. cbn [negb].
  destruct (ev_data_prompt (receive_all w reads)) eqn:Ep.
  - split_and!; [intros Hn'; by specialize (Hn Hn')| |].
    + intros ls st e Hls Hst _ Hr. rewrite Hr in Hn. discriminate Hn. by apply response_no_prompt.
    + intros ls bl _ _ _. split; [done|]. cbn. rewrite Hw. by rewrite <- app_assoc.
  - pose proof (λ ls bl Hls Hbl Hr, eq_trans (eq_sym Ep) (receive_all_prompt reads w ls bl Hd Hb eq_refl Hls Hbl Hr)) as Hno.
    assert (∀ ls st e, Forall text_line ls → status_line st → status_result st = Err e →
      concat reads = wire (ls ++ [st]) → ev_response_done (receive_all w reads) = true ∧
      p_ok (parsed_response (receive_all w reads)) = false ∧ p_error (parsed_response (receive_all w reads)) = e) as Herr.
    { intros ls st e Hls Hst He Hr. rewrite (receive_all_response reads w ls st) by done.
      rewrite ProcessLines_response by done.
      cbn [ev_response_done set_line set_events parsed_response set_armed set_response].
      change (response_buffer w) with ([] : bytes). cbn [app].
      destruct (ParseResponse_wire ls st Hls Hst) as (e' & He' & ->).
      unfold status_result in He. rewrite He' in He. cbn [p_ok p_error].
      case_decide; [done|]. rewrite bool_decide_false by done. simpl in He. by simplify_eq. }
    revert Hw Hno Herr. generalize (receive_all w reads). intros v Hw Hno Herr.
    cbn [parsed_response set_in_progress set_armed set_events].
    destruct (ev_response_done v), (p_ok (parsed_response v)); (split_and!; [intros _; split; [by eexists|exact Hw]| |
      intros ls bl Hls Hbl Hr; by specialize (Hno ls bl Hls Hbl Hr)]);
      intros ls st e Hls Hst He Hr; destruct (Herr ls st e Hls Hst He Hr) as (? & ? & ?); by subst.
Qed.

Lemma payload_only_after_prompt_witness :
  (SendDataAfterPrompt (new_uart 115200) (lit "AT+CIPSEND=0,4") (lit "ping") 16 4
     [CRLF ++ lit ">"; lit " "]).2 = Ok ().
Proof.
  pose proof (payload_only_after_prompt (new_uart 115200) (lit "AT+CIPSEND=0,4") (lit "ping") 16 4
    [CRLF ++ lit ">"; lit " "] eq_refl eq_refl eq_refl eq_refl) as H.
  destruct (SendDataAfterPrompt _ _ _ _ _ _) as [c' r] eqn:E. destruct H as (_ & _ & H).
  apply (H [[]] (lit " ")); [|reflexivity|reflexivity].
  repeat constructor; try decide_now.
Defined.

(** The command whose prompt came as a line answers success whatever the module
    answered: the prompt line stays in the response, and the parser stops there. *)
Lemma prompt_line_masks_error c cmd sent st :
  discard_partial_line c = false → line_buffer c = [] →
  send_ok sent (cmd ++ CRLF) = true → status_line st →
  (SendCommand c cmd sent [wire [lit ">"; st]]).2 = Ok ().
Proof.
  intros Hd Hb Hs Hst. unfold SendCommand. cbv zeta. rewrite Hs. cbn [negb].
  set (w := uart_send _ _).
  assert (receive_all w [wire [lit ">"; st]] = set_line (ProcessLine (ProcessLine w (lit ">")) st) []) as ->.
  { unfold receive_all. cbn [fold_left]. rewrite receive_iteration_lines by done.
    change (line_buffer w) with (line_buffer c). rewrite Hb. cbn [app].
    rewrite <- (app_nil_r (wire _)), lines_of_wire; [done|].
    repeat constructor; try decide_now; apply Hst. }
  rewrite (ProcessLine_status _ st) by done.
  cbn [negb take_done ev_response_done set_line set_events]. unfold response_result.
  cbn [parsed_response set_in_progress set_response set_events set_line].
  change (response_buffer (ProcessLine w (lit ">"))) with (lit ">" ++ CRLF).
  unfold ParseResponse. rewrite <- app_assoc.
  destruct (length _) as [|k] eqn:E; [discriminate E|]. by rewrite parse_loop_line by (decide_now || discriminate || lia).
Qed.
