(* ===== verification/MqttPacket.v ===== *)
(** MQTT 3.1.1 control packets (src/src/protocol/mqtt/mqtt_packet.{h,cpp}):
    encoding, decoding and taking whole packets off a byte stream; the second half is
    the codec's correctness. *)
From stdpp Require Import base decidable list strings gmap.
From Stdlib Require Import ZArith Ascii Lia.
From S2P Require Import Prelude.

(** * Data *)

(** [enum class MqttPacketType : uint8_t]; the decoder casts any nibble to it,
    so 0 and 15 are values too. *)
Definition MqttPacketType := Z.
Definition kConnect : MqttPacketType := 1.
Definition kConnack : MqttPacketType := 2.
Definition kPublish : MqttPacketType := 3.
Definition kPuback : MqttPacketType := 4.
Definition kPubrec : MqttPacketType := 5.
Definition kPubrel : MqttPacketType := 6.
Definition kPubcomp : MqttPacketType := 7.
Definition kSubscribe : MqttPacketType := 8.
Definition kSuback : MqttPacketType := 9.
Definition kUnsubscribe : MqttPacketType := 10.
Definition kUnsuback : MqttPacketType := 11.
Definition kPingreq : MqttPacketType := 12.
Definition kPingresp : MqttPacketType := 13.
Definition kDisconnect : MqttPacketType := 14.

(** [enum class MqttConnectReturnCode : uint8_t] *)
Inductive MqttConnectReturnCode :=
  | kAccepted | kUnacceptableProtocol | kIdentifierRejected
  | kServerUnavailable | kBadCredentials | kMqttNotAuthorizedCode.

#[export] Instance MqttConnectReturnCode_eq_dec : EqDecision MqttConnectReturnCode.
Proof. solve_decision. Defined.

Definition return_code_value (c : MqttConnectReturnCode) : Z :=
  match c with
  | kAccepted => 0 | kUnacceptableProtocol => 1 | kIdentifierRejected => 2
  | kServerUnavailable => 3 | kBadCredentials => 4 | kMqttNotAuthorizedCode => 5
  end.

Definition return_code_of (v : Z) : option MqttConnectReturnCode :=
  match v with
  | 0 => Some kAccepted | 1 => Some kUnacceptableProtocol | 2 => Some kIdentifierRejected
  | 3 => Some kServerUnavailable | 4 => Some kBadCredentials | 5 => Some kMqttNotAuthorizedCode
  | _ => None
  end.

Definition DescribeConnectReturnCode (code : MqttConnectReturnCode) : bytes :=
  match code with
  | kAccepted => lit "connection accepted"
  | kUnacceptableProtocol => lit "unacceptable protocol version"
  | kIdentifierRejected => lit "client identifier rejected"
  | kServerUnavailable => lit "server unavailable"
  | kBadCredentials => lit "bad user name or password"
  | kMqttNotAuthorizedCode => lit "not authorized"
  end.

Record MqttFixedHeader := MkFixedHeader {
  h_type : MqttPacketType;
  h_dup : bool;
  h_qos : Z;
  h_retain : bool;
  h_remaining_length : Z;
}.

Record MqttPacket := MkMqttPacket { pk_header : MqttFixedHeader; pk_body : bytes }.

Record MqttConnack := MkConnack {
  session_present : bool;
  connack_code : MqttConnectReturnCode;
}.

Record MqttPublishMessage := MkPublishMessage {
  pm_topic : bytes;
  pm_packet_id : Z;
  pm_qos : Z;
  pm_retain : bool;
  pm_payload : bytes;
}.

Record MqttSuback := MkSuback { suback_packet_id : Z; suback_return_codes : list Z }.

(** config_types.h *)
Record MqttWill := MkWill { w_topic : bytes; w_payload : bytes; w_qos : Z; w_retain : bool }.

Record MqttConnectOptions := MkConnectOptions {
  o_client_id : bytes;
  o_username : bytes;
  o_password : bytes;
  o_has_username : bool;
  o_has_password : bool;
  o_clean_session : bool;
  o_keep_alive_seconds : Z;
  o_has_will : bool;
  o_will : MqttWill;
}.

(** * Primitives *)

Definition kMaxRemainingLength : Z := 268435455.

Definition FlagsFor (header : MqttFixedHeader) : Z :=
  let flags := 0 in
  let flags := if h_dup header then Z.lor flags 8 else flags in
  let flags := Z.lor flags (Z.shiftl (Z.land (h_qos header) 3) 1) in
  if h_retain header then Z.lor flags 1 else flags.

Definition AppendUint16 (out : bytes) (value : Z) : bytes :=
  out ++ [z2b (Z.land (Z.shiftr value 8) 255); z2b (Z.land value 255)].

(** The [do]/[while] of [EncodeRemainingLength]. *)
Fixpoint remaining_length_loop (fuel : nat) (value : Z) (out : bytes) : bytes :=
  match fuel with
  | O => out
  | S k =>
      let byte := u8 (value mod 128) in
      let value := value / 128 in
      let byte := if value >? 0 then Z.lor byte 128 else byte in
      let out := out ++ [z2b byte] in
      if value >? 0 then remaining_length_loop k value out else out
  end.

(** Values above [kMaxRemainingLength] are refused, so four iterations do. *)
Definition EncodeRemainingLength (value : Z) : bytes :=
  if value >? kMaxRemainingLength then [] else remaining_length_loop 4 value [].

(** The [for] loop of [DecodeRemainingLength], [i] counting up to four. *)
Fixpoint decode_length_loop (iterations : nat) (i : nat) (value multiplier : Z) (buffer : bytes)
  : option (Z * nat) :=
  match iterations with
  | O => None
  | S k =>
      match buffer with
      | [] => None
      | c :: buffer =>
          let byte := b2z c in
          let value := value + Z.land byte 127 * multiplier in
          if Z.land byte 128 =? 0 then Some (value, S i)
          else decode_length_loop k (S i) value (multiplier * 128) buffer
      end
  end.

(** The value and the number of bytes it took. *)
Definition DecodeRemainingLength (buffer : bytes) : option (Z * nat) :=
  decode_length_loop 4 0 0 1 buffer.

Definition AppendString (out value : bytes) : bytes :=
  AppendUint16 out (u16 (Z.of_nat (length value))) ++ value.

(** Two bytes, big endian, at [offset]. *)
Definition read_uint16 (buffer : bytes) (offset : nat) : option Z :=
  hi ← buffer !! offset; lo ← buffer !! S offset;
  Some (Z.lor (Z.shiftl (b2z hi) 8) (b2z lo)).

(** The string and the offset after it. *)
Definition ReadString (buffer : bytes) (offset : nat) : option (bytes * nat) :=
  if (length buffer <? offset + 2)%nat then None else
  match read_uint16 buffer offset with
  | None => None
  | Some len =>
      let start := (offset + 2)%nat in
      let len := Z.to_nat len in
      if (length buffer <? start + len)%nat then None
      else Some (take len (drop start buffer), (start + len)%nat)
  end.

(** * Encoding *)

Definition Frame (type : MqttPacketType) (flags : Z) (body : bytes) : bytes :=
  z2b (Z.lor (Z.shiftl type 4) (Z.land flags 15))
  :: EncodeRemainingLength (Z.of_nat (length body)) ++ body.

Definition AckBody (packet_id : Z) : bytes := AppendUint16 [] packet_id.

Definition connect_flags (o : MqttConnectOptions) : Z :=
  let flags := 0 in
  let flags := if o_clean_session o then Z.lor flags 2 else flags in
  let flags := if o_has_will o then
                 let flags := Z.lor flags 4 in
                 let flags := Z.lor flags (Z.shiftl (Z.land (w_qos (o_will o)) 3) 3) in
                 if w_retain (o_will o) then Z.lor flags 32 else flags
               else flags in
  let flags := if o_has_password o then Z.lor flags 64 else flags in
  if o_has_username o then Z.lor flags 128 else flags.

Definition EncodeConnect (o : MqttConnectOptions) : bytes :=
  let body := AppendString [] (lit "MQTT") in
  let body := body ++ [z2b 4] in
  let body := body ++ [z2b (connect_flags o)] in
  let body := AppendUint16 body (o_keep_alive_seconds o) in
  let body := AppendString body (o_client_id o) in
  let body := if o_has_will o then
                AppendString (AppendString body (w_topic (o_will o))) (w_payload (o_will o))
              else body in
  let body := if o_has_username o then AppendString body (o_username o) else body in
  let body := if o_has_password o then AppendString body (o_password o) else body in
  Frame kConnect 0 body.

Definition EncodePublish (packet_id : Z) (topic payload : bytes) (qos : Z) (retain dup : bool)
  : bytes :=
  let body := AppendString [] topic in
  let body := if qos >? 0 then AppendUint16 body packet_id else body in
  let body := body ++ payload in
  Frame kPublish (FlagsFor (MkFixedHeader kConnect dup qos retain 0)) body.

Definition EncodeSubscribe (packet_id : Z) (topic : bytes) (qos : Z) : bytes :=
  let body := AckBody packet_id in
  let body := AppendString body topic in
  let body := body ++ [z2b (Z.land qos 3)] in
  Frame kSubscribe 2 body.

Definition EncodeUnsubscribe (packet_id : Z) (topic : bytes) : bytes :=
  Frame kUnsubscribe 2 (AppendString (AckBody packet_id) topic).

Definition EncodePacketIdAck (type : MqttPacketType) (packet_id : Z) : bytes :=
  Frame type (if type =? kPubrel then 2 else 0) (AckBody packet_id).

Definition EncodePacket (header : MqttFixedHeader) (body : bytes) : bytes :=
  Frame (h_type header) (FlagsFor header) body.

Definition EncodePingreq : bytes := Frame kPingreq 0 [].
Definition EncodeDisconnect : bytes := Frame kDisconnect 0 [].

(** * Decoding *)

(** The packet at the front of [buffer] and what [buffer] holds after it. *)
Definition TakePacket (buffer : bytes) : option (MqttPacket * bytes) :=
  match buffer with
  | [] => None
  | c :: after =>
      let first := b2z c in
      match DecodeRemainingLength after with
      | None => None
      | Some (remaining, length_bytes) =>
          let header_size := S length_bytes in
          if Z.of_nat (length buffer) <? Z.of_nat header_size + remaining then None else
          let header := MkFixedHeader (Z.shiftr first 4) (negb (Z.land first 8 =? 0))
                          (Z.land (Z.shiftr first 1) 3) (negb (Z.land first 1 =? 0)) remaining in
          let n := Z.to_nat remaining in
          Some (MkMqttPacket header (take n (drop header_size buffer)),
                drop (header_size + n) buffer)
      end
  end.

Definition ParseConnack (body : bytes) : option MqttConnack :=
  match body with
  | [f; c] =>
      if negb (Z.land (b2z f) 254 =? 0) then None
      else if b2z c >? 5 then None
      else code ← return_code_of (b2z c); Some (MkConnack (negb (Z.land (b2z f) 1 =? 0)) code)
  | _ => None
  end.

Definition ParsePublish (header : MqttFixedHeader) (body : bytes) : option MqttPublishMessage :=
  if h_qos header >? 2 then None else
  match ReadString body 0 with
  | None => None
  | Some (topic, offset) =>
      if h_qos header >? 0 then
        if (length body <? offset + 2)%nat then None else
        match read_uint16 body offset with
        | None => None
        | Some id =>
            Some (MkPublishMessage topic id (h_qos header) (h_retain header)
                    (drop (offset + 2) body))
        end
      else Some (MkPublishMessage topic 0 (h_qos header) (h_retain header) (drop offset body))
  end.

Definition ParseSuback (body : bytes) : option MqttSuback :=
  if (length body <? 3)%nat then None else
  match read_uint16 body 0 with
  | None => None
  | Some id => Some (MkSuback id (b2z <$> drop 2 body))
  end.

Definition ParsePacketId (body : bytes) : option Z :=
  if (length body =? 2)%nat then read_uint16 body 0 else None.

(** * The packet codec's correctness: the remaining-length integer, framing as the
    inverse of [TakePacket], stream behaviour of [TakePacket] and the round trips
    of every packet type the client sends or reads. *)

(** ** Lemmas: the remaining length *)

Lemma length_byte_facts d : 0 <= d < 128 →
  u8 d = d ∧ Z.land d 127 = d ∧ Z.land d 128 = 0 ∧
  0 <= Z.lor d 128 < 256 ∧ Z.land (Z.lor d 128) 127 = d ∧ Z.land (Z.lor d 128) 128 = 128.
Proof.
  intros H. assert (0 <= d < 256) as Hd by lia. revert d Hd H. apply (byte_ind (λ d, _ → _)).
  intros c. byte_cases c; intros [? ?]; first [discriminate | by split_and!].
Qed.

Lemma remaining_length_loop_out k v out :
  remaining_length_loop k v out = out ++ remaining_length_loop k v [].
Proof.
  revert v out; induction k as [|k IH]; intros v out; simpl; [by rewrite app_nil_r|].
  case_match; [|done]. rewrite IH, (IH _ [_]). by rewrite app_assoc.
Qed.

Lemma decode_remaining_length_loop k v i acc m rest : 0 <= v < 128 ^ Z.of_nat k → (0 < k)%nat →
  decode_length_loop k i acc m (remaining_length_loop k v [] ++ rest) =
  Some (acc + v * m, (i + length (remaining_length_loop k v []))%nat).
Proof.
  revert v i acc m; induction k as [|k IH]; intros v i acc m Hv Hk; [lia|].
  cbn [remaining_length_loop]. pose proof (Z.mod_pos_bound v 128 ltac:(lia)) as Hd.
  pose proof (Z.div_mod v 128 ltac:(lia)) as Hdiv.
  destruct (length_byte_facts (v mod 128) Hd) as (F1 & F2 & F3 & F4 & F5 & F6).
  rewrite F1. destruct (Z.gtb_spec (v / 128) 0) as [Hq|Hq]; cbn [app].
  - assert (k ≠ 0%nat) as Hk0.
    { intros ->. rewrite Z.div_small in Hq by (rewrite Z.pow_1_r in Hv; lia). lia. }
    rewrite remaining_length_loop_out. cbn [app decode_length_loop].
    rewrite b2z_z2b_small by done. rewrite F5, F6. cbn [Z.eqb].
    rewrite IH; [|split; [lia|apply Z.div_lt_upper_bound; [lia|]];
                   rewrite Nat2Z.inj_succ, Z.pow_succ_r in Hv by lia; lia|lia].
    f_equal. f_equal; [lia|cbn [length]; lia].
  - assert (v / 128 = 0) as E by (apply Z.le_antisymm; [lia|apply Z.div_pos; lia]).
    cbn [decode_length_loop length]. rewrite b2z_z2b_small by lia. rewrite F2, F3. cbn [Z.eqb].
    f_equal. f_equal; lia.
Qed.

Lemma remaining_length_size k v : (0 < k)%nat → 0 <= v →
  (1 <= length (remaining_length_loop k v []) <= k)%nat.
Proof.
  revert v; induction k as [|k IH]; intros v Hk Hv; [lia|]. cbn [remaining_length_loop].
  case_match; [|simpl; lia]. rewrite remaining_length_loop_out, length_app. simpl.
  destruct k as [|k]; [simpl; lia|]. specialize (IH (v / 128) ltac:(lia) ltac:(apply Z.div_pos; lia)).
  lia.
Qed.

Lemma EncodeRemainingLength_decode v rest : 0 <= v <= kMaxRemainingLength →
  DecodeRemainingLength (EncodeRemainingLength v ++ rest) =
  Some (v, length (EncodeRemainingLength v)).
Proof.
  intros Hv. unfold DecodeRemainingLength, EncodeRemainingLength.
  rewrite Z.gtb_ltb, (proj2 (Z.ltb_ge _ _)) by lia.
  rewrite decode_remaining_length_loop; [|unfold kMaxRemainingLength in Hv; lia|lia].
  by rewrite Z.add_0_l, Z.mul_1_r.
Qed.

(** Once the length is decoded, more bytes do not change it. *)
Lemma decode_length_loop_app k i acc m buf x v n :
  decode_length_loop k i acc m buf = Some (v, n) →
  decode_length_loop k i acc m (buf ++ x) = Some (v, n).
Proof.
  revert i acc m buf; induction k as [|k IH]; intros i acc m buf H; [done|].
  destruct buf as [|c buf]; [done|]. simpl in *. case_match; [done|]. by apply IH.
Qed.

Lemma decode_length_loop_bound k i acc m buf v n : 0 <= acc → 0 < m →
  decode_length_loop k i acc m buf = Some (v, n) →
  acc <= v ∧ (i < n <= i + k)%nat ∧ (n <= i + length buf)%nat.
Proof.
  revert i acc m buf; induction k as [|k IH]; intros i acc m buf Ha Hm H; [done|].
  destruct buf as [|c buf]; [done|]. simpl in *.
  assert (0 <= Z.land (b2z c) 127) by (apply Z.land_nonneg; lia).
  case_match; simplify_eq; [split_and!; (lia || nia)|].
  apply IH in H as (I1 & I2 & I3); [split_and!; (lia || nia)|nia|nia].
Qed.

(** ** Lemmas: fields *)

Lemma read_uint16_drop buf off hi lo r : drop off buf = hi :: lo :: r →
  read_uint16 buf off = Some (b2z hi * 256 + b2z lo).
Proof.
  intros H. unfold read_uint16.
  rewrite <- (Nat.add_0_r off) at 1. rewrite <- lookup_drop, H.
  rewrite <- (Nat.add_1_r off), <- lookup_drop, H. simpl.
  by rewrite (shiftl_lor (b2z hi) (b2z lo) 8) by (lia || apply b2z_range).
Qed.

Lemma uint16_bytes v : 0 <= v < 65536 →
  b2z (z2b (Z.land (Z.shiftr v 8) 255)) * 256 + b2z (z2b (Z.land v 255)) = v.
Proof.
  intros Hv. change 255 with (Z.ones 8). rewrite !Z.land_ones, !Z.shiftr_div_pow2, !b2z_z2b by lia.
  change (2 ^ 8) with 256. rewrite !Z.mod_mod by lia.
  rewrite (Z.mod_small (v / 256)) by (split; [apply Z.div_pos|apply Z.div_lt_upper_bound]; lia).
  pose proof (Z.div_mod v 256 ltac:(lia)). lia.
Qed.

Lemma AppendUint16_app out v : AppendUint16 out v = out ++ AppendUint16 [] v.
Proof. done. Qed.

Lemma AppendUint16_length out v : length (AppendUint16 out v) = (length out + 2)%nat.
Proof. unfold AppendUint16. by rewrite length_app. Qed.

Lemma read_uint16_append buf off v r : 0 <= v < 65536 →
  drop off buf = AppendUint16 [] v ++ r → read_uint16 buf off = Some v.
Proof.
  intros Hv H. rewrite (read_uint16_drop _ _ _ _ _ H). by rewrite uint16_bytes.
Qed.

Lemma AppendString_app out s : AppendString out s = out ++ AppendString [] s.
Proof. unfold AppendString. by rewrite (AppendUint16_app out), <- app_assoc. Qed.

Lemma AppendString_length s : length (AppendString [] s) = (length s + 2)%nat.
Proof. unfold AppendString. rewrite length_app, AppendUint16_length. simpl. lia. Qed.

(** A length-prefixed string is read back where it was put. *)
Lemma ReadString_append buf off s r : Z.of_nat (length s) < 65536 →
  drop off buf = AppendString [] s ++ r →
  ReadString buf off = Some (s, (off + 2 + length s)%nat).
Proof.
  intros Hs H. unfold AppendString in H. rewrite <- app_assoc in H.
  assert (u16 (Z.of_nat (length s)) = Z.of_nat (length s)) as Hu
    by (unfold u16; apply Z.mod_small; lia).
  rewrite Hu in H. pose proof (f_equal length H) as Hl.
  rewrite length_drop, !length_app, AppendUint16_length in Hl. cbn [length] in Hl.
  unfold ReadString. rewrite (proj2 (Nat.ltb_ge _ _)) by lia.
  rewrite (read_uint16_append _ _ (Z.of_nat (length s)) _ ltac:(lia) H), Nat2Z.id.
  rewrite (proj2 (Nat.ltb_ge _ _)) by lia.
  rewrite <- drop_drop, H. unfold AppendUint16. cbn [app]. change (drop 2 (?a :: ?b :: ?t)) with t. by rewrite take_app_length.
Qed.

(** ** Lemmas: the fixed header *)

(** The header the first byte of a packet spells. *)
Definition header_of (type flags remaining : Z) : MqttFixedHeader :=
  MkFixedHeader type (negb (Z.land flags 8 =? 0)) (Z.land (Z.shiftr flags 1) 3)
    (negb (Z.land flags 1 =? 0)) remaining.

Lemma first_byte_fields c :
  Z.shiftr (b2z c) 4 = b2z c / 16 ∧ Z.land (b2z c) 8 = Z.land (b2z c mod 16) 8 ∧
  Z.land (Z.shiftr (b2z c) 1) 3 = Z.land (Z.shiftr (b2z c mod 16) 1) 3 ∧
  Z.land (b2z c) 1 = Z.land (b2z c mod 16) 1.
Proof. byte_cases c. Qed.

Lemma first_byte_value type flags : 0 <= type < 16 → 0 <= flags < 16 →
  b2z (z2b (Z.lor (Z.shiftl type 4) (Z.land flags 15))) = type * 16 + flags.
Proof.
  intros Ht Hf. change 15 with (Z.ones 4). rewrite Z.land_ones, (Z.mod_small flags) by lia.
  rewrite shiftl_lor by lia. apply b2z_z2b_small. change (2 ^ 4) with 16. lia.
Qed.

Lemma FlagsFor_header h : 0 <= h_qos h < 4 →
  0 <= FlagsFor h < 16 ∧
  ∀ type n, header_of type (FlagsFor h) n = MkFixedHeader type (h_dup h) (h_qos h) (h_retain h) n.
Proof.
  intros Hq. destruct h as [t d q r l]; simpl in *.
  assert (q = 0 ∨ q = 1 ∨ q = 2 ∨ q = 3) as [-> | [-> | [-> | ->]]] by lia;
    destruct d, r; vm_compute; split; try done; by intros.
Qed.

(** Taking a packet off is the inverse of framing it. *)
Lemma TakePacket_Frame type flags body rest :
  0 <= type < 16 → 0 <= flags < 16 → Z.of_nat (length body) <= kMaxRemainingLength →
  TakePacket (Frame type flags body ++ rest) =
  Some (MkMqttPacket (header_of type flags (Z.of_nat (length body))) body, rest).
Proof.
  intros Ht Hf Hl. unfold Frame. cbn [app TakePacket]. rewrite <- app_assoc.
  rewrite EncodeRemainingLength_decode by lia. cbn [length].
  set (enc := EncodeRemainingLength _).
  rewrite (proj2 (Z.ltb_ge _ _)) by (rewrite !length_app; lia).
  rewrite Nat2Z.id. simpl.
  set (c := z2b _). destruct (first_byte_fields c) as (E1 & E2 & E3 & E4).
  assert (b2z c = type * 16 + flags) as Hc by (by apply first_byte_value).
  assert (b2z c / 16 = type) as Hd by (rewrite Hc, Z.div_add_l, Z.div_small by lia; lia).
  assert (b2z c mod 16 = flags) as Hm by (rewrite Hc, Z.add_comm, Z.mod_add, Z.mod_small by lia; lia).
  rewrite E1, E2, E3, E4, Hd, Hm. unfold header_of.
  change (drop (S (length enc) + length body) (c :: enc ++ body ++ rest))
    with (drop (length enc + length body) (enc ++ body ++ rest)).
  rewrite <- (drop_drop (enc ++ body ++ rest)), !drop_app_length, take_app_length. done.
Qed.

(** ** Lemmas: the stream *)

Lemma DecodeRemainingLength_app buf x v n : DecodeRemainingLength buf = Some (v, n) →
  DecodeRemainingLength (buf ++ x) = Some (v, n).
Proof. apply decode_length_loop_app. Qed.

Lemma DecodeRemainingLength_bound buf v n : DecodeRemainingLength buf = Some (v, n) →
  0 <= v ∧ (1 <= n <= 4)%nat ∧ (n <= length buf)%nat.
Proof.
  intros H. apply decode_length_loop_bound in H as (H1 & H2 & H3); [|lia|lia].
  split_and!; lia.
Qed.

(** A packet comes off the front: what was consumed and what is left make up the
    buffer, and at least the two header bytes were consumed. *)
Lemma TakePacket_prefix buf p rest : TakePacket buf = Some (p, rest) →
  ∃ hd, buf = hd ++ pk_body p ++ rest ∧ (2 <= length hd <= 5)%nat ∧
        Z.of_nat (length (pk_body p)) = h_remaining_length (pk_header p).
Proof.
  intros H. destruct buf as [|c after]; [done|]. cbn [TakePacket] in H.
  destruct (DecodeRemainingLength after) as [[v n]|] eqn:E; [|done].
  apply DecodeRemainingLength_bound in E as (Hv & Hn & Hl).
  case_match eqn:Hlen; [done|]. apply Z.ltb_ge in Hlen. simplify_eq/=.
  exists (c :: take n after). simpl. rewrite length_take.
  split_and!; [|lia|lia|rewrite length_take, length_drop; lia].
  f_equal. rewrite <- (drop_drop after). by rewrite !take_drop.
Qed.

Lemma TakePacket_app buf x p rest : TakePacket buf = Some (p, rest) →
  TakePacket (buf ++ x) = Some (p, rest ++ x).
Proof.
  intros H. destruct buf as [|c after]; [done|]. cbn [TakePacket app] in *.
  destruct (DecodeRemainingLength after) as [[v n]|] eqn:E; [|done].
  rewrite (DecodeRemainingLength_app _ _ _ _ E).
  apply DecodeRemainingLength_bound in E as (Hv & Hn & Hl).
  case_match eqn:Hlen; [done|]. apply Z.ltb_ge in Hlen. simplify_eq/=.
  rewrite (proj2 (Z.ltb_ge _ _)) by (rewrite length_app; lia).
  rewrite !drop_app_le by lia. rewrite take_app_le by (rewrite length_drop; lia). done.
Qed.

(** ** Specification: the CONNECT packet as section 3.1 lays it out *)

Definition get_uint16 (s : bytes) : option (Z * bytes) :=
  match s with
  | hi :: lo :: r => Some (b2z hi * 256 + b2z lo, r)
  | _ => None
  end.

Definition get_string (s : bytes) : option (bytes * bytes) :=
  '(n, r) ← get_uint16 s;
  if Z.of_nat (length r) <? n then None else Some (take (Z.to_nat n) r, drop (Z.to_nat n) r).

Definition get_byte (s : bytes) : option (Z * bytes) :=
  match s with c :: r => Some (b2z c, r) | [] => None end.

(** A field that is present only when its flag is set. *)
Definition get_if (b : bool) (s : bytes) : option (bytes * bytes) :=
  if b then get_string s else Some ([], s).

(** What a broker reads out of a CONNECT body. *)
Definition parse_connect (body : bytes) : option MqttConnectOptions :=
  '(name, r) ← get_string body;
  '(level, r) ← get_byte r;
  if bool_decide (name = lit "MQTT") && (level =? 4) then
    '(flags, r) ← get_byte r;
    '(keep_alive, r) ← get_uint16 r;
    '(client_id, r) ← get_string r;
    let will := Z.testbit flags 2 in
    '(will_topic, r) ← get_if will r;
    '(will_payload, r) ← get_if will r;
    '(user, r) ← get_if (Z.testbit flags 7) r;
    '(pass, r) ← get_if (Z.testbit flags 6) r;
    if bool_decide (r = []) then
      Some (MkConnectOptions client_id user pass (Z.testbit flags 7) (Z.testbit flags 6)
              (Z.testbit flags 1) keep_alive will
              (MkWill will_topic will_payload (Z.land (Z.shiftr flags 3) 3) (Z.testbit flags 5)))
    else None
  else None.

(** The options with the fields an absent flag leaves meaningless cleared. *)
Definition connect_normal (o : MqttConnectOptions) : MqttConnectOptions :=
  MkConnectOptions (o_client_id o)
    (if o_has_username o then o_username o else [])
    (if o_has_password o then o_password o else [])
    (o_has_username o) (o_has_password o) (o_clean_session o) (o_keep_alive_seconds o)
    (o_has_will o) (if o_has_will o then o_will o else MkWill [] [] 0 false).

Definition short (s : bytes) : Prop := Z.of_nat (length s) < 65536.

Record connect_ok (o : MqttConnectOptions) : Prop := {
  co_keep_alive : 0 <= o_keep_alive_seconds o < 65536;
  co_client_id : short (o_client_id o);
  co_username : short (o_username o);
  co_password : short (o_password o);
  co_will_topic : short (w_topic (o_will o));
  co_will_payload : short (w_payload (o_will o));
  co_will_qos : 0 <= w_qos (o_will o) < 4;
}.

Lemma get_uint16_append v r : 0 <= v < 65536 → get_uint16 (AppendUint16 [] v ++ r) = Some (v, r).
Proof. intros Hv. simpl. by rewrite uint16_bytes. Qed.

Lemma get_string_append s r : short s → get_string (AppendString [] s ++ r) = Some (s, r).
Proof.
  unfold short. intros Hs. unfold get_string, AppendString. rewrite <- app_assoc.
  assert (u16 (Z.of_nat (length s)) = Z.of_nat (length s)) as ->
    by (unfold u16; apply Z.mod_small; lia).
  rewrite get_uint16_append by lia. cbn [mbind option_bind].
  rewrite (proj2 (Z.ltb_ge _ _)) by (rewrite length_app; lia).
  by rewrite Nat2Z.id, take_app_length, drop_app_length.
Qed.

Lemma get_if_append (b : bool) s r : short s →
  get_if b ((if b then AppendString [] s else []) ++ r) = Some (if b then s else [], r).
Proof. intros Hs. destruct b; [by apply get_string_append|done]. Qed.

(** The connect flags as the broker reads them. *)
Lemma connect_flags_bits o : 0 <= w_qos (o_will o) < 4 →
  let f := b2z (z2b (connect_flags o)) in
  Z.testbit f 1 = o_clean_session o ∧ Z.testbit f 2 = o_has_will o ∧
  Z.testbit f 6 = o_has_password o ∧ Z.testbit f 7 = o_has_username o ∧
  Z.land (Z.shiftr f 3) 3 = (if o_has_will o then w_qos (o_will o) else 0) ∧
  Z.testbit f 5 = (if o_has_will o then w_retain (o_will o) else false).
Proof.
  intros Hq. destruct o as [id u p hu hp cs ka hw [t pl q r]]; simpl in *.
  assert (q = 0 ∨ q = 1 ∨ q = 2 ∨ q = 3) as [-> | [-> | [-> | ->]]] by lia;
    destruct hu, hp, cs, hw, r; vm_compute; by split_and!.
Qed.

(** The body of a CONNECT as the concatenation of its fields. *)
Definition connect_body (o : MqttConnectOptions) : bytes :=
  AppendString [] (lit "MQTT") ++ [z2b 4] ++ [z2b (connect_flags o)]
  ++ AppendUint16 [] (o_keep_alive_seconds o) ++ AppendString [] (o_client_id o)
  ++ (if o_has_will o then AppendString [] (w_topic (o_will o)) else [])
  ++ (if o_has_will o then AppendString [] (w_payload (o_will o)) else [])
  ++ (if o_has_username o then AppendString [] (o_username o) else [])
  ++ (if o_has_password o then AppendString [] (o_password o) else []) ++ [].

Lemma EncodeConnect_body o : EncodeConnect o = Frame kConnect 0 (connect_body o).
Proof.
  unfold EncodeConnect, connect_body. f_equal.
  destruct (o_has_will o), (o_has_username o), (o_has_password o);
    rewrite ?(AppendString_app (_ ++ _)), ?(AppendUint16_app (_ ++ _));
    repeat (rewrite (AppendString_app (AppendString _ _)) || rewrite (AppendString_app (_ ++ _))
            || rewrite (AppendUint16_app (_ ++ _)));
    rewrite <- ?app_assoc, ?app_nil_r; done.
Qed.

Lemma parse_connect_body o : connect_ok o → parse_connect (connect_body o) = Some (connect_normal o).
Proof.
  intros [H1 H2 H3 H4 H5 H6 H7]. unfold parse_connect, connect_body.
  destruct (connect_flags_bits o H7) as (F1 & F2 & F3 & F4 & F5 & F6).
  rewrite get_string_append by done. cbn [mbind option_bind app get_byte].
  rewrite b2z_z2b_small by lia. change (bool_decide _ && _) with true. cbn [mbind option_bind].
  rewrite F1, F2, F3, F4, F5, F6.
  rewrite get_uint16_append by done. cbn [mbind option_bind].
  rewrite get_string_append by done. cbn [mbind option_bind].
  do 4 (rewrite get_if_append by done; cbn [mbind option_bind]).
  unfold connect_normal. destruct (o_has_will o); [by destruct (o_will o)|done].
Qed.

(** ** Lemmas: overlong lengths *)

Lemma overlong_length a b c d rest :
  Z.land (b2z a) 128 ≠ 0 → Z.land (b2z b) 128 ≠ 0 → Z.land (b2z c) 128 ≠ 0 → Z.land (b2z d) 128 ≠ 0 →
  DecodeRemainingLength (a :: b :: c :: d :: rest) = None.
Proof.
  intros Ha Hb Hc Hd. unfold DecodeRemainingLength. cbn [decode_length_loop].
  by rewrite !(proj2 (Z.eqb_neq _ 0)).
Qed.

(** The body of a PUBLISH, and what the client reads out of it. *)
Definition publish_body (m : MqttPublishMessage) : bytes :=
  AppendString [] (pm_topic m)
  ++ (if pm_qos m >? 0 then AppendUint16 [] (pm_packet_id m) else []) ++ pm_payload m.

Lemma EncodePublish_body m dup :
  EncodePublish (pm_packet_id m) (pm_topic m) (pm_payload m) (pm_qos m) (pm_retain m) dup =
  Frame kPublish (FlagsFor (MkFixedHeader kConnect dup (pm_qos m) (pm_retain m) 0)) (publish_body m).
Proof.
  unfold EncodePublish, publish_body. f_equal. case_match; [|done].
  by rewrite (AppendUint16_app (AppendString _ _)), <- app_assoc.
Qed.

Lemma ParsePublish_body h m : h_qos h = pm_qos m → h_retain h = pm_retain m →
  0 <= pm_qos m <= 2 → short (pm_topic m) → 0 <= pm_packet_id m < 65536 →
  (pm_qos m = 0 → pm_packet_id m = 0) →
  ParsePublish h (publish_body m) = Some m.
Proof.
  intros Hq Hr Hqr Ht Hid Hz. unfold ParsePublish, publish_body. rewrite Hq, Hr.
  rewrite Z.gtb_ltb, (proj2 (Z.ltb_ge _ _)) by lia.
  rewrite (ReadString_append _ 0 (pm_topic m) _ Ht eq_refl).
  set (k := (0 + 2 + length (pm_topic m))%nat).
  assert (k = length (AppendString [] (pm_topic m))) as Hk
    by (rewrite AppendString_length; unfold k; lia).
  destruct (Z.gtb_spec (pm_qos m) 0) as [Hp|Hp].
  - rewrite (proj2 (Nat.ltb_ge _ _)) by (rewrite !length_app, AppendUint16_length; simpl; lia).
    assert (drop k (AppendString [] (pm_topic m) ++ AppendUint16 [] (pm_packet_id m) ++ pm_payload m)
            = AppendUint16 [] (pm_packet_id m) ++ pm_payload m) as Hd
      by (by rewrite Hk, drop_app_length).
    rewrite (read_uint16_append _ _ _ _ Hid Hd). rewrite <- drop_drop, Hd. by destruct m.
  - cbn [app]. rewrite Hk, drop_app_length. rewrite <- Hz by lia. by destruct m.
Qed.

(** ** Properties *)

(** the remaining-length integer round-trips. Every length a packet may have
    encodes in one to four bytes, and decoding them gives it back with the number
    of bytes it took, whatever follows on the stream. *)
Theorem remaining_length_roundtrip (v : Z) (rest : bytes) : 0 <= v <= kMaxRemainingLength →
  DecodeRemainingLength (EncodeRemainingLength v ++ rest) =
    Some (v, length (EncodeRemainingLength v)) ∧
  (1 <= length (EncodeRemainingLength v) <= 4)%nat.
Proof.
  intros Hv. split; [by apply EncodeRemainingLength_decode|].
  unfold EncodeRemainingLength. rewrite Z.gtb_ltb, (proj2 (Z.ltb_ge _ _)) by lia.
  apply remaining_length_size; lia.
Qed.

Lemma remaining_length_roundtrip_witness :
  DecodeRemainingLength (EncodeRemainingLength 321 ++ lit "x") = Some (321, 2%nat).
Proof.
  apply (remaining_length_roundtrip 321 (lit "x")). unfold kMaxRemainingLength. lia.
Defined.

(** C38: [TakePacket] inverts [EncodePacket]. A framed packet at the front of a
    stream comes off whole, with the type, flags and body it was built with and
    the length filled in, leaving exactly the bytes that followed it. *)
Theorem TakePacket_EncodePacket (h : MqttFixedHeader) (body rest : bytes) :
  0 <= h_type h < 16 → 0 <= h_qos h < 4 → Z.of_nat (length body) <= kMaxRemainingLength →
  TakePacket (EncodePacket h body ++ rest) =
  Some (MkMqttPacket (MkFixedHeader (h_type h) (h_dup h) (h_qos h) (h_retain h)
                        (Z.of_nat (length body))) body, rest).
Proof.
  intros Ht Hq Hl. destruct (FlagsFor_header h Hq) as [Hf Hh].
  unfold EncodePacket. by rewrite TakePacket_Frame, Hh.
Qed.

Lemma TakePacket_EncodePacket_witness :
  TakePacket (EncodePacket (MkFixedHeader kPublish true 1 false 0) (lit "abc") ++ lit "next") =
  Some (MkMqttPacket (MkFixedHeader kPublish true 1 false 3) (lit "abc"), lit "next").
Proof.
  apply (TakePacket_EncodePacket (MkFixedHeader kPublish true 1 false 0) (lit "abc") (lit "next"));
    vm_compute; try split; discriminate || reflexivity.
Defined.

(** a PUBLISH is read back as it was sent. For QoS 0 to 2, taking the
    encoded packet off the stream and parsing it gives the topic, packet id (zero
    at QoS 0), QoS, retain flag and payload, whatever the DUP flag. *)
Theorem publish_roundtrip (m : MqttPublishMessage) (dup : bool) (rest : bytes) :
  0 <= pm_qos m <= 2 → short (pm_topic m) → 0 <= pm_packet_id m < 65536 →
  (pm_qos m = 0 → pm_packet_id m = 0) →
  Z.of_nat (length (publish_body m)) <= kMaxRemainingLength →
  ∃ p, TakePacket (EncodePublish (pm_packet_id m) (pm_topic m) (pm_payload m) (pm_qos m)
                     (pm_retain m) dup ++ rest) = Some (p, rest) ∧
       h_type (pk_header p) = kPublish ∧ h_dup (pk_header p) = dup ∧
       ParsePublish (pk_header p) (pk_body p) = Some m.
Proof.
  intros Hq Ht Hid Hz Hl. rewrite EncodePublish_body.
  destruct (FlagsFor_header (MkFixedHeader kConnect dup (pm_qos m) (pm_retain m) 0) ltac:(simpl; lia))
    as [Hf Hh].
  rewrite TakePacket_Frame by (done || (unfold kPublish; lia)).
  rewrite Hh. eexists. split_and!; [reflexivity|done|done|]. by apply ParsePublish_body.
Qed.

Lemma publish_roundtrip_witness :
  let m := MkPublishMessage (lit "a/b") 7 2 true (lit "payload") in
  ∃ p, TakePacket (EncodePublish 7 (lit "a/b") (lit "payload") 2 true false ++ []) = Some (p, []) ∧
       h_type (pk_header p) = kPublish ∧ h_dup (pk_header p) = false ∧
       ParsePublish (pk_header p) (pk_body p) = Some m.
Proof.
  apply (publish_roundtrip (MkPublishMessage (lit "a/b") 7 2 true (lit "payload")) false []);
    vm_compute; try split; discriminate || reflexivity.
Defined.

(** the CONNECT packet says what the options say. A broker reading it by the
    specification's layout gets the client id, credentials, clean-session flag,
    keep-alive interval and will back, each present exactly when its flag is
    set, and nothing after them. *)
Theorem EncodeConnect_parse (o : MqttConnectOptions) (rest : bytes) :
  connect_ok o → Z.of_nat (length (connect_body o)) <= kMaxRemainingLength →
  ∃ p, TakePacket (EncodeConnect o ++ rest) = Some (p, rest) ∧
       h_type (pk_header p) = kConnect ∧ parse_connect (pk_body p) = Some (connect_normal o).
Proof.
  intros Hok Hl. rewrite EncodeConnect_body, TakePacket_Frame by (done || (unfold kConnect; lia)).
  eexists. split_and!; [reflexivity|done|]. by apply parse_connect_body.
Qed.

Definition sample_options : MqttConnectOptions :=
  MkConnectOptions (lit "dev1") (lit "u") (lit "p") true true true 60 true
    (MkWill (lit "w") (lit "gone") 1 true).

Lemma EncodeConnect_parse_witness :
  ∃ p, TakePacket (EncodeConnect sample_options ++ []) = Some (p, []) ∧
       h_type (pk_header p) = kConnect ∧
       parse_connect (pk_body p) = Some (connect_normal sample_options).
Proof.
  apply (EncodeConnect_parse sample_options []).
  - constructor; vm_compute; try split; discriminate || reflexivity.
  - vm_compute. discriminate.
Defined.

(** an acknowledgement carries its packet id and the flags its type
    requires: taken off the stream it parses to the id, with 0b0010 for PUBREL
    and zero for the others. *)
Theorem packet_id_ack_roundtrip (type id : Z) (rest : bytes) :
  0 <= type < 16 → 0 <= id < 65536 →
  ∃ p, TakePacket (EncodePacketIdAck type id ++ rest) = Some (p, rest) ∧
       h_type (pk_header p) = type ∧ h_qos (pk_header p) = (if type =? kPubrel then 1 else 0) ∧
       h_dup (pk_header p) = false ∧ h_retain (pk_header p) = false ∧
       ParsePacketId (pk_body p) = Some id.
Proof.
  intros Ht Hid. unfold EncodePacketIdAck, AckBody.
  rewrite TakePacket_Frame by (done || (case_match; lia)).
  eexists. split; [reflexivity|]. simpl.
  split_and!; [done|by case_match|by case_match|by case_match|].
  unfold ParsePacketId. rewrite AppendUint16_length. simpl.
  apply (read_uint16_append _ 0 id [] Hid). by rewrite app_nil_r.
Qed.

Lemma packet_id_ack_roundtrip_witness :
  ∃ p, TakePacket (EncodePacketIdAck kPubrel 513 ++ []) = Some (p, []) ∧
       h_type (pk_header p) = kPubrel ∧ h_qos (pk_header p) = 1 ∧
       h_dup (pk_header p) = false ∧ h_retain (pk_header p) = false ∧
       ParsePacketId (pk_body p) = Some 513.
Proof. apply (packet_id_ack_roundtrip kPubrel 513 []); vm_compute; split; discriminate || reflexivity. Defined.

(** a remaining length running past four bytes stalls the stream. With the
    continuation bit set on all four length bytes no packet is ever taken off,
    whatever arrives after them. *)
Theorem overlong_length_stalls (h a b c d : ascii) (rest : bytes) :
  128 <= b2z a → 128 <= b2z b → 128 <= b2z c → 128 <= b2z d →
  TakePacket (h :: a :: b :: c :: d :: rest) = None.
Proof.
  assert (∀ x, 128 <= b2z x → Z.land (b2z x) 128 ≠ 0) as Hx by (intros x; byte_cases x).
  intros Ha Hb Hc Hd. unfold TakePacket. by rewrite overlong_length by auto.
Qed.

Lemma overlong_length_stalls_witness :
  TakePacket (z2b 48 :: z2b 255 :: z2b 255 :: z2b 255 :: z2b 255 :: lit "data") = None.
Proof. apply overlong_length_stalls; vm_compute; discriminate. Defined.

(** a string longer than its two length bytes can say is framed with its
    length modulo 65536: the reader takes only that many bytes of it and finds
    the rest where the next field should be. *)
Theorem long_string_truncated (s r : bytes) : 65536 <= Z.of_nat (length s) →
  let n := Z.to_nat (Z.of_nat (length s) mod 65536) in
  ReadString (AppendString [] s ++ r) 0 = Some (take n s, (2 + n)%nat) ∧ (n < length s)%nat.
Proof.
  intros Hs n. pose proof (Z.mod_pos_bound (Z.of_nat (length s)) 65536 ltac:(lia)).
  assert (n < length s)%nat as Hn by (unfold n; lia). split; [|done].
  assert (AppendString [] s ++ r = AppendString [] (take n s) ++ (drop n s ++ r)) as ->.
  { unfold AppendString. rewrite length_take, Nat.min_l by lia. unfold n, u16.
    rewrite Z2Nat.id by lia. change (2 ^ 16) with 65536. rewrite Z.mod_mod by lia.
    rewrite <- !app_assoc. f_equal. by rewrite app_assoc, take_drop. }
  rewrite (ReadString_append _ 0 (take n s) (drop n s ++ r)); [|unfold n; rewrite length_take; lia|done].
  by rewrite length_take, Nat.min_l by lia.
Qed.

Lemma long_string_truncated_witness :
  ReadString (AppendString [] (replicate (Z.to_nat 65537) "a"%char) ++ lit "payload") 0 =
  Some (lit "a", 3%nat).
Proof.
  apply (long_string_truncated (replicate (Z.to_nat 65537) "a"%char) (lit "payload")).
  vm_compute. discriminate.
Defined.
