(* ===== verification/MqttClient.v ===== *)
(** The MQTT client engine (src/src/protocol/mqtt/software_mqtt_client.{h,cpp}):
    its session state, the packet handlers, the stream buffer, the public
    operations and the keep-alive task.

    What the engine does to the outside - bytes handed to the transport, the
    transport being closed, callbacks - is the [log] of the state. What the
    transport answers to the n-th [Send] is the parameter [tcp_send]. *)
From stdpp Require Import base decidable list strings gmap.
From Stdlib Require Import ZArith Ascii Lia.
From S2P Require Import Prelude Errors CommonTypes MqttPacket.

(** * State *)

(** mqtt_client.h *)
Record MqttMessage := MkMqttMessage {
  m_topic : bytes;
  m_payload : bytes;
  m_qos : Z;
  m_retain : bool;
  m_message_id : Z;
}.

Inductive event :=
  | EvSend (packet : bytes)
  | EvTransportDisconnect
  | EvConnected
  | EvDisconnected
  | EvMessage (m : MqttMessage)
  | EvError (e : NetworkError)
  | EvPublishAck (id : Z).

Record MqttClient := MkMqttClient {
  connected : bool;
  transport : bool;             (* transport_ is not null *)
  rx_buffer : bytes;
  client_id : bytes;
  username : bytes;
  password : bytes;
  has_credentials : bool;
  keep_alive_seconds : Z;
  has_will : bool;
  will : MqttWill;
  tls_enabled : bool;
  tls : TlsConfig;
  connecting : bool;
  connack_ready : bool;
  connack_error : option NetworkError;
  last_packet_id : Z;
  pending_topics : gmap Z bytes;
  pending_qos2 : gmap Z MqttPublishMessage;
  keepalive_running : bool;
  ka_interval_ms : Z;           (* what KeepAliveLoop read when it started *)
  last_sent_ms : Z;
  ping_sent_ms : Z;
  sends : nat;                  (* calls of TcpClient::Send so far *)
  log : list event;
}.

Definition set_transport (c : MqttClient) (v : bool) : MqttClient :=
  MkMqttClient (connected c) v (rx_buffer c) (client_id c) (username c) (password c)
    (has_credentials c) (keep_alive_seconds c) (has_will c) (will c) (tls_enabled c) (tls c)
    (connecting c) (connack_ready c) (connack_error c) (last_packet_id c) (pending_topics c)
    (pending_qos2 c) (keepalive_running c) (ka_interval_ms c) (last_sent_ms c) (ping_sent_ms
    c) (sends c) (log c).
Definition set_rx (c : MqttClient) (v : bytes) : MqttClient :=
  MkMqttClient (connected c) (transport c) v (client_id c) (username c) (password c)
    (has_credentials c) (keep_alive_seconds c) (has_will c) (will c) (tls_enabled c) (tls c)
    (connecting c) (connack_ready c) (connack_error c) (last_packet_id c) (pending_topics c)
    (pending_qos2 c) (keepalive_running c) (ka_interval_ms c) (last_sent_ms c) (ping_sent_ms
    c) (sends c) (log c).
Definition set_client_id (c : MqttClient) (v : bytes) : MqttClient :=
  MkMqttClient (connected c) (transport c) (rx_buffer c) v (username c) (password c)
    (has_credentials c) (keep_alive_seconds c) (has_will c) (will c) (tls_enabled c) (tls c)
    (connecting c) (connack_ready c) (connack_error c) (last_packet_id c) (pending_topics c)
    (pending_qos2 c) (keepalive_running c) (ka_interval_ms c) (last_sent_ms c) (ping_sent_ms
    c) (sends c) (log c).
Definition set_credentials (c : MqttClient) (u : bytes) (p : bytes) (v : bool) : MqttClient :=
  MkMqttClient (connected c) (transport c) (rx_buffer c) (client_id c) u p v
    (keep_alive_seconds c) (has_will c) (will c) (tls_enabled c) (tls c) (connecting c)
    (connack_ready c) (connack_error c) (last_packet_id c) (pending_topics c) (pending_qos2
    c) (keepalive_running c) (ka_interval_ms c) (last_sent_ms c) (ping_sent_ms c) (sends c)
    (log c).
Definition set_keep_alive (c : MqttClient) (v : Z) : MqttClient :=
  MkMqttClient (connected c) (transport c) (rx_buffer c) (client_id c) (username c)
    (password c) (has_credentials c) v (has_will c) (will c) (tls_enabled c) (tls c)
    (connecting c) (connack_ready c) (connack_error c) (last_packet_id c) (pending_topics c)
    (pending_qos2 c) (keepalive_running c) (ka_interval_ms c) (last_sent_ms c) (ping_sent_ms
    c) (sends c) (log c).
Definition set_will (c : MqttClient) (w : MqttWill) (v : bool) : MqttClient :=
  MkMqttClient (connected c) (transport c) (rx_buffer c) (client_id c) (username c)
    (password c) (has_credentials c) (keep_alive_seconds c) v w (tls_enabled c) (tls c)
    (connecting c) (connack_ready c) (connack_error c) (last_packet_id c) (pending_topics c)
    (pending_qos2 c) (keepalive_running c) (ka_interval_ms c) (last_sent_ms c) (ping_sent_ms
    c) (sends c) (log c).
Definition set_tls (c : MqttClient) (t : TlsConfig) (v : bool) : MqttClient :=
  MkMqttClient (connected c) (transport c) (rx_buffer c) (client_id c) (username c)
    (password c) (has_credentials c) (keep_alive_seconds c) (has_will c) (will c) v t
    (connecting c) (connack_ready c) (connack_error c) (last_packet_id c) (pending_topics c)
    (pending_qos2 c) (keepalive_running c) (ka_interval_ms c) (last_sent_ms c) (ping_sent_ms
    c) (sends c) (log c).
Definition set_connack (c : MqttClient) (cd : bool) (cg : bool) (rd : bool) (e : option NetworkError) : MqttClient :=
  MkMqttClient cd (transport c) (rx_buffer c) (client_id c) (username c) (password c)
    (has_credentials c) (keep_alive_seconds c) (has_will c) (will c) (tls_enabled c) (tls c)
    cg rd e (last_packet_id c) (pending_topics c) (pending_qos2 c) (keepalive_running c)
    (ka_interval_ms c) (last_sent_ms c) (ping_sent_ms c) (sends c) (log c).
Definition set_last_packet_id (c : MqttClient) (v : Z) : MqttClient :=
  MkMqttClient (connected c) (transport c) (rx_buffer c) (client_id c) (username c)
    (password c) (has_credentials c) (keep_alive_seconds c) (has_will c) (will c)
    (tls_enabled c) (tls c) (connecting c) (connack_ready c) (connack_error c) v
    (pending_topics c) (pending_qos2 c) (keepalive_running c) (ka_interval_ms c)
    (last_sent_ms c) (ping_sent_ms c) (sends c) (log c).
Definition set_topics (c : MqttClient) (m : gmap Z bytes) : MqttClient :=
  MkMqttClient (connected c) (transport c) (rx_buffer c) (client_id c) (username c)
    (password c) (has_credentials c) (keep_alive_seconds c) (has_will c) (will c)
    (tls_enabled c) (tls c) (connecting c) (connack_ready c) (connack_error c)
    (last_packet_id c) m (pending_qos2 c) (keepalive_running c) (ka_interval_ms c)
    (last_sent_ms c) (ping_sent_ms c) (sends c) (log c).
Definition set_qos2 (c : MqttClient) (m : gmap Z MqttPublishMessage) : MqttClient :=
  MkMqttClient (connected c) (transport c) (rx_buffer c) (client_id c) (username c)
    (password c) (has_credentials c) (keep_alive_seconds c) (has_will c) (will c)
    (tls_enabled c) (tls c) (connecting c) (connack_ready c) (connack_error c)
    (last_packet_id c) (pending_topics c) m (keepalive_running c) (ka_interval_ms c)
    (last_sent_ms c) (ping_sent_ms c) (sends c) (log c).
Definition set_ka (c : MqttClient) (r : bool) (i : Z) : MqttClient :=
  MkMqttClient (connected c) (transport c) (rx_buffer c) (client_id c) (username c)
    (password c) (has_credentials c) (keep_alive_seconds c) (has_will c) (will c)
    (tls_enabled c) (tls c) (connecting c) (connack_ready c) (connack_error c)
    (last_packet_id c) (pending_topics c) (pending_qos2 c) r i (last_sent_ms c)
    (ping_sent_ms c) (sends c) (log c).
Definition set_last_sent (c : MqttClient) (v : Z) : MqttClient :=
  MkMqttClient (connected c) (transport c) (rx_buffer c) (client_id c) (username c)
    (password c) (has_credentials c) (keep_alive_seconds c) (has_will c) (will c)
    (tls_enabled c) (tls c) (connecting c) (connack_ready c) (connack_error c)
    (last_packet_id c) (pending_topics c) (pending_qos2 c) (keepalive_running c)
    (ka_interval_ms c) v (ping_sent_ms c) (sends c) (log c).
Definition set_ping_sent (c : MqttClient) (v : Z) : MqttClient :=
  MkMqttClient (connected c) (transport c) (rx_buffer c) (client_id c) (username c)
    (password c) (has_credentials c) (keep_alive_seconds c) (has_will c) (will c)
    (tls_enabled c) (tls c) (connecting c) (connack_ready c) (connack_error c)
    (last_packet_id c) (pending_topics c) (pending_qos2 c) (keepalive_running c)
    (ka_interval_ms c) (last_sent_ms c) v (sends c) (log c).
Definition log_send (c : MqttClient) (n : nat) (l : list event) : MqttClient :=
  MkMqttClient (connected c) (transport c) (rx_buffer c) (client_id c) (username c)
    (password c) (has_credentials c) (keep_alive_seconds c) (has_will c) (will c)
    (tls_enabled c) (tls c) (connecting c) (connack_ready c) (connack_error c)
    (last_packet_id c) (pending_topics c) (pending_qos2 c) (keepalive_running c)
    (ka_interval_ms c) (last_sent_ms c) (ping_sent_ms c) n l.
Definition set_log (c : MqttClient) (l : list event) : MqttClient :=
  MkMqttClient (connected c) (transport c) (rx_buffer c) (client_id c) (username c)
    (password c) (has_credentials c) (keep_alive_seconds c) (has_will c) (will c)
    (tls_enabled c) (tls c) (connecting c) (connack_ready c) (connack_error c)
    (last_packet_id c) (pending_topics c) (pending_qos2 c) (keepalive_running c)
    (ka_interval_ms c) (last_sent_ms c) (ping_sent_ms c) (sends c) l.


Definition new_client : MqttClient :=
  MkMqttClient false false [] [] [] [] false 60 false (MkWill [] [] 0 false) false default_tls
    false false None 0 ∅ ∅ false 0 0 0 0 [].

Definition emit (c : MqttClient) (e : event) : MqttClient := set_log c (log c ++ [e]).

Definition kMaxBufferedBytes : nat := Z.to_nat (64 * 1024).

(** * Settings *)

Definition SetKeepAlive (c : MqttClient) (seconds : Z) : MqttClient := set_keep_alive c seconds.
Definition SetClientId (c : MqttClient) (id : bytes) : MqttClient := set_client_id c id.
Definition SetCredentials (c : MqttClient) (user pass : bytes) : MqttClient :=
  set_credentials c user pass true.
Definition SetWill (c : MqttClient) (w : MqttWill) : MqttClient := set_will c w true.
Definition SetTlsConfig (c : MqttClient) (config : TlsConfig) : MqttClient := set_tls c config true.

(** * Helpers that touch only the state *)

Definition ReportError (c : MqttClient) (e : NetworkError) : MqttClient := emit c (EvError e).

Definition NextPacketIdLocked (c : MqttClient) : MqttClient * Z :=
  let id := if last_packet_id c =? 65535 then 1 else last_packet_id c + 1 in
  (set_last_packet_id c id, id).

Definition Deliver (c : MqttClient) (m : MqttPublishMessage) : MqttClient :=
  emit c (EvMessage (MkMqttMessage (pm_topic m) (pm_payload m) (pm_qos m) (pm_retain m)
                       (pm_packet_id m))).

(** The error a CONNACK refusing the connection is turned into. *)
Definition refusal (code : MqttConnectReturnCode) : NetworkError :=
  let credentials := bool_decide (code = kMqttNotAuthorizedCode) || bool_decide (code = kBadCredentials) in
  MkNetworkError (if credentials then kMqttNotAuthorized else kConnectFailed)
    (return_code_value code) (DescribeConnectReturnCode code).

Definition HandleConnack (c : MqttClient) (packet : MqttPacket) : MqttClient :=
  if negb (connecting c) then c else
  match ParseConnack (pk_body packet) with
  | None => set_connack c (connected c) false true
              (Some (net_error kProtocolError "malformed CONNACK"))
  | Some k =>
      if decide (connack_code k = kAccepted) then set_connack c true false true (connack_error c)
      else set_connack c (connected c) false true (Some (refusal (connack_code k)))
  end.

Definition HandlePublishComplete (c : MqttClient) (packet : MqttPacket) : MqttClient :=
  match ParsePacketId (pk_body packet) with
  | None => ReportError c (net_error kProtocolError "malformed publish acknowledgement from broker")
  | Some id => emit c (EvPublishAck id)
  end.

Definition HandleSuback (c : MqttClient) (packet : MqttPacket) : MqttClient :=
  match ParseSuback (pk_body packet) with
  | None => ReportError c (net_error kProtocolError "malformed SUBACK from broker")
  | Some s =>
      let topic := default [] (pending_topics c !! suback_packet_id s) in
      let c := set_topics c (delete (suback_packet_id s) (pending_topics c)) in
      if bool_decide (128 ∈ suback_return_codes s) then
        ReportError c (MkNetworkError kProtocolError 128
          (lit "broker refused the subscription to '" ++ topic ++ lit "'"))
      else c
  end.

Definition HandleUnsuback (c : MqttClient) (packet : MqttPacket) : MqttClient :=
  match ParsePacketId (pk_body packet) with
  | None => ReportError c (net_error kProtocolError "malformed UNSUBACK from broker")
  | Some id => set_topics c (delete id (pending_topics c))
  end.

Section Engine.
(** What [TcpClient::Send] answers to its n-th call. *)
Context (tcp_send : nat → bytes → Result Z).

Definition transport_send (c : MqttClient) (packet : bytes) : MqttClient * Result Z :=
  (log_send c (S (sends c)) (log c ++ [EvSend packet]), tcp_send (sends c) packet).

Definition SendPacket (now : Z) (c : MqttClient) (packet : bytes) : MqttClient * Result unit :=
  if negb (transport c) then (c, Err (net_error kNotConnected "not connected")) else
  match transport_send c packet with
  | (c, Err e) => (c, Err e)
  | (c, Ok _) => (set_last_sent c now, Ok ())
  end.

Definition Teardown (c : MqttClient) (send_disconnect : bool) : MqttClient :=
  let had_transport := transport c in
  let c := set_transport c false in
  let c := set_connack c false false false (connack_error c) in
  let c := set_rx c [] in
  let c := set_qos2 c ∅ in
  let c := set_topics c ∅ in
  let c := set_ka c false (ka_interval_ms c) in
  let c := set_ping_sent c 0 in
  if negb had_transport then c else
  let c := if send_disconnect then (transport_send c EncodeDisconnect).1 else c in
  emit (emit c EvTransportDisconnect) EvDisconnected.

(** * Packet handlers *)

Definition HandlePublish (now : Z) (c : MqttClient) (packet : MqttPacket) : MqttClient :=
  let qos := h_qos (pk_header packet) in
  if qos >? 2 then
    Teardown (ReportError c (MkNetworkError kProtocolError qos
                               (lit "PUBLISH with both QoS bits set"))) false
  else
  match ParsePublish (pk_header packet) (pk_body packet) with
  | None => ReportError c (net_error kProtocolError "malformed PUBLISH from broker")
  | Some m =>
      let id := pm_packet_id m in
      if qos =? 2 then
        let held := match pending_qos2 c !! id with
                    | Some _ => pending_qos2 c            (* emplace keeps the first *)
                    | None => <[id := m]> (pending_qos2 c)
                    end in
        let c := set_qos2 c held in
        (SendPacket now c (EncodePacketIdAck kPubrec id)).1
      else
        let c := if qos =? 1 then (SendPacket now c (EncodePacketIdAck kPuback id)).1 else c in
        Deliver c m
  end.

Definition HandlePubrec (now : Z) (c : MqttClient) (packet : MqttPacket) : MqttClient :=
  match ParsePacketId (pk_body packet) with
  | None => ReportError c (net_error kProtocolError "malformed PUBREC from broker")
  | Some id => (SendPacket now c (EncodePacketIdAck kPubrel id)).1
  end.

Definition HandlePubrel (now : Z) (c : MqttClient) (packet : MqttPacket) : MqttClient :=
  match ParsePacketId (pk_body packet) with
  | None => ReportError c (net_error kProtocolError "malformed PUBREL from broker")
  | Some id =>
      let message := pending_qos2 c !! id in
      let c := set_qos2 c (delete id (pending_qos2 c)) in
      let c := (SendPacket now c (EncodePacketIdAck kPubcomp id)).1 in
      match message with Some m => Deliver c m | None => c end
  end.

Definition HandlePacket (now : Z) (c : MqttClient) (packet : MqttPacket) : MqttClient :=
  let type := h_type (pk_header packet) in
  if type =? kConnack then HandleConnack c packet
  else if type =? kPublish then HandlePublish now c packet
  else if (type =? kPuback) || (type =? kPubcomp) then HandlePublishComplete c packet
  else if type =? kPubrec then HandlePubrec now c packet
  else if type =? kPubrel then HandlePubrel now c packet
  else if type =? kSuback then HandleSuback c packet
  else if type =? kUnsuback then HandleUnsuback c packet
  else if type =? kPingresp then set_ping_sent c 0
  else c.

(** * The inbound stream *)

(** The [for (;;)] of [OnTransportData]. Each iteration takes at least two bytes
    off [rx_buffer_] and no handler adds any, so its length bounds them. *)
Fixpoint drain_loop (fuel : nat) (now : Z) (c : MqttClient) : MqttClient :=
  match fuel with
  | O => c
  | S k =>
      match TakePacket (rx_buffer c) with
      | None => c
      | Some (packet, rest) => drain_loop k now (HandlePacket now (set_rx c rest) packet)
      end
  end.

Definition OnTransportData (now : Z) (c : MqttClient) (data : bytes) : MqttClient :=
  let c := set_rx c (rx_buffer c ++ data) in
  if (kMaxBufferedBytes <? length (rx_buffer c))%nat then
    let c := set_rx c [] in
    Teardown (ReportError c (net_error kBufferOverflow "inbound MQTT stream exceeds the buffer limit"))
      false
  else drain_loop (length (rx_buffer c)) now c.

Definition OnTransportClosed (c : MqttClient) : MqttClient := Teardown c false.

(** * Public operations *)

Definition Publish (now : Z) (c : MqttClient) (topic payload : bytes) (qos : Z) (retain : bool)
  : MqttClient * Result Z :=
  if negb (connected c) then (c, Err (net_error kNotConnected "not connected")) else
  let '(c, id) := if qos >? 0 then NextPacketIdLocked c else (c, 0) in
  match SendPacket now c (EncodePublish id topic payload qos retain false) with
  | (c, Err e) => (c, Err e)
  | (c, Ok _) => (c, Ok id)
  end.

Definition Subscribe (now : Z) (c : MqttClient) (topic : bytes) (qos : Z) : MqttClient * Result Z :=
  if negb (connected c) then (c, Err (net_error kNotConnected "not connected")) else
  let '(c, id) := NextPacketIdLocked c in
  let c := set_topics c (<[id := topic]> (pending_topics c)) in
  match SendPacket now c (EncodeSubscribe id topic qos) with
  | (c, Err e) => (set_topics c (delete id (pending_topics c)), Err e)
  | (c, Ok _) => (c, Ok id)
  end.

Definition Unsubscribe (now : Z) (c : MqttClient) (topic : bytes) : MqttClient * Result unit :=
  if negb (connected c) then (c, Err (net_error kNotConnected "not connected")) else
  let '(c, id) := NextPacketIdLocked c in
  let c := set_topics c (<[id := topic]> (pending_topics c)) in
  match SendPacket now c (EncodeUnsubscribe id topic) with
  | (c, Err e) => (set_topics c (delete id (pending_topics c)), Err e)
  | (c, Ok _) => (c, Ok ())
  end.

(** * Keep-alive *)

Definition StopKeepAlive (c : MqttClient) : MqttClient := set_ka c false (ka_interval_ms c).

(** The task and the interval its loop starts with. *)
Definition StartKeepAlive (now : Z) (c : MqttClient) : MqttClient :=
  let seconds := keep_alive_seconds c in
  if seconds <=? 0 then c else
  let c := StopKeepAlive c in
  let c := set_last_sent c now in
  let c := set_ping_sent c 0 in
  set_ka c true (seconds * 1000).

(** One wake-up of [KeepAliveLoop], up to and including the PINGREQ; the result
    says whether [ping_sent_ms_ = now] is still to be executed. *)
Definition keepalive_send (now : Z) (c : MqttClient) : MqttClient * bool :=
  if negb (keepalive_running c) then (c, false) else
  let ping_sent := ping_sent_ms c in
  if negb (ping_sent =? 0) then
    if now - ping_sent >=? ka_interval_ms c then
      (Teardown (ReportError c (net_error kTimeout "no PINGRESP from broker")) false, false)
    else (c, false)
  else if now - last_sent_ms c >=? ka_interval_ms c then
    match SendPacket now c EncodePingreq with
    | (c, Ok _) => (c, true)
    | (c, Err _) => (c, false)
    end
  else (c, false).

Definition keepalive_mark (now : Z) (c : MqttClient) : MqttClient := set_ping_sent c now.

Definition KeepAliveTick (now : Z) (c : MqttClient) : MqttClient :=
  let '(c, mark) := keepalive_send now c in
  if mark then keepalive_mark now c else c.

(** * Connecting *)

(** What the receive thread does while [Connect] waits. *)
Inductive arrival := Data (data : bytes) | Closed.

Definition on_arrival (now : Z) (c : MqttClient) (a : arrival) : MqttClient :=
  match a with Data d => OnTransportData now c d | Closed => OnTransportClosed c end.

Definition connect_options (c : MqttClient) (clean_session : bool) : MqttConnectOptions :=
  MkConnectOptions (client_id c) (username c) (password c) (has_credentials c) (has_credentials c)
    clean_session (u16 (if keep_alive_seconds c <? 0 then 0 else keep_alive_seconds c))
    (has_will c) (will c).

(** [factory] is the transport factory's answer, [opened] the transport's answer
    to [Connect], [arrivals] what reaches the client before the CONNACK wait is
    over. *)
Definition Connect (now : Z) (factory opened : Result unit) (arrivals : list arrival)
  (c : MqttClient) (clean_session : bool) : MqttClient * Result unit :=
  if connected c || transport c
  then (c, Err (net_error kAlreadyConnected "already connected")) else
  let options := connect_options c clean_session in
  let c := set_connack c (connected c) true false None in
  let c := set_rx c [] in
  match factory with
  | Err e => (c, Err e)
  | Ok _ =>
  match opened with
  | Err e => (c, Err e)
  | Ok _ =>
  let c := set_transport c true in
  match SendPacket now c (EncodeConnect options) with
  | (c, Err e) => (Teardown c false, Err e)
  | (c, Ok _) =>
      let c := fold_left (on_arrival now) arrivals c in
      if negb (connack_ready c) then
        (Teardown c true, Err (Timeout "no CONNACK from broker"))
      else match connack_error c with
           | Some e => (Teardown c false, Err e)
           | None => (emit (StartKeepAlive now c) EvConnected, Ok ())
           end
  end end end.

Definition Disconnect (c : MqttClient) : MqttClient := Teardown (StopKeepAlive c) true.
End Engine.
