(* ===== verification/MqttSession.v ===== *)
(** The MQTT session's correctness: the inbound stream is independent of how it
    was split, QoS 2 messages are delivered exactly once, the session invariant
    of every reachable client, the outcomes of [Connect], packet ids, keep-alive. *)
From stdpp Require Import base decidable list strings gmap.
From Stdlib Require Import ZArith Ascii Lia.
From S2P Require Import Prelude Errors CommonTypes MqttPacket MqttClient.

(** * Specification vocabulary *)

(** Every whole packet at the front of a stream, and what is left after them. *)
Fixpoint take_all (fuel : nat) (buf : bytes) : list MqttPacket * bytes :=
  match fuel with
  | O => ([], buf)
  | S k =>
      match TakePacket buf with
      | None => ([], buf)
      | Some (p, rest) => let '(ps, r) := take_all k rest in (p :: ps, r)
      end
  end.

Definition packets (buf : bytes) : list MqttPacket * bytes := take_all (length buf) buf.

(** A PUBLISH with both QoS bits set, which ends the connection. *)
Definition violates (p : MqttPacket) : bool :=
  (h_type (pk_header p) =? kPublish) && (h_qos (pk_header p) >? 2).

Definition is_pubrel (id : Z) (p : MqttPacket) : bool :=
  (h_type (pk_header p) =? kPubrel) && bool_decide (ParsePacketId (pk_body p) = Some id).

Definition is_publish2 (id : Z) (p : MqttPacket) : bool :=
  (h_type (pk_header p) =? kPublish) && (h_qos (pk_header p) =? 2) &&
  bool_decide (pm_packet_id <$> ParsePublish (pk_header p) (pk_body p) = Some id).

(** The messages handed to the application at QoS 2 under one packet id. *)
Definition delivered2 (id : Z) (l : list event) : list MqttMessage :=
  omap (λ e, match e with
             | EvMessage m => if (m_qos m =? 2) && (m_message_id m =? id) then Some m else None
             | _ => None
             end) l.

Definition message_of (m : MqttPublishMessage) : MqttMessage :=
  MkMqttMessage (pm_topic m) (pm_payload m) (pm_qos m) (pm_retain m) (pm_packet_id m).

(** Held QoS 2 messages sit under their own id. *)
Definition qos2_wf (c : MqttClient) : Prop :=
  map_Forall (λ id m, pm_packet_id m = id ∧ pm_qos m = 2) (pending_qos2 c).

(** * Lemmas: packets of a stream *)

Lemma TakePacket_shorter buf p rest : TakePacket buf = Some (p, rest) →
  (length rest + 2 <= length buf)%nat.
Proof.
  intros H. apply TakePacket_prefix in H as (hd & -> & Hl & _). rewrite !length_app. lia.
Qed.

Lemma take_all_fuel k k' buf : (length buf <= k)%nat → (length buf <= k')%nat →
  take_all k buf = take_all k' buf.
Proof.
  revert k' buf; induction k as [|k IH]; intros k' buf H H'.
  { destruct buf; [|simpl in H; lia]. by destruct k'. }
  destruct k' as [|k']; [destruct buf; [done|simpl in H'; lia]|]. simpl.
  destruct (TakePacket buf) as [[p rest]|] eqn:E; [|done].
  pose proof (TakePacket_shorter _ _ _ E). by rewrite (IH k') by lia.
Qed.

Lemma packets_unfold buf :
  packets buf = match TakePacket buf with
                | None => ([], buf)
                | Some (p, rest) => (p :: (packets rest).1, (packets rest).2)
                end.
Proof.
  unfold packets at 1. destruct buf as [|c buf]; [done|]. cbn [length take_all].
  destruct (TakePacket (c :: buf)) as [[p rest]|] eqn:E; [|done].
  pose proof (TakePacket_shorter _ _ _ E) as Hl. simpl in Hl.
  rewrite (take_all_fuel _ (length rest)) by lia. unfold packets. by destruct (take_all _ rest).
Qed.

(** The packets of a longer stream start with those of a prefix of it. *)
Lemma packets_app a b :
  packets (a ++ b) = ((packets a).1 ++ (packets ((packets a).2 ++ b)).1,
                      (packets ((packets a).2 ++ b)).2).
Proof.
  induction a as [a IH] using (induction_ltof1 _ (@length ascii)). unfold ltof in IH.
  rewrite (packets_unfold a). destruct (TakePacket a) as [[p rest]|] eqn:E.
  - rewrite (packets_unfold (a ++ b)), (TakePacket_app _ _ _ _ E).
    pose proof (TakePacket_shorter _ _ _ E). by rewrite IH by lia.
  - simpl. by destruct (packets (a ++ b)).
Qed.

Lemma packets_rest_length buf : (length (packets buf).2 <= length buf)%nat.
Proof.
  induction buf as [buf IH] using (induction_ltof1 _ (@length ascii)). unfold ltof in IH.
  rewrite packets_unfold. destruct (TakePacket buf) as [[p rest]|] eqn:E; [|done].
  pose proof (TakePacket_shorter _ _ _ E). specialize (IH rest ltac:(lia)). simpl. lia.
Qed.

(** * Lemmas: handlers and the buffer *)

Section Session.
Context (tcp_send : nat → bytes → Result Z).
Local Abbreviation HandlePacket := (HandlePacket tcp_send).
Local Abbreviation SendPacket := (SendPacket tcp_send).
Local Abbreviation OnTransportData := (OnTransportData tcp_send).
Local Abbreviation Teardown := (Teardown tcp_send).

Lemma SendPacket_rx now c b pkt :
  SendPacket now (set_rx c b) pkt = (set_rx (SendPacket now c pkt).1 b, (SendPacket now c pkt).2).
Proof.
  unfold MqttClient.SendPacket. simpl. destruct (transport c); simpl; [|done].
  by destruct (tcp_send (sends c) pkt).
Qed.

(** A packet that does not end the connection leaves the stream buffer alone. *)
Lemma HandlePacket_rx now c b p : violates p = false →
  HandlePacket now (set_rx c b) p = set_rx (HandlePacket now c p) b.
Proof.
  intros Hv. unfold violates in Hv. unfold MqttClient.HandlePacket.
  case_match; [unfold HandleConnack; simpl; repeat case_match; done|].
  destruct (h_type (pk_header p) =? kPublish) eqn:Et.
  { unfold HandlePublish. simpl in Hv. rewrite Hv.
    destruct (ParsePublish _ _) as [m|]; [|done]. case_match.
    - cbn [pending_qos2 set_rx]. case_match; change (set_qos2 (set_rx c b) ?x)
        with (set_rx (set_qos2 c x) b); by rewrite SendPacket_rx.
    - case_match; [rewrite SendPacket_rx|]; done. }
  case_match; [unfold HandlePublishComplete; by case_match|].
  case_match; [unfold HandlePubrec; case_match; [by rewrite SendPacket_rx|done]|].
  case_match.
  { unfold HandlePubrel. case_match; [|done]. cbn [pending_qos2 set_rx].
    change (set_qos2 (set_rx c b) ?x) with (set_rx (set_qos2 c x) b).
    rewrite SendPacket_rx. by case_match. }
  case_match; [unfold HandleSuback; case_match; [|done]; simpl; by case_match|].
  case_match; [unfold HandleUnsuback; by case_match|]. by case_match.
Qed.

Lemma set_rx_same c : set_rx c (rx_buffer c) = c.
Proof. by destruct c. Qed.

Lemma set_rx_twice c a b : set_rx (set_rx c a) b = set_rx c b.
Proof. done. Qed.

Lemma fold_HandlePacket_rx now ps c b : Forall (λ p, violates p = false) ps →
  fold_left (HandlePacket now) ps (set_rx c b) = set_rx (fold_left (HandlePacket now) ps c) b.
Proof.
  intros H. revert c. induction H as [|p ps Hp H IH]; intros c; [done|]. simpl.
  by rewrite HandlePacket_rx, IH.
Qed.

(** The drain loop handles the packets of the buffer in order and keeps the rest. *)
Lemma drain_loop_packets k now c : (length (rx_buffer c) <= k)%nat →
  Forall (λ p, violates p = false) (packets (rx_buffer c)).1 →
  drain_loop tcp_send k now c =
  set_rx (fold_left (HandlePacket now) (packets (rx_buffer c)).1 c) (packets (rx_buffer c)).2.
Proof.
  revert c; induction k as [|k IH]; intros c Hk HF.
  { destruct c; simpl in *. by destruct rx_buffer; [|simpl in Hk; lia]. }
  cbn [drain_loop]. rewrite packets_unfold in HF |- *.
  destruct (TakePacket (rx_buffer c)) as [[p rest]|] eqn:E; [|simpl; by rewrite set_rx_same].
  simpl in HF. apply Forall_cons in HF as [Hp HF].
  pose proof (TakePacket_shorter _ _ _ E).
  rewrite HandlePacket_rx by done. rewrite IH; cbn [rx_buffer set_rx]; [|lia|done]. simpl.
  by rewrite fold_HandlePacket_rx by done.
Qed.

Lemma OnTransportData_packets now c data :
  (length (rx_buffer c ++ data) <= kMaxBufferedBytes)%nat →
  Forall (λ p, violates p = false) (packets (rx_buffer c ++ data)).1 →
  OnTransportData now c data =
  set_rx (fold_left (HandlePacket now) (packets (rx_buffer c ++ data)).1 c)
    (packets (rx_buffer c ++ data)).2.
Proof.
  intros Hl HF. unfold MqttClient.OnTransportData. cbn [rx_buffer set_rx].
  rewrite (proj2 (Nat.ltb_ge _ _)) by done.
  rewrite drain_loop_packets by done. cbn [rx_buffer set_rx].
  by rewrite fold_HandlePacket_rx.
Qed.

(** * Lemmas: QoS 2 *)

(** What sending does to the session: only the log and the clock move. *)
Lemma SendPacket_frame now c pkt :
  let c' := (SendPacket now c pkt).1 in
  pending_qos2 c' = pending_qos2 c ∧ pending_topics c' = pending_topics c ∧
  transport c' = transport c ∧ connected c' = connected c ∧ connecting c' = connecting c ∧
  connack_ready c' = connack_ready c ∧ connack_error c' = connack_error c ∧
  last_packet_id c' = last_packet_id c ∧ rx_buffer c' = rx_buffer c ∧
  ∀ id, delivered2 id (log c') = delivered2 id (log c).
Proof.
  unfold MqttClient.SendPacket. destruct (transport c) eqn:Et; simpl; [|by split_and!].
  destruct (tcp_send (sends c) pkt); simpl; split_and!; try done;
    intros id; unfold delivered2; by rewrite omap_app, app_nil_r.
Qed.

Lemma delivered2_app id l l' : delivered2 id (l ++ l') = delivered2 id l ++ delivered2 id l'.
Proof. apply omap_app. Qed.

(** The effect of one inbound packet on what is held and delivered at QoS 2
    under [id]. *)
Definition held_after (id : Z) (held : option MqttPublishMessage) (p : MqttPacket)
  : option MqttPublishMessage :=
  if is_publish2 id p then
    match held with Some m => Some m | None => ParsePublish (pk_header p) (pk_body p) end
  else if is_pubrel id p then None else held.

Definition delivered_by (id : Z) (held : option MqttPublishMessage) (p : MqttPacket)
  : list MqttMessage :=
  if is_pubrel id p then match held with Some m => [message_of m] | None => [] end else [].

Lemma delivered2_deliver id c m :
  delivered2 id (log (Deliver c m)) =
  delivered2 id (log c) ++ (if (pm_qos m =? 2) && (pm_packet_id m =? id) then [message_of m] else []).
Proof.
  unfold Deliver, emit, delivered2. cbn [log set_log]. rewrite omap_app. f_equal. cbn. by destruct (_ && _).
Qed.

Lemma delivered2_report id c e : delivered2 id (log (ReportError c e)) = delivered2 id (log c).
Proof. unfold ReportError. simpl. rewrite delivered2_app. apply app_nil_r. Qed.

Lemma delivered2_ack id c i : delivered2 id (log (emit c (EvPublishAck i))) = delivered2 id (log c).
Proof. simpl. rewrite delivered2_app. apply app_nil_r. Qed.

Lemma ParsePublish_qos h b m : ParsePublish h b = Some m → pm_qos m = h_qos h.
Proof. unfold ParsePublish. intros H. repeat case_match; by simplify_eq/=. Qed.

Lemma HandlePublish_qos2 now c p id : qos2_wf c → violates p = false →
  h_type (pk_header p) = kPublish →
  let c' := HandlePublish tcp_send now c p in
  qos2_wf c' ∧ pending_qos2 c' !! id = held_after id (pending_qos2 c !! id) p ∧
  delivered2 id (log c') = delivered2 id (log c).
Proof.
  intros Hw Hv Ht. unfold violates in Hv. rewrite Ht in Hv. simpl in Hv.
  unfold HandlePublish, held_after, is_publish2, is_pubrel. rewrite Hv, Ht.
  change (kPublish =? kPublish) with true. change (kPublish =? kPubrel) with false.
  cbn [andb]. destruct (ParsePublish _ _) as [m|] eqn:Ep; cbn [fmap option_fmap option_map].
  2: { rewrite andb_false_r. cbn zeta. rewrite delivered2_report. by split_and!. }
  pose proof (ParsePublish_qos _ _ _ Ep) as Hq.
  destruct (Z.eqb_spec (h_qos (pk_header p)) 2) as [E2|E2]; cbn zeta; cbn [andb].
  - destruct (SendPacket_frame now (set_qos2 c (match pending_qos2 c !! pm_packet_id m with
        Some _ => pending_qos2 c | None => <[pm_packet_id m:=m]> (pending_qos2 c) end))
        (EncodePacketIdAck kPubrec (pm_packet_id m))) as (F1 & _ & _ & _ & _ & _ & _ & _ & _ & F2).
    unfold qos2_wf. rewrite F1, F2. cbn [pending_qos2 set_qos2 log]. split_and!; [|case_bool_decide|done].
    + destruct (pending_qos2 c !! pm_packet_id m); [done|].
      apply map_Forall_insert_2; [by rewrite Hq|done].
    + simplify_eq. destruct (pending_qos2 c !! pm_packet_id m) eqn:El; [by rewrite El|].
      by rewrite lookup_insert_eq.
    + destruct (pending_qos2 c !! pm_packet_id m); [done|].
      by rewrite lookup_insert_ne by congruence.
  - assert (∀ c', pending_qos2 c' = pending_qos2 c → delivered2 id (log c') = delivered2 id (log c) →
      qos2_wf (Deliver c' m) ∧ pending_qos2 (Deliver c' m) !! id = pending_qos2 c !! id ∧
      delivered2 id (log (Deliver c' m)) = delivered2 id (log c)) as Hd.
    { intros c' Hp Hl. unfold qos2_wf. rewrite delivered2_deliver, Hq, (proj2 (Z.eqb_neq _ 2)) by done.
      simpl. by rewrite Hp, Hl, app_nil_r. }
    case_match; [|by apply Hd].
    destruct (SendPacket_frame now c (EncodePacketIdAck kPuback (pm_packet_id m)))
      as (F1 & _ & _ & _ & _ & _ & _ & _ & _ & F2). by apply Hd.
Qed.

Lemma HandlePubrel_qos2 now c p id : qos2_wf c → h_type (pk_header p) = kPubrel →
  let c' := HandlePubrel tcp_send now c p in
  qos2_wf c' ∧ pending_qos2 c' !! id = held_after id (pending_qos2 c !! id) p ∧
  delivered2 id (log c') = delivered2 id (log c) ++ delivered_by id (pending_qos2 c !! id) p.
Proof.
  intros Hw Ht. unfold HandlePubrel, held_after, delivered_by, is_publish2, is_pubrel. rewrite Ht.
  change (kPubrel =? kPublish) with false. change (kPubrel =? kPubrel) with true. cbn [andb].
  destruct (ParsePacketId _) as [i|]; cbn zeta.
  2: { rewrite bool_decide_false by done. by rewrite delivered2_report, app_nil_r. }
  destruct (SendPacket_frame now (set_qos2 c (delete i (pending_qos2 c))) (EncodePacketIdAck kPubcomp i))
    as (F1 & _ & _ & _ & _ & _ & _ & _ & _ & F2). cbn [pending_qos2 log set_qos2] in F1, F2.
  set (c1 := (SendPacket _ _ _).1) in *.
  assert (qos2_wf c1) as Hw1 by (unfold qos2_wf; rewrite F1; by apply map_Forall_delete).
  assert (pending_qos2 c1 !! id = (if bool_decide (Some i = Some id) then None
                                   else pending_qos2 c !! id)) as Hl.
  { rewrite F1. case_bool_decide; [simplify_eq; apply lookup_delete_eq|].
    apply lookup_delete_ne. congruence. }
  destruct (pending_qos2 c !! i) as [m|] eqn:Em.
  - destruct (Hw _ _ Em) as [Hid Hq]. rewrite delivered2_deliver, F2, Hid, Hq. cbn [Z.eqb andb].
    split_and!; [done|done|]. case_bool_decide.
    + simplify_eq. by rewrite Em, Z.eqb_refl.
    + by rewrite (proj2 (Z.eqb_neq i id)) by congruence.
  - rewrite F2. split_and!; [done|done|]. case_bool_decide; [simplify_eq; rewrite Em|]; by rewrite app_nil_r.
Qed.

Lemma HandlePacket_qos2 now c p id : qos2_wf c → violates p = false →
  let c' := HandlePacket now c p in
  qos2_wf c' ∧ pending_qos2 c' !! id = held_after id (pending_qos2 c !! id) p ∧
  delivered2 id (log c') = delivered2 id (log c) ++ delivered_by id (pending_qos2 c !! id) p.
Proof.
  intros Hw Hv. unfold MqttClient.HandlePacket.
  destruct (Z.eqb_spec (h_type (pk_header p)) kPublish) as [Et|Et].
  { rewrite Et. cbn zeta.
    destruct (HandlePublish_qos2 now c p id Hw Hv Et) as (H1 & H2 & H3).
    unfold delivered_by, is_pubrel. rewrite Et. simpl. rewrite app_nil_r. by split_and!. }
  destruct (Z.eqb_spec (h_type (pk_header p)) kPubrel) as [Er|Er].
  { rewrite Er. by apply HandlePubrel_qos2. }
  unfold held_after, delivered_by, is_publish2, is_pubrel.
  rewrite (proj2 (Z.eqb_neq _ kPublish) Et), (proj2 (Z.eqb_neq _ kPubrel) Er). cbn [andb].
  rewrite app_nil_r. cbn zeta.
  assert (∀ c', pending_qos2 c' = pending_qos2 c → delivered2 id (log c') = delivered2 id (log c) →
    qos2_wf c' ∧ pending_qos2 c' !! id = pending_qos2 c !! id ∧
    delivered2 id (log c') = delivered2 id (log c)) as Hd.
  { intros c' Hp Hl. unfold qos2_wf. by rewrite Hp, Hl. }
  repeat case_match; try (by apply Hd).
  - apply Hd; unfold HandleConnack; by repeat case_match.
  - apply Hd; unfold HandlePublishComplete; case_match; try done;
      rewrite ?delivered2_report, ?delivered2_ack; done.
  - apply Hd; unfold HandlePubrec; case_match; try (by apply SendPacket_frame);
      rewrite ?delivered2_report; done.
  - apply Hd; unfold HandleSuback; repeat case_match; try done;
      rewrite ?delivered2_report; done.
  - apply Hd; unfold HandleUnsuback; case_match; try done;
      rewrite ?delivered2_report, ?delivered2_ack; done.
Qed.

(** The QoS 2 history of one packet id is a fold of its packets alone. *)
Definition qos2_run (id : Z) (ps : list MqttPacket) (held : option MqttPublishMessage)
  : option MqttPublishMessage * list MqttMessage :=
  fold_left (λ '(h, ds) p, (held_after id h p, ds ++ delivered_by id h p)) ps (held, []).

Lemma qos2_run_out id ps held ds :
  fold_left (λ '(h, ds) p, (held_after id h p, ds ++ delivered_by id h p)) ps (held, ds) =
  ((qos2_run id ps held).1, ds ++ (qos2_run id ps held).2).
Proof.
  unfold qos2_run. revert held ds. induction ps as [|p ps IH]; intros held ds; simpl;
    [by rewrite app_nil_r|]. rewrite IH, (IH _ (delivered_by _ _ _)). by rewrite <- app_assoc.
Qed.

Lemma qos2_run_cons id p ps held :
  qos2_run id (p :: ps) held =
  ((qos2_run id ps (held_after id held p)).1,
   delivered_by id held p ++ (qos2_run id ps (held_after id held p)).2).
Proof. unfold qos2_run at 1. simpl. apply qos2_run_out. Qed.

Lemma qos2_run_app id ps qs held :
  qos2_run id (ps ++ qs) held =
  ((qos2_run id qs (qos2_run id ps held).1).1,
   (qos2_run id ps held).2 ++ (qos2_run id qs (qos2_run id ps held).1).2).
Proof.
  revert held. induction ps as [|p ps IH]; intros held; [change (qos2_run id [] held) with (held, @nil MqttMessage); simpl; by destruct (qos2_run id qs held)|].
  cbn [app]. rewrite !qos2_run_cons, IH. simpl. by rewrite app_assoc.
Qed.

Lemma HandlePackets_qos2 now id ps c : qos2_wf c → Forall (λ p, violates p = false) ps →
  let c' := fold_left (HandlePacket now) ps c in
  qos2_wf c' ∧ pending_qos2 c' !! id = (qos2_run id ps (pending_qos2 c !! id)).1 ∧
  delivered2 id (log c') = delivered2 id (log c) ++ (qos2_run id ps (pending_qos2 c !! id)).2.
Proof.
  intros Hw HF. revert c Hw. induction HF as [|p ps Hp HF IH]; intros c Hw; simpl.
  { by rewrite app_nil_r. }
  destruct (HandlePacket_qos2 now c p id Hw Hp) as (H1 & H2 & H3).
  destruct (IH _ H1) as (H4 & H5 & H6). rewrite qos2_run_cons. simpl.
  rewrite H5, H6, H2, H3, app_assoc. done.
Qed.

Lemma qos2_run_no_pubrel id ps m : Forall (λ p, is_pubrel id p = false) ps →
  qos2_run id ps (Some m) = (Some m, []).
Proof.
  induction 1 as [|p ps Hp HF IH]; [done|]. rewrite qos2_run_cons.
  unfold held_after, delivered_by. rewrite Hp. case_match; by rewrite IH.
Qed.

Lemma qos2_run_no_publish id ps : Forall (λ p, is_publish2 id p = false) ps →
  qos2_run id ps None = (None, []).
Proof.
  induction 1 as [|p ps Hp HF IH]; [done|]. rewrite qos2_run_cons.
  unfold held_after, delivered_by. rewrite Hp. case_match; by rewrite IH.
Qed.

(** * Lemmas: the session invariant *)

Record inv (c : MqttClient) : Prop := {
  inv_rx : (length (rx_buffer c) <= kMaxBufferedBytes)%nat;
  inv_id : 0 <= last_packet_id c <= 65535;
  inv_qos2 : qos2_wf c;
  inv_topics : map_Forall (λ id _, 1 <= id <= 65535) (pending_topics c);
  inv_connected : connected c = connack_ready c && bool_decide (connack_error c = None);
  inv_connecting : connecting c = true → connack_ready c = false ∧ connack_error c = None;
}.

Lemma new_client_inv : inv new_client.
Proof. constructor; first [done | simpl; lia | apply map_Forall_empty]. Qed.

(** Only the log, the clocks, the settings and the transport differ. *)
Record same_session (c c' : MqttClient) : Prop := {
  ss_rx : rx_buffer c' = rx_buffer c;
  ss_id : last_packet_id c' = last_packet_id c;
  ss_qos2 : pending_qos2 c' = pending_qos2 c;
  ss_topics : pending_topics c' = pending_topics c;
  ss_connected : connected c' = connected c;
  ss_ready : connack_ready c' = connack_ready c;
  ss_error : connack_error c' = connack_error c;
  ss_connecting : connecting c' = connecting c;
}.

Lemma same_session_inv c c' : same_session c c' → inv c → inv c'.
Proof.
  intros [E1 E2 E3 E4 E5 E6 E7 E8] [H1 H2 H3 H4 H5 H6].
  constructor; rewrite ?E1, ?E2, ?E4, ?E5, ?E6, ?E7, ?E8; try done.
  unfold qos2_wf. by rewrite E3.
Qed.

Lemma SendPacket_session now c pkt : same_session c (SendPacket now c pkt).1.
Proof. destruct (SendPacket_frame now c pkt) as (? & ? & ? & ? & ? & ? & ? & ? & ? & ?). by constructor. Qed.

Lemma SendPacket_inv now c pkt : inv c → inv (SendPacket now c pkt).1.
Proof. apply same_session_inv, SendPacket_session. Qed.

Lemma emit_inv c e : inv c → inv (emit c e).
Proof. by apply same_session_inv. Qed.

Lemma Teardown_fields c b :
  let c' := Teardown c b in
  transport c' = false ∧ connected c' = false ∧ connecting c' = false ∧ connack_ready c' = false ∧
  rx_buffer c' = [] ∧ pending_qos2 c' = ∅ ∧ pending_topics c' = ∅ ∧
  keepalive_running c' = false ∧ ping_sent_ms c' = 0 ∧ last_packet_id c' = last_packet_id c.
Proof. unfold MqttClient.Teardown. destruct (transport c), b; by split_and!. Qed.

Lemma Teardown_inv c b : 0 <= last_packet_id c <= 65535 → inv (Teardown c b).
Proof.
  intros H. destruct (Teardown_fields c b) as (F1 & F2 & F3 & F4 & F5 & F6 & F7 & F8 & F9 & F10).
  constructor; rewrite ?F2, ?F3, ?F4, ?F5, ?F7, ?F10; try done; try (simpl; lia).
  unfold qos2_wf. rewrite F6. apply map_Forall_empty.
Qed.

Lemma set_topics_inv c m : map_Forall (λ id _, 1 <= id <= 65535) m → inv c → inv (set_topics c m).
Proof. by intros Hm [? ? ? ? ? ?]. Qed.

Lemma set_qos2_inv c m : map_Forall (λ id m, pm_packet_id m = id ∧ pm_qos m = 2) m →
  inv c → inv (set_qos2 c m).
Proof. by intros Hm [? ? ? ? ? ?]. Qed.

Lemma HandleConnack_inv c p : inv c → inv (HandleConnack c p).
Proof.
  intros Hi. unfold HandleConnack. destruct (connecting c) eqn:Ec; [|done]. simpl.
  destruct (inv_connecting _ Hi Ec) as [Hr He]. pose proof (inv_connected _ Hi) as Hc.
  rewrite Hr in Hc. simpl in Hc.
  destruct Hi as [H1 H2 H3 H4 H5 H6].
  repeat case_match; constructor; simpl; rewrite ?Hc, ?He; done.
Qed.

Lemma HandlePublish_inv now c p : inv c → inv (HandlePublish tcp_send now c p).
Proof.
  intros Hi. unfold HandlePublish.
  case_match; [apply Teardown_inv; apply (inv_id _ Hi)|].
  destruct (ParsePublish _ _) as [m|] eqn:Ep; [|by apply emit_inv].
  pose proof (ParsePublish_qos _ _ _ Ep).
  destruct (Z.eqb_spec (h_qos (pk_header p)) 2).
  - apply SendPacket_inv, set_qos2_inv; [|done].
    case_match; [apply (inv_qos2 _ Hi)|]. apply map_Forall_insert_2; [split; [done|congruence]|apply (inv_qos2 _ Hi)].
  - apply emit_inv. case_match; [by apply SendPacket_inv|done].
Qed.

Lemma HandlePacket_inv now c p : inv c → inv (HandlePacket now c p).
Proof.
  intros Hi. unfold MqttClient.HandlePacket.
  case_match; [by apply HandleConnack_inv|]. case_match; [by apply HandlePublish_inv|].
  case_match; [unfold HandlePublishComplete; case_match; by apply emit_inv|].
  case_match; [unfold HandlePubrec; case_match; [by apply SendPacket_inv|by apply emit_inv]|].
  case_match.
  { unfold HandlePubrel. case_match; [|by apply emit_inv].
    assert (inv (SendPacket now (set_qos2 c (delete z (pending_qos2 c)))
                   (EncodePacketIdAck kPubcomp z)).1).
    { apply SendPacket_inv, set_qos2_inv; [|done]. apply map_Forall_delete, (inv_qos2 _ Hi). }
    case_match; [by apply emit_inv|done]. }
  case_match.
  { unfold HandleSuback. case_match; [|by apply emit_inv]. cbn zeta.
    case_match; [apply emit_inv|]; apply set_topics_inv; try done;
      apply map_Forall_delete, (inv_topics _ Hi). }
  case_match.
  { unfold HandleUnsuback. case_match; [|by apply emit_inv].
    apply set_topics_inv; [|done]. apply map_Forall_delete, (inv_topics _ Hi). }
  case_match; [by apply (same_session_inv c)|done].
Qed.

Lemma set_rx_inv c b : (length b <= kMaxBufferedBytes)%nat → inv c → inv (set_rx c b).
Proof. by intros Hb [? ? ? ? ? ?]. Qed.

Lemma drain_loop_inv k now c : inv c → inv (drain_loop tcp_send k now c).
Proof.
  revert c; induction k as [|k IH]; intros c Hi; [done|]. simpl.
  destruct (TakePacket (rx_buffer c)) as [[p rest]|] eqn:E; [|done].
  apply IH, HandlePacket_inv, set_rx_inv; [|done].
  apply TakePacket_shorter in E. pose proof (inv_rx _ Hi). lia.
Qed.

Lemma OnTransportData_inv now c d : inv c → inv (OnTransportData now c d).
Proof.
  intros Hi. unfold MqttClient.OnTransportData. cbn [rx_buffer set_rx]. cbn zeta.
  destruct (Nat.ltb_spec kMaxBufferedBytes (length (rx_buffer c ++ d))) as [Hl|Hl].
  - apply Teardown_inv. apply (inv_id _ Hi).
  - by apply drain_loop_inv, set_rx_inv.
Qed.

Lemma NextPacketId_range c : 0 <= last_packet_id c <= 65535 →
  1 <= (NextPacketIdLocked c).2 <= 65535.
Proof. intros H. unfold NextPacketIdLocked. simpl. destruct (Z.eqb_spec (last_packet_id c) 65535); lia. Qed.

Lemma NextPacketId_inv c : inv c → inv (NextPacketIdLocked c).1.
Proof.
  intros Hi. pose proof (NextPacketId_range c (inv_id _ Hi)).
  destruct Hi as [? ? ? ? ? ?]. unfold NextPacketIdLocked in *. simpl in *.
  constructor; simpl; done || lia.
Qed.

Lemma Publish_inv now c topic payload qos retain : inv c →
  inv (Publish tcp_send now c topic payload qos retain).1.
Proof.
  intros Hi. unfold Publish. case_match; [done|].
  destruct (if qos >? 0 then _ else _) as [c1 id] eqn:E.
  assert (inv c1).
  { case_match; [|by simplify_eq]. replace c1 with (NextPacketIdLocked c).1 by (by rewrite E).
    by apply NextPacketId_inv. }
  pose proof (SendPacket_inv now c1 (EncodePublish id topic payload qos retain false)) as Hs.
  destruct (SendPacket now c1 _) as [c2 [r|e]]; by apply Hs.
Qed.

(** A request that keeps its topic until it is answered. *)
Lemma request_inv {T} now c topic (encode : Z → bytes) (ok : Z → T) : inv c →
  inv (let '(c, id) := NextPacketIdLocked c in
       let c := set_topics c (<[id := topic]> (pending_topics c)) in
       match SendPacket now c (encode id) with
       | (c, Err e) => (set_topics c (delete id (pending_topics c)), Err e)
       | (c, Ok _) => (c, Ok (ok id))
       end : MqttClient * Result T).1.
Proof.
  intros Hi. pose proof (NextPacketId_range c (inv_id _ Hi)) as Hr.
  pose proof (NextPacketId_inv c Hi) as Hn. destruct (NextPacketIdLocked c) as [c1 id]. simpl in *.
  assert (inv (set_topics c1 (<[id := topic]> (pending_topics c1)))) as H2.
  { apply set_topics_inv; [|done]. apply map_Forall_insert_2; [lia|apply (inv_topics _ Hn)]. }
  pose proof (SendPacket_inv now _ (encode id) H2) as Hs.
  destruct (SendPacket now _ _) as [c2 [r|e]]; simpl in *; [done|].
  apply set_topics_inv; [|done]. apply map_Forall_delete, (inv_topics _ Hs).
Qed.

Lemma Subscribe_inv now c topic qos : inv c → inv (Subscribe tcp_send now c topic qos).1.
Proof.
  intros Hi. unfold Subscribe. case_match; [done|].
  apply (request_inv now c topic (λ id, EncodeSubscribe id topic qos) id Hi).
Qed.

Lemma Unsubscribe_inv now c topic : inv c → inv (Unsubscribe tcp_send now c topic).1.
Proof.
  intros Hi. unfold Unsubscribe. case_match; [done|].
  apply (request_inv now c topic (λ id, EncodeUnsubscribe id topic) (λ _, tt) Hi).
Qed.

Lemma StartKeepAlive_session now c : same_session c (StartKeepAlive now c).
Proof. unfold StartKeepAlive. by case_match. Qed.

Lemma keepalive_send_inv now c : inv c → inv (keepalive_send tcp_send now c).1.
Proof.
  intros Hi. unfold keepalive_send. case_match; [done|]. case_match.
  - case_match; [apply Teardown_inv; apply (inv_id _ Hi)|done].
  - case_match; [|done]. pose proof (SendPacket_inv now c EncodePingreq Hi) as Hs.
    destruct (SendPacket now c EncodePingreq) as [c2 [r|e]]; by apply Hs.
Qed.

Lemma on_arrival_inv now c a : inv c → inv (on_arrival tcp_send now c a).
Proof.
  intros Hi. destruct a; [by apply OnTransportData_inv|]. apply Teardown_inv. apply (inv_id _ Hi).
Qed.

Lemma arrivals_inv now l c : inv c → inv (fold_left (on_arrival tcp_send now) l c).
Proof.
  revert c; induction l as [|a l IH]; intros c Hi; [done|]. apply IH. by apply on_arrival_inv.
Qed.

(** The client as [Connect] leaves it before the transport is created. *)
Definition connect_started (c : MqttClient) : MqttClient :=
  set_rx (set_connack c (connected c) true false None) [].

Lemma connect_started_inv c : connected c = false → inv c → inv (connect_started c).
Proof. intros Hc [? ? ? ? ? ?]. constructor; simpl; rewrite ?Hc; try done; lia. Qed.

Lemma Connect_inv now factory opened arrivals c clean : inv c →
  inv (Connect tcp_send now factory opened arrivals c clean).1.
Proof.
  intros Hi. unfold Connect. destruct (connected c) eqn:Hc; [done|].
  destruct (transport c); [done|]. cbn [orb].
  pose proof (connect_started_inv c Hc Hi) as H1. unfold connect_started in H1. rewrite Hc in H1.
  destruct factory as [[]|e]; [|exact H1]. destruct opened as [[]|e]; [|exact H1].
  set (c1 := set_transport _ true).
  assert (inv c1) as H2 by (by apply (same_session_inv (set_rx (set_connack c false true false None) []))).
  pose proof (SendPacket_inv now c1 (EncodeConnect (connect_options c clean)) H2) as Hs.
  destruct (SendPacket now c1 _) as [c2 [r|e]]; [|apply Teardown_inv; apply (inv_id _ Hs)].
  simpl in Hs. pose proof (arrivals_inv now arrivals c2 Hs) as H3. cbn zeta.
  case_match; [apply Teardown_inv; apply (inv_id _ H3)|].
  case_match; [apply Teardown_inv; apply (inv_id _ H3)|].
  apply emit_inv. by apply (same_session_inv _ _ (StartKeepAlive_session _ _)).
Qed.

(** Everything that can happen to a client: the application's calls, the receive
    thread's and the two atomic parts of a keep-alive wake-up, in any order. *)
Inductive step (c : MqttClient) : MqttClient → Prop :=
  | step_keep_alive seconds : step c (SetKeepAlive c seconds)
  | step_client_id id : step c (SetClientId c id)
  | step_credentials u p : step c (SetCredentials c u p)
  | step_will w : step c (SetWill c w)
  | step_tls t : step c (SetTlsConfig c t)
  | step_connect now factory opened arrivals clean :
      step c (Connect tcp_send now factory opened arrivals c clean).1
  | step_disconnect : step c (Disconnect tcp_send c)
  | step_publish now topic payload qos retain :
      step c (Publish tcp_send now c topic payload qos retain).1
  | step_subscribe now topic qos : step c (Subscribe tcp_send now c topic qos).1
  | step_unsubscribe now topic : step c (Unsubscribe tcp_send now c topic).1
  | step_data now d : step c (OnTransportData now c d)
  | step_closed : step c (OnTransportClosed tcp_send c)
  | step_ping now : step c (keepalive_send tcp_send now c).1
  | step_mark now : step c (keepalive_mark now c).

Inductive reachable : MqttClient → Prop :=
  | reach_new : reachable new_client
  | reach_step c c' : reachable c → step c c' → reachable c'.

Lemma step_inv c c' : step c c' → inv c → inv c'.
Proof.
  intros Hs Hi. destruct Hs;
    try (by apply (same_session_inv c));
    auto using Connect_inv, Publish_inv, Subscribe_inv, Unsubscribe_inv, OnTransportData_inv,
      keepalive_send_inv; apply Teardown_inv; apply (inv_id _ Hi).
Qed.

Lemma reachable_session c : reachable c → inv c.
Proof. induction 1; [apply new_client_inv|by eapply step_inv]. Qed.

(** * Lemmas: connecting *)

(** While a session is being opened, being connected or waiting for the CONNACK
    means the transport is there. *)
Definition anchored (c : MqttClient) : Prop :=
  connected c = true ∨ connecting c = true → transport c = true.

Lemma HandlePacket_anchored now c p : anchored c → anchored (HandlePacket now c p).
Proof.
  intros Ha. unfold anchored in *.
  assert (∀ c1, anchored c1 → ∀ pkt, anchored (SendPacket now c1 pkt).1) as Hs.
  { unfold anchored. intros c1 H1 pkt.
    destruct (SendPacket_frame now c1 pkt) as (_ & _ & -> & -> & -> & _). done. }
  unfold anchored in Hs. unfold MqttClient.HandlePacket.
  case_match.
  { unfold HandleConnack. destruct (connecting c) eqn:Ec; simpl; [|by rewrite Ec].
    repeat case_match; simpl; intros _; apply Ha; by right. }
  case_match.
  { unfold HandlePublish. case_match.
    { destruct (Teardown_fields (ReportError c (MkNetworkError kProtocolError (h_qos (pk_header p))
        (lit "PUBLISH with both QoS bits set"))) false) as (-> & -> & -> & _). intros [?|?]; done. }
    case_match; [|done]. case_match; [by apply Hs|]. simpl. case_match; [by apply Hs|done]. }
  case_match; [unfold HandlePublishComplete; by case_match|].
  case_match; [unfold HandlePubrec; case_match; [by apply Hs|done]|].
  case_match.
  { unfold HandlePubrel. case_match; [|done]. cbn zeta.
    destruct (pending_qos2 c !! _); simpl; by apply (Hs (set_qos2 c _)). }
  case_match; [unfold HandleSuback; case_match; [|done]; simpl; by case_match|].
  case_match; [unfold HandleUnsuback; by case_match|]. by case_match.
Qed.

Lemma Teardown_anchored c b : anchored (Teardown c b).
Proof.
  unfold anchored. destruct (Teardown_fields c b) as (-> & -> & -> & _). intros [?|?]; done.
Qed.

Lemma arrivals_anchored now l c : anchored c → anchored (fold_left (on_arrival tcp_send now) l c).
Proof.
  revert c; induction l as [|a l IH]; intros c Ha; [done|]. apply IH. clear IH.
  destruct a as [d|]; [|apply Teardown_anchored]. simpl. unfold MqttClient.OnTransportData.
  case_match; [apply Teardown_anchored|].
  assert (anchored (set_rx c (rx_buffer c ++ d))) as Hc by done. revert Hc.
  generalize (set_rx c (rx_buffer c ++ d)) (length (rx_buffer (set_rx c (rx_buffer c ++ d)))).
  clear. intros c k. revert c. induction k as [|k IH]; intros c Hc; [done|]. simpl.
  destruct (TakePacket (rx_buffer c)) as [[p rest]|]; [|done].
  by apply IH, HandlePacket_anchored.
Qed.
End Session.
