(* ===== verification/MqttProperties.v ===== *)
(** What the MQTT session guarantees: properties of the client engine, stated on
    the states and logs its operations produce. *)
From stdpp Require Import base decidable list strings gmap.
From Stdlib Require Import ZArith Ascii Lia Sorted.
From S2P Require Import Prelude Errors CommonTypes MqttPacket MqttClient MqttSession.

(** A transport that takes everything it is given. *)
Definition send_all : nat → bytes → Result Z := λ _ p, Ok (Z.of_nat (length p)).

Definition connack_packet (present : bool) (code : MqttConnectReturnCode) : bytes :=
  Frame kConnack 0 [z2b (if present then 1 else 0); z2b (return_code_value code)].
Definition pingresp_packet : bytes := Frame kPingresp 0 [].

(** The client once the keep-alive task has woken at each of [times]. *)
Definition ticks (tcp_send : nat → bytes → Result Z) (times : list Z) (c : MqttClient) : MqttClient :=
  fold_left (λ c now, KeepAliveTick tcp_send now c) times c.

(** The ids [NextPacketIdLocked] hands out, one after the other. *)
Fixpoint packet_ids (n : nat) (c : MqttClient) : list Z :=
  match n with
  | O => []
  | S k => (NextPacketIdLocked c).2 :: packet_ids k (NextPacketIdLocked c).1
  end.

(** ** Lemmas *)

Section Lemmas.
Context (tcp_send : nat → bytes → Result Z).
Hypothesis sends_ok : ∀ n p, is_ok (tcp_send n p) = true.

Lemma SendPacket_ok now c pkt : transport c = true →
  SendPacket tcp_send now c pkt =
  (set_last_sent (log_send c (S (sends c)) (log c ++ [EvSend pkt])) now, Ok ()).
Proof.
  intros Ht. unfold SendPacket, transport_send. rewrite Ht. simpl.
  pose proof (sends_ok (sends c) pkt). by destruct (tcp_send (sends c) pkt).
Qed.

(** Alive, nothing outstanding, last sent at [t]. *)
Definition idle (i t : Z) (c : MqttClient) : Prop :=
  keepalive_running c = true ∧ transport c = true ∧ ka_interval_ms c = i ∧
  ping_sent_ms c = 0 ∧ last_sent_ms c = t.

(** Alive, a PINGREQ outstanding since [s]. *)
Definition waiting (i s : Z) (c : MqttClient) : Prop :=
  keepalive_running c = true ∧ transport c = true ∧ ka_interval_ms c = i ∧
  ping_sent_ms c = s ∧ s ≠ 0.

Definition ended (c : MqttClient) : Prop :=
  keepalive_running c = false ∧ transport c = false ∧ connected c = false.

Lemma tick_ended now c : ended c → KeepAliveTick tcp_send now c = c.
Proof. intros (H & _). unfold KeepAliveTick, keepalive_send. by rewrite H. Qed.

Lemma ticks_ended ts c : ended c → ended (ticks tcp_send ts c).
Proof.
  revert c; induction ts as [|t ts IH]; intros c H; [done|]. simpl. rewrite tick_ended by done.
  by apply IH.
Qed.

Lemma tick_waiting now i s c : waiting i s c →
  if now - s >=? i then ended (KeepAliveTick tcp_send now c) else KeepAliveTick tcp_send now c = c.
Proof.
  intros (H1 & H2 & H3 & H4 & H5). unfold KeepAliveTick, keepalive_send.
  rewrite H1, H3, H4, (proj2 (Z.eqb_neq s 0)) by done. simpl. case_match; [|done].
  destruct (Teardown_fields tcp_send (ReportError c (net_error kTimeout "no PINGRESP from broker")) false)
    as (F1 & F2 & _ & _ & _ & _ & _ & F8 & _). by split_and!.
Qed.

Lemma tick_idle now i t c : idle i t c → now ≠ 0 →
  if now - t >=? i then waiting i now (KeepAliveTick tcp_send now c)
  else KeepAliveTick tcp_send now c = c.
Proof.
  intros (H1 & H2 & H3 & H4 & H5) Hn. unfold KeepAliveTick, keepalive_send.
  rewrite H1, H3, H4, H5. simpl. case_match; [|done].
  rewrite SendPacket_ok by done. by split_and!.
Qed.

Lemma ticks_waiting i s c l1 b l2 : waiting i s c → b - s >= i →
  ended (ticks tcp_send (l1 ++ b :: l2) c).
Proof.
  intros Hw Hb. revert c Hw. induction l1 as [|t l1 IH]; intros c Hw; simpl;
    pose proof (λ now, tick_waiting now i s c Hw) as Ht.
  - specialize (Ht b). rewrite Z.geb_leb, (proj2 (Z.leb_le _ _)) in Ht by lia.
    by apply ticks_ended.
  - specialize (Ht t). destruct (t - s >=? i); [by apply ticks_ended|]. rewrite Ht. by apply IH.
Qed.

Lemma ticks_idle i t c l1 a l2 b l3 : idle i t c → a - t >= i → b - a >= i →
  Forall (λ x, 0 < x <= a) l1 → 0 < a →
  ended (ticks tcp_send (l1 ++ a :: l2 ++ b :: l3) c).
Proof.
  intros Hi Ha Hb HF Hp. revert c Hi. induction HF as [|x l1 Hx HF IH]; intros c Hi; simpl.
  - pose proof (tick_idle a i t c Hi ltac:(lia)) as Ht.
    rewrite Z.geb_leb, (proj2 (Z.leb_le _ _)) in Ht by lia. by eapply ticks_waiting.
  - pose proof (tick_idle x i t c Hi ltac:(lia)) as Ht. destruct (x - t >=? i).
    + unfold ticks. rewrite app_comm_cons, app_assoc.
      apply (ticks_waiting i x _ (l1 ++ a :: l2) b l3 Ht). lia.
    + rewrite Ht. by apply IH.
Qed.
End Lemmas.

Lemma packet_ids_nth n c : 0 <= last_packet_id c <= 65535 →
  ∀ i, (i < n)%nat → packet_ids n c !! i = Some ((last_packet_id c + Z.of_nat i) mod 65535 + 1).
Proof.
  revert c; induction n as [|n IH]; intros c Hc i Hi; [lia|].
  assert (∀ l, 0 <= l <= 65535 → (if l =? 65535 then 1 else l + 1) = l mod 65535 + 1) as Hnext.
  { intros l Hl. destruct (Z.eqb_spec l 65535) as [->|]; [done|]. rewrite Z.mod_small; lia. }
  pose proof (Hnext _ Hc) as E. pose proof (Z.mod_pos_bound (last_packet_id c) 65535 ltac:(lia)).
  destruct i as [|i]; simpl; [by rewrite E, Z.add_0_r|].
  rewrite IH; cbn [NextPacketIdLocked fst last_packet_id set_last_packet_id]; [|lia|lia].
  rewrite E. f_equal. f_equal.
  rewrite <- (Z.add_mod_idemp_l (last_packet_id c)) by lia.
  rewrite <- Z.add_assoc. f_equal. lia.
Qed.

Lemma connack_packets present code :
  packets (connack_packet present code) =
  ([MkMqttPacket (MkFixedHeader kConnack false 0 false 2)
      [z2b (if present then 1 else 0); z2b (return_code_value code)]], []).
Proof. by destruct present, code. Qed.

Lemma OnTransportData_connack tcp_send now c present code : rx_buffer c = [] →
  OnTransportData tcp_send now c (connack_packet present code) =
  set_rx (HandleConnack c (MkMqttPacket (MkFixedHeader kConnack false 0 false 2)
            [z2b (if present then 1 else 0); z2b (return_code_value code)])) [].
Proof.
  intros Hr. rewrite OnTransportData_packets; rewrite Hr; cbn [app]; rewrite ?connack_packets.
  - done.
  - assert (length (connack_packet present code) = 4%nat) as -> by (by destruct present, code).
    unfold kMaxBufferedBytes. lia.
  - simpl. by repeat constructor.
Qed.

Lemma ParseConnack_code (present : bool) (code : MqttConnectReturnCode) :
  ParseConnack [z2b (if present then 1 else 0); z2b (return_code_value code)] =
  Some (MkConnack present code).
Proof. by destruct present, code. Qed.

(** ** Properties *)

(** C19: a QoS 2 message is delivered exactly once. From a session holding
    nothing under an id, a PUBLISH under it, then anything but a PUBREL for it
    (repeats of the PUBLISH included), then the PUBREL, then anything but a new
    PUBLISH for it (repeats of the PUBREL included) delivers the first message
    to the application once, and holds nothing afterwards. *)
Theorem qos2_exactly_once tcp_send (now : Z) (c : MqttClient) (id : Z) (m : MqttPublishMessage)
    (first rel : MqttPacket) (mid post : list MqttPacket) :
  qos2_wf c → pending_qos2 c !! id = None →
  Forall (λ p, violates p = false) (first :: mid ++ rel :: post) →
  is_publish2 id first = true → ParsePublish (pk_header first) (pk_body first) = Some m →
  Forall (λ p, is_pubrel id p = false) mid → is_pubrel id rel = true →
  Forall (λ p, is_publish2 id p = false) post →
  let c' := fold_left (HandlePacket tcp_send now) (first :: mid ++ rel :: post) c in
  delivered2 id (log c') = delivered2 id (log c) ++ [message_of m] ∧ pending_qos2 c' !! id = None.
Proof.
  intros Hw Hn Hv Hf Hp Hm Hr Hpost. cbn zeta.
  assert (is_publish2 id rel = false) as Hr2.
  { unfold is_publish2, is_pubrel in *. apply andb_true_iff in Hr as [Hr%Z.eqb_eq _]. by rewrite Hr. }
  assert (is_pubrel id first = false) as Hf2.
  { unfold is_publish2, is_pubrel in *. rewrite !andb_true_iff in Hf.
    destruct Hf as [[Hf%Z.eqb_eq _] _]. by rewrite Hf. }
  assert (qos2_run id (first :: mid ++ rel :: post) None = (None, [message_of m])) as Hrun.
  { rewrite qos2_run_cons. unfold held_after, delivered_by. rewrite Hf, Hf2, Hp.
    rewrite qos2_run_app, qos2_run_no_pubrel by done. cbn [fst snd app].
    rewrite qos2_run_cons. unfold held_after, delivered_by. rewrite Hr, Hr2.
    by rewrite qos2_run_no_publish. }
  destruct (HandlePackets_qos2 tcp_send now id _ c Hw Hv) as (_ & -> & ->).
  by rewrite Hn, Hrun.
Qed.

Lemma qos2_exactly_once_witness :
  let h := MkFixedHeader kPublish false 2 false 0 in
  let r := MkFixedHeader kPubrel false 1 false 2 in
  let p := MkMqttPacket h (publish_body (MkPublishMessage (lit "t") 9 2 false (lit "one"))) in
  let p' := MkMqttPacket h (publish_body (MkPublishMessage (lit "t") 9 2 false (lit "two"))) in
  let q := MkMqttPacket r (AckBody 9) in
  delivered2 9 (log (fold_left (HandlePacket send_all 0) [p; p'; q; q] new_client)) =
  [MkMqttMessage (lit "t") (lit "one") 2 false 9].
Proof.
  cbn zeta.
  apply (qos2_exactly_once send_all 0 new_client 9 (MkPublishMessage (lit "t") 9 2 false (lit "one"))
    (MkMqttPacket (MkFixedHeader kPublish false 2 false 0)
       (publish_body (MkPublishMessage (lit "t") 9 2 false (lit "one"))))
    (MkMqttPacket (MkFixedHeader kPubrel false 1 false 2) (AckBody 9))
    [MkMqttPacket (MkFixedHeader kPublish false 2 false 0)
       (publish_body (MkPublishMessage (lit "t") 9 2 false (lit "two")))]
    [MkMqttPacket (MkFixedHeader kPubrel false 1 false 2) (AckBody 9)]).
  - apply map_Forall_empty.
  - reflexivity.
  - repeat constructor.
  - vm_compute. reflexivity.
  - vm_compute. reflexivity.
  - repeat constructor.
  - vm_compute. reflexivity.
  - repeat constructor.
Defined.

(** how the transport split the inbound stream does not matter. As long as
    what is buffered fits the limit and no packet in it ends the connection, two
    reads leave the client - state and log - as one read of both would. *)
Theorem OnTransportData_split tcp_send (now : Z) (c : MqttClient) (a b : bytes) :
  (length (rx_buffer c ++ a ++ b) <= kMaxBufferedBytes)%nat →
  Forall (λ p, violates p = false) (packets (rx_buffer c ++ a ++ b)).1 →
  OnTransportData tcp_send now (OnTransportData tcp_send now c a) b =
  OnTransportData tcp_send now c (a ++ b).
Proof.
  intros Hl HF. pose proof HF as HF'. rewrite app_assoc, packets_app in HF'. simpl in HF'.
  apply Forall_app in HF' as [Ha Hb].
  rewrite (OnTransportData_packets tcp_send now c a); [|rewrite !length_app in *; lia|done].
  rewrite (OnTransportData_packets tcp_send now c (a ++ b)) by done.
  rewrite OnTransportData_packets; cbn [rx_buffer set_rx];
    [| |done].
  - rewrite app_assoc, (packets_app (rx_buffer c ++ a) b). simpl. rewrite fold_left_app.
    by rewrite fold_HandlePacket_rx by done.
  - pose proof (packets_rest_length (rx_buffer c ++ a)). rewrite !length_app in *. lia.
Qed.

Lemma OnTransportData_split_witness :
  let s := EncodePublish 0 (lit "t") (lit "hello") 0 false false in
  OnTransportData send_all 5 (OnTransportData send_all 5 new_client (take 4 s)) (drop 4 s) =
  OnTransportData send_all 5 new_client (take 4 s ++ drop 4 s).
Proof.
  cbn zeta. apply OnTransportData_split.
  - apply (Nat.le_trans _ 10); [apply Nat.leb_le; reflexivity|unfold kMaxBufferedBytes; lia].
  - vm_compute. repeat constructor.
Defined.

(** C32: every state a client can reach satisfies the session invariant, whatever
    the transport answers and however the calls of the application, the receive
    thread and the keep-alive task interleave: at most 64 KiB buffered, the last
    packet id in 0..65535, every id with a pending topic in 1..65535, every held
    QoS 2 message under its own id, and connected exactly when a CONNACK came
    and was not a refusal. *)
Theorem reachable_inv tcp_send (c : MqttClient) : reachable tcp_send c → inv c.
Proof. apply reachable_session. Qed.

Lemma reachable_inv_witness :
  inv (OnTransportData send_all 0
         (Connect send_all 0 (Ok ()) (Ok ()) [Data (connack_packet false kAccepted)] new_client true).1
         (lit "0")).
Proof.
  apply (reachable_inv send_all). eapply reach_step; [|apply step_data].
  eapply reach_step; [apply reach_new|apply step_connect].
Defined.

(** C33: what [Connect] reports is what the session is. On success the client is
    connected over a live transport; on failure nothing is left behind - neither
    connected nor holding a transport - unless it failed because the client
    already was in use, and then nothing changed. *)
Theorem Connect_outcome tcp_send (now : Z) (factory opened : Result unit) (arrivals : list arrival)
    (c : MqttClient) (clean : bool) : reachable tcp_send c →
  match Connect tcp_send now factory opened arrivals c clean with
  | (c', Ok _) => connected c' = true ∧ transport c' = true
  | (c', Err e) => (c' = c ∧ connected c || transport c = true) ∨
                   (connected c' = false ∧ transport c' = false)
  end.
Proof.
  intros Hreach. pose proof (reachable_session _ _ Hreach) as Hi. unfold Connect.
  destruct (connected c) eqn:Hc; [by left|]. destruct (transport c) eqn:Ht; [by left|]. cbn [orb].
  destruct factory as [[]|e]; [|right; by rewrite <- Ht]. destruct opened as [[]|e]; [|right; by rewrite <- Ht].
  pose proof (connect_started_inv c Hc Hi) as H1. unfold connect_started in H1. rewrite Hc in H1.
  set (c1 := set_transport _ true).
  assert (inv c1) as H2 by (by apply (same_session_inv (set_rx (set_connack c false true false None) []))).
  pose proof (SendPacket_inv tcp_send now c1 (EncodeConnect (connect_options c clean)) H2) as Hs.
  destruct (SendPacket_frame tcp_send now c1 (EncodeConnect (connect_options c clean)))
    as (_ & _ & Htr & _ & _ & _).
  destruct (SendPacket tcp_send now c1 _) as [c2 [r|e]]; simpl in Hs, Htr.
  2: { right. destruct (Teardown_fields tcp_send c2 false) as (F1 & F2 & _). by rewrite F1, F2. }
  pose proof (arrivals_inv tcp_send now arrivals c2 Hs) as H3.
  pose proof (arrivals_anchored tcp_send now arrivals c2 ltac:(by intros _)) as H4. cbn zeta.
  set (c3 := fold_left _ arrivals c2) in *. destruct (connack_ready c3) eqn:Hr; cbn [negb].
  2: { right. destruct (Teardown_fields tcp_send c3 true) as (F1 & F2 & _). by rewrite F1, F2. }
  destruct (connack_error c3) eqn:He.
  { right. destruct (Teardown_fields tcp_send c3 false) as (F1 & F2 & _). by rewrite F1, F2. }
  pose proof (inv_connected _ H3) as Hcon. rewrite Hr, He in Hcon. simpl in Hcon.
  assert (transport c3 = true) as Ht3 by (apply H4; by left).
  unfold StartKeepAlive. by case_match.
Qed.

Lemma Connect_outcome_witness :
  connected (Connect send_all 0 (Ok ()) (Ok ()) [Data (connack_packet true kAccepted)] new_client true).1 = true.
Proof.
  pose proof (Connect_outcome send_all 0 (Ok ()) (Ok ()) [Data (connack_packet true kAccepted)]
                new_client true (reach_new send_all)) as H.
  destruct (Connect _ _ _ _ _ _ _) as [c' [r|e]] eqn:E; [apply H|].
  vm_compute in E. discriminate E.
Defined.

(** [Connect] reports the broker's answer. Over a transport that opens and
    sends, a CONNACK accepting the connection makes it succeed, and each of the
    five refusals makes it fail with the refusal's own error - its code carried as
    the native error, credentials problems told apart - and tears the session
    down. *)
Theorem Connect_answer tcp_send (now : Z) (c : MqttClient) (clean present : bool)
    (code : MqttConnectReturnCode) :
  (∀ n p, is_ok (tcp_send n p) = true) → connected c = false → transport c = false →
  let '(c', r) := Connect tcp_send now (Ok ()) (Ok ()) [Data (connack_packet present code)] c clean in
  r = (if decide (code = kAccepted) then Ok () else Err (refusal code)) ∧
  connected c' = bool_decide (code = kAccepted).
Proof.
  intros Hok Hc Ht. unfold Connect. rewrite Hc, Ht. cbn [orb].
  set (c1 := set_transport _ true). rewrite (SendPacket_ok tcp_send Hok now c1) by done.
  cbn [fold_left on_arrival]. rewrite OnTransportData_connack by done.
  unfold HandleConnack. cbn [connecting set_last_sent log_send set_transport set_rx set_connack c1 negb pk_body].
  rewrite ParseConnack_code. cbn [connack_code]. destruct (decide (code = kAccepted)) as [->|Hne].
  - cbn [connack_ready set_connack set_rx connack_error set_last_sent log_send set_transport negb].
    change (connack_error c1) with (@None NetworkError). unfold StartKeepAlive. by case_match.
  - cbn [connack_ready set_connack set_rx connack_error set_last_sent log_send set_transport negb].
    split; [done|]. rewrite bool_decide_false by done.
    set (c2 := set_rx _ _). by destruct (Teardown_fields tcp_send c2 false) as (_ & -> & _).
Qed.

Lemma Connect_answer_witness :
  (Connect send_all 0 (Ok ()) (Ok ()) [Data (connack_packet false kBadCredentials)] new_client true).2 =
  Err (refusal kBadCredentials).
Proof.
  pose proof (Connect_answer send_all 0 new_client true false kBadCredentials
                (λ _ _, eq_refl) eq_refl eq_refl) as H.
  destruct (Connect _ _ _ _ _ _ _) as [c' r]. apply H.
Defined.

(** C34: a broker that stops answering is noticed. Waking at nondecreasing times,
    a session with nothing outstanding sends a PINGREQ once a whole interval has
    passed without sending, and once a further interval has passed without an
    answer it is torn down: neither connected nor holding the transport, the
    task stopped. *)
Theorem silent_broker_disconnected tcp_send (c : MqttClient) (i t a b : Z) (l1 l2 l3 : list Z) :
  (∀ n p, is_ok (tcp_send n p) = true) → idle i t c →
  StronglySorted Z.le (l1 ++ [a]) → Forall (λ x, 0 < x) (l1 ++ [a]) → t + i <= a → a + i <= b →
  ended (ticks tcp_send (l1 ++ a :: l2 ++ b :: l3) c).
Proof.
  intros Hok Hi Hs Hp Ha Hb. apply Forall_app in Hp as [Hp1 Hp2].
  apply (ticks_idle tcp_send Hok i t c l1 a l2 b l3 Hi); [lia|lia| |by inversion Hp2].
  clear -Hs Hp1. induction l1 as [|x l1 IH]; [done|].
  apply Forall_cons in Hp1 as [Hx Hp1]. simpl in Hs. apply StronglySorted_inv in Hs as [Hs Hle].
  constructor; [|by apply IH]. rewrite Forall_app in Hle. destruct Hle as [_ Hle].
  apply Forall_cons in Hle as [Hle _]. lia.
Qed.

(** A session freshly established at time [t] with a keep-alive of [s] seconds. *)
Definition established (t s : Z) : MqttClient :=
  (Connect send_all t (Ok ()) (Ok ()) [Data (connack_packet false kAccepted)]
     (SetKeepAlive new_client s) true).1.

Lemma silent_broker_disconnected_witness :
  ended (ticks send_all [1200; 1400; 2400; 2600; 3400] (established 1000 1)).
Proof.
  apply (silent_broker_disconnected send_all (established 1000 1) 1000 1000 2400 3400
           [1200; 1400] [2600] []).
  - reflexivity.
  - vm_compute. by split_and!.
  - repeat constructor; vm_compute; discriminate.
  - repeat constructor.
  - vm_compute. discriminate.
  - vm_compute. discriminate.
Defined.

(** an answered ping may still end the session. The task records the
    PINGREQ only after sending it, so when the PINGRESP is handled between the
    two, the record survives the answer: the next wake-up an interval later
    reports a broker that did not answer and tears the session down. With the
    answer after the record the same wake-up keeps the session. *)
Theorem pingresp_before_mark_lost tcp_send (c : MqttClient) (i t now later : Z) :
  (∀ n p, is_ok (tcp_send n p) = true) → idle i t c → rx_buffer c = [] →
  0 < now → 0 < i → t + i <= now → now + i <= later →
  let '(c1, mark) := keepalive_send tcp_send now c in
  let answered_first := keepalive_mark now (OnTransportData tcp_send now c1 pingresp_packet) in
  let marked_first := OnTransportData tcp_send now (keepalive_mark now c1) pingresp_packet in
  mark = true ∧ ended (KeepAliveTick tcp_send later answered_first) ∧
  transport (KeepAliveTick tcp_send later marked_first) = true.
Proof.
  intros Hok (H1 & H2 & H3 & H4 & H5) Hr Hn Hpos Ht Hl. unfold keepalive_send.
  rewrite H1, H3, H4, H5. cbn [negb Z.eqb]. rewrite Z.geb_leb, (proj2 (Z.leb_le _ _)) by lia.
  rewrite (SendPacket_ok tcp_send Hok) by done. cbn zeta.
  set (c1 := set_last_sent _ now).
  assert (∀ c2, rx_buffer c2 = [] →
    OnTransportData tcp_send now c2 pingresp_packet = set_rx (set_ping_sent c2 0) []) as Hp.
  { intros c2 Hr2. rewrite OnTransportData_packets; rewrite Hr2; [done| |].
    - change (length ([] ++ pingresp_packet)) with 2%nat. unfold kMaxBufferedBytes. lia.
    - by repeat constructor. }
  rewrite !Hp by done. split; [done|]. split.
  - set (c2 := keepalive_mark now _).
    pose proof (tick_waiting tcp_send later i now c2) as Hw.
    rewrite Z.geb_leb, (proj2 (Z.leb_le _ _)) in Hw by lia. apply Hw. split_and!; done || lia.
  - set (c2 := set_rx _ []). pose proof (tick_idle tcp_send Hok later i now c2) as Hw.
    rewrite Z.geb_leb, (proj2 (Z.leb_le _ _)) in Hw by lia.
    assert (idle i now c2) as Hid by (by split_and!).
    by destruct (Hw Hid ltac:(lia)) as (_ & Hw2 & _).
Qed.

Lemma pingresp_before_mark_lost_witness :
  let c1 := (keepalive_send send_all 2000 (established 1000 1)).1 in
  ended (KeepAliveTick send_all 3000
           (keepalive_mark 2000 (OnTransportData send_all 2000 c1 pingresp_packet))).
Proof.
  cbn zeta.
  pose proof (pingresp_before_mark_lost send_all (established 1000 1) 1000 1000 2000 3000) as H.
  destruct (keepalive_send send_all 2000 (established 1000 1)) as [c1 mark] eqn:E.
  apply H; [reflexivity|vm_compute; by split_and!|vm_compute; reflexivity|reflexivity|reflexivity|
            vm_compute; discriminate|vm_compute; discriminate].
Defined.

(** the keep-alive interval told to the broker is the configured one only up
    to 65535 seconds. Above that the CONNECT carries it modulo 65536 while the
    task waits the whole interval, so the broker is promised a shorter silence
    than the client keeps. *)
Theorem keep_alive_advertised (c : MqttClient) (clean : bool) (now : Z) :
  0 < keep_alive_seconds c →
  o_keep_alive_seconds (connect_options c clean) = keep_alive_seconds c mod 65536 ∧
  ka_interval_ms (StartKeepAlive now c) = keep_alive_seconds c * 1000 ∧
  (65535 < keep_alive_seconds c →
   o_keep_alive_seconds (connect_options c clean) * 1000 < ka_interval_ms (StartKeepAlive now c)).
Proof.
  intros H. unfold connect_options, StartKeepAlive, u16. cbn [o_keep_alive_seconds].
  rewrite (proj2 (Z.ltb_ge _ _)), (proj2 (Z.leb_gt _ _)) by lia. cbn [ka_interval_ms set_ka].
  change (2 ^ 16) with 65536. split_and!; [done|done|].
  pose proof (Z.mod_pos_bound (keep_alive_seconds c) 65536 ltac:(lia)). lia.
Qed.

Lemma keep_alive_advertised_witness :
  let c := SetKeepAlive new_client 65546 in
  o_keep_alive_seconds (connect_options c true) = 10 ∧ ka_interval_ms (StartKeepAlive 0 c) = 65546000.
Proof.
  split; apply (keep_alive_advertised (SetKeepAlive new_client 65546) true 0); reflexivity.
Defined.

(** packet ids are nonzero and do not repeat within 65535 allocations, which
    is every id the protocol has. *)
Theorem packet_ids_distinct (n : nat) (c : MqttClient) :
  0 <= last_packet_id c <= 65535 → Z.of_nat n <= 65535 →
  NoDup (packet_ids n c) ∧ Forall (λ id, 1 <= id <= 65535) (packet_ids n c).
Proof.
  intros Hc Hn. pose proof (packet_ids_nth n c Hc) as Hnth.
  assert (length (packet_ids n c) = n) as Hlen.
  { clear. revert c; induction n as [|n IH]; intros c; [done|]. simpl. by rewrite IH. }
  split.
  - apply NoDup_alt. intros i j x Hi Hj.
    assert (i < n)%nat by (apply lookup_lt_Some in Hi; lia).
    assert (j < n)%nat by (apply lookup_lt_Some in Hj; lia).
    rewrite Hnth in Hi, Hj by done. simplify_eq.
    assert ((last_packet_id c + Z.of_nat i) mod 65535 = (last_packet_id c + Z.of_nat j) mod 65535) as E by lia.
    pose proof (Z.div_mod (last_packet_id c + Z.of_nat i) 65535 ltac:(lia)).
    pose proof (Z.div_mod (last_packet_id c + Z.of_nat j) 65535 ltac:(lia)). nia.
  - apply Forall_lookup. intros i x Hi.
    assert (i < n)%nat by (apply lookup_lt_Some in Hi; lia).
    rewrite Hnth in Hi by done. simplify_eq.
    pose proof (Z.mod_pos_bound (last_packet_id c + Z.of_nat i) 65535 ltac:(lia)). lia.
Qed.

Lemma packet_ids_distinct_witness :
  NoDup (packet_ids 3 (set_last_packet_id new_client 65534)) ∧
  Forall (λ id, 1 <= id <= 65535) (packet_ids 3 (set_last_packet_id new_client 65534)).
Proof. apply packet_ids_distinct; vm_compute; try split; discriminate. Defined.

(** a failed connection attempt leaves the CONNACK window open. When the
    transport cannot be created or opened, [connecting_] stays set, so a CONNACK
    that still arrives marks a client without a transport connected. *)
Theorem failed_connect_leaves_connecting tcp_send (now : Z) (opened : Result unit) (e : NetworkError)
    (arrivals : list arrival) (c : MqttClient) (clean present : bool) :
  connected c = false → transport c = false →
  let c' := (Connect tcp_send now (Err e) opened arrivals c clean).1 in
  connecting c' = true ∧
  let c'' := OnTransportData tcp_send now c' (connack_packet present kAccepted) in
  connected c'' = true ∧ transport c'' = false.
Proof.
  intros Hc Ht. unfold Connect. rewrite Hc, Ht. cbn [orb fst]. cbn zeta. split; [done|].
  rewrite OnTransportData_connack by done. unfold HandleConnack.
  cbn [connecting set_rx set_connack negb pk_body]. rewrite ParseConnack_code.
  cbn [connack_code]. by rewrite decide_True.
Qed.

Lemma failed_connect_leaves_connecting_witness :
  connecting (Connect send_all 0 (Err (Timeout "x")) (Ok ()) [] new_client true).1 = true.
Proof.
  apply (failed_connect_leaves_connecting send_all 0 (Ok ()) (Timeout "x") [] new_client true false);
    reflexivity.
Defined.
