(* ===== verification/AtChannel.v ===== *)
(** [IAtChannel] (src/src/at_channel/iat_channel.h): what the layers above ask of
    a command channel, as an interface, and [AtUart] as an implementation of it.

    A timeout is in milliseconds. [SendDataAfterPrompt] and the URC subscriptions
    are left to [AtUart]: nothing modelled against the interface uses them. *)
From stdpp Require Import base decidable list strings gmap.
From Stdlib Require Import ZArith Ascii Lia.
From S2P Require Import Prelude Errors ResponseParser UrcDispatcher AtUart.

Class IAtChannel (S : Type) := {
  ch_send : S → bytes → Z → S * AtResult;
  ch_lines : S → list bytes;
  ch_baud : S → Z;
  ch_set_baud : S → Z → S * AtResult;
}.

(** The UART channel with what is to come: for each command, what [IUart::Send]
    returns and what the UART delivers before the wait is over. *)
Definition uart_script := list (Z * list bytes).

#[export] Instance AtUart_channel : IAtChannel (AtUart * uart_script) := {|
  ch_send c cmd timeout :=
    match c.2 with
    | (sent, reads) :: script => let '(u, r) := SendCommand c.1 cmd sent reads in ((u, script), r)
    | [] => let '(u, r) := SendCommand c.1 cmd (Z.of_nat (length cmd + 2)) [] in ((u, []), r)
    end;
  ch_lines c := GetResponseLines c.1;
  ch_baud c := baud_rate c.1;
  ch_set_baud c baud := let '(u, r) := SetBaudRate c.1 baud in ((u, c.2), r);
|}.

(** The command, then the lines of its answer, read only if it succeeded. *)
Definition send_lines `{IAtChannel C} (s : C) (cmd : bytes) (timeout : Z) : C * AtValue (list bytes) :=
  let '(s, r) := ch_send s cmd timeout in
  match r with
  | Err e => (s, Err e)
  | Ok _ => (s, Ok (ch_lines s))
  end.
