(* ===== verification/BaudAlignment.v ===== *)
(** Settling the baud rate between host and module
    (src/src/at_channel/baud_alignment.{h,cpp}), over any channel: the rate list is
    searched for whole numbers, and every rate returned is one the module answers at. *)
From stdpp Require Import base decidable list strings gmap.
From Stdlib Require Import ZArith Ascii Lia.
From S2P Require Import Prelude Errors AtParser AtChannel.

Definition kFactoryRate : Z := 115200.
Definition kHighestKnownRate : Z := 921600.
Definition kQueryTimeout : Z := 500.
Definition kSetTimeout : Z := 5000.
Definition kConfirmAttempts : nat := 4.

Fixpoint FindIprLine (lines : list bytes) : option bytes :=
  match lines with
  | [] => None
  | line :: lines =>
      if starts_with (lit "+IPR") (drop_while isblank line) then Some line else FindIprLine lines
  end.

Definition ParseRate (line : bytes) : option Z := ParseInt (StripKeyPrefix line).

(** The scan of [ListsRate]. [pos] bytes have been passed, [before] is the last of
    them; an occurrence that is part of a longer number is stepped over whole, so
    each iteration but the last consumes the needle. *)
Fixpoint lists_loop (fuel : nat) (needle : bytes) (before : option ascii) (supported : bytes) : bool :=
  match fuel with
  | O => false
  | S k =>
      match find_sub needle supported with
      | None => false
      | Some pos =>
          let starts := match last (option_list before ++ take pos supported) with
                        | None => true
                        | Some c => negb (isdigit c)
                        end in
          let after := drop (pos + length needle) supported in
          let ends := match head after with None => true | Some c => negb (isdigit c) end in
          if starts && ends then true else lists_loop k needle (last needle) after
      end
  end.

Definition ListsRate (supported : bytes) (rate : Z) : bool :=
  lists_loop (S (length supported)) (to_string rate) None supported.

Definition BaudRateCandidates (requested : Z) : list Z :=
  fold_left (λ rates rate,
    if rate <=? 0 then rates
    else if bool_decide (rate ∈ rates) then rates
    else rates ++ [rate]) [requested; kHighestKnownRate; kFactoryRate] [].

Section Channel.
Context `{IAtChannel C}.

Definition QueryLines (s : C) (cmd : bytes) (timeout : Z) : C * AtValue (list bytes) := send_lines s cmd timeout.

Definition MoveHostTo (s : C) (rate : Z) : C * bool :=
  if ch_baud s =? rate then (s, true)
  else match ch_set_baud s rate with
       | (s, Ok _) => (s, true)
       | (s, Err _) => (s, false)
       end.

(** The [for] loop of [FindModuleBaudRate]: the rate found, and the rates tried. *)
Fixpoint probe_loop (candidates tried : list Z) (s : C) : C * option Z * list Z :=
  match candidates with
  | [] => (s, None, tried)
  | rate :: candidates =>
      if rate <=? 0 then probe_loop candidates tried s
      else if bool_decide (rate ∈ tried) then probe_loop candidates tried s
      else
        let tried := tried ++ [rate] in
        let '(s, moved) := MoveHostTo s rate in
        if negb moved then probe_loop candidates tried s else
        match QueryLines s (lit "AT+IPR?") kQueryTimeout with
        | (s, Err _) => probe_loop candidates tried s
        | (s, Ok lines) =>
            let reported := match FindIprLine lines with
                            | Some ipr => match ParseRate ipr with
                                          | Some parsed => if parsed >? 0 then Some parsed else None
                                          | None => None
                                          end
                            | None => None
                            end in
            (s, Some (default rate reported), tried)
        end
  end.

Definition FindModuleBaudRate (s : C) (candidates : list Z) : C * AtValue Z :=
  let entry_rate := ch_baud s in
  if entry_rate <=? 0 then
    (s, Err (MkAtError kAtNotInitialized (lit "the channel does not report a baud rate")))
  else
    let '(s, found, tried) := probe_loop candidates [] s in
    match found with
    | Some rate => (s, Ok rate)
    | None =>
        ((ch_set_baud s entry_rate).1,
         Err (MkAtError kAtErrTimeout
                (lit "the module did not answer at any of the " ++ to_string (Z.of_nat (length tried))
                 ++ lit " rates probed")))
    end.

(** The confirmation loop of [SetModuleBaudRate]. *)
Fixpoint confirm_loop (attempts : nat) (desired : Z) (s : C) : C * bool :=
  match attempts with
  | O => (s, false)
  | S k =>
      match QueryLines s (lit "AT+IPR?") kQueryTimeout with
      | (s, Err _) => confirm_loop k desired s
      | (s, Ok probe) =>
          match FindIprLine probe with
          | Some now => if decide (ParseRate now = Some desired) then (s, true) else confirm_loop k desired s
          | None => confirm_loop k desired s
          end
      end
  end.

Definition set_rate_command (rate : Z) : bytes := lit "AT+IPR=" ++ to_string rate.

(** What follows an unconfirmed change. *)
Definition search_again (current desired : Z) (s : C) : C * AtValue Z :=
  let '(s, _) := ch_send s (set_rate_command current) kSetTimeout in
  match FindModuleBaudRate s (BaudRateCandidates (ch_baud s)) with
  | (s, Err _) =>
      (s, Err (MkAtError kAtErrTimeout (lit "the module did not confirm " ++ to_string desired
                 ++ lit " baud and could not be found at any rate afterwards")))
  | (s, Ok landed) =>
      match MoveHostTo s landed with
      | (s, true) => (s, Ok landed)
      | (s, false) =>
          (s, Err (MkAtError kAtNotInitialized (lit "the module is answering at " ++ to_string landed
                     ++ lit " baud but the channel could not follow")))
      end
  end.

Definition SetModuleBaudRate (s : C) (desired : Z) : C * AtValue Z :=
  let current := ch_baud s in
  if (desired <=? 0) || (current <=? 0) then
    (s, Err (MkAtError kAtNotInitialized (lit "cannot set a rate on a channel that does not report one")))
  else if current =? desired then (s, Ok current)
  else match QueryLines s (lit "AT+IPR=?") kQueryTimeout with
  | (s, Err _) => (s, Ok current)
  | (s, Ok supported) =>
      match FindIprLine supported with
      | None => (s, Ok current)
      | Some ipr =>
          if negb (ListsRate ipr desired) then (s, Ok current) else
          match ch_send s (set_rate_command desired) kSetTimeout with
          | (s, Err _) => (s, Ok current)
          | (s, Ok _) =>
              match ch_set_baud s desired with
              | (s, Err _) =>
                  (s, Err (MkAtError kAtNotInitialized (lit "module switched to " ++ to_string desired
                             ++ lit " baud but the channel could not follow")))
              | (s, Ok _) =>
                  match confirm_loop kConfirmAttempts desired s with
                  | (s, true) => (s, Ok desired)
                  | (s, false) => search_again current desired s
                  end
              end
          end
      end
  end.
End Channel.

(** * The rates a module lists *)

(** [n] occurs in [s] with no digit on either side. *)
Definition no_digit (c : option ascii) : Prop := ∀ d, c = Some d → isdigit d = false.
Definition whole_number_in (n s : bytes) : Prop :=
  ∃ pre post, s = pre ++ n ++ post ∧ no_digit (last pre) ∧ no_digit (head post).

Lemma find_sub_first p s i j : find_sub p s = Some i → (j < i)%nat → starts_with p (drop j s) = false.
Proof.
  revert i j; induction s as [|x s IH]; intros i j H Hj; cbn [find_sub] in H.
  - destruct (starts_with p []); simplify_eq. lia.
  - destruct (starts_with p (x :: s)) eqn:E; [simplify_eq; lia|].
    destruct (find_sub p s) as [i'|] eqn:Ei; simplify_eq/=. destruct j as [|j]; [done|].
    apply (IH i'); [done|lia].
Qed.

Lemma find_sub_none p s j : p ≠ [] → find_sub p s = None → starts_with p (drop j s) = false.
Proof.
  intros Hp. revert j; induction s as [|x s IH]; intros j H; cbn [find_sub] in H.
  - rewrite drop_nil. by destruct p.
  - destruct (starts_with p (x :: s)) eqn:E; [done|]. destruct (find_sub p s) eqn:Ei; [done|].
    destruct j as [|j]; [done|]. by apply IH.
Qed.

Lemma negb_digit_iff (c : option ascii) :
  (match c with None => true | Some d => negb (isdigit d) end) = true ↔ no_digit c.
Proof.
  unfold no_digit. destruct c as [d|]; [|naive_solver]. rewrite negb_true_iff. naive_solver.
Qed.

(** An occurrence that starts inside an earlier one is preceded by a digit. *)
Lemma whole_occurrence_apart n i pre post s : forallb isdigit n = true →
  s = take i s ++ n ++ drop (i + length n) s → s = pre ++ n ++ post → no_digit (last pre) → (i < length pre)%nat →
  (i + length n <= length pre)%nat.
Proof.
  intros Hn Hi Hs Hl Hlt. destruct (Nat.le_gt_cases (i + length n) (length pre)) as [|Hgt]; [done|exfalso].
  assert (i <= length s)%nat as Hle by (rewrite Hs, !length_app; lia).
  destruct pre as [|x pre _] using rev_ind; [simpl in Hlt; lia|].
  rewrite length_app in *. simpl in *. specialize (Hl x). rewrite last_snoc in Hl.
  assert (s !! length pre = Some x) as Hx.
  { rewrite Hs, <- !app_assoc, lookup_app_r by lia. by rewrite Nat.sub_diag. }
  rewrite Hi, lookup_app_r in Hx by (rewrite length_take; lia).
  rewrite length_take, Nat.min_l, lookup_app_l in Hx by lia.
  rewrite forallb_forall in Hn. apply list_elem_of_lookup_2, list_elem_of_In, Hn in Hx.
  by rewrite Hl in Hx.
Qed.

Lemma lists_loop_spec k n before s : n ≠ [] → forallb isdigit n = true → (length s < k)%nat →
  lists_loop k n before s = true ↔
  ∃ pre post, s = pre ++ n ++ post ∧ no_digit (last (option_list before ++ pre)) ∧ no_digit (head post).
Proof.
  intros Hne Hn. revert before s; induction k as [|k IH]; intros before s Hk; [lia|]. cbn [lists_loop].
  destruct (find_sub n s) as [i|] eqn:E.
  2: { split; [done|]. intros (pre & post & -> & _). pose proof (find_sub_none n _ (length pre) Hne E) as H.
       rewrite drop_app_length in H. by rewrite starts_with_app in H. }
  pose proof (find_sub_Some _ _ _ E) as Hs. set (after := drop (i + length n) s) in *. cbv zeta.
  assert (0 < length n)%nat as Hn0 by (destruct n; simpl; [done|lia]).
  assert (length after < k)%nat as Hk'.
  { apply (f_equal length) in Hs. rewrite !length_app in Hs. lia. }
  destruct (_ && _) eqn:Ew.
  - apply andb_true_iff in Ew as [E1 E2]. rewrite negb_digit_iff in E1, E2. split; [|done]. intros _. by exists (take i s), after.
  - rewrite IH by done. split; intros (pre & post & H & Hl & Hh).
    + exists (take i s ++ n ++ pre), post. split; [by rewrite Hs at 1; rewrite H, <- !app_assoc|]. split; [|done].
      destruct pre as [|x pre _] using rev_ind; [|by rewrite !app_assoc, last_snoc in *].
      rewrite app_nil_r in *. destruct n as [|y n _] using rev_ind; [done|].
      by rewrite !app_assoc, !last_snoc in *.
    + assert (¬ (i = length pre)) as Hi.
      { intros Hi. assert (take i s = pre) as Et by (rewrite Hi, H; apply take_app_length).
        assert (after = post) as Ea.
        { subst after. rewrite Hi, H, <- (drop_drop _ (length n) (length pre)), !drop_app_length. done. }
        rewrite Et, Ea in Ew. apply not_true_iff_false in Ew. apply Ew, andb_true_iff. by rewrite !negb_digit_iff. }
      destruct (Nat.lt_total i (length pre)) as [Hlt|[?|Hgt]]; [|done|].
      2: { pose proof (find_sub_first _ _ _ _ E Hgt) as Hf. rewrite H, drop_app_length in Hf.
           by rewrite starts_with_app in Hf. }
      assert (no_digit (last pre)) as Hl'.
      { destruct pre as [|x pre _] using rev_ind; [done|]. rewrite last_snoc. by rewrite app_assoc, last_snoc in Hl. }
      pose proof (whole_occurrence_apart n i pre post s Hn Hs H Hl' Hlt) as Hap.
      exists (drop (i + length n) pre), post. split; [|split; [|done]].
      * subst after. rewrite H, drop_app_le by done. done.
      * destruct (drop (i + length n) pre) as [|x p] eqn:Ed.
        -- exfalso. assert (length pre = i + length n)%nat as Hlen.
           { apply (f_equal length) in Ed. rewrite length_drop in Ed. simpl in Ed. lia. }
           assert (pre = take i s ++ n) as ->.
           { rewrite H in Hs at 1. rewrite (app_assoc (take i s)) in Hs. apply app_inj_1 in Hs; [by destruct Hs|].
             rewrite length_app, length_take, H, !length_app. lia. }
           destruct n as [|y n _] using rev_ind; [done|]. rewrite app_assoc, last_snoc in Hl'.
           rewrite forallb_app in Hn. apply andb_true_iff in Hn as [_ Hn]. simpl in Hn.
           rewrite (Hl' y eq_refl) in Hn. done.
        -- rewrite <- (take_drop (i + length n) pre), Ed in Hl'. rewrite last_app_cons in *. exact Hl'.
Qed.

(** The rate list is searched for the rate as a whole number: 115200 is not
    found inside 1152000. *)
Theorem ListsRate_whole supported rate : 0 <= rate →
  ListsRate supported rate = true ↔ whole_number_in (to_string rate) supported.
Proof.
  intros Hr. destruct (to_string_nonneg rate Hr) as (Hne & Hd & _).
  unfold ListsRate, whole_number_in. by rewrite lists_loop_spec by (done || lia).
Qed.

Lemma ListsRate_whole_witness :
  ListsRate (lit "+IPR: (0,1152000,921600)") 115200 = false ∧
  whole_number_in (to_string 921600) (lit "+IPR: (0,1152000,921600)").
Proof.
  split; [vm_compute; reflexivity|]. apply (ListsRate_whole _ 921600); [lia|]. vm_compute. reflexivity.
Defined.

(** * Modules that answer at one rate *)

Definition is_query (cmd : bytes) : Prop := cmd = lit "AT+IPR?" ∨ cmd = lit "AT+IPR=?".

(** A module behind a channel: the rate it is on, and what the documented commands
    do to it. It hears a command only at its own rate; it switches when it takes
    a new rate, though the answer to that command may be lost. *)
Class BaudModule (C : Type) `{IAtChannel C} := {
  module_rate : C → Z;
  query_keeps s cmd t : is_query cmd →
    let '(s', r) := ch_send s cmd t in
    ch_baud s' = ch_baud s ∧ module_rate s' = module_rate s ∧ (r = Ok () → module_rate s = ch_baud s);
  report_true s t s' line rate : ch_send s (lit "AT+IPR?") t = (s', Ok ()) →
    FindIprLine (ch_lines s') = Some line → ParseRate line = Some rate → 0 < rate → rate = module_rate s;
  rate_set s rate t :
    let '(s', r) := ch_send s (set_rate_command rate) t in
    ch_baud s' = ch_baud s ∧
    (module_rate s' = rate ∨ (module_rate s' = module_rate s ∧ r ≠ Ok ()));
  host_moves s rate :
    let '(s', r) := ch_set_baud s rate in
    module_rate s' = module_rate s ∧ ch_baud s' = (if r is Ok _ then rate else ch_baud s);
}.

Section Module.
Context `{BaudModule C}.

(** The two ends can talk. *)
Definition aligned (s : C) : Prop := ch_baud s = module_rate s.

(** A module that answers whenever it hears, behind a host that can be moved. *)
Definition responsive : Prop :=
  (∀ s t, aligned s → (ch_send s (lit "AT+IPR?") t).2 = Ok ()) ∧ (∀ s rate, (ch_set_baud s rate).2 = Ok ()).

Lemma MoveHostTo_spec s rate :
  let '(s', moved) := MoveHostTo s rate in
  module_rate s' = module_rate s ∧ ch_baud s' = (if moved then rate else ch_baud s).
Proof.
  unfold MoveHostTo. destruct (ch_baud s =? rate) eqn:E; [split; [done|lia]|].
  pose proof (host_moves s rate) as Hm. by destruct (ch_set_baud s rate) as [s' [[]|e]].
Qed.

Lemma QueryLines_spec s cmd t : is_query cmd →
  let '(s', r) := QueryLines s cmd t in
  ch_baud s' = ch_baud s ∧ module_rate s' = module_rate s ∧
  (∀ ls, r = Ok ls → aligned s ∧ ch_send s cmd t = (s', Ok ()) ∧ ls = ch_lines s').
Proof.
  intros Hq. unfold QueryLines, send_lines, aligned. pose proof (query_keeps s cmd t Hq) as Hk.
  destruct (ch_send s cmd t) as [s' [[]|e]]; destruct Hk as (E1 & E2 & E3); split_and!; try done.
  intros ls [= <-]. by rewrite E3.
Qed.

(** Where the scan stops: on an answer, at the module's own rate; or at the end. *)
Lemma probe_loop_spec candidates tried s :
  let '(s', found, _) := probe_loop candidates tried s in
  module_rate s' = module_rate s ∧
  (∀ rate, found = Some rate → rate = ch_baud s' ∧ aligned s') ∧
  (responsive → module_rate s ∈ candidates → 0 < module_rate s → module_rate s ∉ tried → found ≠ None).
Proof.
  revert tried s. induction candidates as [|rate cs IH]; intros tried s; cbn [probe_loop].
  { split_and!; [done|done|]. intros _ Hin. by apply not_elem_of_nil in Hin. }
  destruct (rate <=? 0) eqn:E0.
  { specialize (IH tried s). destruct (probe_loop cs tried s) as [[s' f] tr]. destruct IH as (I1 & I2 & I3).
    split_and!; [done|done|]. intros Hr Hin Hp. apply elem_of_cons in Hin as [Hin|Hin]; [lia|by apply I3]. }
  destruct (bool_decide (rate ∈ tried)) eqn:E1.
  { apply bool_decide_eq_true in E1.
    specialize (IH tried s). destruct (probe_loop cs tried s) as [[s' f] tr]. destruct IH as (I1 & I2 & I3).
    split_and!; [done|done|]. intros Hr Hin Hp Ht. apply elem_of_cons in Hin as [Hin|Hin]; [by subst|by apply I3]. }
  pose proof (MoveHostTo_spec s rate) as Hm. destruct (MoveHostTo s rate) as [s1 [|]] eqn:Em; cbn [negb].
  - pose proof (QueryLines_spec s1 (lit "AT+IPR?") kQueryTimeout ltac:(by left)) as Hq.
    destruct (QueryLines s1 (lit "AT+IPR?") kQueryTimeout) as [s2 [ls|e]] eqn:Eq.
    + destruct Hm as [Hm1 Hm2], Hq as (Q1 & Q2 & Q3). destruct (Q3 ls eq_refl) as (Hal & Hsend & ->).
      unfold aligned in *. split_and!; [congruence| |done]. intros r [= <-]. split; [|congruence].
      destruct (FindIprLine _) as [l|] eqn:El; [|simpl; congruence].
      destruct (ParseRate l) as [p|] eqn:Ep; [|simpl; congruence].
      destruct (p >? 0) eqn:E; [|simpl; congruence].
      rewrite (report_true _ _ _ _ p Hsend El Ep) by lia. simpl. congruence.
    + destruct Hm as [Hm1 Hm2], Hq as (Q1 & Q2 & _). specialize (IH (tried ++ [rate]) s2).
      destruct (probe_loop cs _ s2) as [[s' f] tr]. destruct IH as (I1 & I2 & I3).
      split_and!; [congruence|done|]. intros Hr Hin Hp Ht. rewrite Q2, Hm1 in I3.
      destruct (decide (module_rate s = rate)) as [He|Hne].
      { exfalso. destruct Hr as [Hr _]. unfold QueryLines, send_lines in Eq.
        specialize (Hr s1 kQueryTimeout). rewrite <- He in Hm2. unfold aligned in Hr. rewrite Hm1 in Hr.
        specialize (Hr Hm2). destruct (ch_send s1 _ _) as [s3 [|]]; simpl in Hr; [discriminate Eq|discriminate Hr]. }
      apply I3; [done| |done|set_solver]. apply elem_of_cons in Hin as [?|?]; done.
  - destruct Hm as [Hm1 Hm2]. specialize (IH (tried ++ [rate]) s1).
    destruct (probe_loop cs _ s1) as [[s' f] tr]. destruct IH as (I1 & I2 & I3).
    split_and!; [congruence|done|]. intros Hr Hin Hp Ht. exfalso. unfold MoveHostTo in Em.
    destruct (ch_baud s =? rate); [done|]. destruct Hr as [_ Hr]. specialize (Hr s rate).
    by destruct (ch_set_baud s rate) as [s3 [|]].
Qed.

(** The scan only asks. If it reports a rate, the module is on that rate and
    the host with it; if it reports none, the module is untouched and the host is
    put back where it was, wherever it can be; and it finds every module that
    answers at one of the candidates. *)
Theorem FindModuleBaudRate_spec (s : C) candidates :
  let '(s', r) := FindModuleBaudRate s candidates in
  module_rate s' = module_rate s ∧
  (∀ rate, r = Ok rate → ch_baud s' = rate ∧ module_rate s = rate) ∧
  (∀ e, r = Err e → responsive → ch_baud s' = ch_baud s) ∧
  (responsive → 0 < ch_baud s → 0 < module_rate s → module_rate s ∈ candidates → r = Ok (module_rate s)).
Proof.
  unfold FindModuleBaudRate. destruct (ch_baud s <=? 0) eqn:E; [split_and!; try done; intros; lia|].
  pose proof (probe_loop_spec candidates [] s) as Hp.
  destruct (probe_loop candidates [] s) as [[s' [rate|]] tried]; destruct Hp as (P1 & P2 & P3); unfold aligned in *.
  - destruct (P2 rate eq_refl) as [-> Ha]. split_and!; try done; [intros r [= <-]; split; congruence|].
    intros. f_equal. congruence.
  - pose proof (host_moves s' (ch_baud s)) as Hm. destruct (ch_set_baud s' (ch_baud s)) as [s2 r2] eqn:E2.
    destruct Hm as [M1 M2]. cbn [fst]. split_and!; [congruence|done| |].
    + intros e _ [_ Hr]. specialize (Hr s' (ch_baud s)). rewrite E2 in Hr. simpl in Hr. by subst r2.
    + intros Hr Hb Hm Hin. exfalso. apply P3; try done. by apply not_elem_of_nil.
Qed.

(** The confirmation only asks too, and ends well on an answer. *)
Lemma confirm_loop_spec k desired t :
  let '(t', ok) := confirm_loop k desired t in
  ch_baud t' = ch_baud t ∧ module_rate t' = module_rate t ∧ (ok = true → aligned t).
Proof.
  revert t. induction k as [|k IH]; intros t; cbn [confirm_loop]; [done|].
  pose proof (QueryLines_spec t (lit "AT+IPR?") kQueryTimeout ltac:(by left)) as Hq.
  destruct (QueryLines t _ _) as [t1 [ls|e]]; destruct Hq as (Q1 & Q2 & Q3).
  - destruct (Q3 ls eq_refl) as (Hal & _). specialize (IH t1).
    destruct (FindIprLine ls) as [now|]; [case_decide; [done|]|];
      destruct (confirm_loop k desired t1); destruct IH as (? & ? & ?); split_and!; congruence.
  - specialize (IH t1). destruct (confirm_loop k desired t1); destruct IH as (? & ? & I); split_and!; try congruence.
    intros ?. unfold aligned in *. rewrite <- Q1, <- Q2. by apply I.
Qed.

(** C36: A rate [SetModuleBaudRate] returns is one the module answers at, and the
    host is on it - unless in this very run the module took the write of the new
    rate and its answer was lost, the one case the code documents: that write is
    then the last thing sent, the old rate is returned, with the host on it, and
    the module is on the new one. *)
Theorem SetModuleBaudRate_aligned (s s' : C) desired rate : aligned s →
  SetModuleBaudRate s desired = (s', Ok rate) →
  ch_baud s' = rate ∧
  (module_rate s' = rate ∨ (rate = ch_baud s ∧ module_rate s' = desired ∧
     let asked := (QueryLines s (lit "AT+IPR=?") kQueryTimeout).1 in
     ∃ e, ch_send asked (set_rate_command desired) kSetTimeout = (s', Err e))).
Proof.
  unfold SetModuleBaudRate, aligned. intros Ha. destruct (_ || _); [done|].
  destruct (ch_baud s =? desired) eqn:E; [intros [= <- <-]; by split; [|left]|].
  pose proof (QueryLines_spec s (lit "AT+IPR=?") kQueryTimeout ltac:(by right)) as Hq.
  destruct (QueryLines s _ _) as [s1 [ls|e]]; destruct Hq as (Q1 & Q2 & _); cbn [fst];
    [|intros [= <- <-]; split; [done|left; congruence]].
  destruct (FindIprLine ls) as [ipr|]; [|intros [= <- <-]; split; [done|left; congruence]].
  destruct (ListsRate ipr desired); cbn [negb]; [|intros [= <- <-]; split; [done|left; congruence]].
  pose proof (rate_set s1 desired kSetTimeout) as Hs.
  destruct (ch_send s1 (set_rate_command desired) kSetTimeout) as [s2 [[]|e]] eqn:Es; destruct Hs as (S1 & S2).
  2: { intros [= <- <-]. split; [congruence|]. destruct S2 as [S2|[S2 _]]; [|left; congruence].
       right. split_and!; [done|done|]. by exists e. }
  pose proof (host_moves s2 desired) as Hh. destruct (ch_set_baud s2 desired) as [s3 [[]|e]]; [|done].
  destruct Hh as [H1 H2].
  pose proof (confirm_loop_spec kConfirmAttempts desired s3) as Hconf.
  destruct (confirm_loop _ desired s3) as [s4 [|]];
    destruct Hconf as (C1 & C2 & C3).
  { intros [= <- <-]. unfold aligned in C3. specialize (C3 eq_refl). split; [|left]; congruence. }
  unfold search_again. destruct (ch_send s4 _ _) as [s5 r5].
  pose proof (FindModuleBaudRate_spec s5 (BaudRateCandidates (ch_baud s5))) as Hf.
  destruct (FindModuleBaudRate s5 _) as [s6 [landed|e]]; [|done]. destruct Hf as (F1 & F2 & _).
  destruct (F2 landed eq_refl) as [F3 F4]. pose proof (MoveHostTo_spec s6 landed) as Hm.
  destruct (MoveHostTo s6 landed) as [s7 [|]]; [|done]. destruct Hm as [M1 M2].
  intros [= <- <-]. split; [done|left; congruence].
Qed.
End Module.

(** * A module to try it on *)

(** [deaf] is how many more commands it misses; it misses [deaf_after] after a switch. *)
Record bench := MkBench { bn_host : Z; bn_module : Z; bn_deaf : nat; bn_deaf_after : nat; bn_lines : list bytes }.

Definition bench_silence : AtResult := Err (MkAtError kAtErrTimeout []).

Definition bench_answer (b : bench) (ls : list bytes) : bench * AtResult :=
  (MkBench (bn_host b) (bn_module b) 0 (bn_deaf_after b) ls, Ok ()).

Definition bench_send (b : bench) (cmd : bytes) : bench * AtResult :=
  if negb (bn_host b =? bn_module b) then (b, bench_silence)
  else match bn_deaf b with
  | S k => (MkBench (bn_host b) (bn_module b) k (bn_deaf_after b) (bn_lines b), bench_silence)
  | O =>
      if decide (cmd = lit "AT+IPR?") then
        bench_answer b (if decide (0 < bn_module b <= INT_MAX) then [lit "+IPR: " ++ to_string (bn_module b)] else [])
      else if decide (cmd = lit "AT+IPR=?") then
        bench_answer b [lit "+IPR: (9600,115200),(0,9600,57600,115200,230400,460800,921600)"]
      else if starts_with (lit "AT+IPR=") cmd then
        match ParseInt (drop 7 cmd) with
        | Some rate => (MkBench (bn_host b) rate (bn_deaf_after b) (bn_deaf_after b) (bn_lines b), Ok ())
        | None => (b, Err (MkAtError kCommandError []))
        end
      else (b, Err (MkAtError kCommandError []))
  end.

#[export] Instance bench_channel : IAtChannel bench := {|
  ch_send b cmd _ := bench_send b cmd;
  ch_lines b := bn_lines b;
  ch_baud b := bn_host b;
  ch_set_baud b rate := (MkBench rate (bn_module b) (bn_deaf b) (bn_deaf_after b) (bn_lines b), Ok ());
|}.

Lemma from_chars_to_string_inv n v : from_chars_int (to_string n) = Some v → v = n.
Proof.
  assert (∀ neg s d, s ≠ [] → forallb isdigit s = true → digits_value 10 (digit_val <$> s) = d →
    int_of_digits neg s = Some v → v = if neg then - d else d) as Hd.
  { intros neg [|c s] d Hne Hf Hv; unfold int_of_digits; [done|]. rewrite Hf, Hv.
    destruct neg, (in_range _ _ _); by intros [= <-]. }
  destruct (Z.lt_ge_cases n 0) as [Hn|Hn].
  - rewrite to_string_neg by done. simpl. intros H.
    destruct (to_string_nonneg (- n)) as (H1 & H2 & H3); [lia|]. pose proof (Hd true _ _ H1 H2 H3 H). simpl in *. lia.
  - destruct (to_string_nonneg n) as (H1 & H2 & H3); [lia|]. destruct (to_string n) as [|c s] eqn:E; [done|].
    unfold from_chars_int. rewrite decide_False; [apply (Hd false); done|].
    apply digit_not_minus. simpl in H2. by apply andb_true_iff in H2 as [? _].
Qed.

Lemma ParseRate_report n : 0 < n → ParseRate (lit "+IPR: " ++ to_string n) = from_chars_int (to_string n).
Proof.
  intros Hn. destruct (to_string_nonneg n ltac:(lia)) as (Hne & Hd & _). unfold ParseRate, StripKeyPrefix, ParseInt.
  change (lit "+IPR: " ++ to_string n) with (lit "+IPR" ++ ":"%char :: (" "%char :: to_string n)).
  rewrite find_byte_app by decide_now. rewrite drop_app_S. change (" "%char :: to_string n) with (lit " " ++ to_string n).
  assert (∀ c, isdigit c = true → isblank c = false) as Hb by (intros c; byte_cases c).
  rewrite forallb_forall in Hd. rewrite trim_by_app_l by (repeat constructor). rewrite trim_by_none.
  - by rewrite decide_False.
  - intros c Hc. apply Hb, Hd. destruct (to_string n); [done|]. simpl in Hc. injection Hc as ->. by left.
  - intros c Hc. apply Hb, Hd, list_elem_of_In. by apply last_Some_elem_of.
Qed.

Lemma bench_query_keeps b cmd : is_query cmd →
  let '(b', r) := bench_send b cmd in
  bn_host b' = bn_host b ∧ bn_module b' = bn_module b ∧ (r = Ok () → bn_module b = bn_host b).
Proof.
  intros Hq. unfold bench_send. destruct (bn_host b =? bn_module b) eqn:E; cbn [negb]; [|done].
  apply Z.eqb_eq in E. destruct (bn_deaf b); [|done]. case_decide; [done|]. case_decide; [done|].
  by destruct Hq.
Qed.

Lemma bench_report_true b b' line rate : bench_send b (lit "AT+IPR?") = (b', Ok ()) →
  FindIprLine (bn_lines b') = Some line → ParseRate line = Some rate → 0 < rate → rate = bn_module b.
Proof.
  unfold bench_send. destruct (negb _); [done|]. destruct (bn_deaf b); [|done].
  rewrite decide_True by done. case_decide as Hr; intros [= <-]; [|done]. cbn [bn_lines].
  intros Hf. assert (Some (lit "+IPR: " ++ to_string (bn_module b)) = Some line) as Hl by exact Hf. revert Hl.
  intros Hl. apply (inj Some) in Hl as <-. rewrite ParseRate_report by lia. by intros H%from_chars_to_string_inv _.
Qed.

Lemma bench_rate_set b rate :
  let '(b', r) := bench_send b (set_rate_command rate) in
  bn_host b' = bn_host b ∧ (bn_module b' = rate ∨ (bn_module b' = bn_module b ∧ r ≠ Ok ())).
Proof.
  unfold bench_send. destruct (negb _); [split; [done|by right]|]. destruct (bn_deaf b); [|split; [done|by right]].
  assert (to_string rate ≠ [] ∧ to_string rate ≠ lit "?") as [Hne Hq].
  { destruct (Z.lt_ge_cases rate 0); [by rewrite to_string_neg|].
    destruct (to_string_nonneg rate) as (H1 & H2 & _); [done|]. split; [done|]. intros E. by rewrite E in H2. }
  rewrite decide_False by (intros E; discriminate E).
  rewrite decide_False by (intros E; apply Hq; by injection E).
  unfold set_rate_command. rewrite starts_with_app.
  change (drop 7 (lit "AT+IPR=" ++ to_string rate)) with (to_string rate).
  unfold ParseInt. rewrite decide_False by done.
  destruct (from_chars_int (to_string rate)) as [v|] eqn:E; [|split; [done|by right]].
  apply from_chars_to_string_inv in E as ->. split; [done|by left].
Qed.

#[export] Instance bench_module : BaudModule bench := {|
  module_rate := bn_module;
  query_keeps b cmd _ := bench_query_keeps b cmd;
  report_true b _ := bench_report_true b;
  rate_set b rate _ := bench_rate_set b rate;
  host_moves b rate := conj eq_refl eq_refl;
|}.

Lemma FindModuleBaudRate_spec_witness :
  (FindModuleBaudRate (MkBench 115200 921600 0 0 []) (BaudRateCandidates 115200)).2 = Ok 921600.
Proof.
  pose proof (FindModuleBaudRate_spec (MkBench 115200 921600 0 0 []) (BaudRateCandidates 115200)) as H.
  destruct (FindModuleBaudRate _ _) as [b r] eqn:E. destruct H as (_ & H & _).
  vm_compute in E. injection E as <- <-. destruct (H 921600 eq_refl) as [_ <-]. reflexivity.
Defined.

Lemma SetModuleBaudRate_aligned_witness :
  let s := MkBench 115200 115200 0 2 [] in
  (SetModuleBaudRate s 921600).2 = Ok 921600 ∧ bn_host (SetModuleBaudRate s 921600).1 = 921600.
Proof.
  pose proof (SetModuleBaudRate_aligned (MkBench 115200 115200 0 2 [])
    (SetModuleBaudRate (MkBench 115200 115200 0 2 []) 921600).1 921600 921600 eq_refl) as H.
  split; [vm_compute; reflexivity|]. apply H. vm_compute. reflexivity.
Defined.

(** An unconfirmed change asks the module back to the old rate and then searches
    for it, but the old rate is not among the rates searched unless it is one of
    the two the library knows: a module that obeys is not found, and the host is
    left on a rate the module is not on. *)
Lemma unconfirmed_change_loses_module :
  let s := MkBench 57600 57600 0 4 [] in
  let '(s', r) := SetModuleBaudRate s 460800 in
  (∃ e, r = Err e) ∧ bn_module s' = 57600 ∧ bn_host s' = 460800.
Proof. vm_compute. split; [by eexists|done]. Qed.
