(* ===== verification/HalRoutes.v ===== *)
(** Socket event routing, the part of [IModuleHal] every module shares
    (src/src/hal/imodule_hal.h): subscriptions by handle, dispatch by cid, and the
    hold for what arrives before its client has subscribed.

    A callback is client code that may do anything, including calling back in:
    it is a function on the whole [world], the routing tables and whatever else
    there is. A closure is named by a [K]; the module's own [TcpClose] is the
    parameter [tcp_close]. [SubscribeTcp] hands over what was held after it has let
    go of the lock: what the receive task dispatches at each point of that is its
    parameter [meanwhile]. The maps are [unordered_map]s: where the code visits
    one, the model visits [map_to_list]. *)
From stdpp Require Import base decidable list strings gmap.
From Stdlib Require Import ZArith Ascii Lia.
From S2P Require Import Prelude.

(** * State *)

Record TcpRoute {K : Type} := MkTcpRoute {
  tr_connect_id : Z;
  tr_on_data : option K;
  tr_on_close : option K;
}.
Arguments TcpRoute : clear implicits.
Arguments MkTcpRoute {K}.

Record UdpRoute {K : Type} := MkUdpRoute { ur_connect_id : Z; ur_on_data : option K }.
Arguments UdpRoute : clear implicits.
Arguments MkUdpRoute {K}.

(** What arrived for a cid nobody had a route for yet. *)
Record Undelivered := MkUndelivered { un_data : bytes; un_truncated : bool; un_closed : bool }.
Definition nothing_held : Undelivered := MkUndelivered [] false false.

Record IModuleHal {K : Type} := MkHal {
  next_subscription : Z;
  tcp_routes : gmap Z (TcpRoute K);
  udp_routes : gmap Z (UdpRoute K);
  undelivered : gmap Z Undelivered;
}.
Arguments IModuleHal : clear implicits.
Arguments MkHal {K}.

Definition new_hal {K} : IModuleHal K := MkHal 1 ∅ ∅ ∅.

Definition kMaxUndeliveredBytes : nat := Z.to_nat (4 * 1024).

(** * The critical sections *)

Section Tables.
Context {K : Type}.
Implicit Types h : IModuleHal K.

Definition HoldLocked h (connect_id : Z) (data : bytes) : IModuleHal K :=
  let held := default nothing_held (undelivered h !! connect_id) in
  let room := if (length (un_data held) <? kMaxUndeliveredBytes)%nat
              then (kMaxUndeliveredBytes - length (un_data held))%nat else 0%nat in
  let take_ := Nat.min room (length data) in
  let held := MkUndelivered (un_data held ++ take take_ data)
                (if (take_ <? length data)%nat then true else un_truncated held) (un_closed held) in
  MkHal (next_subscription h) (tcp_routes h) (udp_routes h) (<[connect_id := held]> (undelivered h)).

(** The routes of one cid, in the order the map gives them. *)
Definition routes_of h (connect_id : Z) : list (Z * TcpRoute K) :=
  filter (λ r, tr_connect_id r.2 = connect_id) (map_to_list (tcp_routes h)).

Definition FindTcpRouteLocked h (connect_id : Z) : option (TcpRoute K) :=
  snd <$> head (routes_of h connect_id).

Definition FindUdpRouteLocked h (connect_id : Z) : option (UdpRoute K) :=
  snd <$> head (filter (λ r, ur_connect_id r.2 = connect_id) (map_to_list (udp_routes h))).

Definition DiscardUndelivered h (connect_id : Z) : IModuleHal K :=
  MkHal (next_subscription h) (tcp_routes h) (udp_routes h) (delete connect_id (undelivered h)).

(** The locked part of [SubscribeTcp]: the handle, and what was held. *)
Definition register_tcp h (connect_id : Z) (on_data on_close : option K)
  : IModuleHal K * Z * Undelivered :=
  let handle := next_subscription h in
  let held := default nothing_held (undelivered h !! connect_id) in
  (MkHal (u64 (handle + 1)) (<[handle := MkTcpRoute connect_id on_data on_close]> (tcp_routes h))
     (udp_routes h) (delete connect_id (undelivered h)), handle, held).

Definition SubscribeUdp h (connect_id : Z) (on_data : option K) : IModuleHal K * Z :=
  let handle := next_subscription h in
  (MkHal (u64 (handle + 1)) (tcp_routes h) (<[handle := MkUdpRoute connect_id on_data]> (udp_routes h))
     (undelivered h), handle).

Definition Unsubscribe h (handle : Z) : IModuleHal K :=
  if handle =? 0 then h else
  MkHal (next_subscription h) (delete handle (tcp_routes h)) (delete handle (udp_routes h)) (undelivered h).

(** The locked part of [DispatchTcpClose]: the handlers to call. *)
Definition end_routes h (connect_id : Z) : IModuleHal K * list K :=
  let routed := routes_of h connect_id in
  let handlers := omap (λ r, tr_on_close r.2) routed in
  let held := match routed with
              | _ :: _ => delete connect_id (undelivered h)
              | [] =>
                  let u := default nothing_held (undelivered h !! connect_id) in
                  <[connect_id := MkUndelivered (un_data u) (un_truncated u) true]> (undelivered h)
              end in
  (MkHal (next_subscription h) (filter (λ r, tr_connect_id r.2 ≠ connect_id) (tcp_routes h))
     (udp_routes h) held, handlers).
End Tables.

(** * The operations, callbacks included *)

(** Where [SubscribeTcp] stands without the lock while it hands over what was held,
    so that the receive task may dispatch: the held data taken and the route in
    place; the handler for the data copied, not yet called; the data handed over. *)
Inductive handover := HeldTaken | HandlerFound | DataHanded.


Section Dispatch.
Context {K C : Type}.
Local Abbreviation world := (IModuleHal K * C)%type.
Context (call_data : K → Z → bytes → world → world).
Context (call_close : K → Z → world → world).
Context (call_udp : K → Z → bytes → Z → bytes → world → world).
Context (tcp_close : Z → world → world).

Definition DispatchTcpData (connect_id : Z) (data : bytes) (w : world) : world :=
  match FindTcpRouteLocked w.1 connect_id with
  | Some route => match tr_on_data route with
                  | Some handler => call_data handler connect_id data w
                  | None => w
                  end
  | None => (HoldLocked w.1 connect_id data, w.2)
  end.

Definition DispatchTcpClose (connect_id : Z) (w : world) : world :=
  let '(h, handlers) := end_routes w.1 connect_id in
  fold_left (λ w handler, call_close handler connect_id w) handlers (h, w.2).

Definition DispatchUdpData (connect_id : Z) (host : bytes) (port : Z) (data : bytes) (w : world) : world :=
  match FindUdpRouteLocked w.1 connect_id with
  | Some route => match ur_on_data route with
                  | Some handler => call_udp handler connect_id host port data w
                  | None => w
                  end
  | None => w
  end.

(** What the receive task dispatches meanwhile. *)
Context (meanwhile : handover → world → world).

(** [DispatchTcpData] as [SubscribeTcp] calls it, beside the receive task. *)
Definition DispatchHeld (connect_id : Z) (data : bytes) (w : world) : world :=
  match FindTcpRouteLocked w.1 connect_id with
  | Some route =>
      let w := meanwhile HandlerFound w in
      match tr_on_data route with
      | Some handler => call_data handler connect_id data w
      | None => w
      end
  | None => (HoldLocked w.1 connect_id data, w.2)
  end.

Definition SubscribeTcp (connect_id : Z) (on_data on_close : option K) (w : world) : world * Z :=
  let '(h, handle, held) := register_tcp w.1 connect_id on_data on_close in
  let w := meanwhile HeldTaken (h, w.2) in
  let w := if decide (un_data held = []) then w else DispatchHeld connect_id (un_data held) w in
  let w := meanwhile DataHanded w in
  let w := if un_closed held then DispatchTcpClose connect_id w
           else if un_truncated held then DispatchTcpClose connect_id (tcp_close connect_id w)
           else w in
  (w, handle).
End Dispatch.

(** Nothing is dispatched meanwhile. *)
Definition undisturbed {world : Type} (_ : handover) (w : world) : world := w.

Lemma DispatchHeld_undisturbed {K C} (call_data : K → Z → bytes → IModuleHal K * C → IModuleHal K * C) cid d w :
  DispatchHeld call_data undisturbed cid d w = DispatchTcpData call_data cid d w.
Proof. done. Qed.
