(* ===== verification/HalStreams.v ===== *)
(** What a client hears of its socket around its subscription: what was held as one
    piece, what the receive task dispatches while that is handed over ahead of it,
    and the end; or a prefix and a socket ended on purpose. *)
From stdpp Require Import base decidable list strings gmap.
From Stdlib Require Import ZArith Ascii Lia.
From S2P Require Import Prelude HalRoutes.

(** * Specification vocabulary *)

(** Clients that only take note of what they are told. *)
Inductive notice := NData (client : nat) (connect_id : Z) (data : bytes) | NClose (client : nat) (connect_id : Z)
  | NTcpClose (connect_id : Z).

Definition recording := (IModuleHal nat * list notice)%type.
Definition note (n : notice) (w : recording) : recording := (w.1, w.2 ++ [n]).
Definition on_data_noted (k : nat) (cid : Z) (d : bytes) : recording → recording := note (NData k cid d).
Definition on_close_noted (k : nat) (cid : Z) : recording → recording := note (NClose k cid).
Definition tcp_close_noted (cid : Z) : recording → recording := note (NTcpClose cid).

(** Payloads a module reports for a socket, in order. *)
Definition payloads (cid : Z) (ds : list bytes) (w : recording) : recording :=
  fold_left (λ w d, DispatchTcpData on_data_noted cid d w) ds w.
Definition socket_ends (cid : Z) (w : recording) : recording := DispatchTcpClose on_close_noted cid w.
Definition subscribe (meanwhile : handover → recording → recording) (cid : Z) (k : nat) (w : recording) : recording :=
  (SubscribeTcp on_data_noted on_close_noted tcp_close_noted meanwhile cid (Some k) (Some k) w).1.

(** The payloads the receive task dispatches while what was held is handed over. *)
Definition arriving (cid : Z) (during : handover → list bytes) (m : handover) : recording → recording :=
  payloads cid (during m).

(** The same, and at one point the end of the socket; after it the module reports
    nothing more. *)
Definition moment_le (m n : handover) : bool :=
  match m, n with
  | HeldTaken, _ | HandlerFound, HandlerFound | HandlerFound, DataHanded | DataHanded, DataHanded => true
  | _, _ => false
  end.
#[export] Instance handover_eq_dec : EqDecision handover.
Proof. solve_decision. Defined.
Definition arriving_until (last : handover) (cid : Z) (during : handover → list bytes) (m : handover)
  (w : recording) : recording :=
  if negb (moment_le m last) then w else
  let w := payloads cid (during m) w in
  if decide (m = last) then socket_ends cid w else w.

(** A cid just handed out: nothing held for it and no route to it. *)
Record fresh (h : IModuleHal nat) (cid : Z) : Prop := {
  fr_held : undelivered h !! cid = None;
  fr_routes : ∀ i r, tcp_routes h !! i = Some r → tr_connect_id r ≠ cid;
}.

(** What a client hears of the hand-over of [d]. *)
Definition handed (k : nat) (cid : Z) (during : handover → list bytes) (d : bytes) : list notice :=
  (NData k cid <$> during HeldTaken) ++
  (if decide (d = []) then [] else (NData k cid <$> during HandlerFound) ++ [NData k cid d]) ++
  (NData k cid <$> during DataHanded).

(** * Lemmas: finding routes *)

Lemma list_singleton_nodup {A} (x : A) (l : list A) : NoDup l → x ∈ l → (∀ y, y ∈ l → y = x) → l = [x].
Proof.
  intros Hn Hx Hall. destruct l as [|y l]; [by apply not_elem_of_nil in Hx|].
  assert (y = x) as -> by (apply Hall; set_solver). f_equal. destruct l as [|z l]; [done|].
  assert (z = x) as -> by (apply Hall; set_solver). apply NoDup_cons in Hn as [Hn _]. set_solver.
Qed.

Lemma routes_of_spec {K} (h : IModuleHal K) cid i r :
  (i, r) ∈ routes_of h cid ↔ tcp_routes h !! i = Some r ∧ tr_connect_id r = cid.
Proof. unfold routes_of. rewrite list_elem_of_filter, elem_of_map_to_list. simpl. tauto. Qed.

Lemma routes_of_none {K} (h : IModuleHal K) cid :
  (∀ i r, tcp_routes h !! i = Some r → tr_connect_id r ≠ cid) → routes_of h cid = [].
Proof.
  intros H. destruct (routes_of h cid) as [|[i r] l] eqn:E; [done|].
  assert ((i, r) ∈ routes_of h cid) as Hin by (rewrite E; set_solver).
  apply routes_of_spec in Hin as [Hi Hr]. by apply H in Hi.
Qed.

Lemma routes_of_one {K} (h : IModuleHal K) cid i r : tcp_routes h !! i = Some r → tr_connect_id r = cid →
  (∀ j s, tcp_routes h !! j = Some s → tr_connect_id s = cid → j = i) → routes_of h cid = [(i, r)].
Proof.
  intros Hi Hc Hu. apply list_singleton_nodup.
  - unfold routes_of. apply NoDup_filter, NoDup_map_to_list.
  - by apply routes_of_spec.
  - intros [j s] [Hj Hs]%routes_of_spec. assert (j = i) as -> by (by eapply Hu). congruence.
Qed.

(** * Lemmas: the hold *)

Lemma take_take_app {A} n (a b : list A) : take n (take n a ++ b) = take n (a ++ b).
Proof.
  rewrite !take_app, take_take, Nat.min_id, length_take. f_equal.
  destruct (Nat.le_ge_cases (length a) n); [by rewrite Nat.min_r|].
  by rewrite Nat.min_l, Nat.sub_diag, (proj2 (Nat.sub_0_le n _)).
Qed.

(** What a hold comes to after more payloads. *)
Definition held_after (u : Undelivered) (ds : list bytes) : Undelivered :=
  let d := un_data u ++ concat ds in
  MkUndelivered (take kMaxUndeliveredBytes d)
    (un_truncated u || (kMaxUndeliveredBytes <? length d)%nat) (un_closed u).

Lemma payloads_held ds cid w : (∀ i r, tcp_routes w.1 !! i = Some r → tr_connect_id r ≠ cid) →
  (length (un_data (default nothing_held (undelivered w.1 !! cid))) <= kMaxUndeliveredBytes)%nat →
  ds ≠ [] →
  payloads cid ds w =
  (MkHal (next_subscription w.1) (tcp_routes w.1) (udp_routes w.1)
     (<[cid := held_after (default nothing_held (undelivered w.1 !! cid)) ds]> (undelivered w.1)), w.2).
Proof.
  intros Hr Hlen Hne. destruct w as [h l]. cbn [fst snd] in *. revert h Hr Hlen Hne.
  induction ds as [|d ds IH]; intros h Hr Hlen Hne; [done|]. unfold payloads in *. cbn [fold_left].
  assert (DispatchTcpData on_data_noted cid d (h, l) = (HoldLocked h cid d, l)) as ->.
  { unfold DispatchTcpData, FindTcpRouteLocked. cbn [fst]. by rewrite routes_of_none. }
  set (u := default nothing_held (undelivered h !! cid)) in *.
  assert (HoldLocked h cid d = MkHal (next_subscription h) (tcp_routes h) (udp_routes h)
            (<[cid := held_after u [d]]> (undelivered h))) as ->.
  { unfold HoldLocked, held_after. fold u. cbv zeta. cbn [concat]. rewrite app_nil_r.
    revert Hlen. generalize kMaxUndeliveredBytes. intros cap Hlen. do 2 f_equal.
    assert ((if (length (un_data u) <? cap)%nat then (cap - length (un_data u))%nat else 0%nat)
            = (cap - length (un_data u))%nat) as ->.
    { destruct (_ <? _)%nat eqn:E; [done|]. apply Nat.ltb_ge in E. lia. }
    rewrite take_app, (take_ge (un_data u)), length_app by done. f_equal.
    - f_equal. destruct (Nat.le_ge_cases (cap - length (un_data u)) (length d)).
      + by rewrite Nat.min_l by done.
      + rewrite Nat.min_r by done. by rewrite !take_ge by lia.
    - destruct (Nat.min _ _ <? length d)%nat eqn:E1, (cap <? length (un_data u) + length d)%nat eqn:E2;
        rewrite ?orb_true_r, ?orb_false_r; try done; exfalso;
        rewrite ?Nat.ltb_lt, ?Nat.ltb_ge in *; lia. }
  destruct ds as [|d' ds]; [done|]. rewrite IH; [|done| |done].
  - cbn [next_subscription tcp_routes udp_routes undelivered]. rewrite lookup_insert_eq, insert_insert_eq.
    do 3 f_equal. cbn [default]. unfold held_after. cbn [un_data un_truncated un_closed concat].
    rewrite app_nil_r. generalize kMaxUndeliveredBytes. intros cap. rewrite (app_assoc (un_data u) d).
    set (a := un_data u ++ d). set (b := d' ++ concat ds). f_equal; [apply take_take_app|].
    unfold id. cbn [un_data un_truncated]. rewrite !length_app, length_take.
    destruct (cap <? length a)%nat eqn:E1, (cap <? Nat.min cap (length a) + length b)%nat eqn:E2,
      (cap <? length a + length b)%nat eqn:E3; rewrite ?orb_true_r, ?orb_false_r; try done; exfalso;
      rewrite ?Nat.ltb_lt, ?Nat.ltb_ge in *; lia.
  - cbn [undelivered]. rewrite lookup_insert_eq. cbn [default]. unfold held_after, id. cbn [un_data].
    rewrite length_take. lia.
Qed.

(** * Lemmas: a subscribed socket *)

(** The tables while [k] is subscribed to [cid] under [handle], and nobody else. *)
Definition routed (h : IModuleHal nat) (cid handle : Z) (k : nat) : Prop :=
  tcp_routes h !! handle = Some (MkTcpRoute cid (Some k) (Some k)) ∧
  ∀ j s, tcp_routes h !! j = Some s → tr_connect_id s = cid → j = handle.

Lemma DispatchTcpData_routed cid handle k d w : routed w.1 cid handle k →
  DispatchTcpData on_data_noted cid d w = note (NData k cid d) w.
Proof.
  intros [H Hu]. unfold DispatchTcpData, FindTcpRouteLocked.
  by rewrite (routes_of_one w.1 cid handle _ H eq_refl Hu).
Qed.

Lemma payloads_routed ds cid handle k w : routed w.1 cid handle k →
  payloads cid ds w = (w.1, w.2 ++ (NData k cid <$> ds)).
Proof.
  unfold payloads. revert w; induction ds as [|d ds IH]; intros w H; cbn [fold_left].
  { destruct w. by rewrite app_nil_r. }
  rewrite (DispatchTcpData_routed _ _ _ _ _ H), IH by done. unfold note. cbn [fst snd].
  by rewrite <- app_assoc.
Qed.

Lemma socket_ends_routed cid handle k w : routed w.1 cid handle k →
  (socket_ends cid w).2 = w.2 ++ [NClose k cid] ∧ fresh (socket_ends cid w).1 cid.
Proof.
  intros [H Hu]. unfold socket_ends, DispatchTcpClose, end_routes.
  rewrite (routes_of_one w.1 cid handle _ H eq_refl Hu). cbn. split; [done|]. split; cbn.
  - apply lookup_delete_eq.
  - intros i r Hi Hr. by apply map_lookup_filter_Some in Hi as [_ Hi].
Qed.

Lemma register_routed h cid k : fresh h cid ∨ (∀ i r, tcp_routes h !! i = Some r → tr_connect_id r ≠ cid) →
  routed (register_tcp h cid (Some k) (Some k)).1.1 cid (next_subscription h) k.
Proof.
  intros H. assert (∀ i r, tcp_routes h !! i = Some r → tr_connect_id r ≠ cid) as Hr.
  { destruct H as [H|H]; [apply H|done]. }
  unfold register_tcp, routed. cbn [fst tcp_routes]. rewrite lookup_insert_eq. split; [done|].
  intros j s. destruct (decide (j = next_subscription h)) as [|]; [done|].
  rewrite lookup_insert_ne by done. intros Hj Hs. by apply Hr in Hj.
Qed.

Lemma DispatchHeld_routed mw cid handle k d w : routed w.1 cid handle k →
  DispatchHeld on_data_noted mw cid d w = note (NData k cid d) (mw HandlerFound w).
Proof.
  intros [H Hu]. unfold DispatchHeld, FindTcpRouteLocked.
  by rewrite (routes_of_one w.1 cid handle _ H eq_refl Hu).
Qed.

Lemma DispatchHeld_unrouted mw cid d w : (∀ i r, tcp_routes w.1 !! i = Some r → tr_connect_id r ≠ cid) →
  DispatchHeld on_data_noted mw cid d w = payloads cid [d] w.
Proof.
  intros H. unfold payloads, DispatchHeld. cbn [fold_left]. unfold DispatchTcpData, FindTcpRouteLocked.
  by rewrite routes_of_none.
Qed.

(** What subscribing does, by what was held. *)
Lemma subscribe_held during w cid k : (∀ i r, tcp_routes w.1 !! i = Some r → tr_connect_id r ≠ cid) →
  let u := default nothing_held (undelivered w.1 !! cid) in
  let w1 := ((register_tcp w.1 cid (Some k) (Some k)).1.1, w.2 ++ handed k cid during (un_data u)) in
  routed w1.1 cid (next_subscription w.1) k ∧
  subscribe (arriving cid during) cid k w =
    if un_closed u then socket_ends cid w1
    else if un_truncated u then socket_ends cid (note (NTcpClose cid) w1) else w1.
Proof.
  intros Hr u w1. pose proof (register_routed w.1 cid k (or_intror Hr)) as Hreg. split; [done|].
  unfold subscribe, SubscribeTcp. revert Hreg. subst w1. unfold register_tcp. fold u. cbn [fst].
  set (r1 := MkHal _ _ _ _). set (handle := next_subscription w.1). intros Hreg. unfold arriving.
  rewrite (payloads_routed _ _ handle k (r1, w.2) Hreg). cbn [fst snd].
  set (l1 := w.2 ++ _). set (w2 := if decide (un_data u = []) then (r1, l1) else _).
  assert (w2 = (r1, l1 ++ (if decide (un_data u = []) then [] else (NData k cid <$> during HandlerFound) ++ [NData k cid (un_data u)]))) as ->.
  { subst w2. case_decide; [by rewrite app_nil_r|].
    rewrite (DispatchHeld_routed _ _ handle k _ (r1, l1) Hreg), (payloads_routed _ _ handle k (r1, l1) Hreg).
    unfold note. cbn [fst snd]. by rewrite app_assoc. }
  rewrite (payloads_routed _ _ handle k (r1, _) Hreg). cbn [fst snd]. subst l1. unfold handed.
  rewrite <- !app_assoc. by destruct (un_closed u), (un_truncated u).
Qed.

(** What came before anybody subscribed. *)
Lemma before_state h l cid ds : fresh h cid →
  let w := payloads cid ds (h, l) in
  tcp_routes w.1 = tcp_routes h ∧ w.2 = l ∧
  default nothing_held (undelivered w.1 !! cid) = held_after nothing_held ds.
Proof.
  intros [Hh Hr]. destruct ds as [|d ds].
  { cbn. by rewrite Hh. }
  cbv zeta. rewrite payloads_held; [|done|by cbn [fst]; rewrite Hh; cbn; lia|done].
  cbn [fst snd tcp_routes undelivered]. rewrite Hh, lookup_insert_eq. by split_and!.
Qed.

Lemma socket_ends_unrouted w cid : (∀ i r, tcp_routes w.1 !! i = Some r → tr_connect_id r ≠ cid) →
  let u := default nothing_held (undelivered w.1 !! cid) in
  (∀ i r, tcp_routes (socket_ends cid w).1 !! i = Some r → tr_connect_id r ≠ cid) ∧
  (socket_ends cid w).2 = w.2 ∧
  undelivered (socket_ends cid w).1 !! cid = Some (MkUndelivered (un_data u) (un_truncated u) true).
Proof.
  intros Hr. unfold socket_ends, DispatchTcpClose, end_routes. rewrite routes_of_none by done. cbn.
  split_and!; [|done|apply lookup_insert_eq]. intros i r Hi. by apply map_lookup_filter_Some in Hi as [_ Hi].
Qed.

(** A socket that ends while what was held is handed over. *)
Lemma subscribe_ended last during w cid k : (∀ i r, tcp_routes w.1 !! i = Some r → tr_connect_id r ≠ cid) →
  let u := default nothing_held (undelivered w.1 !! cid) in
  un_data u ≠ [] → un_closed u = false → un_truncated u = false →
  let w' := subscribe (arriving_until last cid during) cid k w in
  match last with
  | HeldTaken =>
      w'.2 = w.2 ++ (NData k cid <$> during HeldTaken) ++ [NClose k cid] ∧
      undelivered w'.1 !! cid = Some (held_after nothing_held [un_data u])
  | HandlerFound =>
      w'.2 = w.2 ++ (NData k cid <$> during HeldTaken) ++ (NData k cid <$> during HandlerFound) ++
             [NClose k cid; NData k cid (un_data u)]
  | DataHanded => w'.2 = w.2 ++ handed k cid during (un_data u) ++ [NClose k cid]
  end.
Proof.
  intros Hr u Hd Hc Ht. pose proof (register_routed w.1 cid k (or_intror Hr)) as Hreg.
  unfold subscribe, SubscribeTcp. revert Hreg. unfold register_tcp. fold u. cbn [fst]. rewrite Hc, Ht.
  set (r1 := MkHal _ _ _ _). set (handle := next_subscription w.1). intros Hreg.
  rewrite decide_False by done.
  destruct last; unfold arriving_until; cbn [moment_le negb fst].
  - rewrite decide_True, (payloads_routed _ _ handle k (r1, w.2) Hreg) by done. cbn [fst snd].
    destruct (socket_ends_routed cid handle k (r1, w.2 ++ (NData k cid <$> during HeldTaken)) Hreg) as [E Hf].
    destruct (socket_ends _ _) as [r2 l2]. cbn [fst snd] in E, Hf. subst l2.
    rewrite DispatchHeld_unrouted by apply Hf.
    rewrite payloads_held; [|apply Hf|cbn [fst]; rewrite (fr_held _ _ Hf); cbn; lia|done].
    cbn [fst snd undelivered]. by rewrite (fr_held _ _ Hf), <- app_assoc, lookup_insert_eq.
  - rewrite decide_False, (payloads_routed _ _ handle k (r1, w.2) Hreg) by done. cbn [fst snd].
    rewrite (DispatchHeld_routed _ _ handle k _ (r1, _) Hreg). cbn [moment_le negb]. rewrite decide_True by done.
    rewrite (payloads_routed _ _ handle k (r1, _) Hreg). cbn [fst snd].
    unfold note. cbn [fst snd]. rewrite (proj1 (socket_ends_routed cid handle k (r1, _) Hreg)). cbn [snd].
    by rewrite <- !app_assoc.
  - rewrite (decide_False (P := HeldTaken = DataHanded)), (payloads_routed _ _ handle k (r1, w.2) Hreg) by done. cbn [fst snd].
    rewrite (DispatchHeld_routed _ _ handle k _ (r1, _) Hreg). cbn [moment_le negb]. rewrite (decide_False (P := HandlerFound = DataHanded)) by done.
    rewrite (payloads_routed _ _ handle k (r1, _) Hreg). unfold note. cbn [fst snd]. rewrite decide_True by done.
    rewrite (payloads_routed _ _ handle k (r1, _) Hreg). cbn [fst snd].
    rewrite (proj1 (socket_ends_routed cid handle k (r1, _) Hreg)). cbn [snd].
    unfold handed. rewrite decide_False by done. by rewrite <- !app_assoc.
Qed.

(** * Property *)

#[local] Opaque kMaxUndeliveredBytes.

(** C28: What a socket's client hears around its subscription, when what came first
    fits the hold: those payloads as one piece, then the later ones as they come,
    then the end if the peer ended it, in order and nothing else, if the receive
    task dispatches nothing while the held piece is handed over. A payload that it
    does dispatch then is heard ahead of the held piece. An end dispatched then is
    heard ahead of the held piece, or the piece is not heard at all and stays held
    for the cid, by whether the piece's handler had been found. If what came first
    does not fit the hold, the client hears a prefix, the socket is closed on
    purpose and the client is told, and nothing after it is delivered. A peer that
    ended the socket before the client subscribed is reported after its bytes,
    without a command. *)
Theorem socket_stream_heard h l cid k before during after :
  fresh h cid →
  let first := concat before in
  let arrived := payloads cid before (h, l) in
  let subscribed := subscribe (arriving cid during) cid k arrived in
  ((length first <= kMaxUndeliveredBytes)%nat →
     (payloads cid after subscribed).2 = l ++ handed k cid during first ++ (NData k cid <$> after) ∧
     (socket_ends cid (payloads cid after subscribed)).2 =
       l ++ handed k cid during first ++ (NData k cid <$> after) ++ [NClose k cid] ∧
     (subscribe (arriving cid during) cid k (socket_ends cid arrived)).2 =
       l ++ handed k cid during first ++ [NClose k cid] ∧
     (first ≠ [] →
        let early := NData k cid <$> during HeldTaken in
        let ended last := subscribe (arriving_until last cid during) cid k arrived in
        (ended HeldTaken).2 = l ++ early ++ [NClose k cid] ∧
        (un_data <$> undelivered (ended HeldTaken).1 !! cid) = Some first ∧
        (ended HandlerFound).2 =
          l ++ early ++ (NData k cid <$> during HandlerFound) ++ [NClose k cid; NData k cid first] ∧
        (ended DataHanded).2 = l ++ handed k cid during first ++ [NClose k cid])) ∧
  ((kMaxUndeliveredBytes < length first)%nat →
     (payloads cid after subscribed).2 =
       l ++ handed k cid during (take kMaxUndeliveredBytes first) ++ [NTcpClose cid; NClose k cid]).
Proof.
  intros Hf first arrived subscribed. destruct (before_state h l cid before Hf) as (Er & El & Eu).
  subst arrived. set (w := payloads cid before (h, l)) in *.
  assert (∀ i r, tcp_routes w.1 !! i = Some r → tr_connect_id r ≠ cid) as Hr by (rewrite Er; apply Hf).
  destruct (subscribe_held during w cid k Hr) as (Hreg & Hs). rewrite Eu, El in *. fold subscribed in Hs.
  pose proof (λ last, subscribe_ended last during w cid k Hr) as He. cbv zeta in He. rewrite Eu, El in He.
  unfold held_after in *. cbn [un_data un_truncated un_closed nothing_held app orb] in *. fold first in Hreg, Hs, Eu, He.
  destruct (socket_ends_unrouted w cid Hr) as (Hr' & El' & Eu'). rewrite Eu, El in *. split; intros Hlen.
  - rewrite (proj2 (Nat.ltb_ge _ _)), take_ge in * by done. rewrite Hs.
    rewrite (payloads_routed _ _ _ _ _ Hreg). cbn [fst snd]. split; [by rewrite <- app_assoc|]. split; [|split].
    + destruct (socket_ends_routed cid (next_subscription w.1) k
        ((register_tcp w.1 cid (Some k) (Some k)).1.1, (l ++ handed k cid during first) ++ (NData k cid <$> after)) Hreg) as [-> _].
      cbn [snd]. by rewrite <- !app_assoc.
    + destruct (subscribe_held during _ cid k Hr') as (Hreg' & ->). rewrite Eu', El' in *.
      cbn [default un_data un_truncated un_closed id] in *.
      destruct (socket_ends_routed _ _ _ _ Hreg') as [-> _]. cbn [snd]. by rewrite <- !app_assoc.
    + intros Hne. destruct (He HeldTaken Hne eq_refl eq_refl) as [E1 E2].
      split; [done|]. split; [|split; [exact (He HandlerFound Hne eq_refl eq_refl)|exact (He DataHanded Hne eq_refl eq_refl)]].
      rewrite E2. cbn. rewrite app_nil_r. by rewrite take_ge.
  - rewrite (proj2 (Nat.ltb_lt _ _)) in * by done. rewrite Hs.
    set (w1 := (_, l ++ handed _ _ _ _)) in *.
    destruct (socket_ends_routed cid (next_subscription w.1) k (note (NTcpClose cid) w1) Hreg) as [E2 Hfr].
    destruct (socket_ends _ _) as [h2 l2] eqn:E. cbn [fst snd] in E2, Hfr. subst l2.
    destruct (before_state h2 ((note (NTcpClose cid) w1).2 ++ [NClose k cid]) cid after Hfr) as (_ & -> & _).
    subst w1. cbn [note snd]. by rewrite <- !app_assoc.
Qed.

#[local] Transparent kMaxUndeliveredBytes.

Lemma socket_stream_heard_witness :
  fresh new_hal 3 ∧
  (socket_ends 3 (payloads 3 [lit "c"] (subscribe (arriving 3 (λ _, [])) 3 7 (payloads 3 [lit "a"; lit "b"] (new_hal, []))))).2 =
  [NData 7 3 (lit "ab"); NData 7 3 (lit "c"); NClose 7 3].
Proof.
  assert (fresh new_hal 3) as Hf by (split; [reflexivity|intros i r Hi; discriminate Hi]).
  split; [exact Hf|].
  pose proof (socket_stream_heard new_hal [] 3 7 [lit "a"; lit "b"] (λ _, []) [lit "c"] Hf) as [H _].
  destruct H as (_ & H & _); [vm_compute; lia|]. exact H.
Defined.

(** The held piece is handed over without the lock: a payload that the receive task
    dispatches meanwhile is heard before it, though the module sent it later. *)
Lemma hand_over_reorders :
  (subscribe (arriving 3 (λ m, if decide (m = HeldTaken) then [lit "world"] else [])) 3 7
     (payloads 3 [lit "hello "] (new_hal, []))).2 = [NData 7 3 (lit "world"); NData 7 3 (lit "hello ")].
Proof. vm_compute. reflexivity. Qed.

(** And an end that it dispatches meanwhile takes the route away first: the client
    is told its socket is over and never hears the held piece, which the next
    subscriber of the cid would be handed. *)
Lemma hand_over_loses_held :
  let w := subscribe (arriving_until HeldTaken 3 (λ _, [])) 3 7 (payloads 3 [lit "response"] (new_hal, [])) in
  w.2 = [NClose 7 3] ∧ (subscribe undisturbed 3 8 w).2 = [NClose 7 3; NData 8 3 (lit "response")].
Proof. vm_compute. by split. Qed.
