(* ===== verification/HalTcpClient.v ===== *)
(** The socket clients over a module HAL (src/src/hal/hal_tcp_client.{h,cpp} and
    hal_udp_client.{h,cpp}).

    The world is the HAL's routing tables, the client object and [U], everything
    else. The user's callbacks are functions on the world: they may do anything,
    reconnecting included. So are the module's own operations, during which the
    receive task may run any callback, and what it dispatches beside a hand-over. Other clients' callbacks on the same HAL are
    [other_data] and [other_close]; this client's closures are named [me]. *)
From stdpp Require Import base decidable list strings gmap.
From Stdlib Require Import ZArith Ascii Lia.
From S2P Require Import Prelude Errors HalRoutes.

(** * State *)

(** [HalTcpClient] with the [connected_] of its base class. *)
Record HalTcpClient := MkTcpClient {
  connected : bool;
  subscription : Z;
  connect_id : Z;
  generation : Z;
}.

Definition new_tcp_client : HalTcpClient := MkTcpClient false 0 (-1) 0.

Record HalUdpClient := MkUdpClient {
  uc_connected : bool;
  uc_subscription : Z;
  uc_connect_id : Z;
  remote_host : bytes;
  remote_port : Z;
}.

Definition new_udp_client : HalUdpClient := MkUdpClient false 0 (-1) [] 0.

(** * The TCP client *)

Section TcpClient.
Context {U : Type}.
Local Abbreviation world := (IModuleHal nat * (HalTcpClient * U))%type.
Context (me : nat).
Context (other_data : nat → Z → bytes → world → world) (other_close : nat → Z → world → world).
(** The module's own operations. *)
Context (hal_tcp_connect : world → world * Result Z).
Context (hal_tcp_close : Z → world → world).
Context (hal_tcp_send : Z → bytes → world → world * Result Z).
(** What the receive task dispatches while [Connect] is handed what was held. *)
Context (meanwhile : handover → world → world).
(** [OnData] and [OnDisconnected]; [None] is a callback never set. *)
Context (on_data : option (bytes → world → world)) (on_disconnected : option (world → world)).

Definition client (w : world) : HalTcpClient := w.2.1.
Definition hal (w : world) : IModuleHal nat := w.1.
Definition set_client (c : HalTcpClient) (w : world) : world := (w.1, (c, w.2.2)).
Definition set_hal (h : IModuleHal nat) (w : world) : world := (h, w.2).

Definition OnTcpData (data : bytes) (w : world) : world :=
  match on_data with Some f => f data w | None => w end.

Definition notify_disconnected (w : world) : world :=
  match on_disconnected with Some f => f w | None => w end.

Definition OnTcpClose (w : world) : world :=
  let c := client w in
  let w := set_client (MkTcpClient false (subscription c) (-1) (generation c)) w in
  notify_disconnected w.

Definition call_data (k : nat) (cid : Z) (data : bytes) (w : world) : world :=
  if (k =? me)%nat then OnTcpData data w else other_data k cid data w.
Definition call_close (k : nat) (cid : Z) (w : world) : world :=
  if (k =? me)%nat then OnTcpClose w else other_close k cid w.

Definition Connect (w : world) : world * Result unit :=
  if connected (client w)
  then (w, Err (net_error kAlreadyConnected "already connected")) else
  let '(w, result) := hal_tcp_connect w in
  match result with
  | Err e => (w, Err e)
  | Ok cid =>
      let my_generation := u32 (generation (client w) + 1) in
      let w := set_client (MkTcpClient true (subscription (client w)) cid my_generation) w in
      let '(w, handle) := SubscribeTcp call_data call_close hal_tcp_close meanwhile cid (Some me) (Some me) w in
      let c := client w in
      let w := if generation c =? my_generation
               then set_client (MkTcpClient (connected c) handle (connect_id c) (generation c)) w else w in
      (w, Ok ())
  end.

Definition Disconnect (w : world) : world :=
  let c := client w in
  if negb (connected c) then w else
  let id := connect_id c in
  let w := set_client (MkTcpClient false (subscription c) (-1) (generation c)) w in
  let w := set_hal (Unsubscribe (hal w) (subscription c)) w in
  let w := set_client (MkTcpClient false 0 (-1) (generation c)) w in
  notify_disconnected (hal_tcp_close id w).

Definition Send (data : bytes) (w : world) : world * Result Z :=
  if negb (connected (client w))
  then (w, Err (net_error kNotConnected "not connected")) else
  hal_tcp_send (connect_id (client w)) data w.

(** The destructor. *)
Definition destroy (w : world) : world :=
  let w := if connected (client w) then Disconnect w else w in
  let w := set_hal (Unsubscribe (hal w) (subscription (client w))) w in
  let c := client w in
  set_client (MkTcpClient (connected c) 0 (connect_id c) (generation c)) w.
End TcpClient.

(** * The UDP client *)

Section UdpClient.
Context {U : Type}.
Local Abbreviation world := (IModuleHal nat * (HalUdpClient * U))%type.
Context (me : nat).
Context (hal_udp_open : world → world * Result Z).
Context (hal_udp_close : Z → world → world).
Context (hal_udp_send : Z → bytes → world → world * Result Z).
Context (on_message : option (bytes → Z → bytes → world → world)).

Definition UdpConnect (host : bytes) (port : Z) (w : world) : world * Result unit :=
  if uc_connected w.2.1
  then (w, Err (net_error kAlreadyConnected "already connected")) else
  let '(w, result) := hal_udp_open w in
  match result with
  | Err e => (w, Err e)
  | Ok cid =>
      let '(h, handle) := SubscribeUdp w.1 cid (Some me) in
      ((h, (MkUdpClient true handle cid host port, w.2.2)), Ok ())
  end.

Definition OnUdpData (host : bytes) (port : Z) (data : bytes) (w : world) : world :=
  match on_message with
  | None => w
  | Some f =>
      let '(host, port) := if decide (host = []) then (remote_host w.2.1, remote_port w.2.1) else (host, port) in
      f host port data w
  end.

Definition Bind (port : Z) (w : world) : world * Result unit :=
  (w, Err (NotSupported "UDP Bind not supported by module HAL")).

Definition UdpDisconnect (w : world) : world :=
  let c := w.2.1 in
  if negb (uc_connected c) then w else
  hal_udp_close (uc_connect_id c)
    (Unsubscribe w.1 (uc_subscription c), (MkUdpClient false 0 (-1) (remote_host c) (remote_port c), w.2.2)).

Definition UdpSend (data : bytes) (w : world) : world * Result Z :=
  if negb (uc_connected w.2.1)
  then (w, Err (net_error kNotConnected "not connected")) else
  hal_udp_send (uc_connect_id w.2.1) data w.

(** The destination is ignored. *)
Definition SendTo (data host : bytes) (port : Z) (w : world) : world * Result Z := UdpSend data w.

Definition udp_destroy (w : world) : world :=
  let w := if uc_connected w.2.1 then UdpDisconnect w else w in
  let c := w.2.1 in
  (Unsubscribe w.1 (uc_subscription c),
   (MkUdpClient (uc_connected c) 0 (uc_connect_id c) (remote_host c) (remote_port c), w.2.2)).
End UdpClient.
