(* ===== verification/HalClients.v ===== *)
(** The TCP client over a HAL: a connected client always has its route, however
    deep its callbacks reconnect; and the route a callback can leave behind. *)
From stdpp Require Import base decidable list strings gmap.
From Stdlib Require Import ZArith Ascii Lia.
From S2P Require Import Prelude Errors HalRoutes HalStreams HalTcpClient.

(** * Specification vocabulary *)

Section Clients.
Context {U : Type}.
Local Abbreviation world := (IModuleHal nat * (HalTcpClient * U))%type.
Context (me : nat).
Context (other_data : nat → Z → bytes → world → world) (other_close : nat → Z → world → world).
Context (hal_tcp_connect : world → world * Result Z).
Context (hal_tcp_close : Z → world → world).
Context (meanwhile : handover → world → world).

Definition own_route (w : world) : TcpRoute nat := MkTcpRoute (connect_id (client w)) (Some me) (Some me).

(** A connected client is subscribed to its own socket under the handle it keeps. *)
Definition sound (w : world) : Prop :=
  connected (client w) = true → tcp_routes (hal w) !! subscription (client w) = Some (own_route w).

(** A pool hands out cids nobody is subscribed to, and while it does the client,
    which has no route, is called by nobody. *)
Definition hands_out_free : Prop := ∀ w w' r, hal_tcp_connect w = (w', r) →
  client w' = client w ∧ ∀ cid, r = Ok cid → ∀ i rt, tcp_routes (hal w') !! i = Some rt → tr_connect_id rt ≠ cid.

(** Closing a socket touches neither the routes nor the client. *)
Definition close_keeps_routes : Prop := ∀ cid w,
  tcp_routes (hal (hal_tcp_close cid w)) = tcp_routes (hal w) ∧ client (hal_tcp_close cid w) = client w.

(** What is dispatched beside a hand-over are payloads: the routes and the client
    stay, whatever else the callbacks do. *)
Definition payloads_meanwhile : Prop := ∀ m w,
  tcp_routes (hal (meanwhile m w)) = tcp_routes (hal w) ∧ client (meanwhile m w) = client w.

(** A data callback that only looks. *)
Definition observes (f : bytes → world → world) : Prop := ∀ d w, hal (f d w) = hal w ∧ client (f d w) = client w.

Context (on_data : bytes → world → world).

(** [on_disconnected] that connects again, [n] times over. *)
Fixpoint reconnecting (n : nat) (w : world) : world :=
  match n with
  | O => w
  | S n => (Connect me other_data other_close hal_tcp_connect hal_tcp_close meanwhile (Some on_data)
              (Some (reconnecting n)) w).1
  end.

Definition connect_reconnecting (n : nat) (w : world) : world * Result unit :=
  Connect me other_data other_close hal_tcp_connect hal_tcp_close meanwhile (Some on_data) (Some (reconnecting n)) w.

(** * Lemmas *)

(** The socket of a subscribed client ends: the route goes, the client is told. *)
Lemma DispatchTcpClose_own f cid handle (w : world) : routed (hal w) cid handle me →
  ∃ h, DispatchTcpClose (call_close me other_close (Some f)) cid w =
         f (h, (MkTcpClient false (subscription (client w)) (-1) (generation (client w)), w.2.2)).
Proof.
  intros [H Hu]. unfold DispatchTcpClose, end_routes. rewrite (routes_of_one w.1 cid handle _ H eq_refl Hu).
  cbn. unfold call_close. rewrite Nat.eqb_refl. by eexists.
Qed.

Lemma DispatchTcpData_own cid handle d (w : world) : routed (hal w) cid handle me →
  DispatchTcpData (call_data me other_data (Some on_data)) cid d w = on_data d w.
Proof.
  intros [H Hu]. unfold DispatchTcpData, FindTcpRouteLocked.
  rewrite (routes_of_one w.1 cid handle _ H eq_refl Hu). cbn. unfold call_data. by rewrite Nat.eqb_refl.
Qed.

(** What subscribing comes to for an observing client: it ends with the route in
    place, or with the disconnect callback run on a client that is not connected. *)
Lemma SubscribeTcp_own f cid (w : world) : close_keeps_routes → payloads_meanwhile → observes on_data →
  (∀ i r, tcp_routes (hal w) !! i = Some r → tr_connect_id r ≠ cid) →
  let '(w', handle) := SubscribeTcp (call_data me other_data (Some on_data)) (call_close me other_close (Some f))
                         hal_tcp_close meanwhile cid (Some me) (Some me) w in
  (client w' = client w ∧ routed (hal w') cid handle me) ∨
  (∃ v, client v = MkTcpClient false (subscription (client w)) (-1) (generation (client w)) ∧ w' = f v).
Proof.
  intros Hck Hmw Hob Hfree. pose proof (register_routed (hal w) cid me (or_intror Hfree)) as Hreg.
  unfold SubscribeTcp, register_tcp in *. cbn [fst hal] in *.
  set (held := default nothing_held (undelivered w.1 !! cid)). set (h1 := MkHal _ _ _ _) in *.
  set (handle := next_subscription w.1) in *.
  set (kept := λ v : world, tcp_routes (hal v) = tcp_routes h1 ∧ client v = client w).
  assert (∀ m v, kept v → kept (meanwhile m v)) as Hm.
  { intros m v [H1 H2]. destruct (Hmw m v) as [E1 E2]. split; congruence. }
  assert (∀ v, kept v → routed (hal v) cid handle me) as Hro.
  { intros v [H1 _]. unfold routed. by rewrite H1. }
  assert (∀ v, kept v → ∃ h, DispatchTcpClose (call_close me other_close (Some f)) cid v =
      f (h, (MkTcpClient false (subscription (client w)) (-1) (generation (client w)), v.2.2))) as Hcl.
  { intros v Hv. destruct (DispatchTcpClose_own f cid handle v (Hro v Hv)) as (h & E). exists h.
    destruct Hv as [_ Hv]. by rewrite Hv in E. }
  set (w1 := meanwhile HeldTaken (h1, w.2)).
  set (w2 := if decide (un_data held = []) then w1 else _).
  assert (kept (meanwhile DataHanded w2)) as Hk.
  { apply Hm. assert (kept w1) as H1 by (apply Hm; by split). subst w2. case_decide; [done|].
    destruct (Hro w1 H1) as [Hh Hu]. unfold DispatchHeld, FindTcpRouteLocked.
    rewrite (routes_of_one w1.1 cid handle _ Hh eq_refl Hu). cbn [head fmap option_fmap option_map snd tr_on_data].
    unfold call_data. rewrite Nat.eqb_refl. cbn [OnTcpData].
    destruct (Hm HandlerFound w1 H1) as [E1 E2]. destruct (Hob (un_data held) (meanwhile HandlerFound w1)) as [E3 E4].
    split; congruence. }
  set (w3 := meanwhile DataHanded w2) in *.
  destruct (un_closed held) eqn:Ec; [right|destruct (un_truncated held) eqn:Et; [right|left]].
  - destruct (Hcl w3 Hk) as (h & ->). eexists. by split; [|reflexivity].
  - destruct (Hcl (hal_tcp_close cid w3)) as (h & ->); [|eexists; by split; [|reflexivity]].
    destruct (Hck cid w3) as [E1 E2], Hk as [E3 E4]. split; congruence.
  - by split; [apply Hk|apply Hro].
Qed.

Lemma u32_shift_ne g j : 1 <= j < 2 ^ 32 → u32 (g + j) ≠ u32 g.
Proof.
  unfold u32. intros Hj H. pose proof (Z.mod_divide (g + j - g) (2 ^ 32) ltac:(lia)) as [Hd _].
  assert ((g + j - g) mod 2 ^ 32 = 0) as E by (rewrite Zminus_mod, H, Z.sub_diag; done).
  apply Hd in E as (q & E). assert (q = 0 ∨ 1 <= q ∨ q <= -1) as [->|[?|?]]; lia.
Qed.

Lemma u32_u32_add g a : u32 (u32 g + a) = u32 (g + a).
Proof. unfold u32. by rewrite Zplus_mod_idemp_l. Qed.

(** Where a client that was not connected may be after reconnecting up to [m] times. *)
Definition moved_on (m : Z) (w w' : world) : Prop :=
  sound w' ∧ (client w' = client w ∨
    ∃ j, 1 <= j <= m ∧ generation (client w') = u32 (generation (client w) + j)).

Lemma Connect_moves_on f m w : hands_out_free → close_keeps_routes → payloads_meanwhile → observes on_data →
  0 <= m → m + 1 < 2 ^ 32 →
  (∀ v, connected (client v) = false → moved_on m v (f v)) → connected (client w) = false →
  moved_on (m + 1) w
    (Connect me other_data other_close hal_tcp_connect hal_tcp_close meanwhile (Some on_data) (Some f) w).1.
Proof.
  intros Hfree Hck Hmw Hob Hm0 Hm Hf Hc. unfold Connect. rewrite Hc.
  destruct (hal_tcp_connect w) as [w0 r] eqn:E. destruct (Hfree _ _ _ E) as [Hc0 Hfr].
  destruct r as [cid|e]; [|cbn [fst]; split; [intros Hc'; rewrite Hc0 in Hc'; congruence|by left]].
  cbv zeta. rewrite Hc0. set (w1 := set_client _ _). set (g := u32 _) in *.
  assert (client w1 = MkTcpClient true (subscription (client w)) cid g) as Hw1 by done.
  pose proof (SubscribeTcp_own f cid w1 Hck Hmw Hob (Hfr _ eq_refl)) as HS.
  destruct (SubscribeTcp _ _ _ _ _ _ _ _) as [w' handle] eqn:Ew. cbn [fst].
  destruct HS as [[Hcl Hr]|(v & Hv & ->)].
  - rewrite Hcl, Hw1. cbn [generation]. rewrite Z.eqb_refl. split.
    + intros _. unfold own_route. cbn. unfold SubscribeTcp, register_tcp in Ew.
      assert (handle = next_subscription (hal w1)) as -> by (by injection Ew). by destruct Hr as [Hr _].
    + right. exists 1. split; [lia|]. done.
  - destruct (Hf v) as (Hs & Hg); [by rewrite Hv|]. rewrite Hv, Hw1 in Hg. cbn [generation subscription] in Hg.
    destruct Hg as [Hg|(j & Hj & Hg)].
    + rewrite Hg. cbn [generation]. rewrite Z.eqb_refl. split; [done|]. right. exists 1. split; [lia|done].
    + rewrite (proj2 (Z.eqb_neq _ _)).
      * split; [done|]. right. exists (j + 1). split; [lia|]. rewrite Hg. subst g. rewrite u32_u32_add. f_equal. unfold client. cbn [fst snd]. lia.
      * rewrite Hg. subst g. rewrite u32_u32_add. apply u32_shift_ne. lia.
Qed.

Lemma reconnecting_moves_on n w : hands_out_free → close_keeps_routes → payloads_meanwhile → observes on_data →
  connected (client w) = false → Z.of_nat n + 1 < 2 ^ 32 →
  moved_on (Z.of_nat n) w (reconnecting n w).
Proof.
  intros Hfree Hck Hmw Hob. revert w. induction n as [|n IH]; intros w Hc Hn; cbn [reconnecting].
  { split; [by intros Hc'; congruence|by left]. }
  replace (Z.of_nat (S n)) with (Z.of_nat n + 1) in * by lia.
  apply Connect_moves_on; try done; [lia|lia|]. intros v Hv. apply IH; [done|lia].
Qed.

(** C35: However often the user reconnects from inside the disconnect callback, and
    however the sockets in between ended - early, or with more data than the hold
    takes - and whatever payloads are dispatched beside the hand-overs, a client
    that comes out connected is subscribed to the very socket it
    holds, under the handle it will withdraw. *)
Theorem nested_reconnect_sound n w : hands_out_free → close_keeps_routes → payloads_meanwhile → observes on_data →
  connected (client w) = false → Z.of_nat n + 2 < 2 ^ 32 →
  sound (connect_reconnecting n w).1.
Proof.
  intros Hfree Hck Hmw Hob Hc Hn. unfold connect_reconnecting.
  apply (Connect_moves_on (reconnecting n) (Z.of_nat n)); try done; [lia|lia|].
  intros v Hv. apply reconnecting_moves_on; try done. lia.
Qed.
End Clients.

(** A pool that hands out cids in order, and a module whose sockets simply work. *)
Definition next_free (h : IModuleHal nat) : Z :=
  map_fold (λ _ r m, Z.max m (tr_connect_id r + 1)) 0 (tcp_routes h).
Local Abbreviation plain_world := (IModuleHal nat * (HalTcpClient * unit))%type.
Definition plain_connect (w : plain_world) : plain_world * Result Z := (w, Ok (next_free w.1)).
Definition plain_close (cid : Z) (w : plain_world) : plain_world := w.

Lemma next_free_above (m : gmap Z (TcpRoute nat)) i r : m !! i = Some r →
  tr_connect_id r + 1 <= map_fold (λ _ r m, Z.max m (tr_connect_id r + 1)) 0 m.
Proof.
  revert i r. apply (map_fold_weak_ind (λ b m, ∀ i r, m !! i = Some r → tr_connect_id r + 1 <= b)).
  { intros i r Hi. by rewrite lookup_empty in Hi. }
  intros i x m' b _ H j r Hj. destruct (decide (i = j)) as [->|].
  - rewrite lookup_insert_eq in Hj. injection Hj as ->. lia.
  - rewrite lookup_insert_ne in Hj by done. apply H in Hj. lia.
Qed.

Lemma nested_reconnect_sound_witness :
  sound 1 (connect_reconnecting 1 (λ _ _ _ w, w) (λ _ _ w, w) plain_connect plain_close undisturbed (λ _ w, w) 3
             (MkHal 5 ∅ ∅ {[0 := MkUndelivered (lit "hello") false true]}, (new_tcp_client, tt))).1.
Proof.
  apply (nested_reconnect_sound 1 (λ _ _ _ w, w) (λ _ _ w, w) plain_connect plain_close undisturbed (λ _ w, w) 3);
    [|done|done|done|done|lia].
  intros w w' r [= <- <-]. split; [done|]. intros cid [= <-] i rt Hi Hr. pose proof (next_free_above _ _ _ Hi).
  unfold next_free, hal in *. lia.
Defined.

(** A user callback that closes the socket on its first data leaves the route in
    place when that data was held from before the subscription: the handle to
    withdraw is not known yet. The client is not connected and still subscribed,
    so whoever is given the cid next shares its events with this client. *)
Lemma disconnect_in_callback_keeps_route :
  let disconnect := λ (_ : bytes) (w : IModuleHal nat * (HalTcpClient * unit)), Disconnect plain_close None w in
  let w := (Connect 1 (λ _ _ _ w, w) (λ _ _ w, w) plain_connect plain_close undisturbed (Some disconnect) None
             (MkHal 5 ∅ ∅ {[0 := MkUndelivered (lit "hello") false false]}, (new_tcp_client, tt))).1 in
  connected (client w) = false ∧ tcp_routes (hal w) !! 5 = Some (MkTcpRoute 0 (Some 1%nat) (Some 1%nat)).
Proof. split; reflexivity. Qed.

(** The next connection overwrites the only handle to that route, so not even
    destroying the client withdraws it: its closures outlive it. *)
Lemma destroyed_client_still_routed :
  let disconnect := λ (_ : bytes) (w : IModuleHal nat * (HalTcpClient * unit)), Disconnect plain_close None w in
  let connect w := (Connect 1 (λ _ _ _ w, w) (λ _ _ w, w) plain_connect plain_close undisturbed (Some disconnect) None w).1 in
  let w := destroy plain_close None (connect (connect
             (MkHal 5 ∅ ∅ {[0 := MkUndelivered (lit "hello") false false]}, (new_tcp_client, tt)))) in
  tcp_routes (hal w) !! 5 = Some (MkTcpRoute 0 (Some 1%nat) (Some 1%nat)).
Proof. reflexivity. Qed.
