(* ===== verification/SocketHal.v ===== *)
(** The sockets of a module as its clients use them: the socket operations of
    [IModuleHal] (src/src/hal/imodule_hal.h) as an interface, which each module's HAL
    implements.

    A HAL holds the closures its clients subscribed and runs them as events come in,
    inside its own operations too; they are arguments of every operation. [H] is the
    HAL's own members, [W] the link to the module, and [U] what the clients change. *)
From stdpp Require Import base decidable list strings gmap.
From Stdlib Require Import ZArith Ascii Lia.
From S2P Require Import Prelude Errors CommonTypes StateResult HalRoutes.

(** The world of a HAL. *)
Abbreviation hal_world H W U := (IModuleHal nat * (H * (W * U)))%type.

(** The closures. *)
Record closures (V : Type) := MkClosures {
  cl_data : nat → Z → bytes → V → V;
  cl_close : nat → Z → V → V;
  cl_udp : nat → Z → bytes → Z → bytes → V → V;
}.
Arguments MkClosures {V}. Arguments cl_data {V}. Arguments cl_close {V}. Arguments cl_udp {V}.

Class ISocketHal (H W : Type) := {
  socket_capabilities : ModuleCapabilities;
  hal_connect : ∀ {U}, closures (hal_world H W U) → bytes → Z → bool → TlsConfig → op (hal_world H W U) NetworkError Z;
  hal_send : ∀ {U}, closures (hal_world H W U) → Z → bytes → op (hal_world H W U) NetworkError Z;
  hal_close : ∀ {U}, closures (hal_world H W U) → Z → op (hal_world H W U) NetworkError unit;
  (** What the receive task and the module's reader do while a client waits. *)
  hal_sleep : ∀ {U}, closures (hal_world H W U) → Z → op (hal_world H W U) NetworkError unit;
}.

(** What no HAL's operation can break: a property that the HAL's members and the link
    have no part in, and that survives what clients are told. *)
Record socket_framed {H W U} (cl : closures (hal_world H W U)) (Q : hal_world H W U → Prop) : Prop := {
  sf_hal : ∀ h w, Q w → Q (w.1, (h, w.2.2));
  sf_link : ∀ l w, Q w → Q (w.1, (w.2.1, (l, w.2.2.2)));
  sf_discard : ∀ id w, Q w → Q (DiscardUndelivered w.1 id, w.2);
  sf_data : ∀ cid d w, Q w → Q (DispatchTcpData (cl_data cl) cid d w);
  sf_close : ∀ cid w, Q w → Q (DispatchTcpClose (cl_close cl) cid w);
  sf_udp : ∀ cid host port d w, Q w → Q (DispatchUdpData (cl_udp cl) cid host port d w);
}.

Class SocketHalFrame (H W : Type) `{ISocketHal H W} : Prop := {
  connect_keeps : ∀ {U} (cl : closures (hal_world H W U)) Q, socket_framed cl Q →
    ∀ host port ssl config, keeps Q (hal_connect cl host port ssl config);
  send_keeps : ∀ {U} (cl : closures (hal_world H W U)) Q, socket_framed cl Q → ∀ cid data, keeps Q (hal_send cl cid data);
  close_keeps : ∀ {U} (cl : closures (hal_world H W U)) Q, socket_framed cl Q → ∀ cid, keeps Q (hal_close cl cid);
  sleep_keeps : ∀ {U} (cl : closures (hal_world H W U)) Q, socket_framed cl Q → ∀ ms, keeps Q (hal_sleep cl ms);
}.
