(* ===== verification/ModemLink.v ===== *)
(** What a module HAL asks of its AT channel and of the clock, as an interface,
    and [AtUart] as an implementation of it.

    A HAL's URC handlers run on the channel's receive task. What that task did
    while an operation was waiting is the list of handler calls ([invocation]) the
    operation returns: the HAL runs them, in order, before it goes on. A wait may
    also let another thread of the HAL in ([Reader]). *)
From stdpp Require Import base decidable list strings gmap.
From Stdlib Require Import ZArith Ascii Lia.
From S2P Require Import Prelude Errors AtParser ResponseParser UrcDispatcher AtUart.

Inductive happening := Line (i : invocation) | Reader.

Class IModemLink (W : Type) := {
  (** [SendCommand] *)
  at_command : bytes → Z → W → W * list invocation * AtResult;
  (** [SendLine] *)
  at_line : bytes → W → W * list invocation * AtResult;
  (** [SendDataAfterPrompt] *)
  at_data : bytes → bytes → Z → W → W * list invocation * AtResult;
  (** [GetResponseLines] *)
  at_lines : W → list bytes;
  at_subscribe : bytes → W → W * Z;
  at_unsubscribe : Z → W → W;
  (** A wait of at most so many milliseconds, a sleep included. *)
  pause : Z → W → W * list happening;
  (** [std::chrono::steady_clock::now], in milliseconds. *)
  steady_now : W → Z;
}.

(** * What was exchanged *)

Inductive exchange :=
| XCommand (cmd : bytes) (answer : AtResult)
| XLine (cmd : bytes) (answer : AtResult)
| XData (cmd data : bytes) (answer : AtResult)
| XHeard (i : invocation).

Definition heard_in (l : list happening) : list exchange :=
  omap (λ h, match h with Line i => Some (XHeard i) | Reader => None end) l.

(** Any link, with a record of what went over it. *)
#[export] Instance recorded_link `{IModemLink W} : IModemLink (W * list exchange) := {|
  at_command cmd timeout w :=
    let '(w1, calls, r) := at_command cmd timeout w.1 in ((w1, w.2 ++ (XHeard <$> calls) ++ [XCommand cmd r]), calls, r);
  at_line cmd w :=
    let '(w1, calls, r) := at_line cmd w.1 in ((w1, w.2 ++ (XHeard <$> calls) ++ [XLine cmd r]), calls, r);
  at_data cmd data timeout w :=
    let '(w1, calls, r) := at_data cmd data timeout w.1 in
    ((w1, w.2 ++ (XHeard <$> calls) ++ [XData cmd data r]), calls, r);
  at_lines w := at_lines w.1;
  at_subscribe prefix w := let '(w1, h) := at_subscribe prefix w.1 in ((w1, w.2), h);
  at_unsubscribe handle w := (at_unsubscribe handle w.1, w.2);
  pause timeout w := let '(w1, hs) := pause timeout w.1 in ((w1, w.2 ++ heard_in hs), hs);
  steady_now w := steady_now w.1;
|}.

(** * The UART channel *)

(** The channel with what is to come: for each operation that transmits, what the
    two checked [IUart::Send]s return ([None] when they take everything) and what
    the UART delivers meanwhile; for each wait, what it delivers and whether the
    reader gets to run. *)
Record uart_link := MkUartLink {
  lk_uart : AtUart;
  lk_answers : list (option (Z * Z) * list bytes);
  lk_idle : list (list bytes * bool);
  lk_now : Z;
}.

(** The handler calls made since. *)
Definition calls_since (c c' : AtUart) : list invocation := drop (length (dispatched c)) (dispatched c').

(** The next answer, for an operation that sends [a] and then [b] bytes; a script
    that has run out takes everything and hears nothing. *)
Definition next_answer (l : uart_link) (a b : nat) : (Z * Z * list bytes) * list (option (Z * Z) * list bytes) :=
  match lk_answers l with
  | (Some (sent, sent'), reads) :: rest => ((sent, sent', reads), rest)
  | (None, reads) :: rest => ((Z.of_nat a, Z.of_nat b, reads), rest)
  | [] => ((Z.of_nat a, Z.of_nat b, []), [])
  end.

#[export] Instance uart_modem_link : IModemLink uart_link := {|
  at_command cmd timeout l :=
    let '((sent, _, reads), rest) := next_answer l (length cmd + 2) 0 in
    let '(u, r) := SendCommand (lk_uart l) cmd sent reads in
    (MkUartLink u rest (lk_idle l) (lk_now l), calls_since (lk_uart l) u, r);
  at_line cmd l :=
    let '((sent, _, reads), rest) := next_answer l (length cmd + 2) 0 in
    let '(u, r) := SendLine (lk_uart l) cmd sent in
    let u := receive_all u reads in
    (MkUartLink u rest (lk_idle l) (lk_now l), calls_since (lk_uart l) u, r);
  at_data cmd data timeout l :=
    let '((sent, sent', reads), rest) := next_answer l (length cmd + 2) (length data) in
    let '(u, r) := SendDataAfterPrompt (lk_uart l) cmd data sent sent' reads in
    (MkUartLink u rest (lk_idle l) (lk_now l), calls_since (lk_uart l) u, r);
  at_lines l := GetResponseLines (lk_uart l);
  at_subscribe prefix l :=
    let '(u, h) := SubscribeUrc (lk_uart l) prefix true in
    (MkUartLink u (lk_answers l) (lk_idle l) (lk_now l), h);
  at_unsubscribe handle l :=
    MkUartLink (UnsubscribeUrc (lk_uart l) handle) (lk_answers l) (lk_idle l) (lk_now l);
  pause timeout l :=
    match lk_idle l with
    | [] => (l, [])
    | (reads, reader) :: rest =>
        let u := receive_all (lk_uart l) reads in
        (MkUartLink u (lk_answers l) rest (lk_now l),
         (Line <$> calls_since (lk_uart l) u) ++ (if reader then [Reader] else []))
    end;
  steady_now := lk_now;
|}.

(** * C strings *)

(** What a printf conversion takes of a string: up to the first NUL. *)
Definition c_text (s : bytes) : bytes := take_while (is_not "000"%char) s.

(** [std::snprintf] into a buffer of [n] bytes. *)
Definition snprintf_ (n : nat) (s : bytes) : bytes := take (n - 1) s.

Definition quoted (s : bytes) : bytes := QUOTE :: s ++ [QUOTE].

(** [static_cast<int>] of a size. *)
Definition to_int (v : Z) : Z := (v + 2 ^ 31) mod 2 ^ 32 - 2 ^ 31.

(** A line, and the answer that is [OK] after these. *)
Definition line_ (s : bytes) : bytes := s ++ CRLF.
Definition ok_after (lines : list bytes) : option (Z * Z) * list bytes := (None, [concat (line_ <$> lines) ++ line_ (lit "OK")]).
