(* ===== verification/Ml307Hal.v ===== *)
(** The ML307 HAL (src/src/modules/ml307/ml307_hal.{h,cpp}): sockets over
    AT+MIPOPEN and its siblings, and the events the module reports.

    A world is the routing tables every HAL has, this HAL's own members, the link
    to the module and [U], everything else. A client's callbacks are functions on
    the world. What the receive task does while an operation waits is run at the
    wait. The mutexes are left out: each critical section is one step.

    The identity queries call through [channel_] without looking whether it is
    set: [through_channel] is [None] when it is not. *)
From stdpp Require Import base decidable list strings gmap.
From Stdlib Require Import ZArith Ascii Lia.
From S2P Require Import Prelude Errors CommonTypes StateResult AtParser UrcDispatcher AtChannel HalRoutes ModemLink.

Open Scope Z_scope.

Definition kDefaultTimeout : Z := 5000.
Definition kLongTimeout : Z := 30000.
Definition kMinHandshakeTimeout : Z := 10.
Definition kMaxHandshakeTimeout : Z := 300.
Definition kMaxConnections : Z := 6.
Definition kCidQuarantine : Z := 1000.
Definition kClosePollAttempts : nat := 20.
Definition kClosePollInterval : Z := 50.
Definition kMaxChunk : nat := 730.

(** * TLS settings *)

Definition OpenTimeout (ssl : bool) (config : TlsConfig) : Z :=
  if ssl then kLongTimeout + 1000 * handshake_timeout config else kLongTimeout.

Definition HasCertificateMaterial (config : TlsConfig) : bool :=
  bool_decide (ca_cert config ≠ []) || bool_decide (client_cert config ≠ []) || bool_decide (client_key config ≠ []).

Definition SslAuthMode (config : TlsConfig) : Result Z :=
  if HasCertificateMaterial config || bool_decide (alpn_protocols config ≠ []) then
    Err (MkNetworkError kNotSupported 0
      (lit "TLS certificates and ALPN cannot be set from this library: the module takes a certificate file it already holds (AT+MSSLCFG="
       ++ quoted (lit "cert") ++ lit ") and has no ALPN setting"))
  else if negb (Bool.eqb (verify_certificate config) (verify_hostname config)) then
    Err (MkNetworkError kNotSupported 0
      (lit "AT+MSSLCFG=" ++ quoted (lit "auth")
       ++ lit " verifies the certificate chain and the hostname as one setting, so verify_certificate and verify_hostname have to agree"))
  else if (handshake_timeout config <? kMinHandshakeTimeout) || (kMaxHandshakeTimeout <? handshake_timeout config) then
    Err (MkNetworkError kInvalidArgument 0
      (snprintf_ 128 (lit "TlsConfig.handshake_timeout of " ++ to_string (handshake_timeout config)
         ++ lit " s is outside the 10-300 s AT+MSSLCFG=" ++ quoted (lit "negotime") ++ lit " accepts")))
  else Ok (if verify_certificate config then 1 else 0).

Definition IsTlsHandshakeFailure (code : Z) : bool := (code =? 753) || (code =? 762).

Definition DescribeOpenFailure (ssl : bool) (error : NetworkError) : NetworkError :=
  if ssl && IsTlsHandshakeFailure (ne_native error) then
    MkNetworkError kTlsHandshakeFailed (ne_native error)
      (ne_context error ++ lit " - the module refused the TLS connection; this is what a firmware holding no certificate authority answers when asked to verify")
  else error.

Definition IsConnectionIdBusy (error : NetworkError) : bool :=
  bool_decide (ne_code error = kAtCmeError) && (ne_native error =? 552).

Definition ml307_capabilities : ModuleCapabilities :=
  MkCapabilities true true true true true true true true true kMaxConnections 921600.

(** * State *)

Record ConnectionSlot := MkSlot { used : bool; released : bool; released_at : Z }.
Record OpenWait := MkOpenWait { ow_id : Z; ow_code : Z; ow_done : bool }.
Definition no_wait : OpenWait := MkOpenWait (-1) 0 false.

(** The closures [RegisterUrcHandlers] subscribes. *)
Inductive urc_handler := HMipopen | HMipclose | HMiprtcp | HMipurc | HCereg.

#[export] Instance urc_handler_eq_dec : EqDecision urc_handler.
Proof. solve_decision. Defined.

Record Ml307Hal := MkMl307 {
  channel_ : bool;
  urc_handles_ : list (Z * urc_handler);
  slots_ : list ConnectionSlot;
  open_wait_ : OpenWait;
  registration_state_ : RegistrationState;
  last_signal_ : SignalInfo;
}.

Definition new_ml307 : Ml307Hal :=
  MkMl307 false [] (replicate (Z.to_nat kMaxConnections) (MkSlot false false 0)) no_wait kNotRegistered default_signal.

Definition set_channel (h : Ml307Hal) (b : bool) : Ml307Hal :=
  MkMl307 b (urc_handles_ h) (slots_ h) (open_wait_ h) (registration_state_ h) (last_signal_ h).
Definition set_urc_handles (h : Ml307Hal) (l : list (Z * urc_handler)) : Ml307Hal :=
  MkMl307 (channel_ h) l (slots_ h) (open_wait_ h) (registration_state_ h) (last_signal_ h).
Definition set_slots (h : Ml307Hal) (l : list ConnectionSlot) : Ml307Hal :=
  MkMl307 (channel_ h) (urc_handles_ h) l (open_wait_ h) (registration_state_ h) (last_signal_ h).
Definition set_open_wait (h : Ml307Hal) (w : OpenWait) : Ml307Hal :=
  MkMl307 (channel_ h) (urc_handles_ h) (slots_ h) w (registration_state_ h) (last_signal_ h).
Definition set_registration (h : Ml307Hal) (s : RegistrationState) : Ml307Hal :=
  MkMl307 (channel_ h) (urc_handles_ h) (slots_ h) (open_wait_ h) s (last_signal_ h).
Definition set_signal (h : Ml307Hal) (s : SignalInfo) : Ml307Hal :=
  MkMl307 (channel_ h) (urc_handles_ h) (slots_ h) (open_wait_ h) (registration_state_ h) s.

(** * The pool *)

(** The scan of [AllocateConnectionId] from slot [i] on: the first free slot that
    has settled, or else the free slot released longest ago. *)
Fixpoint pick_slot (now i : Z) (slots : list ConnectionSlot) (oldest : option (Z * Z)) : option Z :=
  match slots with
  | [] => fst <$> oldest
  | slot :: slots =>
      if used slot then pick_slot now (i + 1) slots oldest
      else if negb (released slot) || (kCidQuarantine <=? now - released_at slot) then Some i
      else pick_slot now (i + 1) slots
             (match oldest with
              | Some (_, at_) => if released_at slot <? at_ then Some (i, released_at slot) else oldest
              | None => Some (i, released_at slot)
              end)
  end.

Definition take_slot (h : Ml307Hal) (id : Z) : Ml307Hal :=
  set_slots h (alter (λ s, MkSlot true (released s) (released_at s)) (Z.to_nat id) (slots_ h)).

Definition free_slot (h : Ml307Hal) (id now : Z) : Ml307Hal :=
  set_slots h (alter (λ _, MkSlot false true now) (Z.to_nat id) (slots_ h)).

Definition IsConnectionUsed (h : Ml307Hal) (id : Z) : bool :=
  if (id <? 0) || (kMaxConnections <=? id) then false
  else match slots_ h !! Z.to_nat id with Some s => used s | None => false end.

Definition ParseCid (field : bytes) : option Z :=
  match ParseInt field with
  | Some id => if (id <? 0) || (kMaxConnections <=? id) then None else Some id
  | None => None
  end.

(** [fields[i]] *)
Definition field (fields : list bytes) (i : nat) : bytes := nth i fields [].

(** [+MIPOPEN: <id>,<code>], into the rendezvous. *)
Definition RecordOpenResult (args : bytes) (h : Ml307Hal) : Ml307Hal :=
  let fields := SplitCsv args in
  if (length fields <? 2)%nat then h else
  match ParseInt (field fields 0), ParseInt (field fields 1) with
  | Some id, Some code =>
      if negb (ow_id (open_wait_ h) =? id) then h
      else set_open_wait h (MkOpenWait (ow_id (open_wait_ h)) code true)
  | _, _ => h
  end.

(** * Operations *)

Section Ml307.
Context {K W U : Type} `{IModemLink W}.
Local Abbreviation world := (IModuleHal K * (Ml307Hal * (W * U)))%type.
Context (call_data : K → Z → bytes → world → world) (call_close : K → Z → world → world).
Context (call_udp : K → Z → bytes → Z → bytes → world → world).
(** [on_network_state_]; [None] is a callback never set. *)
Context (on_network_state : option (RegistrationState → world → world)).
Local Abbreviation act := (op world NetworkError).

Definition hal (w : world) : Ml307Hal := w.2.1.
Definition link (w : world) : W := w.2.2.1.
Definition set_hal (f : Ml307Hal → Ml307Hal) (w : world) : world := (w.1, (f w.2.1, w.2.2)).
Definition set_link (l : W) (w : world) : world := (w.1, (w.2.1, (l, w.2.2.2))).

Definition ReleaseConnectionId (id : Z) (w : world) : world :=
  if (id <? 0) || (kMaxConnections <=? id) then w else
  let w := set_hal (λ h, free_slot h id (steady_now (link w))) w in
  (DiscardUndelivered w.1 id, w.2).

(** ** Events *)

Definition OnMipopenUrc (args : bytes) (w : world) : world := set_hal (RecordOpenResult args) w.

Definition OnMipcloseUrc (args : bytes) (w : world) : world :=
  match ParseCid (field (SplitCsv args) 0) with
  | Some id => DispatchTcpClose call_close id (ReleaseConnectionId id w)
  | None => w
  end.

Definition OnMiprtcpUrc (args : bytes) (w : world) : world :=
  let fields := SplitCsv args in
  if (length fields <? 3)%nat then w else
  match ParseCid (field fields 0), ParseInt (field fields 1) with
  | Some id, Some _ => DispatchTcpData call_data id (ParseHex (StripQuotes (field fields 2))) w
  | _, _ => w
  end.

Definition OnMipUrc (args : bytes) (w : world) : world :=
  let fields := SplitCsv args in
  if (length fields <? 2)%nat then w else
  let event := StripQuotes (field fields 0) in
  match ParseCid (field fields 1) with
  | None => w
  | Some id =>
      if decide (event = lit "rtcp") then
        if (length fields <? 4)%nat then w else
        DispatchTcpData call_data id (ParseHex (StripQuotes (field fields 3))) w
      else if decide (event = lit "rudp") then
        if (length fields <? 4)%nat then w else
        let data := ParseHex (StripQuotes (field fields 3)) in
        let '(host, port) :=
          if (6 <=? length fields)%nat then
            (StripQuotes (field fields 4), match ParseInt (field fields 5) with Some p => u16 p | None => 0 end)
          else ([], 0) in
        DispatchUdpData call_udp id host port data w
      else if decide (event = lit "disconn") then
        DispatchTcpClose call_close id (ReleaseConnectionId id w)
      else w
  end.

Definition OnCeregUrc (args : bytes) (w : world) : world :=
  let fields := SplitCsv args in
  let stat_idx := if (2 <=? length fields)%nat then 1%nat else 0%nat in
  match ParseInt (field fields stat_idx) with
  | None => w
  | Some stat =>
      let state := registration_of stat in
      let w := set_hal (λ h, set_registration h state) w in
      match on_network_state with Some f => f state w | None => w end
  end.

Definition run_handler (k : urc_handler) (args : bytes) : world → world :=
  match k with
  | HMipopen => OnMipopenUrc args
  | HMipclose => OnMipcloseUrc args
  | HMiprtcp => OnMiprtcpUrc args
  | HMipurc => OnMipUrc args
  | HCereg => OnCeregUrc args
  end.

(** A handler call: the closure the handle was given for. *)
Definition on_urc (w : world) (i : invocation) : world :=
  match list_find (λ e, e.1 = iv_handle i) (urc_handles_ (hal w)) with
  | Some (_, (_, k)) => run_handler k (iv_arguments i) w
  | None => w
  end.

Definition on_happening (w : world) (h : happening) : world :=
  match h with Line i => on_urc w i | Reader => w end.

(** ** Commands and waits *)

Definition command (cmd : bytes) (timeout : Z) : act AtResult := λ w,
  let '(l, calls, r) := at_command cmd timeout (link w) in
  (fold_left on_urc calls (set_link l w), Ok r).

Definition sleep (ms : Z) : act unit := λ w,
  let '(l, hs) := pause ms (link w) in (fold_left on_happening hs (set_link l w), Ok ()).

(** [cv.wait_for] with a predicate. *)
Definition wait_for (timeout : Z) (pred : world → bool) : act unit := λ w,
  if pred w then (w, Ok ()) else sleep timeout w.

(** [auto r = SendCommand(...); if (!r) return unexpected(...)] *)
Definition checked (cmd : bytes) (timeout : Z) : act unit :=
  let! r := command cmd timeout in
  match r with Err e => fail (ToNetworkError e) | Ok _ => ret () end.

Definition channel_not_set : NetworkError := net_error kNotInitialized "channel not set".

Definition with_channel {A} (m : act A) : act A :=
  let! set := gets (λ w, channel_ (hal w)) in
  if set then m else fail channel_not_set.

(** A call through [channel_] that the code does not guard. *)
Definition through_channel {A} (m : act A) (w : world) : option (world * Result A) :=
  if channel_ (hal w) then Some (m w) else None.

Definition ReadSingleLineResponse (cmd : bytes) : act bytes :=
  checked cmd 5000 ;;;
  let! lines := gets (λ w, at_lines (link w)) in
  match lines with
  | [] => fail (net_error kProtocolError "empty response")
  | line :: _ => ret line
  end.

(** ** Lifecycle and the SIM *)

Definition subscribe (prefix : string) (k : urc_handler) (w : world) : world :=
  let '(l, handle) := at_subscribe (lit prefix) (link w) in
  set_hal (λ h, set_urc_handles h (urc_handles_ h ++ [(handle, k)])) (set_link l w).

Definition RegisterUrcHandlers (w : world) : world :=
  if negb (channel_ (hal w)) then w else
  let w := subscribe "+MIPOPEN" HMipopen w in
  let w := subscribe "+MIPCLOSE" HMipclose w in
  let w := subscribe "+MIPRTCP" HMiprtcp w in
  let w := subscribe "+MIPURC" HMipurc w in
  subscribe "+CEREG" HCereg w.

Definition UnregisterUrcHandlers (w : world) : world :=
  if negb (channel_ (hal w)) then w else
  let w := set_link (fold_left (λ l e, at_unsubscribe e.1 l) (urc_handles_ (hal w)) (link w)) w in
  set_hal (λ h, set_urc_handles h []) w.

(** The destructor. *)
Definition destroy (w : world) : world := if channel_ (hal w) then UnregisterUrcHandlers w else w.

Definition Initialize : act unit :=
  modify (set_hal (λ h, set_channel h true)) ;;;
  checked (lit "ATE0") kDefaultTimeout ;;;
  checked (lit "AT+CFUN=1") kDefaultTimeout ;;;
  modify RegisterUrcHandlers.

Definition Reset : act unit := with_channel (checked (lit "AT+CFUN=1,1") kLongTimeout).

Definition GetSimState : act SimState :=
  let! set := gets (λ w, channel_ (hal w)) in
  if negb set then ret kSimUnknown else
  let! result := attempt (ReadSingleLineResponse (lit "AT+CPIN?")) in
  match result with
  | Err _ => ret kSimUnknown
  | Ok response =>
      let has s := bool_decide (find_sub (lit s) response ≠ None) in
      ret (if has "READY" then kSimReady
           else if has "SIM PIN" then kPinRequired
           else if has "SIM PUK" then kPukRequired
           else if has "NOT INSERTED" then kNotInserted
           else kSimUnknown)
  end.

Definition ActivatePdp : act unit :=
  with_channel (
    let! query := attempt (ReadSingleLineResponse (lit "AT+MIPCALL?")) in
    let active := match query with
                  | Err _ => false
                  | Ok response =>
                      let fields := SplitCsv (StripKeyPrefix response) in
                      (2 <=? length fields)%nat && bool_decide (ParseInt (field fields 1) = Some 1)
                  end in
    if active then ret () else checked (lit "AT+MIPCALL=1,1") kLongTimeout).

(** The error of a step, with the step's name in front. *)
Definition step {A} (name : string) (m : act A) : act A :=
  let! r := attempt m in
  match r with
  | Ok a => ret a
  | Err e => fail (MkNetworkError (ne_code e) (ne_native e) (lit name ++ lit ": " ++ ne_context e))
  end.

Definition ConfigureApn (config : ApnConfig) : act unit :=
  with_channel (
    step "AT+CGDCONT" (checked (lit "AT+CGDCONT=1," ++ quoted (lit "IP") ++ lit "," ++ quoted (apn config)) kDefaultTimeout) ;;;
    (if decide (apn_username config = []) then ret () else
     step "AT+CGAUTH" (checked (lit "AT+CGAUTH=1,1," ++ quoted (apn_username config) ++ lit ","
                                ++ quoted (apn_password config)) kDefaultTimeout)) ;;;
    step "AT+MIPCALL" ActivatePdp).

Definition GetRegistrationState : act RegistrationState :=
  let! set := gets (λ w, channel_ (hal w)) in
  if negb set then ret kRegistrationUnknown else
  let! result := attempt (ReadSingleLineResponse (lit "AT+CEREG?")) in
  match result with
  | Err _ => ret kRegistrationUnknown
  | Ok response =>
      let fields := SplitCsv (StripKeyPrefix response) in
      ret (match ParseInt (field fields (if (2 <=? length fields)%nat then 1%nat else 0%nat)) with
           | Some stat => registration_of stat
           | None => kRegistrationUnknown
           end)
  end.

Definition GetSignalInfo : act SignalInfo :=
  let! last := gets (λ w, last_signal_ (hal w)) in
  let! set := gets (λ w, channel_ (hal w)) in
  if negb set then ret last else
  let! result := attempt (ReadSingleLineResponse (lit "AT+CSQ")) in
  let! last := gets (λ w, last_signal_ (hal w)) in
  match result with
  | Err _ => ret last
  | Ok response =>
      let fields := SplitCsv (StripKeyPrefix response) in
      if (length fields <? 2)%nat then ret last else
      let info := MkSignalInfo (default 99 (ParseInt (field fields 0))) (default 99 (ParseInt (field fields 1))) in
      modify (set_hal (λ h, set_signal h info)) ;;;
      ret info
  end.

Definition GetImei : world → option (world * Result bytes) :=
  through_channel (let! line := ReadSingleLineResponse (lit "AT+CGSN=1") in ret (StripQuotes (StripKeyPrefix line))).
Definition GetIccid : world → option (world * Result bytes) :=
  through_channel (let! line := ReadSingleLineResponse (lit "AT+ICCID") in ret (StripQuotes (StripKeyPrefix line))).
Definition GetRevision : world → option (world * Result bytes) :=
  through_channel (ReadSingleLineResponse (lit "AT+CGMR")).
Definition GetCarrier : world → option (world * Result bytes) :=
  through_channel (
    let! line := ReadSingleLineResponse (lit "AT+COPS?") in
    let fields := SplitCsv (StripKeyPrefix line) in
    if (length fields <? 3)%nat then fail (net_error kProtocolError "failed to parse COPS")
    else ret (StripQuotes (field fields 2))).

Definition SetFlightMode (enable : bool) : act unit :=
  with_channel (checked (lit (if enable then "AT+CFUN=0" else "AT+CFUN=1")) kDefaultTimeout).
Definition EnterSleep : act unit := with_channel (checked (lit "AT+SLEEP=2") kDefaultTimeout).
Definition ExitSleep : act unit := with_channel (checked (lit "AT+SLEEP=0") kDefaultTimeout).

(** ** Opening a socket *)

Definition AllocateConnectionId (first : Z) : act Z := λ w,
  match pick_slot (steady_now (link w)) first (drop (Z.to_nat first) (slots_ (hal w))) None with
  | None => (w, Ok (-1))
  | Some id => ((DiscardUndelivered w.1 id, (take_slot (hal w) id, w.2.2)), Ok id)
  end.

(** The state of a socket in the answer to AT+MIPSTATE. *)
Fixpoint socket_state (lines : list bytes) : bool :=
  match lines with
  | [] => false
  | line :: lines =>
      if negb (starts_with (lit "+MIPSTATE") line) then socket_state lines else
      let fields := SplitCsv (StripKeyPrefix line) in
      if (length fields <? 5)%nat then socket_state lines
      else bool_decide (StripQuotes (field fields 4) ≠ lit "INITIAL")
  end.

Definition QuerySocketActive (id : Z) : act bool :=
  let! r := command (snprintf_ 32 (lit "AT+MIPSTATE=" ++ to_string id)) kDefaultTimeout in
  match r with
  | Err e => if decide (at_code e = kCmeError) then ret false else fail (ToNetworkError e)
  | Ok _ => gets (λ w, socket_state (at_lines (link w)))
  end.

(** The poll for a cid that was just closed. *)
Fixpoint await_released (attempts : nat) (id : Z) : act bool :=
  match attempts with
  | O => ret false
  | S k =>
      sleep kClosePollInterval ;;;
      let! state := QuerySocketActive id in
      if negb state then ret false else await_released k id
  end.

Definition EnsureSocketFree (id : Z) : act bool :=
  let! active := QuerySocketActive id in
  if negb active then ret true else
  let! closed := command (snprintf_ 32 (lit "AT+MIPCLOSE=" ++ to_string id)) kDefaultTimeout in
  match closed with
  | Err e => if decide (at_code e = kCmeError) then await_released kClosePollAttempts id
             else fail (ToNetworkError e)
  | Ok _ => await_released kClosePollAttempts id
  end.

Definition ConfigureSsl (id : Z) (enable : bool) (config : TlsConfig) : act unit :=
  if negb enable then
    if HasCertificateMaterial config then
      fail (net_error kNotSupported "a TlsConfig with certificate material was given to a plaintext socket; the connection would be unauthenticated, so the material is refused rather than dropped")
    else checked (snprintf_ 64 (lit "AT+MIPCFG=" ++ quoted (lit "ssl") ++ lit "," ++ to_string id ++ lit ",0,0")) kDefaultTimeout
  else
    match SslAuthMode config with
    | Err e => fail e
    | Ok auth =>
        checked (snprintf_ 64 (lit "AT+MSSLCFG=" ++ quoted (lit "auth") ++ lit "," ++ to_string id ++ lit "," ++ to_string auth))
          kDefaultTimeout ;;;
        checked (snprintf_ 64 (lit "AT+MSSLCFG=" ++ quoted (lit "negotime") ++ lit "," ++ to_string id ++ lit ","
                               ++ to_string (handshake_timeout config))) kDefaultTimeout ;;;
        checked (snprintf_ 64 (lit "AT+MIPCFG=" ++ quoted (lit "ssl") ++ lit "," ++ to_string id ++ lit ",1," ++ to_string id))
          kDefaultTimeout
    end.

Definition ConfigureEncoding (id : Z) : act unit :=
  checked (snprintf_ 64 (lit "AT+MIPCFG=" ++ quoted (lit "encoding") ++ lit "," ++ to_string id ++ lit ",1,1")) kDefaultTimeout.

Definition ArmOpenWait (id : Z) (w : world) : world := set_hal (λ h, set_open_wait h (MkOpenWait id 0 false)) w.

(** What [WaitForOpenResult] returns once its wait is over. *)
Definition open_result (id : Z) : act unit :=
  let! wait := gets (λ w, open_wait_ (hal w)) in
  modify (set_hal (λ h, set_open_wait h no_wait)) ;;;
  if negb (ow_done wait) then
    fail (MkNetworkError kTimeout 0 (lit "timed out waiting for +MIPOPEN for connection " ++ to_string id))
  else if negb (ow_code wait =? 0) then
    fail (MkNetworkError kConnectFailed (ow_code wait)
            (lit "module refused connection " ++ to_string id ++ lit " (code " ++ to_string (ow_code wait) ++ lit ")"))
  else ret ().

Definition WaitForOpenResult (id timeout : Z) : act unit :=
  wait_for timeout (λ w, ow_done (open_wait_ (hal w))) ;;; open_result id.

Definition open_command (id : Z) (type host : bytes) (port : Z) : bytes :=
  snprintf_ 256 (lit "AT+MIPOPEN=" ++ to_string id ++ lit "," ++ quoted (c_text type) ++ lit "," ++ quoted (c_text host)
                 ++ lit "," ++ to_string port ++ lit ",,0").

Definition OpenOnId (id : Z) (type host : bytes) (port timeout : Z) : act unit :=
  modify (ArmOpenWait id) ;;;
  checked (open_command id type host port) timeout ;;;
  WaitForOpenResult id timeout.

Definition no_slot (first : Z) : act Z :=
  if first =? 0 then fail (net_error kNoResources "no available connection slots")
  else fail (net_error kNoResources "every connection slot is already in use on the module").

(** The loop of [OpenSocket]. *)
Fixpoint open_loop (fuel : nat) (first : Z) (type host : bytes) (port : Z) (ssl : bool) (config : TlsConfig) : act Z :=
  match fuel with
  | O => no_slot first
  | S k =>
      if kMaxConnections <=? first then no_slot first else
      let! id := AllocateConnectionId first in
      if id <? 0 then no_slot first else
      let release (error : NetworkError) : act Z := modify (ReleaseConnectionId id) ;;; fail error in
      let next : act Z := modify (ReleaseConnectionId id) ;;; open_loop k (id + 1) type host port ssl config in
      let! ready := attempt (EnsureSocketFree id) in
      match ready with
      | Err e => release e
      | Ok false => next
      | Ok true =>
          let! r := attempt (ConfigureSsl id ssl config ;;; ConfigureEncoding id) in
          match r with
          | Err e => release e
          | Ok _ =>
              let! opened := attempt (OpenOnId id type host port (OpenTimeout ssl config)) in
              match opened with
              | Err e => if IsConnectionIdBusy e then next else release (DescribeOpenFailure ssl e)
              | Ok _ => ret id
              end
          end
      end
  end.

(** One attempt per cid. *)
Definition OpenSocket (type host : bytes) (port : Z) (ssl : bool) (config : TlsConfig) : act Z :=
  open_loop (Z.to_nat kMaxConnections) 0 type host port ssl config.

(** ** Sending and closing *)

(** The loop of [SendHexPayload]; each turn takes at least one byte. *)
Fixpoint send_chunks (fuel : nat) (connect_id : Z) (data : bytes) : act unit :=
  match fuel, data with
  | O, _ | _, [] => ret ()
  | S k, _ =>
      let chunk := take kMaxChunk data in
      checked (lit "AT+MIPSEND=" ++ to_string connect_id ++ lit "," ++ to_string (Z.of_nat (length chunk)) ++ lit ","
               ++ EncodeHex chunk) kLongTimeout ;;;
      send_chunks k connect_id (drop kMaxChunk data)
  end.

Definition SendHexPayload (connect_id : Z) (data : bytes) : act Z :=
  with_channel (send_chunks (length data) connect_id data ;;; ret (to_int (Z.of_nat (length data)))).

Definition CloseConnection (connect_id : Z) : act unit :=
  with_channel (
    let! held := gets (λ w, IsConnectionUsed (hal w) connect_id) in
    if negb held then ret () else
    let! r := command (snprintf_ 64 (lit "AT+MIPCLOSE=" ++ to_string connect_id)) kDefaultTimeout in
    modify (ReleaseConnectionId connect_id) ;;;
    match r with
    | Err e => if decide (at_code e = kCmeError) then ret () else fail (ToNetworkError e)
    | Ok _ => ret ()
    end).

Definition TcpConnect (host : bytes) (port : Z) (ssl : bool) (config : TlsConfig) : act Z :=
  with_channel (OpenSocket (lit "TCP") host port ssl config).
Definition TcpClose : Z → act unit := CloseConnection.
Definition TcpSend : Z → bytes → act Z := SendHexPayload.
Definition UdpOpen (host : bytes) (port : Z) : act Z :=
  with_channel (OpenSocket (lit "UDP") host port false default_tls).
Definition UdpClose : Z → act unit := CloseConnection.
Definition UdpSend : Z → bytes → act Z := SendHexPayload.
End Ml307.

(** * Identification *)

Definition DetectMl307 `{IAtChannel C} (c : C) : C * bool :=
  let '(c, r) := ch_send c (lit "AT") 1000 in
  match r with
  | Err _ => (c, false)
  | Ok _ =>
      let '(c, r) := ch_send c (lit "AT+CGMR") 1000 in
      match r with
      | Err _ => (c, false)
      | Ok _ => (c, existsb (λ line, bool_decide (find_sub (lit "ML307") line ≠ None)) (ch_lines c))
      end
  end.
