(* ===== verification/Ml307Facts.v ===== *)
(** What the ML307 HAL's operations do to the pool and to the line, whatever the
    module reports meanwhile.

    A client's callback runs on the channel's receive task, so it may change the
    routes and its own state but sends no command and leaves the HAL's members
    alone ([calm_callbacks]). *)
From stdpp Require Import base decidable list strings gmap.
From Stdlib Require Import ZArith Ascii Lia.
From S2P Require Import Prelude Errors CommonTypes StateResult AtParser UrcDispatcher HalRoutes ModemLink Ml307Hal.

(** * Specification: what went over the line *)

(** The commands among a record of exchanges, with their answers. *)
Definition commands (l : list exchange) : list (bytes * AtResult) :=
  omap (λ x, match x with XCommand c a => Some (c, a) | _ => None end) l.

Lemma commands_app l l' : commands (l ++ l') = commands l ++ commands l'.
Proof. apply omap_app. Qed.
Lemma commands_heard calls : commands (XHeard <$> calls) = [].
Proof. by induction calls. Qed.
Lemma commands_heard_in hs : commands (heard_in hs) = [].
Proof. by induction hs as [|[i|] hs IH]. Qed.

(** The report of an open a handler call brings: the cid and the code. *)
Definition open_report (handles : list (Z * urc_handler)) (i : invocation) : option (Z * Z) :=
  match list_find (λ e, e.1 = iv_handle i) handles with
  | Some (_, (_, HMipopen)) =>
      let fields := SplitCsv (iv_arguments i) in
      if (length fields <? 2)%nat then None else
      match ParseInt (field fields 0), ParseInt (field fields 1) with
      | Some id, Some code => Some (id, code)
      | _, _ => None
      end
  | _ => None
  end.

(** The codes reported for one cid, in order. *)
Definition codes (handles : list (Z * urc_handler)) (id : Z) (l : list exchange) : list Z :=
  omap (λ x, match x with
             | XHeard i => match open_report handles i with
                           | Some (id', code) => if id' =? id then Some code else None
                           | None => None
                           end
             | _ => None
             end) l.

Lemma codes_app handles id l l' : codes handles id (l ++ l') = codes handles id l ++ codes handles id l'.
Proof. apply omap_app. Qed.
Lemma codes_command handles id c a : codes handles id [XCommand c a] = [].
Proof. done. Qed.

(** The rendezvous after these codes. *)
Definition after_codes (ow : OpenWait) (cs : list Z) : OpenWait :=
  match last cs with Some c => MkOpenWait (ow_id ow) c true | None => ow end.

Lemma after_codes_app ow cs cs' : after_codes (after_codes ow cs) cs' = after_codes ow (cs ++ cs').
Proof. unfold after_codes. rewrite last_app. destruct (last cs'), (last cs); done. Qed.

Section Facts.
Context {K U W0 : Type} `{IModemLink W0}.
Local Abbreviation world := (IModuleHal K * (Ml307Hal * ((W0 * list exchange) * U)))%type.
Context (call_data : K → Z → bytes → world → world) (call_close : K → Z → world → world).
Context (call_udp : K → Z → bytes → Z → bytes → world → world).
Context (on_network_state : option (RegistrationState → world → world)).
Local Abbreviation act := (op world NetworkError).
Local Abbreviation on_urc := (on_urc call_data call_close call_udp on_network_state).
Local Abbreviation command := (command call_data call_close call_udp on_network_state).
Local Abbreviation checked := (checked call_data call_close call_udp on_network_state).
Local Abbreviation sleep := (sleep call_data call_close call_udp on_network_state).
Implicit Types w : world.

(** The HAL's members and the link are as they were. *)
Definition same w w' : Prop := hal w' = hal w ∧ link w' = link w.

Record calm_callbacks : Prop := {
  calm_data : ∀ k cid d w, same w (call_data k cid d w);
  calm_close : ∀ k cid w, same w (call_close k cid w);
  calm_udp : ∀ k cid host port d w, same w (call_udp k cid host port d w);
  calm_state : ∀ f s w, on_network_state = Some f → same w (f s w);
}.

Definition log w : list exchange := (link w).2.

(** Nothing was undone: the record only grew, and cids were only given back. *)
Record later w w' : Prop := {
  lt_log : log w `prefix_of` log w';
  lt_channel : channel_ (hal w') = channel_ (hal w);
  lt_handles : urc_handles_ (hal w') = urc_handles_ (hal w);
  lt_slots : length (slots_ (hal w')) = length (slots_ (hal w));
  lt_used : ∀ i, IsConnectionUsed (hal w') i = true → IsConnectionUsed (hal w) i = true;
}.

Lemma later_refl w : later w w.
Proof. by constructor. Qed.
Lemma later_trans w w1 w2 : later w w1 → later w1 w2 → later w w2.
Proof. intros [] []. constructor; try congruence; [by etrans|auto]. Qed.
Lemma later_same w w' : same w w' → later w w'.
Proof. intros [E1 E2]. constructor; unfold log; rewrite ?E1, ?E2; done. Qed.

(** And the commands sent are these. *)
Definition did w w' (cs : list (bytes * AtResult)) : Prop :=
  later w w' ∧ ∃ l, log w' = log w ++ l ∧ commands l = cs.

Lemma did_refl w w' : later w w' → log w' = log w → did w w' [].
Proof. intros Hl E. split; [done|]. exists []. by rewrite app_nil_r. Qed.
Lemma did_trans w w1 w2 cs cs' : did w w1 cs → did w1 w2 cs' → did w w2 (cs ++ cs').
Proof.
  intros [L1 (l1 & E1 & <-)] [L2 (l2 & E2 & <-)]. split; [by eapply later_trans|].
  exists (l1 ++ l2). by rewrite E2, E1, commands_app, app_assoc.
Qed.

(** ** Events *)

Lemma free_slot_used h id now i : IsConnectionUsed (free_slot h id now) i = true → IsConnectionUsed h i = true.
Proof.
  unfold IsConnectionUsed, free_slot. cbn [slots_ set_slots]. destruct (_ || _); [done|].
  destruct (decide (Z.to_nat id = Z.to_nat i)) as [->|Hne].
  - rewrite list_lookup_alter_eq. by destruct (slots_ h !! Z.to_nat i).
  - by rewrite list_lookup_alter_ne.
Qed.

(** An event changes neither the line nor what it is not about. *)
Definition heard w w' (i : invocation) : Prop :=
  later w w' ∧ link w' = link w ∧
  ∀ id, ow_id (open_wait_ (hal w)) = id →
    open_wait_ (hal w') = after_codes (open_wait_ (hal w)) (codes (urc_handles_ (hal w)) id [XHeard i]).

Lemma released_later id w : later w (ReleaseConnectionId id w) ∧ link (ReleaseConnectionId id w) = link w ∧
  open_wait_ (hal (ReleaseConnectionId id w)) = open_wait_ (hal w).
Proof.
  unfold ReleaseConnectionId. destruct (_ || _); [split; [apply later_refl|done]|].
  split; [|done]. constructor; try done.
  - unfold set_hal, hal, free_slot. cbn. by rewrite length_alter.
  - intros i. apply free_slot_used.
Qed.

Context (Hcalm : calm_callbacks).

Lemma DispatchTcpData_same cid d w : same w (DispatchTcpData call_data cid d w).
Proof.
  unfold DispatchTcpData. destruct (FindTcpRouteLocked _ _) as [r|]; [|done].
  destruct (tr_on_data r); [apply Hcalm|done].
Qed.

Lemma fold_same {A} (f : world → A → world) l w : (∀ w a, same w (f w a)) → same w (fold_left f l w).
Proof.
  intros Hf. revert w; induction l as [|a l IH]; intros w; [done|]. cbn.
  destruct (Hf w a) as [E1 E2], (IH (f w a)) as [E3 E4]. split; congruence.
Qed.

Lemma DispatchTcpClose_same cid w : same w (DispatchTcpClose call_close cid w).
Proof.
  unfold DispatchTcpClose. destruct (end_routes w.1 cid) as [h ks].
  change (same (h, w.2) (fold_left (λ w0 handler, call_close handler cid w0) ks (h, w.2))).
  apply fold_same. intros. apply Hcalm.
Qed.

Lemma DispatchUdpData_same cid host port d w : same w (DispatchUdpData call_udp cid host port d w).
Proof.
  unfold DispatchUdpData. destruct (FindUdpRouteLocked _ _) as [r|]; [|done].
  destruct (ur_on_data r); [apply Hcalm|done].
Qed.

Lemma same_later w w1 w2 : later w w1 → link w1 = link w → open_wait_ (hal w1) = open_wait_ (hal w) → same w1 w2 →
  later w w2 ∧ link w2 = link w ∧ open_wait_ (hal w2) = open_wait_ (hal w).
Proof.
  intros L E1 E2 S. split_and!; [by eapply later_trans, later_same|destruct S; congruence|destruct S; congruence].
Qed.

(** All events but the report of an open leave the rendezvous alone. *)
Lemma other_event k args w : k ≠ HMipopen →
  let w' := run_handler call_data call_close call_udp on_network_state k args w in
  later w w' ∧ link w' = link w ∧ open_wait_ (hal w') = open_wait_ (hal w).
Proof.
  assert (∀ w', same w w' → later w w' ∧ link w' = link w ∧ open_wait_ (hal w') = open_wait_ (hal w)) as Hs.
  { intros w' S. apply (same_later w w w'); (apply later_refl || done). }
  assert (∀ id, let w' := DispatchTcpClose call_close id (ReleaseConnectionId id w) in
    later w w' ∧ link w' = link w ∧ open_wait_ (hal w') = open_wait_ (hal w)) as Hc.
  { intros id. destruct (released_later id w) as (L & E1 & E2).
    apply (same_later w _ _ L E1 E2), DispatchTcpClose_same. }
  intros Hk. destruct k; try done; cbn [run_handler].
  - unfold OnMipcloseUrc. destruct (ParseCid _); [apply Hc|by apply Hs].
  - unfold OnMiprtcpUrc. destruct (_ <? _)%nat; [by apply Hs|]. destruct (ParseCid _); [|by apply Hs].
    destruct (ParseInt _); [|by apply Hs]. apply Hs, DispatchTcpData_same.
  - unfold OnMipUrc. destruct (_ <? _)%nat; [by apply Hs|]. destruct (ParseCid _) as [id|]; [|by apply Hs].
    destruct (decide _). { destruct (_ <? _)%nat; [by apply Hs|apply Hs, DispatchTcpData_same]. }
    destruct (decide _).
    { destruct (_ <? _)%nat; [by apply Hs|]. destruct (if (6 <=? _)%nat then _ else _). apply Hs, DispatchUdpData_same. }
    destruct (decide _); [apply Hc|by apply Hs].
  - unfold OnCeregUrc. destruct (ParseInt _) as [stat|]; [|by apply Hs].
    set (w1 := set_hal _ w).
    assert (later w w1 ∧ link w1 = link w ∧ open_wait_ (hal w1) = open_wait_ (hal w)) as (L & E1 & E2).
    { split; [|done]. by constructor. }
    destruct on_network_state as [f|] eqn:Ef; [|done]. apply (same_later w w1 _ L E1 E2), (calm_state Hcalm _ _ _ Ef).
Qed.

Lemma on_urc_heard w i : heard w (on_urc w i) i.
Proof.
  unfold heard, Ml307Hal.on_urc, codes, open_report. cbn [omap list_omap].
  destruct (list_find _ _) as [[n [hd k]]|]; [|by split; [apply later_refl|]].
  destruct (decide (k = HMipopen)) as [->|Hk].
  2: { destruct (other_event k (iv_arguments i) w Hk) as (L & E1 & E2). split_and!; [done|done|].
       intros id _. rewrite E2. by destruct k. }
  cbn [run_handler]. unfold OnMipopenUrc, RecordOpenResult.
  assert (later w (set_hal (λ h, h) w)) as L by done.
  unfold set_hal. cbn [hal fst snd]. change (w.2.1) with (hal w).
  destruct (_ <? _)%nat; [split_and!; try done; by destruct w as [? [? ?]]|].
  destruct (ParseInt (field _ 0)) as [id'|]; [|split_and!; try done; by destruct w as [? [? ?]]].
  destruct (ParseInt (field _ 1)) as [code|]; [|split_and!; try done; by destruct w as [? [? ?]]].
  destruct (Z.eqb_spec (ow_id (open_wait_ (hal w))) id') as [E|Hne]; cbn [negb].
  - split_and!; [by constructor|done|]. intros id <-. rewrite (proj2 (Z.eqb_eq id' _)) by done. done.
  - split_and!; [done|done|]. intros id <-.
    rewrite (proj2 (Z.eqb_neq id' _)) by congruence. done.
Qed.

Lemma heard_all calls w : let w' := fold_left on_urc calls w in
  later w w' ∧ link w' = link w ∧
  ∀ id, ow_id (open_wait_ (hal w)) = id →
    open_wait_ (hal w') = after_codes (open_wait_ (hal w)) (codes (urc_handles_ (hal w)) id (XHeard <$> calls)).
Proof.
  revert w; induction calls as [|i calls IH]; intros w; [by split; [apply later_refl|]|]. cbn [fold_left].
  destruct (on_urc_heard w i) as (L1 & E1 & O1). destruct (IH (on_urc w i)) as (L2 & E2 & O2).
  split_and!; [by eapply later_trans|congruence|]. intros id Hid.
  rewrite (O2 id). 2: { rewrite (O1 id Hid). unfold after_codes. by destruct (last _). }
  rewrite (O1 id Hid), (lt_handles _ _ L1), after_codes_app.
  change (XHeard <$> i :: calls) with ([XHeard i] ++ (XHeard <$> calls)). by rewrite codes_app.
Qed.

(** ** Commands and waits *)

Lemma log_link l w : log (set_link l w) = l.2.
Proof. done. Qed.

(** What a command does: the answer, and what the module said before it. *)
Lemma command_spec cmd timeout w : wp (command cmd timeout) (λ r w', ∃ a calls, r = Ok a ∧ later w w' ∧
  log w' = log w ++ (XHeard <$> calls) ++ [XCommand cmd a] ∧
  ∀ id, ow_id (open_wait_ (hal w)) = id →
    open_wait_ (hal w') = after_codes (open_wait_ (hal w)) (codes (urc_handles_ (hal w)) id (XHeard <$> calls))) w.
Proof.
  apply wp_intro. intros w' r E. unfold Ml307Hal.command in E. cbn [at_command recorded_link] in E.
  destruct (at_command cmd timeout (link w).1) as [[l1 calls] a]. cbn in E. injection E as <- <-.
  exists a, calls. split; [done|]. set (l := (l1, (link w).2 ++ (XHeard <$> calls) ++ [XCommand cmd a])).
  destruct (heard_all calls (set_link l w)) as (L & E & O). split_and!.
  - eapply later_trans; [|exact L]. constructor; try done. rewrite log_link. by eexists.
  - unfold log. by rewrite E.
  - intros id Hid. by apply (O id).
Qed.

Lemma sleep_spec ms w : wp (sleep ms) (λ r w', ∃ calls, r = Ok () ∧ later w w' ∧ log w' = log w ++ (XHeard <$> calls) ∧
  ∀ id, ow_id (open_wait_ (hal w)) = id →
    open_wait_ (hal w') = after_codes (open_wait_ (hal w)) (codes (urc_handles_ (hal w)) id (XHeard <$> calls))) w.
Proof.
  apply wp_intro. intros w' r E. unfold Ml307Hal.sleep in E. cbn [pause recorded_link] in E.
  destruct (pause ms (link w).1) as [l1 hs]. cbn in E. injection E as <- <-.
  set (calls := omap (λ h, match h with Line i => Some i | Reader => None end) hs).
  assert (heard_in hs = XHeard <$> calls) as ->.
  { unfold calls, heard_in. induction hs as [|[i|] hs IH]; cbn; [done|by f_equal|done]. }
  assert (∀ v, fold_left (on_happening call_data call_close call_udp on_network_state) hs v = fold_left on_urc calls v) as ->.
  { unfold calls. induction hs as [|[i|] hs IH]; intros v; cbn; [done|by rewrite IH|by rewrite IH]. }
  exists calls. split; [done|]. set (l := (l1, (link w).2 ++ (XHeard <$> calls))).
  destruct (heard_all calls (set_link l w)) as (L & E & O). split_and!.
  - eapply later_trans; [|exact L]. constructor; try done. rewrite log_link. by eexists.
  - unfold log. by rewrite E.
  - intros id Hid. by apply (O id).
Qed.

Lemma wp_wait_for timeout pred (Q : Result unit → world → Prop) w : (pred w = true → Q (Ok ()) w) →
  (pred w = false → wp (sleep timeout) Q w) →
  wp (wait_for call_data call_close call_udp on_network_state timeout pred) Q w.
Proof. intros H1 H2. unfold Ml307Hal.wait_for, wp in *. destruct (pred w); auto. Qed.

Lemma command_did cmd timeout w :
  wp (command cmd timeout) (λ r w', ∃ a, r = Ok a ∧ did w w' [(cmd, a)]) w.
Proof.
  eapply wp_mono; [apply command_spec|]. intros r w' (a & calls & -> & L & E & _). exists a. split; [done|].
  split; [done|]. eexists; split; [exact E|]. by rewrite commands_app, commands_heard.
Qed.

Lemma checked_did cmd timeout w : wp (checked cmd timeout) (λ r w',
  match r with
  | Ok _ => did w w' [(cmd, Ok ())]
  | Err e => ∃ a, e = ToNetworkError a ∧ did w w' [(cmd, Err a)]
  end) w.
Proof.
  unfold Ml307Hal.checked. wp_run. eapply wp_mono; [apply command_did|]. intros r w' (a & -> & D).
  destruct a as [[]|a]; wp_run; [done|by exists a].
Qed.

Lemma sleep_did ms w : wp (sleep ms) (λ r w', r = Ok () ∧ did w w' []) w.
Proof.
  eapply wp_mono; [apply sleep_spec|]. intros r w' (calls & -> & L & E & _). split; [done|]. split; [done|].
  eexists; split; [exact E|]. apply commands_heard.
Qed.
End Facts.

(** * A HAL to try things on *)

(** Its only client notes what it hears. *)
Definition note_data (k : nat) (cid : Z) (d : bytes)
  (w : IModuleHal nat * (Ml307Hal * ((uart_link * list exchange) * list (Z * bytes)))) :=
  (w.1, (w.2.1, (w.2.2.1, w.2.2.2 ++ [(cid, d)]))).
Definition note_close (k : nat) (cid : Z) (w : IModuleHal nat * (Ml307Hal * ((uart_link * list exchange) * list (Z * bytes)))) := w.
Definition note_udp (k : nat) (cid : Z) (host : bytes) (port : Z) := note_data k cid.

Lemma notes_calm : calm_callbacks note_data note_close note_udp None.
Proof. by constructor. Qed.

(** Initialized over a UART whose module answers so from then on. *)
Definition sample_ml307 (answers : list (option (Z * Z) * list bytes)) (idle : list (list bytes * bool))
  : IModuleHal nat * (Ml307Hal * ((uart_link * list exchange) * list (Z * bytes))) :=
  (Initialize note_data note_close note_udp None
    (new_hal, (new_ml307, ((MkUartLink (AtUart.new_uart 115200) (ok_after [] :: ok_after [] :: answers) idle 5000, []), [])))).1.
