(* ===== verification/Ml307Sockets.v ===== *)
(** Opening, sending on and closing sockets of the ML307: which cids are held,
    what the module was told before a socket is called open, and what goes out. *)
From stdpp Require Import base decidable list strings gmap.
From Stdlib Require Import ZArith Ascii Lia.
From S2P Require Import Prelude Errors CommonTypes StateResult AtParser UrcDispatcher AtUart HalRoutes ModemLink Ml307Hal.
From S2P Require Import Ml307Facts.

(** * Specification: the commands of an open *)

Definition state_command (id : Z) : bytes := snprintf_ 32 (lit "AT+MIPSTATE=" ++ to_string id).

(** What a socket is told before it is opened; each step has to be acknowledged. *)
Definition setup_commands (id : Z) (ssl : bool) (config : TlsConfig) : list bytes :=
  let cfg s := snprintf_ 64 (lit "AT+MIPCFG=" ++ s) in
  let ssl_cfg s v := snprintf_ 64 (lit "AT+MSSLCFG=" ++ quoted (lit s) ++ lit "," ++ to_string id ++ lit "," ++ to_string v) in
  (if ssl then
     [ssl_cfg "auth" (if verify_certificate config then 1 else 0); ssl_cfg "negotime" (handshake_timeout config);
      cfg (quoted (lit "ssl") ++ lit "," ++ to_string id ++ lit ",1," ++ to_string id)]
   else [cfg (quoted (lit "ssl") ++ lit "," ++ to_string id ++ lit ",0,0")])
  ++ [cfg (quoted (lit "encoding") ++ lit "," ++ to_string id ++ lit ",1,1")].

(** The configuration is one the module can carry out as it stands. *)
Definition expressible (ssl : bool) (config : TlsConfig) : Prop :=
  HasCertificateMaterial config = false ∧
  (ssl = true → alpn_protocols config = [] ∧ verify_certificate config = verify_hostname config ∧
                10 <= handshake_timeout config <= 300).

(** * Lemmas: the pool *)

Definition settled (now : Z) (s : ConnectionSlot) : bool :=
  negb (released s) || (kCidQuarantine <=? now - released_at s).

(** [at_] is the release time of a free slot at or after [i], or the one given. *)
Lemma pick_slot_spec now i slots oldest :
  match pick_slot now i slots oldest with
  | Some id =>
      (∃ k s, slots !! k = Some s ∧ id = i + Z.of_nat k ∧ used s = false ∧ settled now s = true ∧
         ∀ j s', (j < k)%nat → slots !! j = Some s' → used s' = false → settled now s' = false)
      ∨ ((∀ j s', slots !! j = Some s' → used s' = false → settled now s' = false) ∧
         ∃ at_, (oldest = Some (id, at_) ∨
                 ∃ k s, slots !! k = Some s ∧ id = i + Z.of_nat k ∧ used s = false ∧ released_at s = at_) ∧
           (∀ id' at', oldest = Some (id', at') → at_ <= at') ∧
           ∀ j s', slots !! j = Some s' → used s' = false → at_ <= released_at s')
  | None => oldest = None ∧ ∀ j s', slots !! j = Some s' → used s' = true
  end.
Proof.
  revert i oldest; induction slots as [|s slots IH]; intros i oldest; cbn [pick_slot].
  { destruct oldest as [[id at_]|]; cbn; [|by split].
    right. split; [done|]. exists at_. split_and!; [by left| |done]. intros ? ? [= <- <-]. lia. }
  destruct (used s) eqn:Eu.
  { specialize (IH (i + 1) oldest). destruct (pick_slot _ _ _ _) as [id|].
    - destruct IH as [(k & s' & Hk & -> & Hu & Hs & Hb)|(Hn & at_ & Hat & Ho & Hle)].
      + left. exists (S k), s'. split_and!; try done; [lia|]. intros [|j] s2 Hj; cbn; [intros [= <-]; congruence|].
        intros. apply (Hb j); (done || lia).
      + right. split; [intros [|j] s' E Hf; cbn in E; [congruence|by eapply Hn]|]. exists at_. split_and!; try done.
        * destruct Hat as [?|(k & s' & Hk & -> & ?)]; [by left|right]. exists (S k), s'. split_and!; (done || lia || tauto).
        * intros [|j] s' E Hf; cbn in E; [congruence|by eapply Hle].
    - destruct IH as [-> IH]. split; [done|]. intros [|j] s' E; cbn in E; [congruence|by eapply IH]. }
  destruct (_ || _) eqn:Es.
  { left. exists 0%nat, s. split_and!; try done; lia. }
  set (oldest' := match oldest with Some (_, at_) => _ | None => _ end).
  assert (∃ id0 at0, oldest' = Some (id0, at0) ∧ at0 <= released_at s ∧
    (∀ id' at', oldest = Some (id', at') → at0 <= at') ∧
    (oldest = Some (id0, at0) ∨ id0 = i ∧ at0 = released_at s)) as (id0 & at0 & -> & H1 & H2 & H3).
  { unfold oldest'. destruct oldest as [[id0 at0]|].
    - destruct (Z.ltb_spec (released_at s) at0).
      + exists i, (released_at s). split_and!; try done; [|by right]. intros ? ? [= <- <-]. lia.
      + exists id0, at0. split_and!; try done; [|by left]. intros ? ? [= <- <-]. lia.
    - exists i, (released_at s). split_and!; try done; by right. }
  specialize (IH (i + 1) (Some (id0, at0))). destruct (pick_slot _ _ _ _) as [id|]; [|by destruct IH].
  destruct IH as [(k & s' & Hk & -> & Hu & Hs & Hb)|(Hn & at_ & Hat & Ho & Hle)].
  - left. exists (S k), s'. split_and!; try done; [lia|]. intros [|j] s2 Hj; cbn; [by intros [= <-] _|].
    intros. apply (Hb j); (done || lia).
  - right. specialize (Ho _ _ eq_refl). split; [intros [|j] s' E Hf; cbn in E; [naive_solver|by eapply Hn]|].
    exists at_. split_and!.
    + destruct Hat as [[= <- <-]|(k & s' & Hk & -> & ?)].
      * destruct H3 as [?|[-> ->]]; [by left|right]. exists 0%nat, s. split_and!; (done || lia).
      * right. exists (S k), s'. split_and!; (done || lia || tauto).
    + intros id' at' E. specialize (H2 _ _ E). lia.
    + intros [|j] s' E Hf; cbn in E; [simplify_eq; lia|by eapply Hle].
Qed.

Lemma take_slot_used h id i : IsConnectionUsed (take_slot h id) i = true → IsConnectionUsed h i = true ∨ i = id ∨ id < 0.
Proof.
  destruct (decide (id < 0)); [by auto|]. destruct (decide (i = id)); [by auto|]. intros Hu. left. revert Hu.
  unfold IsConnectionUsed, take_slot. cbn [slots_ set_slots]. destruct (_ || _) eqn:E; [done|].
  apply orb_false_iff in E as [E _]. apply Z.ltb_ge in E. rewrite list_lookup_alter_ne; [done|]. lia.
Qed.

Lemma free_slot_unused h id now : IsConnectionUsed (free_slot h id now) id = false.
Proof.
  unfold IsConnectionUsed, free_slot. cbn [slots_ set_slots]. destruct (_ || _); [done|].
  rewrite list_lookup_alter_eq. by destruct (slots_ h !! Z.to_nat id).
Qed.

Section Sockets.
Context {K U W0 : Type} `{IModemLink W0}.
Local Abbreviation world := (IModuleHal K * (Ml307Hal * ((W0 * list exchange) * U)))%type.
Context (call_data : K → Z → bytes → world → world) (call_close : K → Z → world → world).
Context (call_udp : K → Z → bytes → Z → bytes → world → world).
Context (on_network_state : option (RegistrationState → world → world)).
Context (Hcalm : calm_callbacks call_data call_close call_udp on_network_state).
Local Abbreviation act := (op world NetworkError).
Local Abbreviation QuerySocketActive := (QuerySocketActive call_data call_close call_udp on_network_state).
Local Abbreviation await_released := (await_released call_data call_close call_udp on_network_state).
Local Abbreviation EnsureSocketFree := (EnsureSocketFree call_data call_close call_udp on_network_state).
Local Abbreviation ConfigureSsl := (ConfigureSsl call_data call_close call_udp on_network_state).
Local Abbreviation ConfigureEncoding := (ConfigureEncoding call_data call_close call_udp on_network_state).
Local Abbreviation OpenOnId := (OpenOnId call_data call_close call_udp on_network_state).
Local Abbreviation open_loop := (open_loop call_data call_close call_udp on_network_state).
Local Abbreviation send_chunks := (send_chunks call_data call_close call_udp on_network_state).
Implicit Types w : world.

Let command_did := command_did call_data call_close call_udp on_network_state Hcalm.
Let checked_did := checked_did call_data call_close call_udp on_network_state Hcalm.
Let sleep_did := sleep_did call_data call_close call_udp on_network_state Hcalm.

(** ** One cid at a time *)

Lemma QuerySocketActive_did id w : wp (QuerySocketActive id) (λ r w', ∃ a, did w w' [(state_command id, a)]) w.
Proof.
  unfold Ml307Hal.QuerySocketActive. wp_run. eapply wp_mono; [apply command_did|]. intros r w' (a & -> & D).
  exists a. destruct a as [[]|e]; [done|]. by destruct (decide _).
Qed.

Lemma await_released_did n id w : wp (await_released n id) (λ r w', r ≠ Ok true ∧ ∃ cs, did w w' cs) w.
Proof.
  revert w; induction n as [|n IH]; intros w; cbn [Ml307Hal.await_released]; wp_run.
  { split; [done|]. exists []. by apply did_refl; [apply later_refl|]. }
  eapply wp_mono; [apply sleep_did|]. intros r w1 (-> & D1). wp_run.
  eapply wp_mono; [apply QuerySocketActive_did|]. intros [[]|e] w2 (a & D2); cbn [negb]; wp_run.
  - eapply wp_mono; [apply IH|]. intros r w3 (Hr & cs & D3). split; [done|]. eexists.
    eapply did_trans; [exact D1|]. eapply did_trans; [exact D2|exact D3].
  - split; [done|]. eexists. by eapply did_trans.
  - split; [done|]. eexists. by eapply did_trans.
Qed.

Lemma EnsureSocketFree_did id w : wp (EnsureSocketFree id) (λ r w',
  (r = Ok true → ∃ a, did w w' [(state_command id, a)]) ∧ ∃ cs, did w w' cs) w.
Proof.
  unfold Ml307Hal.EnsureSocketFree. wp_run. eapply wp_mono; [apply QuerySocketActive_did|].
  intros [[]|e] w1 (a & D1); cbn [negb]; wp_run; [|by eauto|by eauto].
  eapply wp_mono; [apply command_did|]. intros r w2 (a2 & -> & D2). wp_run.
  assert (wp (await_released kClosePollAttempts id) (λ r w',
    (r = Ok true → ∃ a, did w w' [(state_command id, a)]) ∧ ∃ cs, did w w' cs) w2) as Hp.
  { eapply wp_mono; [apply await_released_did|]. intros r w3 (Hr & cs & D3). split; [by intros ->|].
    eexists. eapply did_trans; [exact D1|]. eapply did_trans; [exact D2|exact D3]. }
  destruct a2 as [[]|e]; [exact Hp|]. destruct (decide _); [exact Hp|]. wp_run. split; [done|].
  eexists. by eapply did_trans.
Qed.

Lemma SslAuthMode_ok config auth : SslAuthMode config = Ok auth →
  auth = (if verify_certificate config then 1 else 0) ∧ expressible true config.
Proof.
  unfold SslAuthMode, expressible. destruct (HasCertificateMaterial config); [done|].
  destruct (bool_decide_reflect (alpn_protocols config ≠ [])) as [|Ha]; [done|]. apply dec_stable in Ha. cbn [orb].
  destruct (Bool.eqb_spec (verify_certificate config) (verify_hostname config)); [|done]. cbn [negb].
  unfold kMinHandshakeTimeout, kMaxHandshakeTimeout.
  destruct (Z.ltb_spec (handshake_timeout config) 10), (Z.ltb_spec 300 (handshake_timeout config)); try done.
  intros [= <-]. split_and!; (done || lia).
Qed.

Definition acknowledged (cs : list bytes) : list (bytes * AtResult) := (λ c, (c, Ok ())) <$> cs.

Lemma Configure_did id ssl config w : wp (ConfigureSsl id ssl config ;;; ConfigureEncoding id) (λ r w',
  match r with
  | Ok _ => expressible ssl config ∧ did w w' (acknowledged (setup_commands id ssl config))
  | Err _ => ∃ cs, did w w' cs
  end) w.
Proof.
  unfold Ml307Hal.ConfigureSsl, Ml307Hal.ConfigureEncoding, acknowledged, setup_commands. wp_run.
  assert (∀ w, did w w []) as Hnil by (intros; by apply did_refl; [apply later_refl|]).
  destruct ssl; cbn [negb app fmap list_fmap].
  - destruct (SslAuthMode config) as [auth|e] eqn:Ea; wp_run; [|by eauto].
    apply SslAuthMode_ok in Ea as [-> Hx].
    eapply wp_mono; [apply checked_did|]. intros [[]|e] w1; [|intros (a & _ & D); by eauto]. intros D1. wp_run.
    eapply wp_mono; [apply checked_did|]. intros [[]|e] w2; [|intros (a & _ & D); eexists; by eapply did_trans]. intros D2. wp_run.
    pose proof (did_trans _ _ _ _ _ D1 D2) as D12.
    eapply wp_mono; [apply checked_did|]. intros [[]|e] w3; [|intros (a & _ & D); eexists; by eapply did_trans]. intros D3. wp_run.
    pose proof (did_trans _ _ _ _ _ D12 D3) as D123.
    eapply wp_mono; [apply checked_did|]. intros [[]|e] w4; [|intros (a & _ & D); eexists; by eapply did_trans]. intros D4.
    split; [done|exact (did_trans _ _ _ _ _ D123 D4)].
  - destruct (HasCertificateMaterial config) eqn:Em; wp_run; [by eauto|].
    eapply wp_mono; [apply checked_did|]. intros [[]|e] w1; [|intros (a & _ & D); by eauto]. intros D1. wp_run.
    eapply wp_mono; [apply checked_did|]. intros [[]|e] w2; [|intros (a & _ & D); eexists; by eapply did_trans]. intros D2.
    split; [by split|exact (did_trans _ _ _ _ _ D1 D2)].
Qed.

(** The module confirmed the open: the command was acknowledged, and the last
    thing it reported of this cid's open is success. *)
Definition confirmed (id : Z) (type host : bytes) (port : Z) w w' : Prop :=
  later w w' ∧ ∃ l, log w' = log w ++ l ∧ commands l = [(open_command id type host port, Ok ())] ∧
    last (codes (urc_handles_ (hal w)) id l) = Some 0.

Lemma OpenOnId_confirmed id type host port timeout w :
  wp (OpenOnId id type host port timeout) (λ r w', (∃ cs, did w w' cs) ∧
    (r = Ok () → confirmed id type host port w w')) w.
Proof.
  unfold Ml307Hal.OpenOnId, Ml307Hal.checked. wp_run. set (w1 := ArmOpenWait id w).
  assert (later w w1) as L1 by (by constructor).
  eapply wp_mono; [apply (command_spec _ _ _ _ Hcalm)|]. intros r w2 (a & calls & -> & L2 & E2 & O2). wp_run.
  specialize (O2 id eq_refl). change (urc_handles_ (hal w1)) with (urc_handles_ (hal w)) in O2.
  change (log w1) with (log w) in E2.
  assert (later w w2) as L by (by eapply later_trans).
  assert (did w w2 [(open_command id type host port, a)]) as D2.
  { split; [done|]. eexists; split; [exact E2|]. by rewrite commands_app, commands_heard. }
  destruct a as [[]|e]; wp_run; [|by split; [eauto|]].
  unfold WaitForOpenResult. wp_run.
  (* after the wait *)
  assert (∀ w3 more, later w2 w3 → log w3 = log w2 ++ (XHeard <$> more) →
    open_wait_ (hal w3) = after_codes (open_wait_ (hal w2)) (codes (urc_handles_ (hal w)) id (XHeard <$> more)) →
    wp (open_result id : act unit) (λ r w', (∃ cs, did w w' cs) ∧ (r = Ok () → confirmed id type host port w w')) w3) as Hend.
  { intros w3 more L3 E3 O3. unfold open_result. wp_run. set (w4 := set_hal _ w3).
    assert (later w3 w4) as L4 by (by constructor).
    assert (log w4 = log w ++ ((XHeard <$> calls) ++ [XCommand (open_command id type host port) (Ok ())]) ++ (XHeard <$> more)) as E4.
    { change (log w4) with (log w3). by rewrite E3, E2, !app_assoc. }
    assert (later w w4) as L' by (eapply later_trans; [exact L|]; by eapply later_trans).
    assert (∃ cs, did w w4 cs) as D by (eexists; split; [done|]; by eexists).
    rewrite O3, O2. rewrite after_codes_app.
    set (cs := codes (urc_handles_ (hal w)) id (XHeard <$> calls) ++ codes (urc_handles_ (hal w)) id (XHeard <$> more)).
    unfold after_codes. destruct (last cs) as [c|] eqn:Ec; cbn [ow_done ow_code negb]; [|by wp_run].
    destruct (Z.eqb_spec c 0) as [->|]; cbn [negb]; wp_run; [|by split].
    split; [done|]. intros _. split; [done|]. eexists. split; [exact E4|]. split.
    - rewrite !commands_app, !commands_heard. done.
    - rewrite !codes_app, codes_command, app_nil_r. exact Ec. }
  apply wp_wait_for; intros _.
  - apply (Hend w2 []); [apply later_refl|by rewrite app_nil_r|done].
  - eapply wp_mono; [apply (sleep_spec _ _ _ _ Hcalm)|]. intros r w3 (more & -> & L3 & E3 & O3).
    apply (Hend w3 more); [done|done|]. rewrite (O3 id).
    2: { rewrite O2. unfold after_codes. by destruct (last _). }
    by rewrite (lt_handles _ _ L).
Qed.

(** ** The search for a cid *)

(** As [later], with [id] taken. *)
Definition taken (id : Z) w w' : Prop :=
  log w' = log w ∧ channel_ (hal w') = channel_ (hal w) ∧ urc_handles_ (hal w') = urc_handles_ (hal w) ∧
  length (slots_ (hal w')) = length (slots_ (hal w)) ∧
  ∀ i, IsConnectionUsed (hal w') i = true → IsConnectionUsed (hal w) i = true ∨ i = id.

Lemma allocate_taken first w : 0 <= first → length (slots_ (hal w)) = 6%nat →
  wp (AllocateConnectionId first : act Z) (λ r w', (r = Ok (-1) ∧ w' = w) ∨
    ∃ id, r = Ok id ∧ first <= id < kMaxConnections ∧ taken id w w') w.
Proof.
  intros H0 H6. apply wp_intro. intros w' r E. unfold AllocateConnectionId in E.
  pose proof (pick_slot_spec (steady_now (link w)) first (drop (Z.to_nat first) (slots_ (hal w))) None) as Hp.
  destruct (pick_slot _ _ _ _) as [id|]; injection E as <- <-; [right|by left].
  exists id. split; [done|].
  assert (first <= id < kMaxConnections) as Hid.
  { unfold kMaxConnections.
    destruct Hp as [(k & s & Hk & -> & _)|(_ & at_ & [?|(k & s & Hk & -> & _)] & _)]; [|done|];
      rewrite lookup_drop in Hk; apply lookup_lt_Some in Hk; lia. }
  split; [done|]. split_and!; try done.
  - unfold hal, take_slot. cbn. by rewrite length_alter.
  - intros i Hi. apply take_slot_used in Hi as [Hi|[Hi|Hi]]; [by left|by right|lia].
Qed.

Lemma give_back id w w1 w2 : 0 <= id < kMaxConnections → taken id w w1 → later w1 w2 →
  later w (ReleaseConnectionId id w2).
Proof.
  intros Hid (E1 & E2 & E3 & E4 & E5) L. destruct (released_later id w2) as (L' & El & _).
  pose proof (later_trans _ _ _ L L') as [P1 P2 P3 P4 P5].
  assert (IsConnectionUsed (hal (ReleaseConnectionId id w2)) id = false) as Hf.
  { unfold ReleaseConnectionId. unfold kMaxConnections in *.
    rewrite (proj2 (Z.ltb_ge id 0)), (proj2 (Z.leb_gt 6 id)) by lia. cbn [orb]. apply free_slot_unused. }
  constructor; try congruence.
  intros i Hi. destruct (E5 i (P5 i Hi)) as [?| ->]; [done|]. congruence.
Qed.

(** What a successful open leaves: the line shows the cid asked about, set up as
    asked with every step acknowledged, and its open confirmed; no other cid has
    been taken. *)
Definition opened (type host : bytes) (port : Z) (ssl : bool) (config : TlsConfig) w w' (id : Z) : Prop :=
  0 <= id < kMaxConnections ∧ expressible ssl config ∧
  (∀ i, IsConnectionUsed (hal w') i = true → IsConnectionUsed (hal w) i = true ∨ i = id) ∧
  ∃ before earlier a l, log w' = log w ++ before ++ l ∧
    commands before = earlier ++ (state_command id, a) :: acknowledged (setup_commands id ssl config) ∧
    commands l = [(open_command id type host port, Ok ())] ∧
    last (codes (urc_handles_ (hal w)) id l) = Some 0.

Lemma opened_later type host port ssl config w w1 w2 id : later w w1 → opened type host port ssl config w1 w2 id →
  opened type host port ssl config w w2 id.
Proof.
  intros [[l1 E1] _ E3 _ E5] ([Hid1 Hid2] & Hx & Hu & before & earlier & a & l & El & Eb & Ec & Eo).
  split_and!; try done.
  - intros i Hi. destruct (Hu i Hi) as [?|?]; [left; by apply E5|by right].
  - exists (l1 ++ before), (commands l1 ++ earlier), a, l. split_and!.
    + by rewrite El, E1, !app_assoc.
    + by rewrite commands_app, Eb, app_assoc.
    + done.
    + by rewrite <- E3.
Qed.

Lemma open_loop_spec type host port ssl config fuel first w : 0 <= first → length (slots_ (hal w)) = 6%nat →
  wp (open_loop fuel first type host port ssl config) (λ r w',
    match r with Ok id => opened type host port ssl config w w' id | Err _ => later w w' end) w.
Proof.
  revert first w; induction fuel as [|fuel IH]; intros first w H0 H6; cbn [Ml307Hal.open_loop].
  { unfold no_slot. destruct (_ =? _); wp_run; apply later_refl. }
  assert (wp (no_slot first : act Z) (λ r w',
    match r with Ok id => opened type host port ssl config w w' id | Err _ => later w w' end) w) as Hno.
  { unfold no_slot. destruct (_ =? _); wp_run; apply later_refl. }
  destruct (_ <=? _); [exact Hno|]. wp_run. eapply wp_mono; [by apply allocate_taken|].
  intros r w1 [[-> ->]|(id & -> & Hid & Ht)]; [exact Hno|].
  rewrite (proj2 (Z.ltb_ge id 0)) by lia. wp_run.
  assert (∀ w2, later w1 w2 → wp (modify (ReleaseConnectionId id) ;;; open_loop fuel (id + 1) type host port ssl config)
    (λ r w', match r with Ok id => opened type host port ssl config w w' id | Err _ => later w w' end) w2) as Hnext.
  { intros w2 L. wp_run. pose proof (give_back id w w1 w2 ltac:(lia) Ht L) as L3.
    eapply wp_mono; [apply IH; [lia|by rewrite (lt_slots _ _ L3)]|].
    intros [id'|e] w4 Hr; [by eapply opened_later|by eapply later_trans]. }
  assert (∀ w2 (e : NetworkError), later w1 w2 → wp (modify (ReleaseConnectionId id) ;;; fail e : act Z)
    (λ r w', match r with Ok id => opened type host port ssl config w w' id | Err _ => later w w' end) w2) as Hrel.
  { intros w2 e L. wp_run. exact (give_back id w w1 w2 ltac:(lia) Ht L). }
  eapply wp_mono; [apply EnsureSocketFree_did|]. intros ready w2 (Hfree & cs & L2 & _). wp_run.
  destruct ready as [[]|e]; [|by apply Hnext|by apply Hrel].
  destruct (Hfree eq_refl) as [a (_ & l2 & E2 & C2)]. apply wp_bind, wp_attempt.
  eapply wp_mono; [apply Configure_did|]. intros [[]|e] w3; wp_run.
  2: { intros (cs3 & L3 & _). apply Hrel. by eapply later_trans. }
  intros (Hx & L3 & l3 & E3 & C3). wp_run.
  eapply wp_mono; [apply OpenOnId_confirmed|]. intros [[]|e] w4 ((cs4 & L4 & _) & Hc); wp_run.
  2: { assert (later w1 w4) as L by (eapply later_trans; [exact L2|by eapply later_trans]).
       destruct (IsConnectionIdBusy e); [by apply Hnext|by apply Hrel]. }
  destruct (Hc eq_refl) as (_ & l & El & Ec & Eo).
  destruct Ht as (T1 & T2 & T3 & T4 & T5).
  split_and!; [lia|lia|done| |].
  - intros i Hi. apply T5. apply (lt_used _ _ L2), (lt_used _ _ L3), (lt_used _ _ L4), Hi.
  - exists (l2 ++ l3), [], a, l. split_and!.
    + by rewrite El, E3, E2, T1, !app_assoc.
    + by rewrite commands_app, C2, C3.
    + done.
    + by rewrite <- T3, <- (lt_handles _ _ L2), <- (lt_handles _ _ L3).
Qed.

(** ** Sending *)

Definition send_command (connect_id : Z) (chunk : bytes) : bytes :=
  lit "AT+MIPSEND=" ++ to_string connect_id ++ lit "," ++ to_string (Z.of_nat (length chunk)) ++ lit "," ++ EncodeHex chunk.

(** A transmission in pieces: every piece within the bound, acknowledged but for
    the one an error ended it with, and together the data, or a prefix of it. *)
Definition transmitted (connect_id : Z) (data : bytes) (r : Result unit) w w' : Prop :=
  ∃ chunks, Forall (λ c, 0 < length c <= kMaxChunk)%nat chunks ∧
    match r with
    | Ok _ => concat chunks = data ∧ did w w' (acknowledged (send_command connect_id <$> chunks))
    | Err e => ∃ chunk a, concat (chunks ++ [chunk]) `prefix_of` data ∧ e = ToNetworkError a ∧
        did w w' (acknowledged (send_command connect_id <$> chunks) ++ [(send_command connect_id chunk, Err a)])
    end.

Lemma send_chunks_transmitted fuel connect_id data w : (length data <= fuel)%nat →
  wp (send_chunks fuel connect_id data) (λ r w', transmitted connect_id data r w w') w.
Proof.
  revert data w; induction fuel as [|fuel IH]; intros data w Hl.
  { destruct data; [|simpl in Hl; lia]. cbn [Ml307Hal.send_chunks]. wp_run. exists []. split; [done|]. split; [done|].
    by apply did_refl; [apply later_refl|]. }
  destruct data as [|x data]; cbn [Ml307Hal.send_chunks].
  { wp_run. exists []. split; [done|]. split; [done|]. by apply did_refl; [apply later_refl|]. }
  set (d := x :: data) in *. wp_run.
  assert (0 < length (take kMaxChunk d) <= kMaxChunk)%nat as Hc.
  { rewrite length_take. unfold d, kMaxChunk. simpl length. lia. }
  eapply wp_mono; [apply checked_did|]. intros [[]|e] w1.
  2: { intros (a & -> & D). exists []. split; [done|]. exists (take kMaxChunk d), a. split_and!; try done.
       cbn [concat app]. rewrite app_nil_r. exists (drop kMaxChunk d). symmetry. apply take_drop. }
  intros D. eapply wp_mono; [apply (IH (drop kMaxChunk d) w1)|].
  { rewrite length_drop. unfold d, kMaxChunk in *. simpl length in *. lia. }
  intros r w2 (chunks & HF & Hr). exists (take kMaxChunk d :: chunks). split; [by constructor|].
  destruct r as [[]|e].
  - destruct Hr as [Ec D2]. split; [by cbn [concat]; rewrite Ec, take_drop|]. exact (did_trans _ _ _ _ _ D D2).
  - destruct Hr as (chunk & a & Hp & -> & D2). exists chunk, a. split_and!; [|done|exact (did_trans _ _ _ _ _ D D2)].
    cbn [concat app]. rewrite <- (take_drop kMaxChunk d) at 2. by apply prefix_app.
Qed.

(** ** The search ends *)

Lemma bind_ext {A B} (m : act A) (k k' : A → act B) w :
  (∀ a w', m w = (w', Ok a) → k a w' = k' a w') → bind m k w = bind m k' w.
Proof. intros H'. unfold bind. destruct (m w) as [w' [a|e]]; [by apply H'|done]. Qed.

Lemma allocate_from first w w' id : AllocateConnectionId first w = (w', Ok id : Result Z) → id = -1 ∨ first <= id.
Proof.
  unfold AllocateConnectionId. intros E.
  pose proof (pick_slot_spec (steady_now (link w)) first (drop (Z.to_nat first) (slots_ (hal w))) None) as Hp.
  destruct (pick_slot _ _ _ _) as [id'|]; injection E as <- <-; [right|by left].
  destruct Hp as [(k & s & _ & -> & _)|(_ & at_ & [?|(k & s & _ & -> & _)] & _)]; [lia|done|lia].
Qed.

Lemma open_loop_fuel type host port ssl config n m first w :
  kMaxConnections - first <= Z.of_nat n → kMaxConnections - first <= Z.of_nat m →
  open_loop n first type host port ssl config w = open_loop m first type host port ssl config w.
Proof.
  revert m first w; induction n as [|n IH]; intros m first w Hn Hm.
  { destruct m as [|m]; [done|]. cbn [Ml307Hal.open_loop].
    by rewrite (proj2 (Z.leb_le kMaxConnections first)) by lia. }
  destruct m as [|m]; cbn [Ml307Hal.open_loop].
  { by rewrite (proj2 (Z.leb_le kMaxConnections first)) by lia. }
  destruct (Z.leb_spec kMaxConnections first); [done|]. apply bind_ext. intros id w1 Ea.
  destruct (Z.ltb_spec id 0); [done|]. apply allocate_from in Ea as [?|?]; [lia|].
  assert (∀ w2, (modify (ReleaseConnectionId id) ;;; open_loop n (id + 1) type host port ssl config) w2 =
    (modify (ReleaseConnectionId id) ;;; open_loop m (id + 1) type host port ssl config) w2) as Hnext.
  { intros w2. apply bind_ext. intros [] w3 _. apply IH; lia. }
  apply bind_ext. intros [[]|e] w2 _; [|done..]. apply bind_ext. intros [[]|e] w3 _; [|done].
  apply bind_ext. intros [[]|e] w4 _; [done|]. by destruct (IsConnectionIdBusy e).
Qed.

(** ** The operations *)

Lemma TcpConnect_opens host port ssl config w w' r : length (slots_ (hal w)) = 6%nat →
  TcpConnect call_data call_close call_udp on_network_state host port ssl config w = (w', r) →
  match r with
  | Ok id => opened (lit "TCP") host port ssl config w w' id
  | Err _ => later w w'
  end.
Proof.
  intros H6 E. refine (wp_elim _ (λ r w', match r with
    | Ok id => opened (lit "TCP") host port ssl config w w' id
    | Err _ => later w w'
    end) w w' r _ E). unfold TcpConnect, with_channel. wp_run.
  destruct (channel_ (hal w)); [|wp_run; apply later_refl]. by apply open_loop_spec.
Qed.

Lemma TcpSend_transmits connect_id data w w' r : channel_ (hal w) = true →
  TcpSend call_data call_close call_udp on_network_state connect_id data w = (w', r) →
  transmitted connect_id data (match r with Ok _ => Ok () | Err e => Err e end) w w' ∧
  (∀ n, r = Ok n → n = to_int (Z.of_nat (length data))).
Proof.
  intros Hch E. refine (wp_elim _ (λ r w',
    transmitted connect_id data (match r with Ok _ => Ok () | Err e => Err e end) w w' ∧
    (∀ n, r = Ok n → n = to_int (Z.of_nat (length data)))) w w' r _ E).
  unfold TcpSend, SendHexPayload, with_channel. wp_run. rewrite Hch. wp_run.
  eapply wp_mono; [by apply send_chunks_transmitted|]. intros [[]|e] w1 Ht; wp_run; (split; [done|]); intros n; congruence.
Qed.

(** * Properties *)

(** C8: a socket of the ML307 is called open only when the module said so, and is
    then what was asked for. Whatever the module reports meanwhile and whatever it
    answers: when [TcpConnect] returns a cid, the line shows that cid set up with
    the TLS settings asked for (or TLS switched off), every step acknowledged, then
    its open sent and acknowledged, and the last report of that open a success; the
    settings were ones the module can carry out, so that no verification asked for
    was dropped; and no other cid has been taken. When it fails, no cid is held
    that was not held before. *)
Theorem TcpConnect_opened host port ssl config w w' r : length (slots_ (hal w)) = 6%nat →
  TcpConnect call_data call_close call_udp on_network_state host port ssl config w = (w', r) →
  match r with
  | Ok id => opened (lit "TCP") host port ssl config w w' id
  | Err _ => later w w'
  end.
Proof. apply TcpConnect_opens. Qed.

(** C24: a payload goes out whole, once and in order. When [TcpSend] returns a
    length, the commands it sent were one AT+MIPSEND per piece, each of at most
    730 bytes and each acknowledged, and the pieces make up the payload; when it
    fails, the pieces sent are a prefix of the payload and the error is the answer
    to the last of them. *)
Theorem TcpSend_transmitted connect_id data w w' r : channel_ (hal w) = true →
  TcpSend call_data call_close call_udp on_network_state connect_id data w = (w', r) →
  transmitted connect_id data (match r with Ok _ => Ok () | Err e => Err e end) w w' ∧
  (∀ n, r = Ok n → n = to_int (Z.of_nat (length data))).
Proof. apply TcpSend_transmits. Qed.

(** The search for a cid ends: the fuel [OpenSocket] gives its loop is enough,
    each turn trying a cid past the last one. *)
Theorem OpenSocket_ends type host port ssl config n w : (6 <= n)%nat →
  open_loop n 0 type host port ssl config w =
  OpenSocket call_data call_close call_udp on_network_state type host port ssl config w.
Proof. intros Hn. apply open_loop_fuel; unfold kMaxConnections; lia. Qed.
End Sockets.

(** The cid was given back less than a quarantine ago. *)
Definition resting `{IModemLink W} {K U} (w : IModuleHal K * (Ml307Hal * (W * U))) (i : Z) : bool :=
  match slots_ (hal w) !! Z.to_nat i with
  | Some s => released s && (steady_now (link w) - released_at s <? kCidQuarantine)
  | None => false
  end.
Definition given_back_at {W K U} (w : IModuleHal K * (Ml307Hal * (W * U))) (i : Z) : Z :=
  match slots_ (hal w) !! Z.to_nat i with Some s => released_at s | None => 0 end.

(** * Witnesses *)

Definition free_answer (id : Z) : option (Z * Z) * list bytes :=
  ok_after [lit "+MIPSTATE: " ++ to_string id ++ lit ",,,," ++ quoted (lit "INITIAL")].

(** A TLS open that is confirmed while it is waited for, in two pieces. *)
Definition opening_ml307 := sample_ml307
  [free_answer 0; ok_after []; ok_after []; ok_after []; ok_after []; ok_after []]
  [([lit "+MIPOPEN: 0"; lit ",0" ++ CRLF], false)].

Lemma TcpConnect_opened_witness :
  opened (lit "TCP") (lit "a.example") 443 true default_tls opening_ml307
    (TcpConnect note_data note_close note_udp None (lit "a.example") 443 true default_tls opening_ml307).1 0.
Proof.
  apply (TcpConnect_opened note_data note_close note_udp None notes_calm (lit "a.example") 443 true default_tls opening_ml307 _ (Ok 0)).
  - vm_compute. reflexivity.
  - apply op_result. vm_compute. reflexivity.
Defined.

Lemma TcpSend_transmitted_witness :
  let w := sample_ml307 [ok_after []; ok_after []] [] in
  transmitted 0 (replicate 1000 "x"%char) (Ok ()) w (TcpSend note_data note_close note_udp None 0 (replicate 1000 "x"%char) w).1.
Proof.
  cbv zeta.
  apply (TcpSend_transmitted note_data note_close note_udp None notes_calm 0 (replicate 1000 "x"%char)
    (sample_ml307 [ok_after []; ok_after []] []) _ (Ok 1000)).
  - vm_compute. reflexivity.
  - apply op_result. vm_compute. reflexivity.
Defined.

Lemma OpenSocket_ends_witness :
  open_loop note_data note_close note_udp None 7 0 (lit "TCP") (lit "a.example") 443 true default_tls opening_ml307 =
  OpenSocket note_data note_close note_udp None (lit "TCP") (lit "a.example") 443 true default_tls opening_ml307.
Proof. apply (OpenSocket_ends note_data note_close note_udp None). lia. Defined.
