(* ===== verification/Ml307Events.v ===== *)
(** The ML307's pool of cids and the events it reports: which cid is taken next,
    what a line from the module comes to, and the events that go astray. *)
From stdpp Require Import base decidable list strings gmap.
From Stdlib Require Import ZArith Ascii Lia.
From S2P Require Import Prelude Errors CommonTypes StateResult AtParser ResponseParser UrcDispatcher AtUart HalRoutes.
From S2P Require Import ModemLink Ml307Hal Ml307Facts Ml307Sockets.

(** * The pool *)

Section Pool.
Context {K U W : Type} `{IModemLink W}.
Local Abbreviation world := (IModuleHal K * (Ml307Hal * (W * U)))%type.
Implicit Types w : world.

Lemma used_lookup h i s : 0 <= i < kMaxConnections → slots_ h !! Z.to_nat i = Some s → IsConnectionUsed h i = used s.
Proof.
  intros Hi E. unfold IsConnectionUsed, kMaxConnections in *.
  by rewrite (proj2 (Z.ltb_ge i 0)), (proj2 (Z.leb_gt 6 i)), E by lia.
Qed.

Lemma slot_at w i : length (slots_ (hal w)) = 6%nat → 0 <= i < kMaxConnections →
  ∃ s, slots_ (hal w) !! Z.to_nat i = Some s ∧ IsConnectionUsed (hal w) i = used s ∧
    resting w i = negb (settled (steady_now (link w)) s) ∧ given_back_at w i = released_at s.
Proof.
  intros H6 Hi. destruct (lookup_lt_is_Some_2 (slots_ (hal w)) (Z.to_nat i)) as [s Hs].
  { unfold kMaxConnections in Hi. lia. }
  exists s. split; [done|]. split; [by apply used_lookup|]. unfold resting, given_back_at, settled. rewrite Hs.
  split; [|done]. rewrite negb_orb, negb_involutive. f_equal. apply Z.ltb_antisym.
Qed.

(** C26: which cid is taken. [AllocateConnectionId] finds none only if every cid
    from [first] on is held, and then changes nothing. Otherwise it takes one that
    was free, and that one only, with nothing held over for it from an earlier
    socket: the first that has been free for a quarantine, or, when every free cid
    was given back more recently than that, one given back no later than any. *)
Theorem AllocateConnectionId_spec first w w' r : 0 <= first → length (slots_ (hal w)) = 6%nat →
  (AllocateConnectionId first : op world NetworkError Z) w = (w', r) →
  (r = Ok (-1) ∧ w' = w ∧ ∀ i, first <= i < kMaxConnections → IsConnectionUsed (hal w) i = true) ∨
  ∃ id, r = Ok id ∧ first <= id < kMaxConnections ∧
    IsConnectionUsed (hal w) id = false ∧ IsConnectionUsed (hal w') id = true ∧
    (∀ i, i ≠ id → IsConnectionUsed (hal w') i = IsConnectionUsed (hal w) i) ∧
    undelivered w'.1 !! id = None ∧
    (if resting w id
     then ∀ i, first <= i < kMaxConnections → IsConnectionUsed (hal w) i = false →
            resting w i = true ∧ given_back_at w id <= given_back_at w i
     else ∀ i, first <= i < id → IsConnectionUsed (hal w) i = false → resting w i = true).
Proof.
  intros H0 H6 E. unfold AllocateConnectionId in E.
  pose proof (pick_slot_spec (steady_now (link w)) first (drop (Z.to_nat first) (slots_ (hal w))) None) as Hp.
  assert (∀ i, first <= i < kMaxConnections → ∃ s,
    drop (Z.to_nat first) (slots_ (hal w)) !! (Z.to_nat i - Z.to_nat first)%nat = Some s ∧
    IsConnectionUsed (hal w) i = used s ∧ resting w i = negb (settled (steady_now (link w)) s) ∧
    given_back_at w i = released_at s) as Hslot.
  { intros i Hi. destruct (slot_at w i H6 ltac:(lia)) as (s & Hs & Hrest). exists s. split; [|done].
    rewrite lookup_drop. rewrite <- Hs. f_equal. lia. }
  destruct (pick_slot _ _ _ _) as [id|]; injection E as <- <-.
  2: { left. split_and!; [done|done|]. intros i Hi. destruct (Hslot i Hi) as (s & Hs & -> & _).
       destruct Hp as [_ Hp]. by eapply Hp. }
  right. exists id.
  (* the slot found *)
  assert (∃ k s, drop (Z.to_nat first) (slots_ (hal w)) !! k = Some s ∧ id = first + Z.of_nat k ∧ used s = false) as (k & s & Hk & Ek & Hu).
  { destruct Hp as [(k & s & ? & ? & ? & _)|(_ & at_ & [?|(k & s & ? & ? & ? & _)] & _)]; [by exists k, s|done|by exists k, s]. }
  assert (first <= id < kMaxConnections) as Hid.
  { rewrite lookup_drop in Hk. apply lookup_lt_Some in Hk. unfold kMaxConnections. lia. }
  destruct (Hslot id Hid) as (s' & Hs' & Eu & Er & Eg).
  assert (s' = s) as -> by (replace (Z.to_nat id - Z.to_nat first)%nat with k in Hs' by lia; congruence).
  split_and!; [done|lia|lia|congruence| | |by apply lookup_delete_eq|].
  - destruct (slot_at w id H6 ltac:(lia)) as (s1 & Hs1 & _).
    apply (used_lookup (take_slot (hal w) id) id (MkSlot true (released s1) (released_at s1))); [lia|].
    unfold take_slot. cbn [slots_ set_slots]. by rewrite list_lookup_alter_eq, Hs1.
  - intros i Hne. unfold IsConnectionUsed. destruct (_ || _) eqn:Ei; [done|].
    apply orb_false_iff in Ei as [Ei _]. apply Z.ltb_ge in Ei. unfold hal, take_slot. cbn.
    rewrite list_lookup_alter_ne; [done|]. lia.
  - rewrite Er. destruct Hp as [(k' & s2 & Hk' & Ek' & Hu' & Hs2 & Hb)|(Hn & at_ & Hat & _ & Hle)].
    + assert (k' = k) as -> by lia. assert (s2 = s) as -> by congruence. rewrite Hs2. cbn [negb].
      intros i Hi Hf. destruct (Hslot i ltac:(lia)) as (s3 & H3 & Eu3 & Er3 & _).
      rewrite Er3, (Hb (Z.to_nat i - Z.to_nat first)%nat s3); try done; [lia|congruence].
    + assert (settled (steady_now (link w)) s = false) as -> by (by eapply Hn). cbn [negb].
      assert (released_at s = at_) as <-.
      { destruct Hat as [?|(k' & s2 & Hk' & Ek' & _ & <-)]; [done|]. assert (k' = k) as -> by lia. congruence. }
      intros i Hi Hf. destruct (Hslot i Hi) as (s3 & H3 & Eu3 & Er3 & Eg3). rewrite Er3, Eg, Eg3.
      split; [|apply (Hle _ _ H3); congruence]. rewrite (Hn _ _ H3); [done|congruence].
Qed.
End Pool.

(** * Arrivals *)

(** The report of a payload, as the module writes it: the cid, a length and the
    bytes in hexadecimal. *)
Record report := MkReport { rp_cid : Z; rp_len : Z; rp_hex : bytes }.

Definition report_args (r : report) : bytes :=
  render_csv [Quoted (lit "rtcp"); Plain (to_string (rp_cid r)); Plain (to_string (rp_len r)); Plain (rp_hex r)].
Definition report_line (r : report) : bytes := lit "+MIPURC: " ++ report_args r.

Definition well_formed (r : report) : Prop :=
  0 <= rp_cid r < kMaxConnections ∧ INT_MIN <= rp_len r <= INT_MAX ∧ rp_hex r ≠ [] ∧
  Forall (λ c, 0 <= HexCharToNibble c) (rp_hex r).

(** The handlers of [RegisterUrcHandlers] on a fresh dispatcher. *)
Definition ml307_dispatcher : UrcDispatcher :=
  fold_left (λ d p, (Subscribe d (lit p) true).1) ["+MIPOPEN"%string; "+MIPCLOSE"%string; "+MIPRTCP"%string; "+MIPURC"%string; "+CEREG"%string]
    new_dispatcher.
Definition ml307_handles : list (Z * urc_handler) := [(1, HMipopen); (2, HMipclose); (3, HMiprtcp); (4, HMipurc); (5, HCereg)].

Lemma report_fields r : well_formed r →
  SplitCsv (report_args r) = [lit "rtcp"; to_string (rp_cid r); to_string (rp_len r); rp_hex r].
Proof.
  intros (_ & _ & _ & Hx). unfold report_args. rewrite SplitCsv_render; [done|done|].
  repeat (apply Forall_cons_2 || apply Forall_nil_2).
  - by apply (bool_decide_unpack (field_ok (Quoted (lit "rtcp")))).
  - apply plain_ok, number_plain.
  - apply plain_ok, number_plain.
  - apply plain_ok. eapply Forall_impl; [exact Hx|]. apply nibble_plain.
Qed.

(** A line of such text ends in a hexadecimal digit and holds no line break. *)
Lemma report_args_shape r : well_formed r → ∃ body, report_args r = QUOTE :: body ∧
  (∀ c, last (report_args r) = Some c → isspace c = false) ∧ CR ∉ report_args r ∧ LF ∉ report_args r.
Proof.
  intros (_ & _ & Hne & Hx). unfold report_args. cbn [render_csv render_field].
  eexists. split; [reflexivity|].
  set (s := QUOTE :: lit "rtcp" ++ [QUOTE]). set (t := to_string (rp_cid r)). set (u := to_string (rp_len r)).
  assert (Forall (λ c, plain_char c = true ∨ c = COMMA ∨ c = QUOTE) (s ++ COMMA :: t ++ COMMA :: u ++ COMMA :: rp_hex r)) as HF.
  { assert (∀ l, Forall (λ c, plain_char c = true) l → Forall (λ c, plain_char c = true ∨ c = COMMA ∨ c = QUOTE) l) as Hp
      by (intros l Hl; eapply Forall_impl; [exact Hl|by auto]).
    apply Forall_app; split; [repeat constructor; (by left) || (right; by right)|]. constructor; [by right; left|].
    apply Forall_app; split; [apply Hp, number_plain|]. constructor; [by right; left|].
    apply Forall_app; split; [apply Hp, number_plain|]. constructor; [by right; left|].
    apply Hp. eapply Forall_impl; [exact Hx|]. apply nibble_plain. }
  assert (∀ c, c ∈ s ++ COMMA :: t ++ COMMA :: u ++ COMMA :: rp_hex r → c ≠ CR ∧ c ≠ LF) as Hc.
  { intros c Hin. rewrite Forall_forall in HF. destruct (HF c Hin) as [Hp|[->| ->]]; [|done|done].
    by destruct (plain_facts c Hp) as (_ & _ & _ & ? & ?). }
  split_and!; [|intros Hin; by apply Hc in Hin as []|intros Hin; by apply Hc in Hin as []].
  intros c Hl. assert (last (rp_hex r) = Some c) as Hl'.
  { assert (s ++ COMMA :: t ++ COMMA :: u ++ COMMA :: rp_hex r = (s ++ COMMA :: t ++ COMMA :: u ++ [COMMA]) ++ rp_hex r) as E
      by (repeat (rewrite <- ?app_assoc; cbn [app]); done).
    rewrite E, last_app in Hl. destruct (last (rp_hex r)) eqn:El; [congruence|]. by apply last_None in El. }
  apply last_Some_elem_of in Hl'. rewrite Forall_forall in Hx.
  by destruct (plain_facts c (nibble_plain c (Hx c Hl'))) as (? & _).
Qed.

Lemma report_dispatch r : well_formed r →
  Dispatch ml307_dispatcher (report_line r) = [MkInvocation 4 (lit "+MIPURC") (report_args r)].
Proof.
  intros Hr. destruct (report_args_shape r Hr) as (body & Eb & Hl & _).
  assert (last (report_line r) = last (report_args r)) as El.
  { unfold report_line. rewrite last_app, Eb. destruct (last (QUOTE :: body)) eqn:E; [done|]. by apply last_None in E. }
  assert (TrimSpace (report_line r) = report_line r) as Et.
  { apply (trim_by_none isspace (report_line r)); [by intros c [= <-]|by rewrite El]. }
  unfold Dispatch. rewrite Et.
  destruct (decide _) as [E|_]; [done|].
  assert (split_urc (report_line r) = (lit "+MIPURC", report_args r)) as ->.
  { unfold split_urc, report_line. cbn [find_byte lit app String.list_ascii_of_string].
    change (find_byte ":" (lit "+MIPURC: " ++ report_args r)) with (Some 7%nat). cbn [take drop Nat.add].
    change (drop 8 (lit "+MIPURC: " ++ report_args r)) with (" "%char :: report_args r).
    f_equal. unfold TrimSpace, trim_by.
    change (drop_while isspace (" "%char :: report_args r)) with (drop_while isspace (report_args r)).
    apply (trim_by_none isspace (report_args r)); [|done]. rewrite Eb. by intros c [= <-]. }
  remember (report_args r) as args. vm_compute. reflexivity.
Qed.

Lemma ProcessLines_dispatched ls c : Forall (λ l, last l ≠ Some CR ∧ forallb isblank l = false) ls →
  dispatched (fold_left ProcessLine ls c) = dispatched c ++ (ls ≫= Dispatch (urc_dispatcher c)).
Proof.
  intros HF. revert c; induction HF as [|l ls [Hcr Hb] HF IH]; intros c; [by rewrite app_nil_r|].
  cbn [fold_left]. rewrite IH. destruct (ProcessLine_frame c l) as (_ & _ & _ & _ & _ & Ed). rewrite Ed.
  assert (dispatched (ProcessLine c l) = dispatched c ++ Dispatch (urc_dispatcher c) l) as ->.
  { unfold ProcessLine. rewrite decide_False by done. rewrite Hb. cbn [command_in_progress add_dispatched].
    repeat case_match; done. }
  cbn [mbind list_bind]. by rewrite app_assoc.
Qed.

Section Arrivals.
Context {K U : Type}.
Local Abbreviation world := (IModuleHal K * (Ml307Hal * ((uart_link * list exchange) * U)))%type.
Context (call_data : K → Z → bytes → world → world) (call_close : K → Z → world → world).
Context (call_udp : K → Z → bytes → Z → bytes → world → world).
Context (on_network_state : option (RegistrationState → world → world)).
Implicit Types w : world.

(** A HAL that is initialized on a channel of its own, between lines. *)
Definition listening w : Prop :=
  let u := lk_uart (link w).1 in
  urc_handles_ (hal w) = ml307_handles ∧ urc_dispatcher u = ml307_dispatcher ∧
  line_buffer u = [] ∧ discard_partial_line u = false.

Definition arrives w (r : report) : world := DispatchTcpData call_data (rp_cid r) (ParseHex (rp_hex r)) w.

Lemma report_arrives r w : well_formed r → urc_handles_ (hal w) = ml307_handles →
  on_urc call_data call_close call_udp on_network_state w (MkInvocation 4 (lit "+MIPURC") (report_args r)) = arrives w r.
Proof.
  intros Hr Eh. unfold on_urc. rewrite Eh. cbn [iv_handle iv_arguments].
  change (list_find (λ e : Z * urc_handler, e.1 = 4) ml307_handles) with (Some (3%nat, (4, HMipurc))).
  cbn [run_handler]. unfold OnMipUrc. rewrite report_fields by done. cbn [length Nat.ltb Nat.leb field nth].
  destruct Hr as ([Hc1 Hc2] & _ & Hne & Hx).
  assert (ParseCid (to_string (rp_cid r)) = Some (rp_cid r)) as ->.
  { unfold ParseCid, kMaxConnections in *. rewrite ParseInt_to_string by (unfold INT_MIN, INT_MAX; lia).
    by rewrite (proj2 (Z.ltb_ge (rp_cid r) 0)), (proj2 (Z.leb_gt 6 (rp_cid r))) by lia. }
  change (StripQuotes (lit "rtcp")) with (lit "rtcp"). rewrite decide_True by done.
  assert (StripQuotes (rp_hex r) = rp_hex r) as ->; [|done].
  unfold StripQuotes. destruct (rp_hex r) as [|c h]; [done|]. cbn [head]. rewrite bool_decide_false.
  { by rewrite andb_false_r. }
  intros [= ->]. apply Forall_cons in Hx as [Hx _]. vm_compute in Hx. done.
Qed.

(** A wait in which these reports arrive, in pieces of any size. *)
Lemma sleep_reports reports reads reader rest ms w :
  calm_callbacks call_data call_close call_udp on_network_state → listening w →
  lk_idle (link w).1 = (reads, reader) :: rest → Forall well_formed reports →
  concat reads = wire (report_line <$> reports) →
  ∃ l, sleep call_data call_close call_udp on_network_state ms w = (fold_left arrives reports (set_link l w), Ok ()).
Proof.
  intros Hcalm (Eh & Ed & El & Ep) Hidle HF Hreads.
  assert (Forall (λ l, (CR ∉ l ∧ LF ∉ l) ∧ forallb isblank l = false ∧ starts_prompt l = false) (report_line <$> reports)) as Hlines.
  { apply Forall_fmap. eapply Forall_impl; [exact HF|]. intros r Hr. cbn.
    destruct (report_args_shape r Hr) as (_ & _ & _ & Hc & Hl). unfold report_line. split_and!; try done.
    - intros [Hin|Hin]%elem_of_app; [|done]. vm_compute in Hin.
      by repeat (apply elem_of_cons in Hin as [Hin|Hin]; [discriminate Hin|]); apply elem_of_nil in Hin.
    - intros [Hin|Hin]%elem_of_app; [|done]. vm_compute in Hin.
      by repeat (apply elem_of_cons in Hin as [Hin|Hin]; [discriminate Hin|]); apply elem_of_nil in Hin. }
  set (u := lk_uart (link w).1) in *.
  assert (lines_of (line_buffer u ++ concat reads) = (report_line <$> reports, [])) as Els.
  { rewrite El, Hreads. cbn [app]. rewrite <- (app_nil_r (wire _)), lines_of_wire.
    - change (lines_of []) with (([], []) : list bytes * bytes). cbn. by rewrite app_nil_r.
    - eapply Forall_impl; [exact Hlines|]. by intros l [? _]. }
  assert (receive_all u reads = set_line (fold_left ProcessLine (report_line <$> reports) u) []) as Er.
  { rewrite receive_all_lines; [by rewrite Els|done|by rewrite El|].
    unfold no_prompt. rewrite Els. cbn [fst snd]. apply Forall_app. split; [|by repeat constructor].
    eapply Forall_impl; [exact Hlines|]. by intros l (_ & _ & ?). }
  assert (calls_since u (receive_all u reads) = (λ r, MkInvocation 4 (lit "+MIPURC") (report_args r)) <$> reports) as Ec.
  { unfold calls_since. rewrite Er. change (dispatched (set_line ?c ?v)) with (dispatched c).
    rewrite ProcessLines_dispatched, drop_app_length, Ed.
    - clear -HF. induction HF as [|r rs Hr HF IH]; [done|]. cbn [fmap list_fmap mbind list_bind].
      by rewrite report_dispatch, IH.
    - eapply Forall_impl; [exact Hlines|]. intros l ([Hc _] & Hb & _). split; [|done].
      intros Hl%last_Some_elem_of. done. }
  unfold Ml307Hal.sleep. cbn [pause recorded_link uart_modem_link]. rewrite Hidle. fold u. cbv zeta beta iota.
  rewrite Ec. match goal with |- ∃ _, (fold_left _ _ (set_link ?l w), _) = _ => exists l; generalize l end.
  intros l. f_equal. assert (urc_handles_ (hal (set_link l w)) = ml307_handles) as Eh' by done. revert Eh'.
  generalize (set_link l w). clear -Hcalm HF. intros v Ev. rewrite fold_left_app. revert v Ev.
  induction HF as [|r rs Hr HF IH]; intros v Ev; [by destruct reader|].
  cbn [fmap list_fmap fold_left]. cbn [on_happening]. rewrite report_arrives by done. apply IH.
  unfold arrives. destruct (DispatchTcpData_same _ _ _ _ Hcalm (rp_cid r) (ParseHex (rp_hex r)) v) as [-> _]. done.
Qed.

(** * Property: payloads *)

(** C25: a payload the module reports reaches its socket. The lines of the reports
    may arrive in pieces of any size: a HAL that is waiting dispatches each payload,
    decoded from its hexadecimal, to the cid it names, once and in order, and
    nothing else happens. *)
Theorem payloads_heard reports reads reader rest ms w :
  calm_callbacks call_data call_close call_udp on_network_state → listening w →
  lk_idle (link w).1 = (reads, reader) :: rest → Forall well_formed reports →
  concat reads = wire (report_line <$> reports) →
  ∃ l, sleep call_data call_close call_udp on_network_state ms w = (fold_left arrives reports (set_link l w), Ok ()).
Proof. apply sleep_reports. Qed.
End Arrivals.

(** * Witnesses, and events that go astray *)

(** Cid 0 was given back just now, so cid 1 is taken. *)
Lemma AllocateConnectionId_spec_witness :
  let w := ReleaseConnectionId 0 (sample_ml307 [] []) in
  let r := (AllocateConnectionId 0 : op _ NetworkError Z) w in
  resting w 0 = true ∧
  ((r.2 = Ok (-1) ∧ r.1 = w ∧ ∀ i, 0 <= i < kMaxConnections → IsConnectionUsed (hal w) i = true) ∨
   ∃ id, r.2 = Ok id ∧ 0 <= id < kMaxConnections ∧
    IsConnectionUsed (hal w) id = false ∧ IsConnectionUsed (hal r.1) id = true ∧
    (∀ i, i ≠ id → IsConnectionUsed (hal r.1) i = IsConnectionUsed (hal w) i) ∧
    undelivered r.1.1 !! id = None ∧
    (if resting w id
     then ∀ i, 0 <= i < kMaxConnections → IsConnectionUsed (hal w) i = false →
            resting w i = true ∧ given_back_at w id <= given_back_at w i
     else ∀ i, 0 <= i < id → IsConnectionUsed (hal w) i = false → resting w i = true)).
Proof.
  cbv zeta. split; [vm_compute; reflexivity|].
  apply (AllocateConnectionId_spec 0 (ReleaseConnectionId 0 (sample_ml307 [] []))).
  - lia.
  - vm_compute. reflexivity.
  - apply surjective_pairing.
Defined.

(** Two payloads for two sockets, in three reads that cut through the lines. *)
Definition sample_reports : list report :=
  [MkReport 2 3 (EncodeHex (lit "abc")); MkReport 0 2 (EncodeHex (lit "OK"))].
Definition sample_reads : list bytes :=
  let s := wire (report_line <$> sample_reports) in [take 5 s; take 20 (drop 5 s); drop 25 s].
Definition arriving : IModuleHal nat * (Ml307Hal * ((uart_link * list exchange) * list (Z * bytes))) :=
  let w := sample_ml307 [] [(sample_reads, false)] in
  (HalRoutes.SubscribeTcp note_data note_close (λ _ w, w) HalRoutes.undisturbed 2 (Some 7%nat) None w).1.

Lemma arriving_listening : listening arriving.
Proof. split; [|split; [|split]]; by_vm. Qed.

Lemma payloads_heard_witness :
  ∃ l, sleep note_data note_close note_udp None 50 arriving =
    (fold_left (arrives note_data) sample_reports (set_link l arriving), Ok ()) ∧
    (fold_left (arrives note_data) sample_reports arriving).2.2.2 = [(2, lit "abc")].
Proof.
  edestruct (payloads_heard note_data note_close note_udp None sample_reports sample_reads false [] 50 arriving) as [l Hl].
  - apply notes_calm.
  - apply arriving_listening.
  - vm_compute. reflexivity.
  - repeat (apply Forall_cons_2 || apply Forall_nil_2); (split; [vm_compute; split; congruence|]);
      (split; [vm_compute; split; congruence|]); (split; [done|]);
      apply (bool_decide_unpack _); vm_compute; exact I.
  - vm_compute. reflexivity.
  - exists l. split; [exact Hl|]. vm_compute. reflexivity.
Defined.

(** Two threads open a socket each. There is one rendezvous, armed last for cid 1:
    the success reported for cid 1 is taken by the thread that waits for cid 0, of
    which the module has said nothing, and the other waits in vain. *)
Lemma concurrent_opens_cross :
  let w := ArmOpenWait 1 (ArmOpenWait 0 (sample_ml307 [] [])) in
  let w := OnMipopenUrc (lit "1,0") w in
  let wait := WaitForOpenResult note_data note_close note_udp None in
  let '(w0, r0) := wait 0 30000 w in
  let '(w1, r1) := wait 1 30000 w0 in
  r0 = Ok () ∧ r1 = Err (MkNetworkError kTimeout 0 (lit "timed out waiting for +MIPOPEN for connection 1")).
Proof. vm_compute. by split. Qed.

(** A host name of the length DNS allows does not fit the command's buffer: what
    is sent has lost its port and its closing quote. *)
Lemma long_host_truncated :
  let host := replicate 253 "a"%char in
  open_command 0 (lit "TCP") host 80 = lit "AT+MIPOPEN=0," ++ quoted (lit "TCP") ++ lit "," ++ QUOTE :: replicate 235 "a"%char.
Proof. vm_compute. reflexivity. Qed.

(** A UDP socket is not told its peer closed it. Its cid is freed and, in time,
    given to a TCP socket, and closing the UDP client then closes that. *)
Lemma udp_close_ends_new_owner :
  let allocate := (AllocateConnectionId 0 : op _ NetworkError Z) in
  let '(w, udp) := allocate (sample_ml307 [] []) in
  let w := OnMipUrc note_data note_close note_udp (quoted (lit "disconn") ++ lit ",0") w in
  let w := set_link (MkUartLink (lk_uart (link w).1) [ok_after []] [] 7000, (link w).2) w in
  let '(w, tcp) := allocate w in
  let '(w', r) := UdpClose note_data note_close note_udp None 0 w in
  udp = Ok 0 ∧ tcp = Ok 0 ∧ IsConnectionUsed (hal w) 0 = true ∧ r = Ok () ∧
  last (link w').2 = Some (XCommand (lit "AT+MIPCLOSE=0") (Ok ())) ∧ IsConnectionUsed (hal w') 0 = false.
Proof. vm_compute. by split_and!. Qed.

(** A registration report with the cell in it, [+CEREG: <stat>,<tac>,...], is read
    as [<n>,<stat>]: the status is passed over. *)
Lemma cereg_with_cell_ignored w : OnCeregUrc (U := unit) (W := unit) (K := nat) None (lit "5," ++ quoted (lit "00A5") ++ lit ",1") w = w.
Proof. by destruct w as [? [? [? ?]]]. Qed.

(** The first line of the answer is taken for the answer. A report that arrived
    ahead of it is handed back as the IMEI. *)
Lemma imei_is_first_line :
  let w := sample_ml307 [ok_after [lit "+MIPCLOSE: 3"; lit "+CGSN: " ++ quoted (lit "860000000000001")]] [] in
  snd <$> GetImei note_data note_close note_udp None w = Some (Ok (lit "3")).
Proof. vm_compute. reflexivity. Qed.
