(* ===== verification/Ml307Frame.v ===== *)
(** What the ML307 HAL leaves alone: a property of the world that its own members
    and the line have no part in, and that survives what the module reports,
    survives every socket operation. *)
From stdpp Require Import base decidable list strings gmap.
From Stdlib Require Import ZArith Ascii Lia.
From S2P Require Import Prelude Errors CommonTypes StateResult AtParser UrcDispatcher HalRoutes ModemLink Ml307Hal.

Section Frame.
Context {K W U : Type} `{IModemLink W}.
Local Abbreviation world := (IModuleHal K * (Ml307Hal * (W * U)))%type.
Context (call_data : K → Z → bytes → world → world) (call_close : K → Z → world → world).
Context (call_udp : K → Z → bytes → Z → bytes → world → world).
Context (on_network_state : option (RegistrationState → world → world)).
Local Abbreviation act := (op world NetworkError).
Context (Q : world → Prop).

Record framed : Prop := {
  fr_hal : ∀ f w, Q w → Q (set_hal f w);
  fr_link : ∀ l w, Q w → Q (set_link l w);
  fr_discard : ∀ id w, Q w → Q (DiscardUndelivered w.1 id, w.2);
  fr_data : ∀ cid d w, Q w → Q (DispatchTcpData call_data cid d w);
  fr_close : ∀ cid w, Q w → Q (DispatchTcpClose call_close cid w);
  fr_udp : ∀ cid host port d w, Q w → Q (DispatchUdpData call_udp cid host port d w);
  fr_state : ∀ f s w, on_network_state = Some f → Q w → Q (f s w);
}.
Context (F : framed).

Lemma ReleaseConnectionId_frame id w : Q w → Q (ReleaseConnectionId id w).
Proof. intros HQ. unfold ReleaseConnectionId. case_match; [done|]. by apply F, F. Qed.

Lemma on_urc_frame w i : Q w → Q (on_urc call_data call_close call_udp on_network_state w i).
Proof.
  pose proof ReleaseConnectionId_frame as Hr.
  intros HQ. unfold on_urc. destruct (list_find _ _) as [[n [hd k]]|]; [|done]. destruct k; cbn [run_handler].
  - by apply F.
  - unfold OnMipcloseUrc. case_match; [by apply F, Hr|done].
  - unfold OnMiprtcpUrc. repeat case_match; try done; by apply F.
  - unfold OnMipUrc. repeat case_match; try done; try (by apply F); by apply F, Hr.
  - unfold OnCeregUrc. case_match; [|done]. destruct on_network_state eqn:E; [|by apply F].
    eapply (fr_state F); [exact E|]. by apply F.
Qed.

Lemma on_urcs_frame calls w : Q w → Q (fold_left (on_urc call_data call_close call_udp on_network_state) calls w).
Proof. revert w; induction calls as [|i calls IH]; intros w HQ; [done|]. by apply IH, on_urc_frame. Qed.

Lemma command_frame cmd timeout : keeps Q (command call_data call_close call_udp on_network_state cmd timeout).
Proof.
  intros w HQ. unfold command. destruct (at_command _ _ _) as [[l calls] r]. by apply on_urcs_frame, F.
Qed.

Lemma sleep_frame ms : keeps Q (sleep call_data call_close call_udp on_network_state ms).
Proof.
  intros w HQ. unfold sleep. destruct (pause _ _) as [l hs]. cbn [fst].
  assert (Q (set_link l w)) as H1 by by apply F. revert H1. generalize (set_link l w).
  induction hs as [|[i|] hs IH]; intros v Hv; [done| |by apply IH]. apply IH. by apply on_urc_frame.
Qed.

Lemma checked_frame cmd timeout : keeps Q (checked call_data call_close call_udp on_network_state cmd timeout).
Proof. apply keeps_bind; [apply command_frame|]. intros [?|e]; auto with modem. Qed.

Lemma hal_frame f : keeps Q (modify (E := NetworkError) (set_hal f)).
Proof. apply keeps_modify. intros w. by apply F. Qed.

Lemma release_frame id : keeps Q (modify (E := NetworkError) (ReleaseConnectionId id)).
Proof. apply keeps_modify. apply ReleaseConnectionId_frame. Qed.

Lemma with_channel_frame {A} (m : act A) : keeps Q m → keeps Q (with_channel m).
Proof. intros Hm. apply keeps_bind; [apply keeps_gets|]. intros b. apply keeps_if; [done|apply keeps_fail]. Qed.

#[local] Hint Resolve command_frame sleep_frame checked_frame hal_frame release_frame with_channel_frame : modem.

Lemma AllocateConnectionId_frame first : keeps Q (AllocateConnectionId first).
Proof.
  intros w HQ. unfold AllocateConnectionId. case_match; [|done]. cbn [fst].
  apply (fr_hal F (λ _, take_slot (hal w) _) (DiscardUndelivered w.1 _, w.2)). by apply F.
Qed.

Lemma QuerySocketActive_frame id : keeps Q (QuerySocketActive call_data call_close call_udp on_network_state id).
Proof. apply keeps_bind; [auto with modem|]. intros [?|e]; [auto with modem|]. case_decide; auto with modem. Qed.

Lemma await_released_frame n id : keeps Q (await_released call_data call_close call_udp on_network_state n id).
Proof.
  induction n as [|n IH]; [apply keeps_ret|]. apply keeps_bind; [auto with modem|]. intros _.
  apply keeps_bind; [apply QuerySocketActive_frame|]. intros b. apply keeps_if; [apply keeps_ret|done].
Qed.

Lemma EnsureSocketFree_frame id : keeps Q (EnsureSocketFree call_data call_close call_udp on_network_state id).
Proof.
  pose proof await_released_frame as Ha.
  apply keeps_bind; [apply QuerySocketActive_frame|]. intros b. apply keeps_if; [apply keeps_ret|].
  apply keeps_bind; [auto with modem|]. intros [?|e]; [done|]. case_decide; [done|apply keeps_fail].
Qed.

Lemma ConfigureSsl_frame id enable config : keeps Q (ConfigureSsl call_data call_close call_udp on_network_state id enable config).
Proof.
  unfold ConfigureSsl. apply keeps_if; [apply keeps_if; auto with modem|]. destruct (SslAuthMode config); auto with modem.
Qed.

Lemma OpenOnId_frame id type host port timeout :
  keeps Q (OpenOnId call_data call_close call_udp on_network_state id type host port timeout).
Proof.
  apply keeps_bind; [apply hal_frame|]. intros _. apply keeps_bind; [auto with modem|]. intros _.
  apply keeps_bind.
  - intros w HQ. unfold wait_for. case_match; [done|]. by apply sleep_frame.
  - intros _. apply keeps_bind; [auto with modem|]. intros wait. apply keeps_bind; [apply hal_frame|]. intros _.
    apply keeps_if; [auto with modem|]. apply keeps_if; auto with modem.
Qed.

Lemma open_loop_frame fuel first type host port ssl config :
  keeps Q (open_loop call_data call_close call_udp on_network_state fuel first type host port ssl config).
Proof.
  assert (∀ first, keeps Q (no_slot first : act Z)) as Hno by (intros f; apply keeps_if; apply keeps_fail).
  revert first; induction fuel as [|fuel IH]; intros first; [apply Hno|]. cbn [open_loop].
  apply keeps_if; [apply Hno|]. apply keeps_bind; [apply AllocateConnectionId_frame|]. intros id.
  apply keeps_if; [apply Hno|].
  assert (∀ e : NetworkError, keeps Q (modify (ReleaseConnectionId id) ;;; fail e : act Z)) as Hrel by (intros e; auto with modem).
  assert (keeps Q (modify (ReleaseConnectionId id) ;;; open_loop call_data call_close call_udp on_network_state fuel (id + 1)
    type host port ssl config)) as Hnext by (apply keeps_bind; [apply release_frame|]; intros _; apply IH).
  apply keeps_bind; [apply keeps_attempt, EnsureSocketFree_frame|]. intros [[]|e]; [|done|done].
  apply keeps_bind; [apply keeps_attempt, keeps_bind; [apply ConfigureSsl_frame|]; intros _; apply checked_frame|].
  intros [?|e]; [|done]. apply keeps_bind; [apply keeps_attempt, OpenOnId_frame|].
  intros [?|e]; [apply keeps_ret|]. by apply keeps_if.
Qed.

Lemma TcpConnect_frame host port ssl config :
  keeps Q (TcpConnect call_data call_close call_udp on_network_state host port ssl config).
Proof. apply with_channel_frame, open_loop_frame. Qed.

Lemma TcpSend_frame id data : keeps Q (TcpSend call_data call_close call_udp on_network_state id data).
Proof.
  apply with_channel_frame, keeps_bind; [|auto with modem].
  generalize (length data) as n. intros n; revert data; induction n as [|n IH]; intros data; [apply keeps_ret|].
  destruct data; [apply keeps_ret|]. cbn [send_chunks].
  apply keeps_bind; [apply checked_frame|]. intros _. apply IH.
Qed.

Lemma TcpClose_frame id : keeps Q (TcpClose call_data call_close call_udp on_network_state id).
Proof.
  apply with_channel_frame, keeps_bind; [auto with modem|]. intros b. apply keeps_if; [apply keeps_ret|].
  apply keeps_bind; [apply command_frame|]. intros r. apply keeps_bind; [apply release_frame|]. intros _.
  destruct r; [apply keeps_ret|]. case_decide; auto with modem.
Qed.
End Frame.
