(* ===== verification/Air780eHal.v ===== *)
(** The AIR780E HAL (src/src/modules/air780e/air780e_hal.{h,cpp}): sockets whose
    payload is announced and fetched, one TLS switch for the whole module, and the
    keyless lines the module reports events with.

    A world is the routing tables every HAL has, this HAL's own members, the link
    to the module and [U], everything else. What the receive task does while an
    operation waits is run at the wait; where a wait lets the reader task in
    ([Reader]), one turn of [ReceiveLoop] is run. The mutexes are left out: each
    critical section is one step. One opener runs at a time, so the wait for a TLS
    switch in flight is over at once.

    The identity queries call through [channel_] without looking whether it is
    set: [through_channel] is [None] when it is not. *)
From stdpp Require Import base decidable list strings gmap.
From Stdlib Require Import ZArith Ascii Lia.
From S2P Require Import Prelude Errors CommonTypes StateResult AtParser UrcDispatcher AtChannel HalRoutes ModemLink.

Open Scope Z_scope.

Definition kMaxConnections : Z := 6.
Definition kReadChunk : Z := 720.
Definition kMaxDrainPerWake : nat := Z.to_nat (8 * 1024).
Definition kConnectTimeout : Z := 30000.
Definition kDefaultTimeout : Z := 5000.
Definition kLongTimeout : Z := 30000.
Definition kAlreadyConnectedCode : Z := 65535.

Definition Trim (s : bytes) : bytes := trim_by isblank s.

Definition UnfulfillableTlsOption (config : TlsConfig) : bytes :=
  lit (if verify_certificate config then "verify_certificate"
       else if verify_hostname config then "verify_hostname"
       else if decide (ca_cert config ≠ []) then "ca_cert"
       else if decide (client_cert config ≠ []) then "client_cert"
       else if decide (client_key config ≠ []) then "client_key"
       else if decide (alpn_protocols config ≠ []) then "alpn_protocols"
       else "").

Definition air780e_capabilities : ModuleCapabilities :=
  MkCapabilities true true true true true true true false true kMaxConnections 921600.

(** * State *)

Inductive OpenOutcome := kConnected | kFailed | kAlreadyConnectedOutcome.

Record OpenWait := MkOpenWait { ow_id : Z; ow_outcome : OpenOutcome; ow_done : bool }.
Definition no_wait : OpenWait := MkOpenWait (-1) kFailed false.

Record SocketSlot := MkSocketSlot { used : bool; udp : bool; ssl : bool; holds_mode : bool; serial : Z }.
Definition no_socket : SocketSlot := MkSocketSlot false false false false 0.

Record SendWait := MkSendWait { sw_pending : Z; sw_failed : bool }.
Definition no_send : SendWait := MkSendWait 0 false.

(** The closures [RegisterUrcHandlers] subscribes. *)
Inductive urc_handler := HCiprxget | HUnsolicited.

Record Air780eHal := MkAir780e {
  channel_ : bool;
  start_reader_ : bool;
  urc_handles_ : list (Z * urc_handler);
  open_wait_ : OpenWait;
  slots_ : list SocketSlot;
  next_serial_ : Z;
  send_wait_ : list SendWait;
  rx_peer_ : list bytes;
  rx_pending_ : list bool;
  rx_close_serial_ : list Z;
  rx_stop_ : bool;
  rx_task_ : bool;
  ssl_sockets_open_ : Z;
  plain_sockets_open_ : Z;
  ssl_switch_in_progress_ : bool;
  shut_ok_ : bool;
  close_ok_ : bool;
  close_pending_id_ : Z;
  last_signal_ : SignalInfo;
  overrun_ : bool;
}.

Definition set_channel (h : Air780eHal) (b : bool) : Air780eHal :=
  MkAir780e b (start_reader_ h) (urc_handles_ h) (open_wait_ h) (slots_ h) (next_serial_ h) (send_wait_ h)
    (rx_peer_ h) (rx_pending_ h) (rx_close_serial_ h) (rx_stop_ h) (rx_task_ h) (ssl_sockets_open_ h)
    (plain_sockets_open_ h) (ssl_switch_in_progress_ h) (shut_ok_ h) (close_ok_ h) (close_pending_id_ h)
    (last_signal_ h) (overrun_ h).
Definition set_urc_handles (h : Air780eHal) (l : list (Z * urc_handler)) : Air780eHal :=
  MkAir780e (channel_ h) (start_reader_ h) l (open_wait_ h) (slots_ h) (next_serial_ h) (send_wait_ h)
    (rx_peer_ h) (rx_pending_ h) (rx_close_serial_ h) (rx_stop_ h) (rx_task_ h) (ssl_sockets_open_ h)
    (plain_sockets_open_ h) (ssl_switch_in_progress_ h) (shut_ok_ h) (close_ok_ h) (close_pending_id_ h)
    (last_signal_ h) (overrun_ h).
Definition set_open_wait (h : Air780eHal) (w : OpenWait) : Air780eHal :=
  MkAir780e (channel_ h) (start_reader_ h) (urc_handles_ h) w (slots_ h) (next_serial_ h) (send_wait_ h)
    (rx_peer_ h) (rx_pending_ h) (rx_close_serial_ h) (rx_stop_ h) (rx_task_ h) (ssl_sockets_open_ h)
    (plain_sockets_open_ h) (ssl_switch_in_progress_ h) (shut_ok_ h) (close_ok_ h) (close_pending_id_ h)
    (last_signal_ h) (overrun_ h).
Definition set_slots (h : Air780eHal) (l : list SocketSlot) (next : Z) : Air780eHal :=
  MkAir780e (channel_ h) (start_reader_ h) (urc_handles_ h) (open_wait_ h) l next (send_wait_ h) (rx_peer_ h)
    (rx_pending_ h) (rx_close_serial_ h) (rx_stop_ h) (rx_task_ h) (ssl_sockets_open_ h)
    (plain_sockets_open_ h) (ssl_switch_in_progress_ h) (shut_ok_ h) (close_ok_ h) (close_pending_id_ h)
    (last_signal_ h) (overrun_ h).
Definition set_send_wait (h : Air780eHal) (l : list SendWait) : Air780eHal :=
  MkAir780e (channel_ h) (start_reader_ h) (urc_handles_ h) (open_wait_ h) (slots_ h) (next_serial_ h) l
    (rx_peer_ h) (rx_pending_ h) (rx_close_serial_ h) (rx_stop_ h) (rx_task_ h) (ssl_sockets_open_ h)
    (plain_sockets_open_ h) (ssl_switch_in_progress_ h) (shut_ok_ h) (close_ok_ h) (close_pending_id_ h)
    (last_signal_ h) (overrun_ h).
Definition set_rx (h : Air780eHal) (peer : list bytes) (pending : list bool) (closed : list Z) : Air780eHal :=
  MkAir780e (channel_ h) (start_reader_ h) (urc_handles_ h) (open_wait_ h) (slots_ h) (next_serial_ h)
    (send_wait_ h) peer pending closed (rx_stop_ h) (rx_task_ h) (ssl_sockets_open_ h) (plain_sockets_open_ h)
    (ssl_switch_in_progress_ h) (shut_ok_ h) (close_ok_ h) (close_pending_id_ h) (last_signal_ h) (overrun_ h).
Definition set_reader (h : Air780eHal) (stop task : bool) : Air780eHal :=
  MkAir780e (channel_ h) (start_reader_ h) (urc_handles_ h) (open_wait_ h) (slots_ h) (next_serial_ h)
    (send_wait_ h) (rx_peer_ h) (rx_pending_ h) (rx_close_serial_ h) stop task (ssl_sockets_open_ h)
    (plain_sockets_open_ h) (ssl_switch_in_progress_ h) (shut_ok_ h) (close_ok_ h) (close_pending_id_ h)
    (last_signal_ h) (overrun_ h).
Definition set_mode_counts (h : Air780eHal) (ssl plain : Z) : Air780eHal :=
  MkAir780e (channel_ h) (start_reader_ h) (urc_handles_ h) (open_wait_ h) (slots_ h) (next_serial_ h)
    (send_wait_ h) (rx_peer_ h) (rx_pending_ h) (rx_close_serial_ h) (rx_stop_ h) (rx_task_ h) ssl plain
    (ssl_switch_in_progress_ h) (shut_ok_ h) (close_ok_ h) (close_pending_id_ h) (last_signal_ h) (overrun_ h).
Definition set_switching (h : Air780eHal) (b : bool) : Air780eHal :=
  MkAir780e (channel_ h) (start_reader_ h) (urc_handles_ h) (open_wait_ h) (slots_ h) (next_serial_ h)
    (send_wait_ h) (rx_peer_ h) (rx_pending_ h) (rx_close_serial_ h) (rx_stop_ h) (rx_task_ h)
    (ssl_sockets_open_ h) (plain_sockets_open_ h) b (shut_ok_ h) (close_ok_ h) (close_pending_id_ h)
    (last_signal_ h) (overrun_ h).
Definition set_events (h : Air780eHal) (shut close : bool) (pending : Z) : Air780eHal :=
  MkAir780e (channel_ h) (start_reader_ h) (urc_handles_ h) (open_wait_ h) (slots_ h) (next_serial_ h)
    (send_wait_ h) (rx_peer_ h) (rx_pending_ h) (rx_close_serial_ h) (rx_stop_ h) (rx_task_ h)
    (ssl_sockets_open_ h) (plain_sockets_open_ h) (ssl_switch_in_progress_ h) shut close pending
    (last_signal_ h) (overrun_ h).
Definition set_signal (h : Air780eHal) (s : SignalInfo) : Air780eHal :=
  MkAir780e (channel_ h) (start_reader_ h) (urc_handles_ h) (open_wait_ h) (slots_ h) (next_serial_ h)
    (send_wait_ h) (rx_peer_ h) (rx_pending_ h) (rx_close_serial_ h) (rx_stop_ h) (rx_task_ h)
    (ssl_sockets_open_ h) (plain_sockets_open_ h) (ssl_switch_in_progress_ h) (shut_ok_ h) (close_ok_ h)
    (close_pending_id_ h) s (overrun_ h).

Definition new_air780e (start_reader : bool) : Air780eHal :=
  let per {A} (x : A) := replicate (Z.to_nat kMaxConnections) x in
  MkAir780e false start_reader [] no_wait (per no_socket) 1 (per no_send) (per []) (per false) (per 0) false false 0 0
    false false false (-1) default_signal false.

Definition in_pool (id : Z) : bool := (0 <=? id) && (id <? kMaxConnections).

(** One entry of a per-cid array. A write outside the array is undefined in the source;
    the model goes on without it and keeps in [overrun_], which the source has not,
    that there was one. *)
Definition entry {A} (l : list A) (id : Z) (d : A) : A := nth (Z.to_nat id) l d.
Definition set_entry {A} (l : list A) (id : Z) (v : A) : list A := <[Z.to_nat id := v]> l.

Definition touch (id : Z) (h : Air780eHal) : Air780eHal :=
  MkAir780e (channel_ h) (start_reader_ h) (urc_handles_ h) (open_wait_ h) (slots_ h) (next_serial_ h)
    (send_wait_ h) (rx_peer_ h) (rx_pending_ h) (rx_close_serial_ h) (rx_stop_ h) (rx_task_ h)
    (ssl_sockets_open_ h) (plain_sockets_open_ h) (ssl_switch_in_progress_ h) (shut_ok_ h) (close_ok_ h)
    (close_pending_id_ h) (last_signal_ h) (overrun_ h || negb (in_pool id)).

Definition slot (h : Air780eHal) (id : Z) : SocketSlot := entry (slots_ h) id no_socket.
Definition set_slot (h : Air780eHal) (id : Z) (s : SocketSlot) : Air780eHal :=
  set_slots (touch id h) (set_entry (slots_ h) id s) (next_serial_ h).
Definition send_wait (h : Air780eHal) (id : Z) : SendWait := entry (send_wait_ h) id no_send.
Definition set_send (h : Air780eHal) (id : Z) (s : SendWait) : Air780eHal :=
  set_send_wait (touch id h) (set_entry (send_wait_ h) id s).
Definition set_pending (h : Air780eHal) (id : Z) (b : bool) : Air780eHal :=
  set_rx (touch id h) (rx_peer_ h) (set_entry (rx_pending_ h) id b) (rx_close_serial_ h).
Definition set_close_serial (h : Air780eHal) (id : Z) (s : Z) : Air780eHal :=
  set_rx (touch id h) (rx_peer_ h) (rx_pending_ h) (set_entry (rx_close_serial_ h) id s).
Definition set_peer (h : Air780eHal) (id : Z) (p : bytes) : Air780eHal :=
  set_rx (touch id h) (set_entry (rx_peer_ h) id p) (rx_pending_ h) (rx_close_serial_ h).

(** * The pool and the counters *)

Definition IsConnectionUsed (h : Air780eHal) (id : Z) : bool := in_pool id && used (slot h id).

Definition OwnsSerial (h : Air780eHal) (id s : Z) : bool :=
  in_pool id && negb (s =? 0) && used (slot h id) && (serial (slot h id) =? s).

Definition PeerCloseNoted (h : Air780eHal) (id : Z) : bool :=
  in_pool id && negb (entry (rx_close_serial_ h) id 0 =? 0).

(** The scan of [AllocateConnectionId]. *)
Fixpoint pick_slot (i : Z) (slots : list SocketSlot) (avoid : list bool) : option Z :=
  match slots, avoid with
  | s :: slots, a :: avoid => if used s || a then pick_slot (i + 1) slots avoid else Some i
  | _, _ => None
  end.

Definition take_slot (h : Air780eHal) (id : Z) : Air780eHal :=
  set_slots (touch id h) (set_entry (slots_ h) id (MkSocketSlot true false false false (next_serial_ h))) (u32 (next_serial_ h + 1)).

Definition ReleaseSocketForMode (ssl : bool) (h : Air780eHal) : Air780eHal :=
  let down n := if 0 <? n then n - 1 else n in
  if ssl then set_mode_counts h (down (ssl_sockets_open_ h)) (plain_sockets_open_ h)
  else set_mode_counts h (ssl_sockets_open_ h) (down (plain_sockets_open_ h)).

Definition take_mode (ssl : bool) (h : Air780eHal) : Air780eHal :=
  if ssl then set_mode_counts h (ssl_sockets_open_ h + 1) (plain_sockets_open_ h)
  else set_mode_counts h (ssl_sockets_open_ h) (plain_sockets_open_ h + 1).

(** * What the handlers record *)

(** [fields[i]] *)
Definition field (fields : list bytes) (i : nat) : bytes := nth i fields [].

Definition RecordOpenResult (id : Z) (outcome : OpenOutcome) (h : Air780eHal) : Air780eHal :=
  if negb (ow_id (open_wait_ h) =? id) then h else set_open_wait h (MkOpenWait id outcome true).

Definition NotePeerClosed (id : Z) (h : Air780eHal) : Air780eHal :=
  let s := if in_pool id && used (slot h id) then serial (slot h id) else 0 in
  if s =? 0 then h else set_pending (set_close_serial h id s) id true.

Definition OnCiprxgetUrc (args : bytes) (h : Air780eHal) : Air780eHal :=
  let fields := SplitCsv args in
  if (length fields <? 2)%nat then h else
  match ParseInt (Trim (field fields 0)), ParseInt (Trim (field fields 1)) with
  | Some kind, Some id =>
      if negb (kind =? 1) || negb (in_pool id) then h else
      let h := if (3 <=? length fields)%nat then set_peer h id (Trim (field fields 2)) else h in
      set_pending h id true
  | _, _ => h
  end.

(** [line] is what the dispatcher hands over as the command. *)
Definition OnUnsolicitedLine (line : bytes) (h : Air780eHal) : Air780eHal :=
  if decide (find_byte ":" line ≠ None) then h else
  if decide (line = lit "SHUT OK") then set_events h true (close_ok_ h) (close_pending_id_ h) else
  match find_byte "," line with
  | None => h
  | Some comma =>
      match ParseInt (Trim (take comma line)) with
      | None => h
      | Some id =>
          if negb (in_pool id) then h else
          let what := Trim (drop (comma + 1) line) in
          if decide (what = lit "CONNECT OK") then RecordOpenResult id kConnected h
          else if decide (what = lit "CONNECT FAIL") then RecordOpenResult id kFailed h
          else if decide (what = lit "ALREADY CONNECT") then RecordOpenResult id kAlreadyConnectedOutcome h
          else if decide (what = lit "CLOSE OK") then
            if close_pending_id_ h =? id then set_events h (shut_ok_ h) true (close_pending_id_ h)
            else NotePeerClosed id h
          else if decide (what = lit "SEND OK") then
            let s := send_wait h id in
            if 0 <? sw_pending s then set_send h id (MkSendWait (sw_pending s - 1) (sw_failed s)) else h
          else if decide (what = lit "SEND FAIL") then set_send h id (MkSendWait 0 true)
          else if decide (what = lit "CLOSED") then NotePeerClosed id h
          else h
      end
  end.

(** The header of a read's answer: the length it announces, the payload line and
    the sender. *)
Fixpoint find_header (id : Z) (lines : list bytes) : option (Z * bytes * bytes) :=
  match lines with
  | [] => None
  | line :: rest =>
      let fields := SplitCsv (StripKeyPrefix line) in
      if (length fields <? 3)%nat then find_header id rest else
      match ParseInt (Trim (field fields 0)), ParseInt (Trim (field fields 1)), ParseInt (Trim (field fields 2)) with
      | Some which, Some found, Some length_ =>
          if negb (which =? 3) || negb (found =? id) then find_header id rest
          else Some (length_, default [] (head rest),
                     if (5 <=? length fields)%nat then Trim (field fields 4) else [])
      | _, _, _ => find_header id rest
      end
  end.

(** * Operations *)

Section Air780e.
Context {K W U : Type} `{IModemLink W}.
Local Abbreviation world := (IModuleHal K * (Air780eHal * (W * U)))%type.
Context (call_data : K → Z → bytes → world → world) (call_close : K → Z → world → world).
Context (call_udp : K → Z → bytes → Z → bytes → world → world).
Local Abbreviation act := (op world NetworkError).

Definition hal (w : world) : Air780eHal := w.2.1.
Definition link (w : world) : W := w.2.2.1.
Definition set_hal (f : Air780eHal → Air780eHal) (w : world) : world := (w.1, (f w.2.1, w.2.2)).
Definition set_link (l : W) (w : world) : world := (w.1, (w.2.1, (l, w.2.2.2))).

(** ** Events and commands *)

Definition run_handler (k : urc_handler) (i : invocation) : Air780eHal → Air780eHal :=
  match k with
  | HCiprxget => OnCiprxgetUrc (iv_arguments i)
  | HUnsolicited => OnUnsolicitedLine (iv_command i)
  end.

(** A handler call: the closure the handle was given for. *)
Definition on_urc (w : world) (i : invocation) : world :=
  match list_find (λ e, e.1 = iv_handle i) (urc_handles_ (hal w)) with
  | Some (_, (_, k)) => set_hal (run_handler k i) w
  | None => w
  end.

Definition command (cmd : bytes) (timeout : Z) : act AtResult := λ w,
  let '(l, calls, r) := at_command cmd timeout (link w) in
  (fold_left on_urc calls (set_link l w), Ok r).

Definition line_out (cmd : bytes) : act AtResult := λ w,
  let '(l, calls, r) := at_line cmd (link w) in
  (fold_left on_urc calls (set_link l w), Ok r).

Definition data_out (cmd data : bytes) (timeout : Z) : act AtResult := λ w,
  let '(l, calls, r) := at_data cmd data timeout (link w) in
  (fold_left on_urc calls (set_link l w), Ok r).

(** [auto r = SendCommand(...); if (!r) return unexpected(...)] *)
Definition checked (cmd : bytes) (timeout : Z) : act unit :=
  let! r := command cmd timeout in
  match r with Err e => fail (ToNetworkError e) | Ok _ => ret () end.

Definition channel_not_set : NetworkError := net_error kNotInitialized "channel not set".

Definition with_channel {A} (m : act A) : act A :=
  let! set := gets (λ w, channel_ (hal w)) in
  if set then m else fail channel_not_set.

(** A call through [channel_] that the code does not guard. *)
Definition through_channel {A} (m : act A) (w : world) : option (world * Result A) :=
  if channel_ (hal w) then Some (m w) else None.

Definition ReadSingleLineResponse (cmd : bytes) : act bytes :=
  checked cmd 5000 ;;;
  let! lines := gets (λ w, at_lines (link w)) in
  match lines with
  | [] => fail (net_error kProtocolError "empty response")
  | line :: _ => ret line
  end.

(** ** The pool *)

(** [avoid] is all [false] for a null pointer. *)
Definition AllocateConnectionId (avoid : list bool) : act Z := λ w,
  match pick_slot 0 (slots_ (hal w)) avoid with
  | None => (w, Ok (-1))
  | Some id => ((DiscardUndelivered w.1 id, (take_slot (hal w) id, w.2.2)), Ok id)
  end.

Definition RetireSlot (id : Z) : act (option bool) := λ w,
  if negb (in_pool id) then (w, Ok None) else
  let s := slot (hal w) id in
  if negb (used s) then (w, Ok None) else
  let h := set_slot (hal w) id no_socket in
  let h := set_peer (set_close_serial (set_pending h id false) id 0) id [] in
  let h := set_send h id no_send in
  ((DiscardUndelivered w.1 id, (h, w.2.2)), Ok (if holds_mode s then Some (ssl s) else None)).

Definition ReleaseConnectionId (id : Z) : act unit :=
  let! owned_mode := RetireSlot id in
  match owned_mode with
  | Some mode => modify (set_hal (ReleaseSocketForMode mode))
  | None => ret ()
  end.

(** ** Receiving *)

Definition FinishClosedCid (id : Z) : act unit :=
  let! s := gets (λ w, entry (rx_close_serial_ (hal w)) id 0) in
  modify (set_hal (λ h, set_close_serial h id 0)) ;;;
  if s =? 0 then ret () else
  let! owns := gets (λ w, OwnsSerial (hal w) id s) in
  if negb owns then ret () else
  ReleaseConnectionId id ;;;
  modify (DispatchTcpClose call_close id).

(** The loop of [DrainOneCid]; each turn that goes on has taken a byte. *)
Fixpoint drain_loop (fuel : nat) (id : Z) (drained : nat) : act bool :=
  match fuel with
  | O => ret true
  | S k =>
      if (kMaxDrainPerWake <=? drained)%nat then ret true else
      let! held := gets (λ w, IsConnectionUsed (hal w) id) in
      if negb held then modify (set_hal (λ h, set_close_serial h id 0)) ;;; ret false else
      let! is_udp := gets (λ w, udp (slot (hal w) id)) in
      let! r := command (snprintf_ 48 (lit "AT+CIPRXGET=3," ++ to_string id ++ lit "," ++ to_string kReadChunk)) kDefaultTimeout in
      let finish : act bool := FinishClosedCid id ;;; ret false in
      match r with
      | Err _ => finish
      | Ok _ =>
          let! lines := gets (λ w, at_lines (link w)) in
          match find_header id lines with
          | None => finish
          | Some (returned, hex, source) =>
              if returned <=? 0 then finish else
              let payload := ParseHex hex in
              if decide (payload = []) then finish else
              if is_udp then
                let! noted := gets (λ w, entry (rx_peer_ (hal w)) id []) in
                let peer := if decide (source = []) then noted else source in
                match rfind_byte ":" peer with
                | None => ret false
                | Some colon =>
                    let port := match ParseInt (drop (colon + 1) peer) with Some p => u16 p | None => 0 end in
                    modify (DispatchUdpData call_udp id (take colon peer) port payload) ;;;
                    drain_loop k id (drained + length payload)
                end
              else
                modify (DispatchTcpData call_data id payload) ;;;
                drain_loop k id (drained + length payload)
          end
      end
  end.

Definition DrainOneCid (id : Z) : act bool :=
  let! set := gets (λ w, channel_ (hal w)) in
  if negb set then ret false else drain_loop kMaxDrainPerWake id 0.

(** The cids with data waiting, taken and cleared. *)
Definition take_pending : act (list Z) := λ w,
  let ids := omap (λ e : nat * bool, if e.2 then Some (Z.of_nat e.1) else None) (imap pair (rx_pending_ (hal w))) in
  (set_hal (λ h, set_rx h (rx_peer_ h) ((λ _, false) <$> rx_pending_ h) (rx_close_serial_ h)) w, Ok ids).

Fixpoint drain_cids (ids : list Z) : act unit :=
  match ids with
  | [] => ret ()
  | id :: ids =>
      let! stop := gets (λ w, rx_stop_ (hal w)) in
      if stop then ret () else
      let! more := DrainOneCid id in
      (if more then modify (set_hal (λ h, set_pending h id true)) else ret ()) ;;;
      drain_cids ids
  end.

(** One turn of [ReceiveLoop]. *)
Definition ReceiveTurn : act unit :=
  let! stop := gets (λ w, rx_stop_ (hal w)) in
  if stop then ret () else
  let! ids := take_pending in
  drain_cids ids.

(** [DrainPending], for so many rounds at most; it has no stop flag to look at. *)
Fixpoint drain_all (ids : list Z) : act unit :=
  match ids with
  | [] => ret ()
  | id :: ids =>
      let! more := DrainOneCid id in
      (if more then modify (set_hal (λ h, set_pending h id true)) else ret ()) ;;;
      drain_all ids
  end.

Fixpoint DrainPending (rounds : nat) : act unit :=
  let! ids := take_pending in
  match ids, rounds with
  | [], _ | _, O => ret ()
  | _, S k => drain_all ids ;;; DrainPending k
  end.

(** ** Waits *)

Definition on_happening (w : world) (x : happening) : world :=
  match x with
  | Line i => on_urc w i
  | Reader => if rx_task_ (hal w) then (ReceiveTurn w).1 else w
  end.

Definition sleep (ms : Z) : act unit := λ w,
  let '(l, hs) := pause ms (link w) in (fold_left on_happening hs (set_link l w), Ok ()).

(** [cv.wait_for] with a predicate. *)
Definition wait_for (timeout : Z) (pred : world → bool) : act unit := λ w,
  if pred w then (w, Ok ()) else sleep timeout w.

(** ** Lifecycle *)

Definition subscribe (prefix : string) (k : urc_handler) (w : world) : world :=
  let '(l, handle) := at_subscribe (lit prefix) (link w) in
  set_hal (λ h, set_urc_handles h (urc_handles_ h ++ [(handle, k)])) (set_link l w).

Definition RegisterUrcHandlers (w : world) : world :=
  if negb (channel_ (hal w)) then w else
  subscribe "" HUnsolicited (subscribe "+CIPRXGET" HCiprxget w).

Definition UnregisterUrcHandlers (w : world) : world :=
  if negb (channel_ (hal w)) then w else
  let w := set_link (fold_left (λ l e, at_unsubscribe e.1 l) (urc_handles_ (hal w)) (link w)) w in
  set_hal (λ h, set_urc_handles h []) w.

Definition StopReader (w : world) : world := set_hal (λ h, set_reader h true false) w.

(** The destructor. *)
Definition destroy (w : world) : world :=
  let w := StopReader w in
  if channel_ (hal w) then UnregisterUrcHandlers w else w.

(** The value of [AT+CIPMUX?]: the last line that reads as a number says. *)
Definition mux_on (lines : list bytes) : bool :=
  fold_left (λ on line, match ParseInt (Trim (StripKeyPrefix line)) with Some v => v =? 1 | None => on end) lines false.

Definition reports_switch (enable : bool) (lines : list bytes) : bool :=
  existsb (λ line, match ParseInt (Trim (StripKeyPrefix line)) with
                   | Some v => Bool.eqb (v =? 1) enable
                   | None => false
                   end) lines.

Definition ApplySslSwitch (enable : bool) : act unit :=
  with_channel (
    (if enable then checked (lit "AT+SSLCFG=" ++ quoted (lit "sslversion") ++ lit ",0,4") kDefaultTimeout else ret ()) ;;;
    checked (lit (if enable then "AT+CIPSSL=1" else "AT+CIPSSL=0")) kDefaultTimeout ;;;
    checked (lit "AT+CIPSSL?") kDefaultTimeout ;;;
    let! lines := gets (λ w, at_lines (link w)) in
    if reports_switch enable lines then ret ()
    else fail (net_error kProtocolError
                 (if enable then "AT+CIPSSL? does not report 1 after AT+CIPSSL=1"
                  else "AT+CIPSSL? does not report 0 after AT+CIPSSL=0"))).

Definition Initialize : act unit :=
  modify (set_hal (λ h, set_channel h true)) ;;;
  modify RegisterUrcHandlers ;;;
  checked (lit "ATE0") kDefaultTimeout ;;;
  checked (lit "AT+CFUN=1") kDefaultTimeout ;;;
  modify (set_hal (λ h, set_events h false (close_ok_ h) (close_pending_id_ h))) ;;;
  let! r := line_out (lit "AT+CIPSHUT") in
  match r with
  | Err e => fail (ToNetworkError e)
  | Ok _ =>
      wait_for kLongTimeout (λ w, shut_ok_ (hal w)) ;;;
      let! shut := gets (λ w, shut_ok_ (hal w)) in
      if negb shut then fail (net_error kTimeout "AT+CIPSHUT was not confirmed with SHUT OK") else
      checked (lit "AT+CIPMUX=1") kDefaultTimeout ;;;
      checked (lit "AT+CIPMUX?") kDefaultTimeout ;;;
      let! lines := gets (λ w, at_lines (link w)) in
      if negb (mux_on lines) then
        fail (net_error kProtocolError "AT+CIPMUX? does not report 1, so the module is not in multi-connection mode and AT+CIPSTART=<id>,... cannot be used")
      else
      checked (lit "AT+CIPRXGET=5") kDefaultTimeout ;;;
      checked (lit "AT+CIPSRIP=1") kDefaultTimeout ;;;
      ApplySslSwitch false ;;;
      modify (set_hal (λ h, set_reader (set_rx h (rx_peer_ h) ((λ _, false) <$> rx_pending_ h) (rx_close_serial_ h))
                              false (if start_reader_ h then true else rx_task_ h)))
  end.

Definition Reset : act unit := with_channel (checked (lit "AT+CFUN=1,1") kLongTimeout).

(** ** The SIM and the device *)

Definition GetSimState : act SimState :=
  let! set := gets (λ w, channel_ (hal w)) in
  if negb set then ret kSimUnknown else
  let! result := attempt (ReadSingleLineResponse (lit "AT+CPIN?")) in
  match result with
  | Err _ => ret kSimUnknown
  | Ok response =>
      let has s := bool_decide (find_sub (lit s) response ≠ None) in
      ret (if has "READY" then kSimReady
           else if has "SIM PIN" then kPinRequired
           else if has "SIM PUK" then kPukRequired
           else if has "NOT INSERTED" then kNotInserted
           else kSimUnknown)
  end.

Definition ActivatePdp : act unit :=
  with_channel (
    let! query := attempt (ReadSingleLineResponse (lit "AT+CGACT?")) in
    let active := match query with
                  | Err _ => false
                  | Ok response =>
                      let fields := SplitCsv (StripKeyPrefix response) in
                      (2 <=? length fields)%nat && bool_decide (ParseInt (Trim (field fields 1)) = Some 1)
                  end in
    if active then ret () else checked (lit "AT+CGACT=1,1") kLongTimeout).

(** The error of a step, with the step's name in front. *)
Definition step {A} (name : string) (m : act A) : act A :=
  let! r := attempt m in
  match r with
  | Ok a => ret a
  | Err e => fail (MkNetworkError (ne_code e) (ne_native e) (lit name ++ lit ": " ++ ne_context e))
  end.

Definition ConfigureApn (config : ApnConfig) : act unit :=
  with_channel (
    step "AT+CGDCONT" (checked (lit "AT+CGDCONT=1," ++ quoted (lit "IP") ++ lit "," ++ quoted (apn config)) kDefaultTimeout) ;;;
    (if decide (apn_username config = []) then ret () else
     step "AT+CGAUTH" (checked (lit "AT+CGAUTH=1,1," ++ quoted (apn_username config) ++ lit ","
                                ++ quoted (apn_password config)) kDefaultTimeout)) ;;;
    step "AT+CGACT" ActivatePdp).

Definition GetRegistrationState : act RegistrationState :=
  let! set := gets (λ w, channel_ (hal w)) in
  if negb set then ret kRegistrationUnknown else
  let! result := attempt (ReadSingleLineResponse (lit "AT+CEREG?")) in
  match result with
  | Err _ => ret kRegistrationUnknown
  | Ok response =>
      let fields := SplitCsv (StripKeyPrefix response) in
      ret (match ParseInt (Trim (field fields (if (2 <=? length fields)%nat then 1%nat else 0%nat))) with
           | Some stat => registration_of stat
           | None => kRegistrationUnknown
           end)
  end.

Definition GetSignalInfo : act SignalInfo :=
  let! last := gets (λ w, last_signal_ (hal w)) in
  let! set := gets (λ w, channel_ (hal w)) in
  if negb set then ret last else
  let! result := attempt (ReadSingleLineResponse (lit "AT+CSQ")) in
  let! last := gets (λ w, last_signal_ (hal w)) in
  match result with
  | Err _ => ret last
  | Ok response =>
      let fields := SplitCsv (StripKeyPrefix response) in
      if (length fields <? 2)%nat then ret last else
      let info := MkSignalInfo (default 99 (ParseInt (Trim (field fields 0)))) (default 99 (ParseInt (Trim (field fields 1)))) in
      modify (set_hal (λ h, set_signal h info)) ;;;
      ret info
  end.

Definition query_value (cmd : string) : act bytes :=
  let! line := ReadSingleLineResponse (lit cmd) in ret (StripQuotes (StripKeyPrefix line)).

Definition GetImei : world → option (world * Result bytes) := through_channel (query_value "AT+CGSN=1").
Definition GetIccid : world → option (world * Result bytes) := through_channel (query_value "AT+ICCID").
Definition GetRevision : world → option (world * Result bytes) := through_channel (query_value "AT+CGMR").
Definition GetCarrier : world → option (world * Result bytes) :=
  through_channel (
    let! line := ReadSingleLineResponse (lit "AT+COPS?") in
    let fields := SplitCsv (StripKeyPrefix line) in
    if (length fields <? 3)%nat then fail (net_error kProtocolError "failed to parse COPS")
    else ret (StripQuotes (Trim (field fields 2)))).

Definition SetFlightMode (enable : bool) : act unit :=
  with_channel (checked (lit (if enable then "AT+CFUN=0" else "AT+CFUN=1")) kDefaultTimeout).
Definition EnterSleep (config : SleepConfig) : act unit :=
  with_channel (checked (lit (if enable_dtr_wakeup config then "AT+CSCLK=2" else "AT+CSCLK=1")) kDefaultTimeout).
Definition ExitSleep : act unit := with_channel (checked (lit "AT+CSCLK=0") kDefaultTimeout).

(** ** Opening *)

Definition mode_taken (ssl : bool) : NetworkError :=
  net_error kResourceBusy
    (if ssl then "AT+CIPSSL is one switch for the whole module, so a TLS socket cannot be opened while a plaintext socket is open"
     else "AT+CIPSSL is one switch for the whole module, so a plaintext socket cannot be opened while a TLS socket is open").

Definition ReserveSocketForMode (ssl : bool) : act unit :=
  let! h := gets hal in
  let opposite := if ssl then plain_sockets_open_ h else ssl_sockets_open_ h in
  let same := if ssl then ssl_sockets_open_ h else plain_sockets_open_ h in
  if 0 <? opposite then fail (mode_taken ssl)
  else if 0 <? same then modify (set_hal (take_mode ssl))
  else
    modify (set_hal (λ h, set_switching h true)) ;;;
    let! r := attempt (ApplySslSwitch ssl) in
    modify (set_hal (λ h, set_switching h false)) ;;;
    match r with
    | Err e => fail e
    | Ok _ => modify (set_hal (take_mode ssl))
    end.

Definition ArmOpenWait (id : Z) (w : world) : world := set_hal (λ h, set_open_wait h (MkOpenWait id kFailed false)) w.

(** What [WaitForOpenResult] returns once its wait is over. *)
Definition open_result (id : Z) : act unit :=
  let! wait := gets (λ w, open_wait_ (hal w)) in
  modify (set_hal (λ h, set_open_wait h no_wait)) ;;;
  if negb (ow_done wait) then
    fail (MkNetworkError kTimeout 0 (lit "no CONNECT OK, CONNECT FAIL or ALREADY CONNECT for connection " ++ to_string id))
  else match ow_outcome wait with
       | kConnected => ret ()
       | kAlreadyConnectedOutcome =>
           fail (MkNetworkError kAlreadyConnected kAlreadyConnectedCode (lit "the module still holds connection " ++ to_string id))
       | kFailed => fail (MkNetworkError kConnectFailed 0 (lit "the module refused connection " ++ to_string id))
       end.

Definition WaitForOpenResult (id timeout : Z) : act unit :=
  wait_for timeout (λ w, ow_done (open_wait_ (hal w))) ;;; open_result id.

Definition start_command (id : Z) (type host : bytes) (port : Z) : bytes :=
  snprintf_ 512 (lit "AT+CIPSTART=" ++ to_string id ++ lit "," ++ quoted (c_text type) ++ lit "," ++ quoted (c_text host)
                 ++ lit "," ++ to_string port).

(** The loop of [OpenSocket], [attempts] of its turns left; [tried] are the cids
    found held by somebody else. *)
Fixpoint open_loop (attempts : nat) (tried : list bool) (type host : bytes) (port : Z) (ssl : bool) : act Z :=
  let abandon_open {A} (e : NetworkError) : act A := modify (set_hal (ReleaseSocketForMode ssl)) ;;; fail e in
  match attempts with
  | O => abandon_open (net_error kResourceBusy "every connection id is held by a socket this process did not open")
  | S k =>
      let! id := AllocateConnectionId tried in
      if id <? 0 then abandon_open (MkNetworkError kNoResources 0 (lit "all " ++ to_string kMaxConnections ++ lit " connection ids in use")) else
      modify (set_hal (λ h, let s := slot h id in
        set_slot h id (MkSocketSlot (used s) (bool_decide (type = lit "UDP")) (Air780eHal.ssl s) (holds_mode s) (serial s)))) ;;;
      modify (ArmOpenWait id) ;;;
      let! sent := line_out (start_command id type host port) in
      match sent with
      | Err e => RetireSlot id ;;; abandon_open (ToNetworkError e)
      | Ok _ =>
          let! opened := attempt (WaitForOpenResult id kConnectTimeout) in
          match opened with
          | Ok _ =>
              modify (set_hal (λ h, let s := slot h id in
                set_slot h id (MkSocketSlot (used s) (udp s) ssl true (serial s)))) ;;;
              ret id
          | Err e =>
              if ne_native e =? kAlreadyConnectedCode then
                RetireSlot id ;;; open_loop k (set_entry tried id true) type host port ssl
              else RetireSlot id ;;; abandon_open e
          end
      end
  end.

Definition OpenSocket (type host : bytes) (port : Z) (ssl : bool) : act Z :=
  ReserveSocketForMode ssl ;;;
  open_loop (Z.to_nat kMaxConnections) (replicate (Z.to_nat kMaxConnections) false) type host port ssl.

(** ** Closing and sending *)

Definition out_of_range : NetworkError := net_error kInvalidArgument "connection id out of range".

Definition CloseConnection (connect_id : Z) : act unit :=
  with_channel (
    if negb (in_pool connect_id) then fail out_of_range else
    let! held := gets (λ w, IsConnectionUsed (hal w) connect_id) in
    if negb held then ret () else
    modify (set_hal (λ h, set_events h (shut_ok_ h) false connect_id)) ;;;
    let! sent := line_out (snprintf_ 32 (lit "AT+CIPCLOSE=" ++ to_string connect_id)) in
    ReleaseConnectionId connect_id ;;;
    match sent with
    | Err e => fail (ToNetworkError e)
    | Ok _ =>
        wait_for kDefaultTimeout (λ w, close_ok_ (hal w)) ;;;
        modify (set_hal (λ h, set_events h (shut_ok_ h) (close_ok_ h) (-1)))
    end).

(** [SendPayload] up to its wait. *)
Definition send_begin (connect_id : Z) (data : bytes) : act unit :=
  modify (set_hal (λ h, set_send h connect_id (MkSendWait (sw_pending (send_wait h connect_id) + 1) false))) ;;;
  let! r := data_out (snprintf_ 48 (lit "AT+CIPSEND=" ++ to_string connect_id ++ lit "," ++ to_string (Z.of_nat (length data))))
              data kLongTimeout in
  match r with
  | Ok _ => ret ()
  | Err e =>
      modify (set_hal (λ h, let s := send_wait h connect_id in
        if 0 <? sw_pending s then set_send h connect_id (MkSendWait (sw_pending s - 1) (sw_failed s)) else h)) ;;;
      let! closed := gets (λ w, PeerCloseNoted (hal w) connect_id) in
      if closed then fail (net_error kConnectionLost "the peer closed the connection before this send")
      else fail (ToNetworkError e)
  end.

Definition send_over (connect_id : Z) (w : world) : bool :=
  let s := send_wait (hal w) connect_id in (sw_pending s =? 0) || sw_failed s.

(** And after it. *)
Definition send_finish (connect_id : Z) (data : bytes) : act Z :=
  let! acked := gets (send_over connect_id) in
  let! failed := gets (λ w, sw_failed (send_wait (hal w) connect_id)) in
  modify (set_hal (λ h, set_send h connect_id no_send)) ;;;
  if failed then fail (MkNetworkError kConnectFailed 0 (lit "AT+CIPSEND was refused on connection " ++ to_string connect_id))
  else if negb acked then fail (MkNetworkError kTimeout 0 (lit "no SEND OK for connection " ++ to_string connect_id))
  else ret (to_int (Z.of_nat (length data))).

Definition SendPayload (connect_id : Z) (data : bytes) : act Z :=
  with_channel (
    if negb (in_pool connect_id) then fail out_of_range else
    send_begin connect_id data ;;;
    wait_for kDefaultTimeout (send_over connect_id) ;;;
    send_finish connect_id data).

Definition TcpConnect (host : bytes) (port : Z) (ssl : bool) (config : TlsConfig) : act Z :=
  with_channel (
    let unfulfillable := UnfulfillableTlsOption config in
    if decide (unfulfillable ≠ []) then
      fail (MkNetworkError kNotSupported 0
        (lit "this firmware cannot honour TlsConfig." ++ unfulfillable
         ++ lit ": no command it accepts installs a certificate authority or turns verification on, so a TLS socket here is encrypted but unauthenticated"))
    else OpenSocket (lit "TCP") host port ssl).
Definition TcpClose : Z → act unit := CloseConnection.
Definition TcpSend : Z → bytes → act Z := SendPayload.
Definition UdpOpen (host : bytes) (port : Z) : act Z := with_channel (OpenSocket (lit "UDP") host port false).
Definition UdpClose : Z → act unit := CloseConnection.
Definition UdpSend : Z → bytes → act Z := SendPayload.
End Air780e.

(** * Identification *)

Definition DetectAir780e `{IAtChannel C} (c : C) : C * bool :=
  let '(c, r) := ch_send c (lit "AT") 1000 in
  match r with
  | Err _ => (c, false)
  | Ok _ =>
      let '(c, r) := ch_send c (lit "AT+CGMR") 1000 in
      match r with
      | Err _ => (c, false)
      | Ok _ => (c, existsb (λ line, bool_decide (find_sub (lit "AirM2M") line ≠ None)) (ch_lines c))
      end
  end.
