(* ===== verification/Air780eFrame.v ===== *)
(** What the AIR780E's reader leaves alone: a property of the world that survives a read
    command, the end of a socket and what clients are handed survives the reader's
    turns. *)
From stdpp Require Import base decidable list strings gmap.
From Stdlib Require Import ZArith Ascii Lia.
From S2P Require Import Prelude Errors CommonTypes StateResult AtParser UrcDispatcher HalRoutes ModemLink Air780eHal.

(** No slot, counter, handle or rendezvous changes, nor does the reader. *)
Definition kept (h h' : Air780eHal) : Prop :=
  slots_ h' = slots_ h ∧ ssl_sockets_open_ h' = ssl_sockets_open_ h ∧ plain_sockets_open_ h' = plain_sockets_open_ h ∧
  rx_task_ h' = rx_task_ h ∧ open_wait_ h' = open_wait_ h ∧ urc_handles_ h' = urc_handles_ h.

(** The cids with data waiting, as the reader takes them. *)
Definition pending_ids (h : Air780eHal) : list Z :=
  omap (λ e : nat * bool, if e.2 then Some (Z.of_nat e.1) else None) (imap pair (rx_pending_ h)).

(** Nothing to ask of a cid. *)
Definition any_id (id : Z) : Prop := True.
Lemma any_ids ids : Forall any_id ids.
Proof. by apply Forall_true. Qed.

(** What the reader writes to its own members, for the cids it has to do with. *)
Section Updates.
Context (about : Z → Prop).

Inductive reader_update : (Air780eHal → Air780eHal) → Prop :=
| update_close_serial id : about id → reader_update (λ h, set_close_serial h id 0)
| update_pending id b : about id → reader_update (λ h, set_pending h id b)
| update_none_pending : reader_update (λ h, set_rx h (rx_peer_ h) ((λ _, false) <$> rx_pending_ h) (rx_close_serial_ h)).

Lemma reader_update_kept f h : reader_update f → kept h (f h).
Proof. by intros []. Qed.
End Updates.

Section Reader.
Context {K W U : Type} `{IModemLink W}.
Local Abbreviation world := (IModuleHal K * (Air780eHal * (W * U)))%type.
Context (call_data : K → Z → bytes → world → world) (call_close : K → Z → world → world).
Context (call_udp : K → Z → bytes → Z → bytes → world → world).
Local Abbreviation act := (op world NetworkError).
Context (about : Z → Prop) (Q : world → Prop).

Definition read_text (id : Z) : bytes := snprintf_ 48 (lit "AT+CIPRXGET=3," ++ to_string id ++ lit "," ++ to_string kReadChunk).

Record reader_frame : Prop := {
  rf_kept : ∀ f w, reader_update about f → Q w → Q (set_hal f w);
  rf_read : ∀ id, keeps Q (command (read_text id) kDefaultTimeout : act _);
  rf_release : ∀ id, keeps Q (ReleaseConnectionId id : act _);
  rf_data : ∀ id d w, Q w → Q (DispatchTcpData call_data id d w);
  rf_close : ∀ id w, Q w → Q (DispatchTcpClose call_close id w);
  rf_udp : ∀ id host port d w, Q w → Q (DispatchUdpData call_udp id host port d w);
  rf_ids : ∀ w, Q w → Forall about (pending_ids (hal w));
}.
Context (F : reader_frame).

Lemma keeps_kept f : reader_update about f → keeps Q (modify (set_hal f) : act unit).
Proof. intros Hf. apply keeps_modify. intros w. by apply (rf_kept F). Qed.

Lemma FinishClosedCid_frame id : about id → keeps Q (FinishClosedCid call_close id : act _).
Proof.
  intros Hid. apply keeps_bind; [apply keeps_gets|]. intros s. apply keeps_bind; [by apply keeps_kept, update_close_serial|]. intros _.
  apply keeps_if; [apply keeps_ret|]. apply keeps_bind; [apply keeps_gets|]. intros owns.
  apply keeps_if; [apply keeps_ret|]. apply keeps_bind; [apply (rf_release F)|]. intros _.
  apply keeps_modify. apply (rf_close F).
Qed.

Lemma drain_loop_frame fuel id drained : about id → keeps Q (drain_loop call_data call_close call_udp fuel id drained : act _).
Proof.
  intros Hid. revert drained; induction fuel as [|k IH]; intros drained; cbn [Air780eHal.drain_loop]; [apply keeps_ret|].
  apply keeps_if; [apply keeps_ret|]. apply keeps_bind; [apply keeps_gets|]. intros held.
  apply keeps_if. { apply keeps_bind; [by apply keeps_kept, update_close_serial|intros _; apply keeps_ret]. }
  apply keeps_bind; [apply keeps_gets|]. intros is_udp.
  apply keeps_bind; [apply (rf_read F)|]. intros r.
  assert (keeps Q (FinishClosedCid call_close id ;;; ret false : act bool)) as Hfinish.
  { apply keeps_bind; [by apply FinishClosedCid_frame|intros _; apply keeps_ret]. }
  destruct r; [|done]. apply keeps_bind; [apply keeps_gets|]. intros lines.
  destruct (find_header id lines) as [[[returned hex] source]|]; [|done].
  apply keeps_if; [done|]. destruct (decide _); [done|]. apply keeps_if.
  - apply keeps_bind; [apply keeps_gets|]. intros noted. destruct (rfind_byte _ _); [|apply keeps_ret].
    apply keeps_bind; [|intros _; apply IH]. apply keeps_modify. apply (rf_udp F).
  - apply keeps_bind; [|intros _; apply IH]. apply keeps_modify. apply (rf_data F).
Qed.

Lemma DrainOneCid_frame id : about id → keeps Q (DrainOneCid call_data call_close call_udp id : act _).
Proof. intros Hid. apply keeps_bind; [apply keeps_gets|]. intros set. apply keeps_if; [apply keeps_ret|by apply drain_loop_frame]. Qed.

Lemma drain_cids_frame ids : Forall about ids → keeps Q (drain_cids call_data call_close call_udp ids : act _).
Proof.
  induction 1 as [|id ids Hid _ IH]; cbn [drain_cids]; [apply keeps_ret|].
  apply keeps_bind; [apply keeps_gets|]. intros stop. apply keeps_if; [apply keeps_ret|].
  apply keeps_bind; [by apply DrainOneCid_frame|].
  intros more. apply keeps_bind; [|done]. apply keeps_if; [by apply keeps_kept, update_pending|apply keeps_ret].
Qed.

Lemma ReceiveTurn_frame : keeps Q (ReceiveTurn call_data call_close call_udp : act _).
Proof.
  apply keeps_bind; [apply keeps_gets|]. intros stop. apply keeps_if; [apply keeps_ret|].
  intros w Hw. unfold bind, take_pending. apply drain_cids_frame; [by apply (rf_ids F)|].
  by apply (rf_kept F _ _ (update_none_pending _)).
Qed.

(** A sleep lets the receive task and the reader run. *)
Lemma sleep_frame_of ms : (∀ i w, Q w → Q (on_urc w i)) → (∀ w, Q w → Q (set_link (pause ms (link w)).1 w)) →
  keeps Q (sleep call_data call_close call_udp ms : act _).
Proof.
  intros Hurc Hlink w Hw. specialize (Hlink w Hw). unfold Air780eHal.sleep. destruct (pause ms (link w)) as [l hs]. cbn [fst] in *.
  revert Hlink. generalize (set_link l w). clear w Hw l.
  induction hs as [|x hs IH]; intros w Hw; [done|]. cbn [fold_left]. apply IH. destruct x as [i|]; cbn [on_happening]; [by apply Hurc|].
  destruct (rx_task_ _); [by apply ReceiveTurn_frame|done].
Qed.
End Reader.
