(* ===== verification/Air780eModes.v ===== *)
(** The module-wide TLS switch of the AIR780E: TLS and plaintext sockets are never
    open together, and the switch is where the open sockets need it. *)
From stdpp Require Import base decidable list strings gmap.
From Stdlib Require Import ZArith Ascii Lia.
From S2P Require Import Prelude Errors CommonTypes StateResult AtParser UrcDispatcher HalRoutes ModemLink Air780eHal.
From S2P Require Import Air780eFrame.

(** * Specification *)

(** The setting an acknowledged command leaves the switch at. *)
Definition switch_of (x : exchange) : option bool :=
  match x with
  | XCommand cmd (Ok _) =>
      if decide (cmd = lit "AT+CIPSSL=1") then Some true
      else if decide (cmd = lit "AT+CIPSSL=0") then Some false else None
  | _ => None
  end.
Definition last_switch (l : list exchange) : option bool := last (omap switch_of l).

(** A socket in use that holds the reservation of its mode. *)
Definition holder (mode : bool) (s : SocketSlot) : bool := used s && holds_mode s && Bool.eqb (ssl s) mode.
Definition holders (mode : bool) (slots : list SocketSlot) : Z := Z.of_nat (length (filter (λ s, holder mode s = true) slots)).

(** * Lemmas *)

Lemma last_switch_app l l' : omap switch_of l' = [] → last_switch (l ++ l') = last_switch l.
Proof. intros E. unfold last_switch. by rewrite omap_app, E, app_nil_r. Qed.

Lemma switch_heard calls : omap switch_of (XHeard <$> calls) = [].
Proof. by induction calls. Qed.
Lemma switch_heard_in hs : omap switch_of (heard_in hs) = [].
Proof. by induction hs as [|[i|] hs IH]. Qed.

Lemma holders_nonneg mode slots : 0 <= holders mode slots.
Proof. unfold holders. lia. Qed.

Lemma holders_cons mode s slots : holders mode (s :: slots) = (if holder mode s then 1 else 0) + holders mode slots.
Proof.
  unfold holders. rewrite filter_cons. destruct (holder mode s); cbn [decide]; case_decide; try done; cbn [length]; lia.
Qed.

(** Changing one slot changes the count by that slot. *)
Lemma holders_set mode slots i s s' : slots !! i = Some s →
  holders mode (<[i := s']> slots) =
  holders mode slots - (if holder mode s then 1 else 0) + (if holder mode s' then 1 else 0).
Proof.
  revert i; induction slots as [|t slots IH]; intros [|i] E; cbn in E; [done|done| |].
  - simplify_eq. change (<[0%nat := s']> (s :: slots)) with (s' :: slots). rewrite !holders_cons. lia.
  - change (<[S i := s']> (t :: slots)) with (t :: <[i := s']> slots). rewrite !holders_cons, (IH i E). lia.
Qed.

Lemma holders_set_out mode slots i s' : slots !! i = None → holders mode (<[i := s']> slots) = holders mode slots.
Proof. intros E. by rewrite list_insert_ge by (by apply lookup_ge_None). Qed.

(** What changes no slot, no counter and not the reader. *)
Definition framed (h h' : Air780eHal) : Prop :=
  slots_ h' = slots_ h ∧ ssl_sockets_open_ h' = ssl_sockets_open_ h ∧ plain_sockets_open_ h' = plain_sockets_open_ h ∧
  rx_task_ h' = rx_task_ h.

Lemma run_handler_framed k i h : framed h (run_handler k i h).
Proof.
  destruct k; cbn [run_handler]; unfold OnCiprxgetUrc, OnUnsolicitedLine, RecordOpenResult, NotePeerClosed, set_peer, set_pending,
    set_close_serial, set_send; repeat case_match; done.
Qed.

Section Modes.
Context {K U W0 : Type} `{IModemLink W0}.
Local Abbreviation world := (IModuleHal K * (Air780eHal * ((W0 * list exchange) * U)))%type.
Context (call_data : K → Z → bytes → world → world) (call_close : K → Z → world → world).
Context (call_udp : K → Z → bytes → Z → bytes → world → world).
Local Abbreviation act := (op world NetworkError).
Implicit Types w : world.

Definition log w : list exchange := (link w).2.

(** The counters cover the open sockets and [a] TLS and [b] plaintext opens under
    way; one of them is zero; and the other has the switch where it needs it. *)
Record balanced (a b : Z) w : Prop := {
  bl_slack : 0 <= a ∧ 0 <= b;
  bl_ssl : holders true (slots_ (hal w)) + a <= ssl_sockets_open_ (hal w);
  bl_plain : holders false (slots_ (hal w)) + b <= plain_sockets_open_ (hal w);
  bl_one : ssl_sockets_open_ (hal w) = 0 ∨ plain_sockets_open_ (hal w) = 0;
  bl_on : 0 < ssl_sockets_open_ (hal w) → last_switch (log w) = Some true;
  bl_off : 0 < plain_sockets_open_ (hal w) → last_switch (log w) = Some false;
}.

(** A client's callback may use the HAL, through its operations. *)
Record fair_callbacks : Prop := {
  fair_data : ∀ k cid d a b w, balanced a b w → balanced a b (call_data k cid d w);
  fair_close : ∀ k cid a b w, balanced a b w → balanced a b (call_close k cid w);
  fair_udp : ∀ k cid host port d a b w, balanced a b w → balanced a b (call_udp k cid host port d w);
}.
Context (Hfair : fair_callbacks).

Lemma balanced_framed a b w w' : balanced a b w → framed (hal w) (hal w') → last_switch (log w') = last_switch (log w) →
  balanced a b w'.
Proof. intros [] (E1 & E2 & E3 & _) E4. constructor; rewrite ?E1, ?E2, ?E3, ?E4; done. Qed.

Lemma balanced_hal a b f w : balanced a b w → framed (hal w) (f (hal w)) → balanced a b (set_hal f w).
Proof. intros Hb Hf. by apply (balanced_framed a b w). Qed.

Lemma balanced_routes a b r w : balanced a b w → balanced a b (r, w.2).
Proof. intros Hb. by apply (balanced_framed a b w). Qed.

Lemma on_urc_balanced a b w i : balanced a b w → balanced a b (on_urc w i).
Proof.
  intros Hb. unfold on_urc. destruct (list_find _ _) as [[n [hd k]]|]; [|done].
  apply balanced_hal; [done|]. apply run_handler_framed.
Qed.

Lemma urcs_balanced a b calls w : balanced a b w → balanced a b (fold_left on_urc calls w).
Proof. revert w; induction calls as [|i calls IH]; intros w Hb; [done|]. by apply IH, on_urc_balanced. Qed.

(** ** Commands *)

Local Abbreviation P a b := (λ w : world, balanced a b w).

Lemma urcs_framed calls w : let w' := fold_left on_urc calls w in framed (hal w) (hal w') ∧ link w' = link w.
Proof.
  revert w; induction calls as [|i calls IH]; intros w; [done|]. cbn [fold_left].
  destruct (IH (on_urc w i)) as [(E1 & E2 & E3 & E4) E5].
  assert (framed (hal w) (hal (on_urc w i)) ∧ link (on_urc w i) = link w) as [(F1 & F2 & F3 & F4) F5].
  { unfold on_urc. destruct (list_find _ _) as [[n [hd k]]|]; [|done]. split; [apply run_handler_framed|done]. }
  split; [split_and!; congruence|congruence].
Qed.

(** What a command does: the answer, and what the module said before it. *)
Lemma command_framed cmd timeout w : wp (command cmd timeout : act _) (λ r w', ∃ x calls, r = Ok x ∧ framed (hal w) (hal w') ∧
  log w' = log w ++ (XHeard <$> calls) ++ [XCommand cmd x]) w.
Proof.
  apply wp_intro. intros w' r E. unfold command in E. cbn [at_command recorded_link] in E.
  destruct (at_command cmd timeout (link w).1) as [[l1 calls] x]. cbn in E. injection E as <- <-.
  exists x, calls. split; [done|]. destruct (urcs_framed calls (set_link (l1, (link w).2 ++ (XHeard <$> calls) ++ [XCommand cmd x]) w)) as [F E].
  split; [exact F|]. unfold log. by rewrite E.
Qed.

Lemma keeps_command a b cmd timeout : cmd ≠ lit "AT+CIPSSL=1" → cmd ≠ lit "AT+CIPSSL=0" → keeps (P a b) (command cmd timeout : act _).
Proof.
  intros H1 H0. apply keeps_by_wp. intros w Hb. eapply wp_mono; [apply command_framed|]. cbv beta.
  intros r w' (x & calls & -> & F & E). apply (balanced_framed a b w); [done|done|].
  rewrite E. apply last_switch_app. rewrite omap_app, switch_heard. cbn.
  destruct x; [|done]. by rewrite !decide_False.
Qed.

Lemma keeps_line_out a b cmd : keeps (P a b) (line_out cmd : act _).
Proof.
  intros w Hb. unfold line_out. cbn [at_line recorded_link].
  destruct (at_line cmd (link w).1) as [[l calls] r]. cbn [fst].
  apply urcs_balanced. apply (balanced_framed a b w); [done|done|].
  change (log (set_link ?l w)) with l.2. cbn [snd]. apply last_switch_app. by rewrite omap_app, switch_heard.
Qed.

Lemma keeps_data_out a b cmd data timeout : keeps (P a b) (data_out cmd data timeout : act _).
Proof.
  intros w Hb. unfold data_out. cbn [at_data recorded_link].
  destruct (at_data cmd data timeout (link w).1) as [[l calls] r]. cbn [fst].
  apply urcs_balanced. apply (balanced_framed a b w); [done|done|].
  change (log (set_link ?l w)) with l.2. cbn [snd]. apply last_switch_app. by rewrite omap_app, switch_heard.
Qed.

Lemma keeps_hal a b f : (∀ h, framed h (f h)) → keeps (P a b) (modify (set_hal f) : act unit).
Proof. intros Hf. apply keeps_modify. intros w Hb. by apply balanced_hal. Qed.

Lemma keeps_checked a b cmd timeout : cmd ≠ lit "AT+CIPSSL=1" → cmd ≠ lit "AT+CIPSSL=0" → keeps (P a b) (checked cmd timeout : act _).
Proof.
  intros H1 H0. apply keeps_bind; [by apply keeps_command|]. intros [[]|e]; [apply keeps_ret|apply keeps_fail].
Qed.

Lemma keeps_ReadSingleLineResponse a b cmd : cmd ≠ lit "AT+CIPSSL=1" → cmd ≠ lit "AT+CIPSSL=0" →
  keeps (P a b) (ReadSingleLineResponse cmd : act _).
Proof.
  intros H1 H0. apply keeps_bind; [by apply keeps_checked|]. intros _. apply keeps_bind; [apply keeps_gets|].
  intros [|]; [apply keeps_fail|apply keeps_ret].
Qed.

Lemma keeps_with_channel {A} a b (m : act A) : keeps (P a b) m → keeps (P a b) (with_channel m).
Proof. intros Hm. apply keeps_bind; [apply keeps_gets|]. intros [|]; [done|apply keeps_fail]. Qed.

(** ** Slots and reservations *)

(** [balanced a b] with one more open of one mode under way. *)
Definition owing (mode : bool) (a b : Z) : world → Prop := if mode then balanced (a + 1) b else balanced a (b + 1).

Lemma hal_of f w : hal (set_hal f w) = f (hal w).
Proof. done. Qed.

Lemma balanced_slot a b id s w : balanced a b w →
  (holder true s = true → holder true (slot (hal w) id) = true) →
  (holder false s = true → holder false (slot (hal w) id) = true) →
  balanced a b (set_hal (λ h, set_slot h id s) w).
Proof.
  intros [] Ht Hf.
  assert (∀ m, (holder m s = true → holder m (slot (hal w) id) = true) →
    holders m (slots_ (hal (set_hal (λ h, set_slot h id s) w))) <= holders m (slots_ (hal w))) as Hle.
  { intros m Hm. rewrite hal_of. unfold set_slot, set_entry, slot, entry in *. cbn [slots_ set_slots].
    destruct (slots_ (hal w) !! Z.to_nat id) as [t|] eqn:E.
    - rewrite (holders_set _ _ _ t) by done. erewrite nth_lookup_Some in Hm by done.
      destruct (holder m s), (holder m t); lia.
    - rewrite holders_set_out by done. done. }
  specialize (Hle true Ht) as H1. specialize (Hle false Hf) as H2.
  constructor; cbn -[holders] in *; try done; unfold hal, set_hal in *; cbn -[holders] in *; lia.
Qed.

(** A slot that holds a reservation and is emptied leaves it behind. *)
Lemma balanced_emptied a b id w : balanced a b w → in_pool id = true →
  let s := slot (hal w) id in
  (if used s && holds_mode s then owing (ssl s) a b else balanced a b) (set_hal (λ h, set_slot h id no_socket) w).
Proof.
  intros Hb Hid. cbv zeta. destruct (used _ && holds_mode _) eqn:Hh; [|by apply balanced_slot].
  assert (∀ m, holders m (slots_ (hal (set_hal (λ h, set_slot h id no_socket) w))) =
    holders m (slots_ (hal w)) - (if holder m (slot (hal w) id) then 1 else 0)) as Hc.
  { intros m. rewrite hal_of. unfold set_slot, set_entry. cbn [slots_ set_slots].
    unfold slot, entry in *. destruct (slots_ (hal w) !! Z.to_nat id) as [t|] eqn:E.
    - rewrite (holders_set _ _ _ t) by done. erewrite nth_lookup_Some by done. cbn. lia.
    - rewrite (nth_overflow _ _) in Hh by (by apply lookup_ge_None). done. }
  assert (∀ m, holder m (slot (hal w) id) = Bool.eqb (ssl (slot (hal w) id)) m) as Hm.
  { intros m. unfold holder. by rewrite Hh. }
  pose proof (Hc true) as Ht. pose proof (Hc false) as Hf. rewrite Hm in Ht, Hf. destruct Hb as [[] ? ? ? ? ?].
  unfold owing. destruct (ssl (slot (hal w) id)); cbn [Bool.eqb] in *;
    (constructor; [lia|rewrite Ht; cbn [hal set_hal fst snd set_slot set_slots touch ssl_sockets_open_]; unfold hal in *; lia|
       rewrite Hf; cbn [hal set_hal fst snd set_slot set_slots touch plain_sockets_open_]; unfold hal in *; lia|done|done|done]).
Qed.

Lemma balanced_released mode a b w : owing mode a b w → 0 <= a → 0 <= b → balanced a b (set_hal (ReleaseSocketForMode mode) w).
Proof.
  intros Hb Ha Hb'. pose proof (holders_nonneg true (slots_ (hal w))). pose proof (holders_nonneg false (slots_ (hal w))).
  unfold owing in Hb. destruct mode, Hb as [[] Hs Hp Hone Hon Hoff]; constructor;
    rewrite ?hal_of; unfold ReleaseSocketForMode; cbn [set_mode_counts slots_ ssl_sockets_open_ plain_sockets_open_];
    change (log (set_hal _ w)) with (log w);
    rewrite ?(proj2 (Z.ltb_lt 0 (ssl_sockets_open_ (hal w)))), ?(proj2 (Z.ltb_lt 0 (plain_sockets_open_ (hal w)))) by lia;
    try lia; intros; (apply Hon || apply Hoff); lia.
Qed.

Lemma RetireSlot_owing id a b w : balanced a b w → wp (RetireSlot id : act _) (λ r w',
  match r with
  | Ok None => balanced a b w'
  | Ok (Some mode) => owing mode a b w'
  | Err _ => False
  end) w.
Proof.
  intros Hb. unfold RetireSlot. apply wp_intro. intros w' r E.
  destruct (in_pool id) eqn:Hid; cbn [negb] in E; [|by simplify_eq].
  pose proof (balanced_emptied a b id w Hb Hid) as He. cbv zeta in He.
  destruct (used (slot (hal w) id)); cbn [negb andb] in *; [|by simplify_eq].
  injection E as <- <-.
  destruct (holds_mode (slot (hal w) id)); unfold owing in *; repeat case_match;
    (eapply balanced_framed; [exact He| |]); done.
Qed.

Lemma keeps_ReleaseConnectionId id a b : keeps (P a b) (ReleaseConnectionId id : act _).
Proof.
  apply keeps_by_wp. intros w Hb. unfold ReleaseConnectionId. apply wp_bind.
  eapply wp_mono; [by apply RetireSlot_owing|]. cbv beta. intros [[mode|]|e] w' Hw; [|done|done].
  apply wp_modify. by apply balanced_released; [|destruct Hb as [[] ? ? ? ? ?]..].
Qed.

(** ** Receiving *)

Local Abbreviation ReceiveTurn := (ReceiveTurn call_data call_close call_udp).
Local Abbreviation sleep := (sleep call_data call_close call_udp).
Local Abbreviation wait_for := (wait_for call_data call_close call_udp).

Lemma DispatchTcpClose_balanced id a b w : balanced a b w → balanced a b (DispatchTcpClose call_close id w).
Proof.
  intros Hb. unfold DispatchTcpClose. destruct (end_routes w.1 id) as [h ks].
  assert (balanced a b (h, w.2)) as Hb' by (by apply balanced_routes). clear Hb.
  revert Hb'. generalize (h, w.2). induction ks as [|k ks IH]; intros v Hv; [done|]. by apply IH, (fair_close Hfair).
Qed.

Lemma DispatchTcpData_balanced id d a b w : balanced a b w → balanced a b (DispatchTcpData call_data id d w).
Proof.
  intros Hb. unfold DispatchTcpData. destruct (FindTcpRouteLocked _ _) as [r|]; [|by apply balanced_routes].
  destruct (tr_on_data r); [by apply (fair_data Hfair)|done].
Qed.

Lemma DispatchUdpData_balanced id host port d a b w : balanced a b w → balanced a b (DispatchUdpData call_udp id host port d w).
Proof.
  intros Hb. unfold DispatchUdpData. destruct (FindUdpRouteLocked _ _) as [r|]; [|done].
  destruct (ur_on_data r); [by apply (fair_udp Hfair)|done].
Qed.

Lemma reader_balanced a b : reader_frame call_data call_close call_udp any_id (P a b).
Proof.
  split.
  - intros f w Hf Hb. apply balanced_hal; [done|]. by destruct (reader_update_kept _ f (hal w) Hf) as (? & ? & ? & ? & _).
  - intros id. by apply keeps_command.
  - intros id. apply keeps_ReleaseConnectionId.
  - intros id d w. apply DispatchTcpData_balanced.
  - intros id w. apply DispatchTcpClose_balanced.
  - intros id host port d w. apply DispatchUdpData_balanced.
  - intros w _. apply any_ids.
Qed.

Lemma keeps_sleep ms a b : keeps (P a b) (sleep ms : act _).
Proof.
  apply (sleep_frame_of _ _ _ _ _ (reader_balanced a b)); [intros i w; apply on_urc_balanced|].
  intros w Hb. cbn [pause recorded_link]. destruct (pause ms (link w).1) as [l hs]. cbn [fst].
  apply (balanced_framed a b w); [done|done|]. apply last_switch_app, switch_heard_in.
Qed.

Lemma keeps_wait_air timeout pred a b : keeps (P a b) (wait_for timeout pred : act _).
Proof. intros w Hb. unfold Air780eHal.wait_for. destruct (pred w); [done|by apply keeps_sleep]. Qed.

(** ** Sending and closing *)

Lemma keeps_SendPayload id data a b : keeps (P a b) (SendPayload call_data call_close call_udp id data : act _).
Proof.
  apply keeps_with_channel, keeps_if; [apply keeps_fail|]. apply keeps_bind; [|intros _; apply keeps_bind].
  - apply keeps_bind; [by apply keeps_hal|]. intros _. apply keeps_bind; [apply keeps_data_out|].
    intros [|e]; [apply keeps_ret|]. apply keeps_bind.
    { apply keeps_hal. intros h. cbv zeta. by destruct (0 <? _). }
    intros _. apply keeps_bind; [apply keeps_gets|]. intros closed. apply keeps_if; apply keeps_fail.
  - apply keeps_wait_air.
  - intros _. apply keeps_bind; [apply keeps_gets|]. intros acked. apply keeps_bind; [apply keeps_gets|]. intros failed.
    apply keeps_bind; [by apply keeps_hal|]. intros _. apply keeps_if; [apply keeps_fail|].
    apply keeps_if; [apply keeps_fail|apply keeps_ret].
Qed.

Lemma keeps_CloseConnection id a b : keeps (P a b) (CloseConnection call_data call_close call_udp id : act _).
Proof.
  apply keeps_with_channel, keeps_if; [apply keeps_fail|]. apply keeps_bind; [apply keeps_gets|]. intros held.
  apply keeps_if; [apply keeps_ret|]. apply keeps_bind; [by apply keeps_hal|]. intros _.
  apply keeps_bind; [apply keeps_line_out|]. intros sent. apply keeps_bind; [apply keeps_ReleaseConnectionId|]. intros _.
  destruct sent; [|apply keeps_fail]. apply keeps_bind; [apply keeps_wait_air|]. intros _. by apply keeps_hal.
Qed.

(** ** Opening *)

Local Abbreviation open_loop := (open_loop call_data call_close call_udp).

Lemma balanced_less a b a' b' w : balanced a b w → 0 <= a' <= a → 0 <= b' <= b → balanced a' b' w.
Proof. intros [] [] []. by constructor; try lia. Qed.

Lemma owing_less mode a b w : owing mode a b w → 0 <= a → 0 <= b → balanced a b w.
Proof. unfold owing. destruct mode; intros Hb ??; eapply balanced_less; (exact Hb || lia). Qed.

Lemma keeps_owing {A} mode a b (m : act A) : (∀ a b, keeps (P a b) m) → keeps (owing mode a b) m.
Proof. unfold owing. destruct mode; intros Hm; apply Hm. Qed.

Lemma keeps_AllocateConnectionId avoid a b : keeps (P a b) (AllocateConnectionId avoid : act _).
Proof.
  intros w Hb. unfold AllocateConnectionId. destruct (pick_slot _ _ _) as [id|]; [|done]. cbn [fst].
  eapply (balanced_framed a b (set_hal (λ h, set_slot h id (MkSocketSlot true false false false (next_serial_ h))) w)); [|done|done].
  by apply balanced_slot.
Qed.

(** A slot that is emptied with its reservation kept for its opener. *)
Lemma keeps_RetireSlot id a b : keeps (P a b) (RetireSlot id : act _).
Proof.
  apply keeps_by_wp. intros w Hw. eapply wp_mono; [by apply RetireSlot_owing|].
  cbv beta. intros [[mode|]|e] w' Hw'; [|done|done]. by eapply owing_less; [|destruct Hw as [[] ? ? ? ? ?]..].
Qed.

(** The outcome of an open: the reservation passes to the slot. *)
Lemma balanced_handed mode a b id w : owing mode a b w → 0 <= a → 0 <= b →
  balanced a b (set_hal (λ h, let s := slot h id in set_slot h id (MkSocketSlot (used s) (udp s) mode true (serial s))) w).
Proof.
  intros Hb Ha Hb'. cbv zeta. set (t := slot (hal w) id).
  change (balanced a b (set_hal (λ h, set_slot h id (MkSocketSlot (used t) (udp t) mode true (serial t))) w)).
  assert (∀ m, holders m (slots_ (hal (set_hal (λ h, set_slot h id (MkSocketSlot (used t) (udp t) mode true (serial t))) w))) <=
    holders m (slots_ (hal w)) + if Bool.eqb mode m then 1 else 0) as Hc.
  { intros m. rewrite hal_of. unfold set_slot, set_entry. cbn [slots_ set_slots].
    pose proof (holders_nonneg m (slots_ (hal w))).
    destruct (slots_ (hal w) !! Z.to_nat id) as [t'|] eqn:E.
    - rewrite (holders_set _ _ _ t') by done. unfold holder. cbn. destruct (Bool.eqb mode m), (used t); cbn; repeat case_match; lia.
    - rewrite holders_set_out by done. destruct (Bool.eqb _ _); lia. }
  pose proof (Hc true) as Ht. pose proof (Hc false) as Hf. clear Hc. unfold owing in Hb.
  destruct mode, Hb as [[] Hs Hp Hone Hon Hoff]; cbn [Bool.eqb] in *;
    (constructor; [lia| | |done|done|done]; rewrite ?hal_of in *;
     cbn [set_slot set_slots touch slots_ ssl_sockets_open_ plain_sockets_open_] in *; lia).
Qed.

Lemma ApplySslSwitch_set enable w : wp (ApplySslSwitch enable : act _) (λ r w',
  framed (hal w) (hal w') ∧ (r = Ok () → last_switch (log w') = Some enable)) w.
Proof.
  assert (∀ cmd t v, framed (hal w) (hal v) → wp (checked cmd t : act _) (λ r w', framed (hal w) (hal w') ∧
    ∃ x calls, log w' = log v ++ (XHeard <$> calls) ++ [XCommand cmd x] ∧ (r = Ok () → x = Ok ())) v) as Hc.
  { intros cmd t v Hv. unfold checked. apply wp_bind. eapply wp_mono; [apply command_framed|]. cbv beta.
    intros r w' (x & calls & -> & F & E).
    assert (framed (hal w) (hal w')) by (destruct Hv as (?&?&?&?), F as (?&?&?&?); split_and!; congruence).
    destruct x as [[]|e]; [apply wp_ret|apply wp_fail]; (split; [done|]); [exists (Ok ()), calls|exists (Err e), calls]; done. }
  unfold ApplySslSwitch, with_channel. wp_run. destruct (channel_ _); [|by apply wp_fail]. apply wp_bind.
  apply (wp_mono _ (λ _ v, framed (hal w) (hal v))).
  { destruct enable; [|done]. eapply wp_mono; [by apply Hc|]. by intros r v [F _]. }
  intros [[]|e] v Hv; [|done]. apply wp_bind. eapply wp_mono; [by apply Hc|]. cbv beta.
  intros r v1 (F1 & x & calls & E1 & Hx). destruct r as [[]|e]; [|done].
  assert (last_switch (log v1) = Some enable) as Hs.
  { rewrite E1, Hx by done. unfold last_switch. rewrite !omap_app, switch_heard. cbn [app]. rewrite last_app.
    by destruct enable. }
  apply wp_bind. eapply wp_mono; [by apply Hc|]. cbv beta. intros r v2 (F2 & x2 & calls2 & E2 & _).
  assert (last_switch (log v2) = Some enable) as Hs2.
  { rewrite E2, last_switch_app; [done|]. rewrite omap_app, switch_heard. by destruct x2. }
  destruct r as [[]|e]; [|done]. wp_run. by destruct (reports_switch _ _); [apply wp_ret|apply wp_fail].
Qed.

Lemma balanced_mode (mode : bool) a b w : balanced a b w → (if mode then plain_sockets_open_ (hal w) else ssl_sockets_open_ (hal w)) <= 0 →
  last_switch (log w) = Some mode → owing mode a b (set_hal (take_mode mode) w).
Proof.
  intros Hb Hopp Hlast. pose proof (holders_nonneg true (slots_ (hal w))). pose proof (holders_nonneg false (slots_ (hal w))).
  unfold owing. destruct mode, Hb as [[] Hs Hp Hone Hon Hoff]; constructor; rewrite ?hal_of;
    unfold take_mode; cbn [set_mode_counts slots_ ssl_sockets_open_ plain_sockets_open_];
    change (log (set_hal _ w)) with (log w); try lia; try done; intros; lia.
Qed.

Lemma ReserveSocketForMode_owing mode a b w : balanced a b w → wp (ReserveSocketForMode mode : act _) (λ r w',
  match r with Ok _ => owing mode a b w' | Err _ => balanced a b w' end) w.
Proof.
  intros Hb. unfold ReserveSocketForMode. wp_run.
  destruct (Z.ltb_spec 0 (if mode then plain_sockets_open_ (hal w) else ssl_sockets_open_ (hal w))) as [|Hopp]; [by apply wp_fail|].
  destruct (Z.ltb_spec 0 (if mode then ssl_sockets_open_ (hal w) else plain_sockets_open_ (hal w))) as [Hsame|Hsame].
  { apply wp_modify, balanced_mode; [done|done|]. destruct mode, Hb as [[] Hs Hp Hone Hon Hoff]; auto. }
  wp_run. eapply wp_mono; [apply ApplySslSwitch_set|]. cbv beta. intros r w1 [F Hr]. wp_run.
  assert (ssl_sockets_open_ (hal w) <= 0 ∧ plain_sockets_open_ (hal w) <= 0) as [Hs0 Hp0] by (destruct mode; lia).
  destruct F as (E1 & E2 & E3 & _). rewrite hal_of in *. cbn [slots_ ssl_sockets_open_ plain_sockets_open_ set_switching] in *.
  set (w2 := set_hal _ w1). assert (balanced a b w2) as Hb2.
  { destruct Hb as [[] Hs Hp Hone Hon Hoff]. subst w2.
    constructor; rewrite ?hal_of; cbn [slots_ ssl_sockets_open_ plain_sockets_open_ set_switching]; rewrite ?E1, ?E2, ?E3; try done; lia. }
  destruct r as [[]|e]; [|by apply wp_fail]. apply wp_modify, balanced_mode; [done| |by apply Hr].
  subst w2. rewrite hal_of. cbn [ssl_sockets_open_ plain_sockets_open_ set_switching]. by destruct mode; rewrite ?E2, ?E3.
Qed.

Lemma wp_through {A B} (R : world → Prop) (m : act A) (k : A → act B) Q w : keeps R m → R w → (∀ a w', R w' → wp (k a) Q w') →
  (∀ e w', R w' → Q (Err e) w') → wp (bind m k) Q w.
Proof.
  intros Hm Hw Hk He. apply wp_bind. eapply wp_mono; [by apply (wp_keeps R)|]. cbv beta. intros [x|e] w' Hw'; auto.
Qed.

Lemma keeps_WaitForOpenResult id timeout a b : keeps (P a b) (WaitForOpenResult call_data call_close call_udp id timeout : act _).
Proof.
  apply keeps_bind; [apply keeps_wait_air|]. intros _. apply keeps_bind; [apply keeps_gets|]. intros wait.
  apply keeps_bind; [by apply keeps_hal|]. intros _. apply keeps_if; [apply keeps_fail|].
  destruct (ow_outcome wait); [apply keeps_ret|apply keeps_fail..].
Qed.

Lemma keeps_new_slot id type a b : keeps (P a b) (modify (set_hal (λ h, let s := slot h id in
  set_slot h id (MkSocketSlot (used s) (bool_decide (type = lit "UDP")) (ssl s) (holds_mode s) (serial s)))) : act _).
Proof. intros w Hw. by apply (balanced_slot a b id). Qed.

Lemma open_loop_balanced attempts mode a b tried type host port w : 0 <= a → 0 <= b → owing mode a b w →
  wp (open_loop attempts tried type host port mode : act _) (λ _, balanced a b) w.
Proof.
  intros Ha Hb. revert tried w. set (R := owing mode a b).
  assert (∀ A (e : NetworkError) w, R w → wp (modify (set_hal (ReleaseSocketForMode mode)) ;;; fail e : act A) (λ _, balanced a b) w) as Hgive.
  { intros A e w Hw. wp_run. by apply balanced_released. }
  assert (∀ e w, R w → balanced a b w) as Hless by (intros; by eapply owing_less).
  assert (∀ id {A} (m : act A) w, R w → (∀ w, R w → wp m (λ _, balanced a b) w) →
    wp (RetireSlot id ;;; m) (λ _, balanced a b) w) as Hretire.
  { intros id A m w Hw Hm. apply (wp_through R); [apply keeps_owing; intros; apply keeps_RetireSlot|done|done|].
    intros; by apply Hless. }
  induction attempts as [|k IH]; intros tried w Hw; cbn [Air780eHal.open_loop]; [by apply Hgive|].
  apply (wp_through R); [apply keeps_owing; intros; apply keeps_AllocateConnectionId|done| |by intros; apply Hless].
  intros id w1 Hw1. destruct (id <? 0); [by apply Hgive|].
  apply (wp_through R); [apply keeps_owing; intros; apply keeps_new_slot|done| |by intros; apply Hless].
  intros _ w2 Hw2. apply (wp_through R); [apply keeps_owing; intros; by apply keeps_hal|done| |by intros; apply Hless].
  intros _ w3 Hw3. apply (wp_through R); [apply keeps_owing; intros; by apply keeps_line_out|done| |by intros; apply Hless].
  intros [[]|e] w4 Hw4; [|apply Hretire; [done|]; intros; by apply Hgive].
  apply (wp_through R); [apply keeps_owing; intros; apply keeps_attempt, keeps_WaitForOpenResult|done| |by intros; apply Hless].
  intros [[]|e] w5 Hw5.
  - wp_run. by apply balanced_handed.
  - destruct (_ =? _); (apply Hretire; [done|]); intros; [by apply IH|by apply Hgive].
Qed.

Lemma keeps_OpenSocket type host port mode a b : keeps (P a b) (OpenSocket call_data call_close call_udp type host port mode : act _).
Proof.
  apply keeps_by_wp. intros w Hw. assert (0 <= a ∧ 0 <= b) as [Ha Hb] by apply Hw. unfold OpenSocket. apply wp_bind.
  eapply wp_mono; [by apply ReserveSocketForMode_owing|]. cbv beta. intros [[]|e] w' Hw'; [|done].
  by apply open_loop_balanced.
Qed.

(** ** The operations of the HAL *)

(** Everything a client, the application or time may do to an initialized HAL. *)
Inductive hal_call :=
  | CallTcpConnect (host : bytes) (port : Z) (tls : bool) (config : TlsConfig)
  | CallTcpClose (connect_id : Z)
  | CallTcpSend (connect_id : Z) (data : bytes)
  | CallUdpOpen (host : bytes) (port : Z)
  | CallUdpClose (connect_id : Z)
  | CallUdpSend (connect_id : Z) (data : bytes)
  | CallGetSimState | CallGetRegistrationState | CallGetSignalInfo
  | CallGetImei | CallGetIccid | CallGetRevision | CallGetCarrier
  | CallConfigureApn (config : ApnConfig) | CallActivatePdp
  | CallSetFlightMode (enable : bool) | CallEnterSleep (config : SleepConfig) | CallExitSleep
  | CallReset
  | TimePasses (ms : Z).

Definition run_call (c : hal_call) w : world :=
  let guarded (r : option (world * Result bytes)) := match r with Some (w', _) => w' | None => w end in
  match c with
  | CallTcpConnect host port tls config => (TcpConnect call_data call_close call_udp host port tls config w).1
  | CallTcpClose id => (TcpClose call_data call_close call_udp id w).1
  | CallTcpSend id data => (TcpSend call_data call_close call_udp id data w).1
  | CallUdpOpen host port => (UdpOpen call_data call_close call_udp host port w).1
  | CallUdpClose id => (UdpClose call_data call_close call_udp id w).1
  | CallUdpSend id data => (UdpSend call_data call_close call_udp id data w).1
  | CallGetSimState => (GetSimState w).1
  | CallGetRegistrationState => (GetRegistrationState w).1
  | CallGetSignalInfo => (GetSignalInfo w).1
  | CallGetImei => guarded (GetImei w)
  | CallGetIccid => guarded (GetIccid w)
  | CallGetRevision => guarded (GetRevision w)
  | CallGetCarrier => guarded (GetCarrier w)
  | CallConfigureApn config => (ConfigureApn config w).1
  | CallActivatePdp => (ActivatePdp w).1
  | CallSetFlightMode enable => (SetFlightMode enable w).1
  | CallEnterSleep config => (EnterSleep config w).1
  | CallExitSleep => (ExitSleep w).1
  | CallReset => (Reset w).1
  | TimePasses ms => (sleep ms w).1
  end.

Lemma keeps_step {A} name (m : act A) a b : keeps (P a b) m → keeps (P a b) (step name m).
Proof. intros Hm. apply keeps_bind; [by apply keeps_attempt|]. intros [|]; [apply keeps_ret|apply keeps_fail]. Qed.

Lemma keeps_ActivatePdp a b : keeps (P a b) (ActivatePdp : act _).
Proof.
  apply keeps_with_channel, keeps_bind; [by apply keeps_attempt, keeps_ReadSingleLineResponse|]. intros r.
  apply keeps_if; [apply keeps_ret|by apply keeps_checked].
Qed.

Lemma keeps_guarded (m : act bytes) a b w : keeps (P a b) m → balanced a b w →
  balanced a b (match through_channel m w with Some (w', _) => w' | None => w end).
Proof.
  intros Hm Hw. unfold through_channel. destruct (channel_ _); [|done]. specialize (Hm w Hw). by destruct (m w).
Qed.

Lemma keeps_query_value cmd a b : lit cmd ≠ lit "AT+CIPSSL=1" → lit cmd ≠ lit "AT+CIPSSL=0" → keeps (P a b) (query_value cmd : act _).
Proof. intros. apply keeps_bind; [by apply keeps_ReadSingleLineResponse|]. intros; apply keeps_ret. Qed.

Lemma queries_balanced c a b w : balanced a b w →
  match c with
  | CallGetSimState | CallGetRegistrationState | CallGetSignalInfo | CallGetImei | CallGetIccid | CallGetRevision
  | CallGetCarrier => balanced a b (run_call c w)
  | _ => True
  end.
Proof.
  assert (∀ (m : act bytes) (A : Type) (x : A) (k : bytes → act A), keeps (P a b) m → (∀ r, keeps (P a b) (k r)) →
    keeps (P a b) (let! set := gets (λ w, channel_ (hal w)) in if negb set then ret x else
      let! result := attempt m in match result with Err _ => ret x | Ok r => k r end)) as Hq.
  { intros m A x k Hm Hk. apply keeps_bind; [apply keeps_gets|]. intros set. apply keeps_if; [apply keeps_ret|].
    apply keeps_bind; [by apply keeps_attempt|]. intros [r|e]; [apply Hk|apply keeps_ret]. }
  intros Hw. destruct c; try done; cbn [run_call]; try (by apply keeps_guarded; [apply keeps_query_value|]).
  - apply Hq; [by apply keeps_ReadSingleLineResponse| |done]. intros r. apply keeps_ret.
  - apply Hq; [by apply keeps_ReadSingleLineResponse| |done]. intros r. apply keeps_ret.
  - revert w Hw. change (keeps (P a b) (GetSignalInfo : act _)). apply keeps_bind; [apply keeps_gets|]. intros last1.
    apply keeps_bind; [apply keeps_gets|]. intros set. apply keeps_if; [apply keeps_ret|].
    apply keeps_bind; [by apply keeps_attempt, keeps_ReadSingleLineResponse|]. intros r.
    apply keeps_bind; [apply keeps_gets|]. intros last2. destruct r; [|apply keeps_ret].
    apply keeps_if; [apply keeps_ret|]. apply keeps_bind; [by apply keeps_hal|]. intros; apply keeps_ret.
  - apply keeps_guarded; [|done]. apply keeps_bind; [by apply keeps_ReadSingleLineResponse|]. intros line.
    apply keeps_if; [apply keeps_fail|apply keeps_ret].
Qed.

Lemma run_call_balanced c a b w : balanced a b w → balanced a b (run_call c w).
Proof.
  intros Hw. pose proof (queries_balanced c a b w Hw) as Hq. destruct c; try exact Hq; clear Hq; cbn [run_call].
  - apply keeps_with_channel; [|done]. cbv zeta. case_decide; [apply keeps_fail|apply keeps_OpenSocket].
  - by apply keeps_CloseConnection.
  - by apply keeps_SendPayload.
  - apply keeps_with_channel; [apply keeps_OpenSocket|done].
  - by apply keeps_CloseConnection.
  - by apply keeps_SendPayload.
  - apply keeps_with_channel; [|done]. apply keeps_bind; [by apply keeps_step, keeps_checked|]. intros _.
    apply keeps_bind; [|intros _; apply keeps_step, keeps_ActivatePdp].
    case_decide; [apply keeps_ret|by apply keeps_step, keeps_checked].
  - by apply keeps_ActivatePdp.
  - apply keeps_with_channel; [|done]. by destruct enable; apply keeps_checked.
  - apply keeps_with_channel; [|done]. by destruct (enable_dtr_wakeup config); apply keeps_checked.
  - apply keeps_with_channel; [by apply keeps_checked|done].
  - apply keeps_with_channel; [by apply keeps_checked|done].
  - by apply keeps_sleep.
Qed.

(** ** Initialization *)

(** No socket has been opened. *)
Definition unopened w : Prop := framed (set_slots (new_air780e true) (slots_ (hal w)) 1) (hal w) ∧ (∀ m, holders m (slots_ (hal w)) = 0).

Lemma unopened_framed w w' : unopened w → framed (hal w) (hal w') → unopened w'.
Proof.
  intros [(F1 & F2 & F3 & F4) Hn] (E1 & E2 & E3 & E4). cbn in *.
  split; [split_and!; cbn; congruence|]. intros m. by rewrite E1.
Qed.

Lemma unopened_balanced w : unopened w → balanced 0 0 w.
Proof.
  intros [(F1 & F2 & F3 & F4) Hn]. cbn in *. constructor; rewrite ?Hn, ?F2, ?F3; try lia; by left.
Qed.

Lemma unopened_checked cmd timeout : keeps unopened (checked cmd timeout : act _).
Proof.
  apply keeps_by_wp. intros w Hw. unfold checked. apply wp_bind. eapply wp_mono; [apply command_framed|]. cbv beta.
  intros r w' (x & calls & -> & F & _). destruct x; wp_run; by eapply unopened_framed.
Qed.

Lemma unopened_line cmd : keeps unopened (line_out cmd : act _).
Proof.
  intros w Hw. unfold line_out. destruct (at_line cmd (link w)) as [[l calls] r]. cbn [fst].
  eapply unopened_framed; [exact Hw|]. apply (urcs_framed calls (set_link l w)).
Qed.

Lemma unopened_sleep ms : keeps unopened (sleep ms : act _).
Proof.
  intros w Hw. unfold Air780eHal.sleep. destruct (pause ms (link w)) as [l hs]. cbn [fst].
  assert (unopened (set_link l w)) as Hw' by done. revert Hw'. generalize (set_link l w). clear w Hw.
  induction hs as [|x hs IH]; intros w Hw; [done|]. cbn [fold_left]. apply IH. destruct x as [i|]; cbn [on_happening].
  - eapply unopened_framed; [exact Hw|]. apply (urcs_framed [i] w).
  - destruct Hw as [(F1 & F2 & F3 & F4) Hn]. rewrite F4. done.
Qed.

Lemma Initialize_balanced w : unopened w → balanced 0 0 (Initialize call_data call_close call_udp w).1.
Proof.
  set (Q := λ (_ : Result ()) v, balanced 0 0 v). assert (∀ e v, unopened v → Q (Err e) v) as He.
  { intros e v. apply unopened_balanced. }
  intros Hw. change (wp (Initialize call_data call_close call_udp) Q w). unfold Initialize.
  assert (∀ {A} (m : act A) (k : A → act unit) v, keeps unopened m → unopened v → (∀ a v, unopened v → wp (k a) Q v) → wp (bind m k) Q v) as Hseq.
  { intros A m k v Hm Hv Hk. apply (wp_through unopened); auto. }
  apply Hseq; [by intros ?|done|]. intros _ w1 H1. apply Hseq; [|done|].
  { intros u Hu. unfold RegisterUrcHandlers. cbn [modify fst]. destruct (negb _); [done|].
    unfold subscribe. repeat destruct (at_subscribe _ _). done. }
  intros _ w2 H2. apply Hseq; [apply unopened_checked|done|]. intros _ w3 H3.
  apply Hseq; [apply unopened_checked|done|]. intros _ w4 H4. apply Hseq; [by intros ?|done|]. intros _ w5 H5.
  apply Hseq; [apply unopened_line|done|]. intros [[]|e] w6 H6; [|by apply wp_fail, He].
  apply Hseq; [|done|].
  { intros u Hu. unfold Air780eHal.wait_for. destruct (shut_ok_ _); [done|by apply unopened_sleep]. }
  intros _ w7 H7. apply Hseq; [by intros ?|done|]. intros shut w8 H8. destruct (negb shut); [by apply wp_fail, He|].
  do 2 (apply Hseq; [apply unopened_checked|done|]; intros _ ? ?). apply Hseq; [by intros ?|done|]. intros lines w9 Hw9.
  destruct (negb _); [by apply wp_fail, He|]. do 2 (apply Hseq; [apply unopened_checked|done|]; intros _ ? ?).
  apply Hseq; [|done|].
  { apply keeps_by_wp. intros u Hu. eapply wp_mono; [apply ApplySslSwitch_set|]. intros r u2 [F _]. by eapply unopened_framed. }
  intros _ w10 Hw10. apply wp_modify. subst Q. apply unopened_balanced in Hw10. destruct Hw10. by constructor.
Qed.

(** C5: TLS and plaintext sockets are never open together. Start from a new HAL,
    initialize it once, and let clients, the application and time do anything else in
    any order with whatever the module answers and reports. (Another [Initialize] is
    not among the calls: with a TLS socket still held it breaks what follows, as
    [Air780eEvents.initialized_again_opens_tls_in_plaintext] shows.)
    Then of the sockets in use, either none is TLS or none is plaintext, and the last
    [AT+CIPSSL] the module acknowledged is what the sockets in use need. *)
Theorem modes_exclusive calls w start_reader :
  hal w = new_air780e start_reader →
  let w' := fold_left (λ w c, run_call c w) calls (Initialize call_data call_close call_udp w).1 in
  (holders true (slots_ (hal w')) = 0 ∨ holders false (slots_ (hal w')) = 0) ∧
  ∀ mode, 0 < holders mode (slots_ (hal w')) → last_switch (log w') = Some mode.
Proof.
  intros Hw. assert (balanced 0 0 (Initialize call_data call_close call_udp w).1) as Hb.
  { apply Initialize_balanced. unfold unopened. rewrite Hw. split; [done|]. by intros []. }
  cbv zeta. revert Hb. generalize (Initialize call_data call_close call_udp w).1. clear w Hw.
  induction calls as [|c calls IH]; intros w Hb.
  - destruct Hb as [_ Hs Hp Hone Hon Hoff]. cbn [fold_left].
    pose proof (holders_nonneg true (slots_ (hal w))). pose proof (holders_nonneg false (slots_ (hal w))).
    split; [destruct Hone; [left|right]; lia|]. intros [] ?; [apply Hon|apply Hoff]; lia.
  - apply IH. by apply run_call_balanced.
Qed.
End Modes.

(** * A HAL to try things on *)

(** Its only client notes what it hears. *)
Definition sample_world := (IModuleHal nat * (Air780eHal * ((uart_link * list exchange) * list (Z * bytes))))%type.
Definition note_data (k : nat) (cid : Z) (d : bytes) (w : sample_world) : sample_world :=
  (w.1, (w.2.1, (w.2.2.1, w.2.2.2 ++ [(cid, d)]))).
Definition note_close (k : nat) (cid : Z) (w : sample_world) : sample_world := note_data k cid [] w.
Definition note_udp (k : nat) (cid : Z) (host : bytes) (port : Z) : bytes → sample_world → sample_world := note_data k cid.

Lemma notes_fair : fair_callbacks note_data note_close note_udp.
Proof. constructor; intros; (eapply balanced_framed; [eassumption| |]); done. Qed.

(** What the UART delivers for a line nothing acknowledges. *)
Definition reports (lines : list string) : option (Z * Z) * list bytes := (None, [concat ((line_ ∘ lit) <$> lines)]).

(** A module that comes up and then answers so. *)
Definition fresh_air780e (answers : list (option (Z * Z) * list bytes)) (idle : list (list bytes * bool)) : sample_world :=
  (new_hal, (new_air780e true, ((MkUartLink (AtUart.new_uart 115200)
    ([ok_after []; ok_after []; reports ["SHUT OK"]; ok_after []; ok_after [lit "+CIPMUX: 1"]; ok_after []; ok_after [];
      ok_after []; ok_after [lit "+CIPSSL: 0"]] ++ answers) idle 5000, []), []))).
Definition sample_air780e (answers : list (option (Z * Z) * list bytes)) (idle : list (list bytes * bool)) : sample_world :=
  (Initialize note_data note_close note_udp (fresh_air780e answers idle)).1.

(** A module that switches to TLS and connects the first socket. *)
Definition tls_answers : list (option (Z * Z) * list bytes) :=
  [ok_after []; ok_after []; ok_after [lit "+CIPSSL: 1"]; reports ["0, CONNECT OK"]].
Definition tls_calls : list hal_call :=
  [CallTcpConnect (lit "a.example") 443 true default_tls; CallUdpOpen (lit "b.example") 53].

Lemma modes_exclusive_witness :
  let w := fold_left (λ w c, run_call note_data note_close note_udp c w) tls_calls (sample_air780e tls_answers []) in
  holders true (slots_ (hal w)) = 1 ∧
  ((holders true (slots_ (hal w)) = 0 ∨ holders false (slots_ (hal w)) = 0) ∧
   ∀ mode, 0 < holders mode (slots_ (hal w)) → last_switch (log w) = Some mode).
Proof.
  cbv zeta. split; [vm_compute; reflexivity|].
  apply (modes_exclusive note_data note_close note_udp notes_fair tls_calls (fresh_air780e tls_answers []) true eq_refl).
Defined.
