(* ===== verification/Air780eOpen.v ===== *)
(** Opening a socket of the AIR780E: what the module was asked and what it said for each
    thing [TcpConnect] can return.

    A client's callback runs on one of the HAL's tasks, so it may change the routes
    and its own state but sends nothing and leaves the HAL's members alone. *)
From stdpp Require Import base decidable list strings gmap.
From Stdlib Require Import ZArith Ascii Lia.
From S2P Require Import Prelude Errors CommonTypes StateResult AtParser UrcDispatcher HalRoutes ModemLink Air780eHal.
From S2P Require Import Air780eFrame Air780eModes.

(** * Specification *)

(** What a line without a key says of an open: "<id>, CONNECT OK" and its siblings. *)
Definition outcome_of (what : bytes) : option OpenOutcome :=
  if decide (what = lit "CONNECT OK") then Some kConnected
  else if decide (what = lit "CONNECT FAIL") then Some kFailed
  else if decide (what = lit "ALREADY CONNECT") then Some kAlreadyConnectedOutcome else None.
Definition line_outcome (line : bytes) : option (Z * OpenOutcome) :=
  if decide (find_byte ":" line ≠ None) then None else
  match find_byte "," line with
  | None => None
  | Some comma =>
      match ParseInt (Trim (take comma line)) with
      | Some id => if in_pool id then pair id <$> outcome_of (Trim (drop (comma + 1) line)) else None
      | None => None
      end
  end.
Definition heard_outcome (handles : list (Z * urc_handler)) (i : invocation) : option (Z * OpenOutcome) :=
  match list_find (λ e, e.1 = iv_handle i) handles with
  | Some (_, (_, HUnsolicited)) => line_outcome (iv_command i)
  | _ => None
  end.

(** What was said of one id, in order, and the lines sent. *)
Definition outcome_for (handles : list (Z * urc_handler)) (id : Z) (x : exchange) : option OpenOutcome :=
  match x with
  | XHeard i => match heard_outcome handles i with
                | Some (id', o) => if id' =? id then Some o else None
                | None => None
                end
  | _ => None
  end.
Definition outcomes (handles : list (Z * urc_handler)) (id : Z) : list exchange → list OpenOutcome := omap (outcome_for handles id).
Definition lines : list exchange → list (bytes * AtResult) :=
  omap (λ x, match x with XLine c a => Some (c, a) | _ => None end).

Definition no_answer (id : Z) : NetworkError :=
  MkNetworkError kTimeout 0 (lit "no CONNECT OK, CONNECT FAIL or ALREADY CONNECT for connection " ++ to_string id).
Definition refused (id : Z) : NetworkError := MkNetworkError kConnectFailed 0 (lit "the module refused connection " ++ to_string id).
Definition all_held : NetworkError := net_error kResourceBusy "every connection id is held by a socket this process did not open".
Definition no_ids : NetworkError :=
  MkNetworkError kNoResources 0 (lit "all " ++ to_string kMaxConnections ++ lit " connection ids in use").

(** The record of a search for an id the module will connect, [n] tries left, the ids
    of [tried] passed over, and what comes of it: a free id is asked for with [ask];
    one the module holds is passed over, and none is asked for twice. At its end the
    ids in use are the [held] ones. *)
Inductive search (handles : list (Z * urc_handler)) (ask : Z → bytes) (held : Z → bool) :
    nat → list Z → list exchange → Result Z → Prop :=
| search_held_all tried : search handles ask held 0 tried [] (Err all_held)
| search_no_ids n tried :
    (∀ i, 0 <= i < kMaxConnections → held i = true ∨ i ∈ tried) →
    search handles ask held (S n) tried [] (Err no_ids)
| search_unsent n tried id l a :
    id ∉ tried → lines l = [(ask id, Err a)] → search handles ask held (S n) tried l (Err (ToNetworkError a))
| search_unanswered n tried id l :
    id ∉ tried → lines l = [(ask id, Ok ())] → outcomes handles id l = [] →
    search handles ask held (S n) tried l (Err (no_answer id))
| search_refused n tried id l :
    id ∉ tried → lines l = [(ask id, Ok ())] → kFailed ∈ outcomes handles id l →
    search handles ask held (S n) tried l (Err (refused id))
| search_connected n tried id l :
    id ∉ tried → lines l = [(ask id, Ok ())] → kConnected ∈ outcomes handles id l →
    search handles ask held (S n) tried l (Ok id)
| search_held n tried id l l' r :
    id ∉ tried → lines l = [(ask id, Ok ())] → kAlreadyConnectedOutcome ∈ outcomes handles id l →
    search handles ask held n (id :: tried) l' r → search handles ask held (S n) tried (l ++ l') r.

(** * Lemmas *)

Lemma outcomes_app handles id l l' : outcomes handles id (l ++ l') = outcomes handles id l ++ outcomes handles id l'.
Proof. apply omap_app. Qed.
Lemma lines_app l l' : lines (l ++ l') = lines l ++ lines l'.
Proof. apply omap_app. Qed.
Lemma lines_heard calls : lines (XHeard <$> calls) = [].
Proof. by induction calls. Qed.
Lemma lines_heard_in hs : lines (heard_in hs) = [].
Proof. by induction hs as [|[i|] hs IH]. Qed.

(** The rendezvous after a report. *)
Definition after_outcome (ow : OpenWait) (o : option (Z * OpenOutcome)) : OpenWait :=
  match o with Some (id, o) => if ow_id ow =? id then MkOpenWait id o true else ow | None => ow end.

Lemma unsolicited_outcome line h :
  let h' := OnUnsolicitedLine line h in
  open_wait_ h' = after_outcome (open_wait_ h) (line_outcome line) ∧ slots_ h' = slots_ h ∧
  urc_handles_ h' = urc_handles_ h ∧ channel_ h' = channel_ h.
Proof.
  cbv zeta. unfold OnUnsolicitedLine, line_outcome. destruct (decide (find_byte ":" line ≠ None)) as [|Hc]; [done|].
  destruct (decide (line = lit "SHUT OK")) as [->|]; [done|].
  destruct (find_byte "," line) as [comma|]; [|done]. destruct (ParseInt _) as [id|]; [|done].
  destruct (in_pool id); cbn [negb]; [|done]. set (what := Trim (drop (comma + 1) line)). unfold outcome_of.
  destruct (decide (what = lit "CONNECT OK")); [unfold RecordOpenResult; cbn; by destruct (_ =? _)|].
  destruct (decide (what = lit "CONNECT FAIL")); [unfold RecordOpenResult; cbn; by destruct (_ =? _)|].
  destruct (decide (what = lit "ALREADY CONNECT")); [unfold RecordOpenResult; cbn; by destruct (_ =? _)|]. cbn.
  unfold NotePeerClosed, set_send, set_pending, set_close_serial. by repeat case_match.
Qed.

Section Open.
Context {K U W0 : Type} `{IModemLink W0}.
Local Abbreviation world := (IModuleHal K * (Air780eHal * ((W0 * list exchange) * U)))%type.
Context (call_data : K → Z → bytes → world → world) (call_close : K → Z → world → world).
Context (call_udp : K → Z → bytes → Z → bytes → world → world).
Local Abbreviation act := (op world NetworkError).
Implicit Types w : world.

Definition same w w' : Prop := hal w' = hal w ∧ link w' = link w.
Record still_callbacks : Prop := {
  still_data : ∀ k cid d w, same w (call_data k cid d w);
  still_close : ∀ k cid w, same w (call_close k cid w);
  still_udp : ∀ k cid host port d w, same w (call_udp k cid host port d w);
}.
Context (Hstill : still_callbacks).

(** The rendezvous for [id], armed when the record was [l0]: the lines sent since are
    [ls]; it is settled only by something reported since; and while it is not, nothing
    was, other than by the calls [todo] the handlers have not been given yet. The ids
    in use are of [ids]. *)
Record tracks (l0 : list exchange) (hs : list (Z * urc_handler)) (id : Z) (ids : Z → Prop)
    (ls : list (bytes * AtResult)) (todo : list invocation) (l : list exchange) w : Prop := {
  tk_log : log w = l0 ++ l;
  tk_lines : lines l = ls;
  tk_handles : urc_handles_ (hal w) = hs;
  tk_id : ow_id (open_wait_ (hal w)) = id;
  tk_todo : ∀ o, o ∈ outcomes hs id (XHeard <$> todo) → o ∈ outcomes hs id l;
  tk_done : ow_done (open_wait_ (hal w)) = true → ow_outcome (open_wait_ (hal w)) ∈ outcomes hs id l;
  tk_open : ow_done (open_wait_ (hal w)) = false → ∀ o, o ∈ outcomes hs id l → o ∈ outcomes hs id (XHeard <$> todo);
  tk_slots : length (slots_ (hal w)) = Z.to_nat kMaxConnections;
  tk_used : ∀ i, IsConnectionUsed (hal w) i = true → ids i;
}.

Lemma on_urc_effect w i : let w' := on_urc w i in
  link w' = link w ∧ slots_ (hal w') = slots_ (hal w) ∧ urc_handles_ (hal w') = urc_handles_ (hal w) ∧
  channel_ (hal w') = channel_ (hal w) ∧
  open_wait_ (hal w') = after_outcome (open_wait_ (hal w)) (heard_outcome (urc_handles_ (hal w)) i).
Proof.
  cbv zeta. unfold on_urc, heard_outcome. destruct (list_find _ _) as [[n [hd k]]|]; [|done].
  change (link (set_hal (run_handler k i) w)) with (link w). change (hal (set_hal (run_handler k i) w)) with (run_handler k i (hal w)).
  destruct k; cbn [run_handler].
  - split; [done|]. unfold OnCiprxgetUrc, set_pending, set_peer. by repeat case_match.
  - destruct (unsolicited_outcome (iv_command i) (hal w)) as (? & ? & ? & ?). by split_and!.
Qed.

Lemma used_slots (h h' : Air780eHal) i : slots_ h' = slots_ h → IsConnectionUsed h' i = IsConnectionUsed h i.
Proof. intros E. unfold IsConnectionUsed, slot. by rewrite E. Qed.

Lemma outcomes_todo hs id t1 i t2 o : o ∈ outcomes hs id (XHeard <$> t1 ++ i :: t2) ↔
  o ∈ outcomes hs id (XHeard <$> t1 ++ t2) ∨ heard_outcome hs i = Some (id, o).
Proof.
  unfold outcomes. setoid_rewrite list_elem_of_omap. setoid_rewrite list_elem_of_fmap. split.
  - intros (x & (j & -> & Hj) & E). rewrite elem_of_app, elem_of_cons in Hj.
    assert (j = i ∨ j ∈ t1 ++ t2) as [->|Hin] by (rewrite elem_of_app; naive_solver).
    + right. cbn in E. repeat case_match; try done. rewrite Z.eqb_eq in *. by simplify_eq.
    + left. exists (XHeard j). eauto.
  - intros [(x & (j & -> & Hj) & E)|E].
    + exists (XHeard j). split; [|done]. exists j. split; [done|]. apply elem_of_app in Hj. apply elem_of_app.
      rewrite elem_of_cons. naive_solver.
    + exists (XHeard i). split; [exists i; split; [done|]; apply elem_of_app; rewrite elem_of_cons; by auto|].
      cbn. by rewrite E, Z.eqb_refl.
Qed.

(** A call the handlers are given, wherever it stands. *)
Lemma on_urc_tracks l0 hs id ids ls t1 i t2 l w :
  tracks l0 hs id ids ls (t1 ++ i :: t2) l w → tracks l0 hs id ids ls (t1 ++ t2) l (on_urc w i).
Proof.
  intros []. destruct (on_urc_effect w i) as (F1 & F2 & F3 & F4 & F5). rewrite tk_handles0 in F5.
  setoid_rewrite outcomes_todo in tk_todo0. setoid_rewrite outcomes_todo in tk_open0.
  assert (open_wait_ (hal (on_urc w i)) = open_wait_ (hal w) ∧ (∀ o, heard_outcome hs i ≠ Some (id, o)) ∨
    ∃ o, heard_outcome hs i = Some (id, o) ∧ open_wait_ (hal (on_urc w i)) = MkOpenWait id o true) as Hi.
  { rewrite F5. destruct (heard_outcome hs i) as [[id' o]|]; cbn [after_outcome]; [|by left].
    rewrite tk_id0. destruct (Z.eqb_spec id id') as [->|Hne]; [right; by eauto|left; split; [done|]]. by intros o' [=]. }
  constructor; try (by rewrite ?F1, ?F2, ?F3).
  - unfold log in *. by rewrite F1.
  - by destruct Hi as [[-> _]|(o & _ & ->)].
  - auto.
  - destruct Hi as [[-> _]|(o & Ho & ->)]; [done|]. cbn. auto.
  - destruct Hi as [[-> Hno]|(o & _ & ->)]; [|done]. intros Hd o Ho. destruct (tk_open0 Hd o Ho) as [|Hin]; [done|by destruct (Hno o)].
  - intros j. rewrite (used_slots (hal w)) by done. apply tk_used0.
Qed.

Lemma urcs_tracks l0 hs id ids ls calls l w : tracks l0 hs id ids ls calls l w → tracks l0 hs id ids ls [] l (fold_left on_urc calls w).
Proof. revert w. induction calls as [|i calls IH]; intros w Hw; [done|]. by apply IH, (on_urc_tracks _ _ _ _ _ []). Qed.

Lemma urcs_tracks_after l0 hs id ids ls todo calls l w :
  tracks l0 hs id ids ls (todo ++ calls) l w → tracks l0 hs id ids ls todo l (fold_left on_urc calls w).
Proof.
  revert w. induction calls as [|i calls IH]; intros w Hw; [by rewrite app_nil_r in Hw|]. by apply IH, on_urc_tracks.
Qed.

(** The record grows by what is heard and what is not an answer to it. *)
Lemma log_tracks l0 hs id ids ls todo l w (calls : list invocation) tail lk :
  tracks l0 hs id ids ls todo l w → lk.2 = log w ++ (XHeard <$> calls) ++ tail → outcomes hs id tail = [] →
  tracks l0 hs id ids (ls ++ lines tail) (todo ++ calls) (l ++ (XHeard <$> calls) ++ tail) (set_link lk w).
Proof.
  intros [] Hlk Htail.
  assert (∀ o, o ∈ outcomes hs id (l ++ (XHeard <$> calls) ++ tail) ↔ o ∈ outcomes hs id l ∨ o ∈ outcomes hs id (XHeard <$> calls)) as Ho.
  { intros o. rewrite !outcomes_app, Htail, app_nil_r. apply elem_of_app. }
  constructor; try done.
  - change (log (set_link lk w)) with lk.2. by rewrite Hlk, tk_log0, <- !app_assoc.
  - by rewrite !lines_app, lines_heard, tk_lines0.
  - intros o. rewrite Ho, fmap_app, outcomes_app, elem_of_app. naive_solver.
  - intros Hd. rewrite Ho. left. auto.
  - intros Hd o. rewrite Ho, fmap_app, outcomes_app, elem_of_app. cbn in Hd. naive_solver.
Qed.
(** ** Waiting *)

Definition tracking (l0 : list exchange) (hs : list (Z * urc_handler)) (id : Z) (ids : Z → Prop)
    (ls : list (bytes * AtResult)) (todo : list invocation) w : Prop := ∃ l, tracks l0 hs id ids ls todo l w.

(** It looks at the HAL and the record only, and not at all of the HAL. *)
Lemma tracks_hal l0 hs id ids ls todo l w w' : tracks l0 hs id ids ls todo l w → link w' = link w →
  urc_handles_ (hal w') = urc_handles_ (hal w) → open_wait_ (hal w') = open_wait_ (hal w) →
  length (slots_ (hal w')) = length (slots_ (hal w)) →
  (∀ i, IsConnectionUsed (hal w') i = true → IsConnectionUsed (hal w) i = true) → tracks l0 hs id ids ls todo l w'.
Proof.
  intros [] E1 E2 E3 E4 Hu. constructor; rewrite ?E2, ?E3, ?E4; unfold log in *; rewrite ?E1; auto.
Qed.

Lemma tracks_same l0 hs id ids ls todo l w w' : tracks l0 hs id ids ls todo l w → same w w' → tracks l0 hs id ids ls todo l w'.
Proof. intros Hw [E1 E2]. by apply (tracks_hal _ _ _ _ _ _ _ w); rewrite ?E1. Qed.

Lemma used_emptied h id i : IsConnectionUsed (set_slot h id no_socket) i = true → IsConnectionUsed h i = true.
Proof.
  unfold IsConnectionUsed, slot, set_slot, set_entry, entry. cbn [slots_ set_slots]. rewrite !andb_true_iff. intros [Hi Hu].
  split; [done|]. revert Hu. rewrite !nth_lookup, list_lookup_insert. case_decide; by cbn.
Qed.

Lemma close_dispatch_same id w : same w (DispatchTcpClose call_close id w).
Proof.
  unfold DispatchTcpClose. destruct (end_routes w.1 id) as [h ks]. assert (same w (h, w.2)) as Hw by done.
  revert Hw. generalize (h, w.2). induction ks as [|k ks IH]; intros v [E1 E2]; [done|]. apply IH.
  destruct (still_close Hstill k id v) as [F1 F2]. split; congruence.
Qed.
Lemma data_dispatch_same id d w : same w (DispatchTcpData call_data id d w).
Proof.
  unfold DispatchTcpData. destruct (FindTcpRouteLocked _ _) as [r|]; [|done]. destruct (tr_on_data r); [by apply (still_data Hstill)|done].
Qed.
Lemma udp_dispatch_same id host port d w : same w (DispatchUdpData call_udp id host port d w).
Proof.
  unfold DispatchUdpData. destruct (FindUdpRouteLocked _ _) as [r|]; [|done]. destruct (ur_on_data r); [by apply (still_udp Hstill)|done].
Qed.

(** Emptying a slot, with the mode's reservation or not. *)
Lemma RetireSlot_effect id w : wp (RetireSlot id : act _) (λ r w', (∃ m, r = Ok m) ∧ link w' = link w ∧
  urc_handles_ (hal w') = urc_handles_ (hal w) ∧ open_wait_ (hal w') = open_wait_ (hal w) ∧
  length (slots_ (hal w')) = length (slots_ (hal w)) ∧
  (length (slots_ (hal w)) = Z.to_nat kMaxConnections → IsConnectionUsed (hal w') id = false) ∧
  ∀ i, IsConnectionUsed (hal w') i = true → IsConnectionUsed (hal w) i = true) w.
Proof.
  unfold wp, RetireSlot. destruct (in_pool id) eqn:Hid; cbn [negb].
  - destruct (used (slot (hal w) id)) eqn:Hu; cbn [negb fst snd].
    + split; [by eexists|]. split_and!; try done; unfold hal; cbn [fst snd].
      * unfold set_slot, set_entry. cbn. by rewrite length_insert.
      * intros Hl. unfold IsConnectionUsed. rewrite Hid. unfold slot, set_slot, set_entry, entry. cbn.
        rewrite nth_lookup, list_lookup_insert_eq; [done|]. unfold hal in Hl. rewrite Hl. unfold in_pool in Hid. lia.
      * intros i. rewrite (used_slots (set_slot w.2.1 id no_socket)) by done. apply used_emptied.
    + split; [by eexists|]. split_and!; try done. intros _. unfold IsConnectionUsed. by rewrite Hu, andb_false_r.
  - split; [by eexists|]. split_and!; try done. intros _. unfold IsConnectionUsed. by rewrite Hid.
Qed.

Lemma keeps_tracking_release l0 hs id ids ls todo i : keeps (tracking l0 hs id ids ls todo) (ReleaseConnectionId i : act _).
Proof.
  apply keeps_by_wp. intros w [l Hw]. unfold ReleaseConnectionId. apply wp_bind. eapply wp_mono; [apply RetireSlot_effect|].
  cbv beta. intros r w1 ((m & ->) & E1 & E2 & E3 & E4 & _ & Hu).
  assert (tracks l0 hs id ids ls todo l w1) as H1 by (by apply (tracks_hal _ _ _ _ _ _ _ w)).
  exists l. destruct m as [mode|]; [|done]. apply (tracks_hal _ _ _ _ _ _ _ w1); by destruct mode.
Qed.

Lemma keeps_tracking_command l0 hs id ids ls todo cmd timeout : keeps (tracking l0 hs id ids ls todo) (command cmd timeout : act _).
Proof.
  intros w [l Hw]. unfold command. cbn [at_command recorded_link]. destruct (at_command cmd timeout (link w).1) as [[l1 calls] x].
  exists (l ++ (XHeard <$> calls) ++ [XCommand cmd x]). cbn [fst]. apply urcs_tracks_after.
  rewrite <- (app_nil_r ls). by eapply (log_tracks _ _ _ _ _ _ _ _ calls [XCommand cmd x]).
Qed.

Lemma reader_tracking l0 hs id ids ls todo : reader_frame call_data call_close call_udp any_id (tracking l0 hs id ids ls todo).
Proof.
  split.
  - intros f w Hf [l Hw]. exists l. destruct (reader_update_kept _ f (hal w) Hf) as (E1 & _ & _ & _ & E2 & E3).
    apply (tracks_hal _ _ _ _ _ _ _ w); rewrite ?hal_of, ?E1; try done. intros i. by rewrite (used_slots (hal w)).
  - intros i. apply keeps_tracking_command.
  - intros i. apply keeps_tracking_release.
  - intros i d w [l Hw]. exists l. by eapply tracks_same, data_dispatch_same.
  - intros i w [l Hw]. exists l. by eapply tracks_same, close_dispatch_same.
  - intros i host port d w [l Hw]. exists l. by eapply tracks_same, udp_dispatch_same.
  - intros w _. apply any_ids.
Qed.
Local Abbreviation sleep := (sleep call_data call_close call_udp).
Local Abbreviation wait_for := (wait_for call_data call_close call_udp).

Definition spoken (hs : list happening) : list invocation := omap (λ h, match h with Line i => Some i | Reader => None end) hs.

Lemma heard_in_spoken hs : heard_in hs = XHeard <$> spoken hs.
Proof. induction hs as [|[i|] hs IH]; [done| |exact IH]. cbn. f_equal. exact IH. Qed.

Lemma keeps_tracking_sleep l0 hs id ids ls ms : keeps (tracking l0 hs id ids ls []) (sleep ms : act _).
Proof.
  intros w [l Hw]. unfold Air780eHal.sleep. cbn [pause recorded_link]. destruct (pause ms (link w).1) as [l1 xs]. cbn [fst].
  assert (tracking l0 hs id ids ls (spoken xs) (set_link (l1, (link w).2 ++ heard_in xs) w)) as Hw'.
  { exists (l ++ (XHeard <$> spoken xs) ++ []). rewrite <- (app_nil_r ls). eapply (log_tracks _ _ _ _ _ [] _ _ (spoken xs) []); [done| |done].
    cbn [snd]. by rewrite app_nil_r, heard_in_spoken. }
  revert Hw'. generalize (set_link (l1, (link w).2 ++ heard_in xs) w). clear w Hw l l1.
  induction xs as [|x xs IH]; intros w Hw; [done|]. cbn [fold_left]. apply IH. destruct x as [i|]; cbn [on_happening].
  - destruct Hw as [l Hw]. exists l. by apply (on_urc_tracks _ _ _ _ _ []).
  - destruct (rx_task_ _); [|done]. by eapply ReceiveTurn_frame; [apply reader_tracking|].
Qed.

Lemma wait_tracking l0 hs id ids ls ms pred w : tracking l0 hs id ids ls [] w →
  wp (wait_for ms pred : act _) (λ r w', r = Ok () ∧ tracking l0 hs id ids ls [] w') w.
Proof.
  intros Hw. pose proof (keeps_tracking_sleep l0 hs id ids ls ms w Hw) as Hs. unfold wp, Air780eHal.wait_for.
  destruct (pred w); [done|]. split; [|done]. unfold Air780eHal.sleep. by destruct (pause ms (link w)).
Qed.

Lemma line_out_tracking l0 hs id ids cmd w : tracking l0 hs id ids [] [] w →
  wp (line_out cmd : act _) (λ r w', ∃ a, r = Ok a ∧ tracking l0 hs id ids [(cmd, a)] [] w') w.
Proof.
  intros [l Hw]. unfold wp, line_out. cbn [at_line recorded_link]. destruct (at_line cmd (link w).1) as [[l1 calls] x].
  exists x. split; [done|]. exists (l ++ (XHeard <$> calls) ++ [XLine cmd x]). cbn [fst]. apply urcs_tracks.
  by eapply (log_tracks _ _ _ _ [] [] _ _ calls [XLine cmd x]).
Qed.

(** What [WaitForOpenResult] concludes from what was reported. *)
Inductive verdict (id : Z) (reported : list OpenOutcome) : Result unit → Prop :=
| verdict_connected : kConnected ∈ reported → verdict id reported (Ok ())
| verdict_refused : kFailed ∈ reported → verdict id reported (Err (refused id))
| verdict_held : kAlreadyConnectedOutcome ∈ reported → verdict id reported
    (Err (MkNetworkError kAlreadyConnected kAlreadyConnectedCode (lit "the module still holds connection " ++ to_string id)))
| verdict_unanswered : reported = [] → verdict id reported (Err (no_answer id)).

(** What an attempt leaves. *)
Record tried_one (l0 : list exchange) (hs : list (Z * urc_handler)) (ids : Z → Prop) (l : list exchange) w : Prop := {
  t1_log : log w = l0 ++ l;
  t1_handles : urc_handles_ (hal w) = hs;
  t1_slots : length (slots_ (hal w)) = Z.to_nat kMaxConnections;
  t1_used : ∀ i, IsConnectionUsed (hal w) i = true → ids i;
}.

Lemma WaitForOpenResult_verdict l0 hs id ids ls ms w : tracking l0 hs id ids ls [] w →
  wp (WaitForOpenResult call_data call_close call_udp id ms : act _) (λ r w', ∃ l, lines l = ls ∧
    tried_one l0 hs ids l w' ∧ verdict id (outcomes hs id l) r) w.
Proof.
  intros Hw. unfold WaitForOpenResult. apply wp_bind. eapply wp_mono; [by apply wait_tracking|]. cbv beta.
  intros r w1 (-> & l & []). unfold open_result. wp_run. set (w2 := set_hal _ w1).
  assert (tried_one l0 hs ids l w2) as H2.
  { constructor; [done..|]. intros i. rewrite (used_slots (hal w1)) by done. apply tk_used0. }
  destruct (ow_done _) eqn:Hd; cbn [negb].
  - specialize (tk_done0 eq_refl). destruct (ow_outcome _); cbn; exists l; (split_and!; [done..|by constructor]).
  - exists l. split_and!; [done..|]. apply verdict_unanswered. apply elem_of_nil_inv. intros o Ho.
    apply (tk_open0 eq_refl) in Ho. by apply not_elem_of_nil in Ho.
Qed.

(** ** The search *)

Lemma pick_slot_free i slots avoid id : pick_slot i slots avoid = Some id →
  i <= id ∧ avoid !! Z.to_nat (id - i) = Some false ∧ ∃ s, slots !! Z.to_nat (id - i) = Some s ∧ used s = false.
Proof.
  revert i avoid; induction slots as [|s slots IH]; intros i [|a avoid] E; try done. cbn in E.
  destruct (used s || a) eqn:Hua.
  - destruct (IH _ _ E) as (Hi & Ha & Hs). replace (Z.to_nat (id - i)) with (S (Z.to_nat (id - (i + 1)))) by lia.
    split; [lia|done].
  - apply orb_false_iff in Hua as [Hu ->]. simplify_eq. rewrite Z.sub_diag. split; [lia|]. split; [done|by exists s].
Qed.

Lemma pick_slot_none i slots avoid n s : pick_slot i slots avoid = None → length slots = length avoid →
  slots !! n = Some s → used s = true ∨ avoid !! n = Some true.
Proof.
  revert i avoid n; induction slots as [|t slots IH]; intros i [|a avoid] n E Hl Hs; try done. cbn in E.
  destruct (used t || a) eqn:Hua; [|done]. destruct n as [|n]; cbn in Hs |- *; [|by eapply IH; [| |]; eauto].
  simplify_eq. apply orb_true_iff in Hua as [Hu|Ha]; subst; auto.
Qed.

(** The [tried] of the code says what has been passed over. *)
Definition marks (tried : list bool) (passed : list Z) : Prop :=
  length tried = Z.to_nat kMaxConnections ∧ ∀ n, tried !! n = Some true ↔ (n < Z.to_nat kMaxConnections)%nat ∧ Z.of_nat n ∈ passed.

Lemma marks_new : marks (replicate (Z.to_nat kMaxConnections) false) [].
Proof. split; [done|]. intros n. rewrite lookup_replicate. split; [by intros [? _]|]. intros [_ Hn]. by apply not_elem_of_nil in Hn. Qed.

Lemma marks_more tried passed id : marks tried passed → 0 <= id < kMaxConnections → marks (set_entry tried id true) (id :: passed).
Proof.
  intros [Hl Hm] Hid. split; [by unfold set_entry; rewrite length_insert|]. intros n. unfold set_entry.
  rewrite elem_of_cons, list_lookup_insert. case_decide as Hn.
  - destruct Hn as [<- Hn]. rewrite Hl in Hn. split; [intros _; split; [lia|left; lia]|done].
  - rewrite Hm. split; [tauto|]. intros [Hlt [E|]]; [|tauto]. destruct Hn. rewrite Hl. lia.
Qed.

Lemma marks_free tried passed id : marks tried passed → 0 <= id → tried !! Z.to_nat id = Some false → id ∉ passed ∧ id < kMaxConnections.
Proof.
  intros [Hl Hm] Hid E. assert (Z.to_nat id < Z.to_nat kMaxConnections)%nat as Hlt by (rewrite <- Hl; by eapply lookup_lt_Some).
  split; [|lia]. intros Hin. assert (tried !! Z.to_nat id = Some true) by (apply Hm; split; [done|by rewrite Z2Nat.id]). congruence.
Qed.
Lemma AllocateConnectionId_fresh tried passed w : marks tried passed → length (slots_ (hal w)) = Z.to_nat kMaxConnections →
  wp (AllocateConnectionId tried : act _) (λ r w', link w' = link w ∧ urc_handles_ (hal w') = urc_handles_ (hal w) ∧
    length (slots_ (hal w')) = Z.to_nat kMaxConnections ∧
    (r = Ok (-1) ∧ w' = w ∧ (∀ i, 0 <= i < kMaxConnections → IsConnectionUsed (hal w) i = true ∨ i ∈ passed) ∨
     ∃ id, r = Ok id ∧ 0 <= id < kMaxConnections ∧ id ∉ passed ∧
       ∀ i, IsConnectionUsed (hal w') i = true → IsConnectionUsed (hal w) i = true ∨ i = id)) w.
Proof.
  intros Hm Hl. assert (length tried = Z.to_nat kMaxConnections) as Hlt by apply Hm.
  unfold wp, AllocateConnectionId. destruct (pick_slot _ _ _) as [id|] eqn:E; cbn [fst snd].
  - apply pick_slot_free in E as (Hid & Ha & _). rewrite Z.sub_0_r in Ha. destruct (marks_free _ _ _ Hm Hid Ha) as [Hno Hk].
    change (hal (DiscardUndelivered w.1 id, (take_slot (hal w) id, w.2.2))) with (take_slot (hal w) id).
    split_and!; try done. { unfold take_slot, set_entry. cbn [slots_ set_slots]. by rewrite length_insert. }
    right. exists id. split_and!; try done. intros i. unfold IsConnectionUsed, slot, take_slot, set_entry, entry. cbn [slots_ set_slots].
    rewrite !andb_true_iff. intros [Hi Hu]. destruct (decide (i = id)) as [|Hne]; [by right|left]. split; [done|].
    revert Hu. unfold in_pool in Hi. rewrite !nth_lookup, list_lookup_insert_ne by lia. done.
  - split_and!; try done. left. split_and!; try done. intros i Hi.
    destruct (slots_ (hal w) !! Z.to_nat i) as [s|] eqn:Hs; [|apply lookup_ge_None in Hs; lia].
    destruct (pick_slot_none _ _ _ (Z.to_nat i) s E) as [Hu|Hu]; [congruence|done| |].
    + left. unfold IsConnectionUsed, slot, entry. rewrite nth_lookup, Hs. cbn. rewrite Hu, andb_true_r. unfold in_pool. lia.
    + right. apply Hm in Hu as [_ Hin]. by rewrite Z2Nat.id in Hin by lia.
Qed.

(** The slot of a failed attempt goes back. *)
Lemma retired_one l0 hs id (free : Z → Prop) l w : tried_one l0 hs (λ i, free i ∨ i = id) l w →
  wp (RetireSlot id : act _) (λ r w', (∃ m, r = Ok m) ∧ tried_one l0 hs free l w') w.
Proof.
  intros []. eapply wp_mono; [apply RetireSlot_effect|]. cbv beta. intros r w1 (Hr & E1 & E2 & E3 & E4 & Hfree & Hu).
  split; [done|]. constructor; [unfold log in *; congruence|congruence|congruence|]. intros i Hi.
  destruct (t1_used0 i (Hu i Hi)) as [| ->]; [done|]. rewrite Hfree in Hi by done. done.
Qed.

Local Abbreviation open_loop := (open_loop call_data call_close call_udp).

(** What comes of the search from [w]. *)
Definition searched (hs : list (Z * urc_handler)) (ask : Z → bytes) (n : nat) (passed : list Z) (l0 : list exchange) (ids : Z → Prop)
    (r : Result Z) w : Prop :=
  ∃ l, tried_one l0 hs (λ i, ids i ∨ r = Ok i) l w ∧ search hs ask (IsConnectionUsed (hal w)) n passed l r.

(** An attempt that ends the search without a socket. *)
Lemma abandoned hs ask n passed l0 (ids : Z → Prop) l mode (e : NetworkError) w : tried_one l0 hs ids l w →
  search hs ask (IsConnectionUsed (hal w)) n passed l (Err e) →
  wp (modify (set_hal (ReleaseSocketForMode mode)) ;;; fail e : act Z) (searched hs ask n passed l0 ids) w.
Proof.
  intros [] Hs. wp_run. exists l. destruct mode; (split; [|exact Hs]; constructor; [done..|]; intros i Hi; left; by apply t1_used0).
Qed.

(** A slot changed, but not in whether it is in use. *)
Lemma used_kept h id s i : used s = used (slot h id) → IsConnectionUsed (set_slot h id s) i = IsConnectionUsed h i.
Proof.
  intros E. unfold IsConnectionUsed, slot, set_slot, set_entry, entry in *. cbn [slots_ set_slots]. f_equal.
  rewrite !nth_lookup in *. rewrite list_lookup_insert. case_decide as Hi; [|done]. destruct Hi as [<- _]. by rewrite <- E.
Qed.

Lemma armed hs id (ids : Z → Prop) type w : urc_handles_ (hal w) = hs → length (slots_ (hal w)) = Z.to_nat kMaxConnections →
  (∀ i, IsConnectionUsed (hal w) i = true → ids i) →
  tracking (log w) hs id ids [] [] (ArmOpenWait id (set_hal (λ h, let s := slot h id in
    set_slot h id (MkSocketSlot (used s) (bool_decide (type = lit "UDP")) (ssl s) (holds_mode s) (serial s))) w)).
Proof.
  intros Hhs Hlen Hu. exists []. constructor; try done.
  - symmetry. apply app_nil_r.
  - unfold ArmOpenWait. rewrite !hal_of. unfold set_slot, set_entry. cbn. by rewrite length_insert.
  - intros i. unfold ArmOpenWait. rewrite !hal_of.
    rewrite (used_slots (set_slot (hal w) id (MkSocketSlot (used (slot (hal w) id)) (bool_decide (type = lit "UDP"))
      (ssl (slot (hal w) id)) (holds_mode (slot (hal w) id)) (serial (slot (hal w) id))))) by done.
    rewrite used_kept by done. apply Hu.
Qed.

Lemma native_of_verdict id os e : verdict id os (Err e) → ne_native e =? kAlreadyConnectedCode = true →
  kAlreadyConnectedOutcome ∈ os.
Proof. intros Hv. by inversion Hv; subst. Qed.

Lemma open_loop_search hs type host port mode attempts tried passed w (ids : Z → Prop) : marks tried passed →
  tried_one (log w) hs ids [] w →
  wp (open_loop attempts tried type host port mode : act _)
    (searched hs (λ id, start_command id type host port) attempts passed (log w) ids) w.
Proof.
  revert tried passed w; induction attempts as [|k IH]; intros tried passed w Hm Hw; cbn [Air780eHal.open_loop].
  { by eapply abandoned; [|constructor]. }
  destruct Hw as [Elog Ehs Hlen Hused]. apply wp_bind. eapply wp_mono; [by apply (AllocateConnectionId_fresh _ passed)|]. cbv beta.
  intros r w1 (E1 & E2 & E3 & [(-> & -> & Hall)|(id & -> & Hid & Hno & Hu)]).
  { cbn [Z.ltb Z.compare]. eapply abandoned; [by constructor|]. constructor. exact Hall. }
  destruct (Z.ltb_spec id 0) as [|_]; [lia|]. apply wp_bind, wp_modify, wp_bind, wp_modify.
  set (ids' := λ i, ids i ∨ i = id). assert (log w1 = log w) as El by (unfold log; congruence).
  eapply wp_bind, wp_mono.
  { apply (line_out_tracking (log w) hs id ids'). rewrite <- El. apply armed; [congruence|done|].
    intros i Hi. destruct (Hu i Hi) as [Hi'| ->]; [left; by apply Hused|by right]. }
  cbv beta. intros r w2 ([[]|a] & -> & H2).
  2:{ destruct H2 as (l & []). apply wp_bind. eapply wp_mono; [by apply (retired_one (log w) hs id ids l)|]. cbv beta.
      intros r w3 ((m & ->) & H3). eapply abandoned; [exact H3|by apply (search_unsent _ _ _ k passed id)]. }
  apply wp_bind, wp_attempt. eapply wp_mono; [by apply WaitForOpenResult_verdict|]. cbv beta.
  intros r w3 (l & Hls & H3 & Hv). destruct r as [[]|e].
  - inversion Hv; subst. wp_run. exists l. destruct H3. split.
    + constructor; [done|done| |].
      * rewrite hal_of. unfold set_slot, set_entry. cbn. by rewrite length_insert.
      * intros i. rewrite hal_of, used_kept by done. intros Hi. by destruct (t1_used0 i Hi) as [| ->]; [left|right].
    + by apply search_connected.
  - destruct (_ =? _) eqn:Hn; apply wp_bind; (eapply wp_mono; [by apply (retired_one (log w) hs id ids l)|]); cbv beta;
      intros r w4 ((m & ->) & H4).
    + apply (native_of_verdict _ _ _ Hv) in Hn. destruct H4 as [Elog4 Ehs4 Hlen4 Hu4].
      eapply wp_mono; [apply (IH _ (id :: passed)); [by apply marks_more|constructor; try done; by rewrite app_nil_r]|].
      cbv beta. intros r w5 (l' & [] & Hs). exists (l ++ l').
      split; [|by apply (search_held _ _ _ k passed id)]. constructor; [|done..]. by rewrite t1_log0, Elog4, <- app_assoc.
    + eapply abandoned; [exact H4|]. inversion Hv; subst; [by apply search_refused|done|by apply search_unanswered].
Qed.
(** ** The switch *)

(** Nothing sent as a line since the record was [l0], no slot changed. *)
Definition quiet (l0 : list exchange) (hs : list (Z * urc_handler)) (slots : list SocketSlot) w : Prop :=
  ∃ l, log w = l0 ++ l ∧ lines l = [] ∧ urc_handles_ (hal w) = hs ∧ slots_ (hal w) = slots.

Lemma urcs_effect calls w : let w' := fold_left on_urc calls w in
  link w' = link w ∧ slots_ (hal w') = slots_ (hal w) ∧ urc_handles_ (hal w') = urc_handles_ (hal w).
Proof.
  revert w; induction calls as [|i calls IH]; intros w; [done|]. cbn [fold_left].
  destruct (IH (on_urc w i)) as (E1 & E2 & E3). destruct (on_urc_effect w i) as (F1 & F2 & F3 & _).
  split_and!; congruence.
Qed.

Lemma quiet_checked l0 hs slots cmd timeout : keeps (quiet l0 hs slots) (checked cmd timeout : act _).
Proof.
  apply keeps_bind.
  - intros w (l & E1 & E2 & E3 & E4). unfold command. cbn [at_command recorded_link].
    destruct (at_command cmd timeout (link w).1) as [[l1 calls] x]. cbn [fst].
    set (lk := (l1, (link w).2 ++ (XHeard <$> calls) ++ [XCommand cmd x])).
    destruct (urcs_effect calls (set_link lk w)) as (F1 & F2 & F3).
    exists (l ++ (XHeard <$> calls) ++ [XCommand cmd x]). split_and!; [|by rewrite !lines_app, E2, lines_heard|by rewrite F3|by rewrite F2].
    unfold log in *. rewrite F1. change (link (set_link lk w)) with lk. cbn [snd lk]. by rewrite E1, <- app_assoc.
  - intros [[]|e]; [apply keeps_ret|apply keeps_fail].
Qed.

Lemma quiet_ApplySslSwitch l0 hs slots enable : keeps (quiet l0 hs slots) (ApplySslSwitch enable : act _).
Proof.
  unfold ApplySslSwitch, with_channel. apply keeps_bind; [apply keeps_gets|]. intros set. apply keeps_if; [|apply keeps_fail].
  apply keeps_bind; [apply keeps_if; [apply quiet_checked|apply keeps_ret]|]. intros _.
  do 2 (apply keeps_bind; [apply quiet_checked|]; intros _).
  apply keeps_bind; [apply keeps_gets|]. intros ls. apply keeps_if; [apply keeps_ret|apply keeps_fail].
Qed.

Lemma quiet_ReserveSocketForMode l0 hs slots mode : keeps (quiet l0 hs slots) (ReserveSocketForMode mode : act _).
Proof.
  assert (keeps (quiet l0 hs slots) (modify (set_hal (take_mode mode)) : act unit)) as Htake.
  { apply keeps_modify. intros w Hw. by destruct mode. }
  apply keeps_bind; [apply keeps_gets|]. intros h. apply keeps_if; [apply keeps_fail|]. apply keeps_if; [done|].
  apply keeps_bind; [by apply keeps_modify|]. intros _. apply keeps_bind; [apply keeps_attempt, quiet_ApplySslSwitch|]. intros r.
  apply keeps_bind; [by apply keeps_modify|]. intros _. destruct r; [done|apply keeps_fail].
Qed.

(** The switch as the reservation throws it. *)
Definition throw_switch (mode : bool) w : Result () := (ApplySslSwitch mode (set_hal (λ h, set_switching h true) w)).2.

Lemma ReserveSocketForMode_error mode w e : (ReserveSocketForMode mode w).2 = Err e →
  0 < (if mode then plain_sockets_open_ (hal w) else ssl_sockets_open_ (hal w)) ∨
  (if mode then ssl_sockets_open_ (hal w) else plain_sockets_open_ (hal w)) <= 0 ∧ throw_switch mode w = Err e.
Proof.
  unfold ReserveSocketForMode, bind, gets, attempt, modify, throw_switch. intros E. revert E.
  destruct (Z.ltb_spec 0 (if mode then plain_sockets_open_ (hal w) else ssl_sockets_open_ (hal w))); [by left|].
  destruct (Z.ltb_spec 0 (if mode then ssl_sockets_open_ (hal w) else plain_sockets_open_ (hal w))); [done|].
  intros E. right. split; [done|]. revert E. destruct (ApplySslSwitch mode _) as [w1 [[]|e1]]; cbn; congruence.
Qed.

Lemma ReserveSocketForMode_taken (mode : bool) w : 0 < (if mode then plain_sockets_open_ (hal w) else ssl_sockets_open_ (hal w)) →
  (ReserveSocketForMode mode : act _) w = (w, Err (mode_taken mode)).
Proof. intros Hopp. unfold ReserveSocketForMode, bind, gets. apply Z.ltb_lt in Hopp. by rewrite Hopp. Qed.

(** What a call of [TcpConnect] from [w] comes to. *)
Inductive connect_verdict (host : bytes) (port : Z) (mode : bool) (config : TlsConfig) w w' : list exchange → Result Z → Prop :=
| connect_unfulfillable ctx :
    UnfulfillableTlsOption config ≠ [] → w' = w →
    connect_verdict host port mode config w w' [] (Err (MkNetworkError kNotSupported 0 ctx))
| connect_mode_taken :
    UnfulfillableTlsOption config = [] → w' = w →
    0 < (if mode then plain_sockets_open_ (hal w) else ssl_sockets_open_ (hal w)) →
    connect_verdict host port mode config w w' [] (Err (mode_taken mode))
| connect_switch_refused l e :
    UnfulfillableTlsOption config = [] →
    (if mode then ssl_sockets_open_ (hal w) else plain_sockets_open_ (hal w)) <= 0 → throw_switch mode w = Err e → lines l = [] →
    connect_verdict host port mode config w w' l (Err e)
| connect_searched l1 l2 r :
    UnfulfillableTlsOption config = [] →
    (if mode then plain_sockets_open_ (hal w) else ssl_sockets_open_ (hal w)) <= 0 → lines l1 = [] →
    search (urc_handles_ (hal w)) (λ id, start_command id (lit "TCP") host port) (IsConnectionUsed (hal w'))
      (Z.to_nat kMaxConnections) [] l2 r →
    connect_verdict host port mode config w w' (l1 ++ l2) r.

(** The call and its verdict, for the property below and for the layers above. *)
Lemma TcpConnect_said host port mode config w : channel_ (hal w) = true →
  length (slots_ (hal w)) = Z.to_nat kMaxConnections →
  wp (TcpConnect call_data call_close call_udp host port mode config : act _) (λ r w',
    (∀ id, IsConnectionUsed (hal w') id = true → IsConnectionUsed (hal w) id = true ∨ r = Ok id) ∧
    ∃ l, log w' = log w ++ l ∧ connect_verdict host port mode config w w' l r) w.
Proof.
  intros Hch Hlen. unfold TcpConnect, with_channel. wp_run. rewrite Hch. cbv zeta.
  case_decide as Ho. { wp_run. split; [by left|]. exists []. rewrite app_nil_r. split; [done|]. by constructor. }
  unfold OpenSocket. apply wp_bind.
  assert (quiet (log w) (urc_handles_ (hal w)) (slots_ (hal w)) w) as Hq by (exists []; by rewrite app_nil_r).
  apply (quiet_ReserveSocketForMode _ _ _ mode) in Hq.
  destruct (Z.ltb_spec 0 (if mode then plain_sockets_open_ (hal w) else ssl_sockets_open_ (hal w))) as [Hopp|Hopp].
  { unfold wp at 1. rewrite ReserveSocketForMode_taken by done.
    split; [by left|]. exists []. rewrite app_nil_r. split; [done|]. by constructor. }
  unfold wp at 1. destruct (ReserveSocketForMode mode w) as [w1 [[]|e]] eqn:Er; cbn [fst snd] in *;
    destruct Hq as (l1 & E1 & E2 & E3 & E4).
  - eapply wp_mono. { apply (open_loop_search (urc_handles_ (hal w)) _ _ _ _ _ _ [] _ (λ i, IsConnectionUsed (hal w1) i = true));
      [apply marks_new|constructor; [by rewrite app_nil_r|done|congruence|done]]. }
    cbv beta. intros r w2 (l2 & [] & Hs). split.
    + intros i Hi. rewrite <- (used_slots _ _ i E4). by apply t1_used0.
    + exists (l1 ++ l2). split; [by rewrite t1_log0, E1, <- app_assoc|]. by constructor.
  - destruct (ReserveSocketForMode_error mode w e) as [|[Hsame Ht]]; [by rewrite Er|lia|].
    split; [intros i; rewrite (used_slots _ _ i E4); by left|]. exists l1. split; [done|]. by constructor.
Qed.

(** C13: What [TcpConnect] of the AIR780E answers is what the module said.  Whatever the
    link delivers and however its reports interleave with the reader's turns, the call
    ends in one of these: an option this firmware cannot honour, or open sockets of the
    other mode, and nothing has been sent; the mode switch refused, with the switch's
    error and no socket asked for; or a search over free ids, none asked for twice, in
    which an id is returned only after the module reported CONNECT OK for it, refused
    only after CONNECT FAIL, passed over only after ALREADY CONNECT, timed out only if
    nothing was reported for it, and the pool is called full only when every id is in
    use or was passed over.  A socket that was not in use before is in use after only
    if it is the one returned. *)
Theorem TcpConnect_verdict host port mode config w : channel_ (hal w) = true →
  length (slots_ (hal w)) = Z.to_nat kMaxConnections →
  wp (TcpConnect call_data call_close call_udp host port mode config : act _) (λ r w',
    (∀ id, IsConnectionUsed (hal w') id = true → IsConnectionUsed (hal w) id = true ∨ r = Ok id) ∧
    ∃ l, log w' = log w ++ l ∧ connect_verdict host port mode config w w' l r) w.
Proof. apply TcpConnect_said. Qed.
End Open.

Lemma notes_still : still_callbacks note_data note_close note_udp.
Proof. by constructor. Qed.

(** A module that holds a socket of its own, then refuses the next. *)
Definition held_answers : list (option (Z * Z) * list bytes) :=
  [ok_after []; ok_after []; ok_after [lit "+CIPSSL: 1"]; reports ["0, ALREADY CONNECT"]; reports ["1, CONNECT FAIL"]].

Lemma TcpConnect_verdict_witness :
  let w := sample_air780e held_answers [] in
  let '(w', r) := TcpConnect note_data note_close note_udp (lit "a.example") 443 true default_tls w in
  r = Err (refused 1) ∧
  (∀ id, IsConnectionUsed (hal w') id = true → IsConnectionUsed (hal w) id = true ∨ r = Ok id) ∧
  ∃ l, log w' = log w ++ l ∧ connect_verdict (lit "a.example") 443 true default_tls w w' l r.
Proof.
  cbv zeta. destruct (TcpConnect _ _ _ _ _ _ _ _) as [w' r] eqn:E. split.
  - change r with (w', r).2. rewrite <- E. by_vm.
  - refine (wp_elim _ _ _ _ _ (TcpConnect_verdict note_data note_close note_udp notes_still (lit "a.example") 443 true default_tls
      (sample_air780e held_answers []) _ _) E); by_vm.
Defined.
