(* ===== verification/Air780eTypes.v ===== *)
(** The state of the AIR780E's HAL stays well formed: nothing is written outside a
    per-connection array, whatever ids the module names; every counter keeps its sign,
    every number its width, and every connection id kept is one of the pool or none. *)
From stdpp Require Import base decidable list strings gmap.
From Stdlib Require Import ZArith Ascii Lia.
From S2P Require Import Prelude Errors CommonTypes StateResult AtParser UrcDispatcher HalRoutes ModemLink Air780eHal.
From S2P Require Import Air780eFrame Air780eModes.

(** * Specification *)

Definition pool_size : nat := Z.to_nat kMaxConnections.
Definition is_u32 (v : Z) : Prop := 0 <= v < 2 ^ 32.
Definition is_int (v : Z) : Prop := INT_MIN <= v <= INT_MAX.
Definition pool_or_none (id : Z) : Prop := id = -1 ∨ 0 <= id < kMaxConnections.

Record well_formed (h : Air780eHal) : Prop := {
  wf_in_bounds : overrun_ h = false;
  wf_slots : length (slots_ h) = pool_size ∧ Forall (λ s, is_u32 (serial s)) (slots_ h);
  wf_next : is_u32 (next_serial_ h);
  wf_sends : length (send_wait_ h) = pool_size ∧ Forall (λ s, 0 <= sw_pending s) (send_wait_ h);
  wf_peers : length (rx_peer_ h) = pool_size;
  wf_pending : length (rx_pending_ h) = pool_size;
  wf_closes : length (rx_close_serial_ h) = pool_size ∧ Forall is_u32 (rx_close_serial_ h);
  wf_counts : 0 <= ssl_sockets_open_ h ∧ 0 <= plain_sockets_open_ h;
  wf_waits : pool_or_none (ow_id (open_wait_ h)) ∧ pool_or_none (close_pending_id_ h);
  wf_signal : is_int (rssi (last_signal_ h)) ∧ is_int (ber (last_signal_ h));
}.

(** * Lemmas *)

Lemma new_air780e_well_formed start : well_formed (new_air780e start).
Proof.
  assert (is_u32 0) by (unfold is_u32; lia). constructor; try done; try (split; [done|]); try by apply Forall_replicate.
  all: unfold is_u32, is_int, pool_or_none, INT_MIN, INT_MAX; cbn; lia.
Qed.

Lemma u32_is_u32 v : is_u32 (u32 v).
Proof. unfold is_u32, u32. apply Z.mod_pos_bound. lia. Qed.

Lemma in_pool_id id : in_pool id = true → pool_or_none id.
Proof. unfold in_pool, pool_or_none. lia. Qed.

Lemma length_set_entry {A} (l : list A) id v : length (set_entry l id v) = length l.
Proof. apply length_insert. Qed.
Lemma Forall_set_entry {A} (P : A → Prop) l id v : Forall P l → P v → Forall P (set_entry l id v).
Proof. intros. by apply Forall_insert. Qed.
Lemma Forall_entry {A} (P : A → Prop) l id d : Forall P l → P d → P (entry l id d).
Proof. intros Hl Hd. unfold entry. rewrite nth_lookup. destruct (l !! Z.to_nat id) eqn:E; [|done]. by eapply Forall_lookup_1. Qed.

(** The updates of the code, one field at a time. *)
Section Updates.
Context (h : Air780eHal) (Hh : well_formed h).

Lemma wf_same h' : overrun_ h' = overrun_ h → slots_ h' = slots_ h → next_serial_ h' = next_serial_ h → send_wait_ h' = send_wait_ h → rx_peer_ h' = rx_peer_ h →
  rx_pending_ h' = rx_pending_ h → rx_close_serial_ h' = rx_close_serial_ h → ssl_sockets_open_ h' = ssl_sockets_open_ h →
  plain_sockets_open_ h' = plain_sockets_open_ h → open_wait_ h' = open_wait_ h → close_pending_id_ h' = close_pending_id_ h →
  last_signal_ h' = last_signal_ h → well_formed h'.
Proof. destruct Hh. by constructor; congruence || (repeat match goal with E : _ = _ h |- _ => rewrite E; clear E end). Qed.

Lemma touch_in id : in_pool id = true → overrun_ (touch id h) = false.
Proof. intros Hid. destruct Hh as [E]. cbn. by rewrite E, Hid. Qed.

Lemma wf_set_slot id s : in_pool id = true → is_u32 (serial s) → well_formed (set_slot h id s).
Proof.
  intros Hid Hs. pose proof (touch_in id Hid). destruct Hh as [? []]. constructor; try done. cbn. rewrite length_set_entry. split; [done|by apply Forall_set_entry].
Qed.
Lemma wf_serial id : is_u32 (serial (slot h id)).
Proof. destruct Hh as [? []]. apply (Forall_entry (λ s, is_u32 (serial s))); [done|]. unfold is_u32. cbn. lia. Qed.
Lemma wf_take_slot id : in_pool id = true → well_formed (take_slot h id).
Proof.
  intros Hid. pose proof (touch_in id Hid). destruct Hh as [? []]. constructor; try done; [|apply u32_is_u32]. cbn. rewrite length_set_entry. split; [done|by apply Forall_set_entry].
Qed.
Lemma wf_set_send id s : in_pool id = true → 0 <= sw_pending s → well_formed (set_send h id s).
Proof.
  intros Hid Hs. pose proof (touch_in id Hid). destruct Hh as [? ? ? []]. constructor; try done. cbn. rewrite length_set_entry. split; [done|by apply Forall_set_entry].
Qed.
Lemma wf_send id : 0 <= sw_pending (send_wait h id).
Proof. destruct Hh as [? ? ? []]. by apply (Forall_entry (λ s, 0 <= sw_pending s)). Qed.
Lemma wf_set_pending id b : in_pool id = true → well_formed (set_pending h id b).
Proof. intros Hid. pose proof (touch_in id Hid). destruct Hh. constructor; try done. cbn. by rewrite length_set_entry. Qed.
Lemma wf_set_peer id p : in_pool id = true → well_formed (set_peer h id p).
Proof. intros Hid. pose proof (touch_in id Hid). destruct Hh. constructor; try done. cbn. by rewrite length_set_entry. Qed.
Lemma wf_set_close_serial id s : in_pool id = true → is_u32 s → well_formed (set_close_serial h id s).
Proof.
  intros Hid Hs. pose proof (touch_in id Hid). destruct Hh as [? ? ? ? ? ? []]. constructor; try done. cbn. rewrite length_set_entry. split; [done|by apply Forall_set_entry].
Qed.
Lemma wf_set_open_wait id o b : pool_or_none id → well_formed (set_open_wait h (MkOpenWait id o b)).
Proof. intros Hid. destruct Hh as [? ? ? ? ? ? ? ? []]. by constructor. Qed.
Lemma wf_set_events a b id : pool_or_none id → well_formed (set_events h a b id).
Proof. intros Hid. destruct Hh as [? ? ? ? ? ? ? ? []]. by constructor. Qed.
Lemma wf_set_signal a b : is_int a → is_int b → well_formed (set_signal h (MkSignalInfo a b)).
Proof. intros. destruct Hh. by constructor. Qed.
Lemma wf_release mode : well_formed (ReleaseSocketForMode mode h).
Proof. destruct Hh as [? ? ? ? ? ? ? []]. destruct mode; constructor; try done; cbn; split; try done; case_match; lia. Qed.
Lemma wf_take_mode mode : well_formed (take_mode mode h).
Proof. destruct Hh as [? ? ? ? ? ? ? []]. destruct mode; constructor; try done; cbn; split; lia. Qed.
Lemma wf_none_pending b : well_formed (set_rx h (rx_peer_ h) ((λ _, b) <$> rx_pending_ h) (rx_close_serial_ h)).
Proof. destruct Hh. constructor; try done. cbn. by rewrite length_fmap. Qed.
End Updates.

Lemma zero_is_u32 : is_u32 0.
Proof. unfold is_u32. lia. Qed.
Lemma none_in_pool : pool_or_none (-1).
Proof. by left. Qed.

Create HintDb air780e.
#[export] Hint Resolve wf_set_slot wf_serial wf_take_slot wf_set_send wf_send wf_set_pending wf_set_peer wf_set_close_serial
  wf_set_open_wait wf_set_events wf_set_signal wf_release wf_take_mode wf_none_pending zero_is_u32 none_in_pool in_pool_id u32_is_u32 : air780e.

Lemma wf_peer_closed id h : well_formed h → well_formed (NotePeerClosed id h).
Proof.
  intros Hh. unfold NotePeerClosed. cbv zeta. destruct (in_pool id) eqn:Hid; cbn [andb]; [|done].
  destruct (used _); case_match; auto with air780e.
Qed.

Lemma wf_waits_id h : well_formed h → pool_or_none (close_pending_id_ h).
Proof. intros []. tauto. Qed.

Lemma wf_ciprxget args h : well_formed h → well_formed (OnCiprxgetUrc args h).
Proof.
  intros Hh. unfold OnCiprxgetUrc. cbv zeta. case_match; [done|]. destruct (ParseInt _) as [kind|]; [|done].
  destruct (ParseInt _) as [id|]; [|done]. destruct (in_pool id) eqn:Hid; [|by rewrite orb_true_r].
  repeat case_match; auto with air780e.
Qed.

Lemma wf_unsolicited line h : well_formed h → well_formed (OnUnsolicitedLine line h).
Proof.
  intros Hh. pose proof (wf_waits_id h Hh) as Hp. unfold OnUnsolicitedLine. case_decide; [done|]. case_decide; [by auto with air780e|].
  destruct (find_byte "," line) as [comma|]; [|done]. destruct (ParseInt _) as [id|]; [|done].
  destruct (in_pool id) eqn:Hid; cbn [negb]; [|done]. set (what := Trim _).
  assert (∀ o, well_formed (RecordOpenResult id o h)) as Ho.
  { intros o. unfold RecordOpenResult. destruct (negb _); auto with air780e. }
  pose proof (wf_send h Hh id). repeat case_match; auto using wf_peer_closed with air780e.
  all: apply wf_set_send; [done..|]; cbn; lia.
Qed.

Lemma wf_handler k i h : well_formed h → well_formed (run_handler k i h).
Proof. destruct k; [apply wf_ciprxget|apply wf_unsolicited]. Qed.

Section Types.
Context {K U W : Type} `{IModemLink W}.
Local Abbreviation world := (IModuleHal K * (Air780eHal * (W * U)))%type.
Context (call_data : K → Z → bytes → world → world) (call_close : K → Z → world → world).
Context (call_udp : K → Z → bytes → Z → bytes → world → world).
Local Abbreviation act := (op world NetworkError).
Implicit Types w : world.

Definition typed w : Prop := well_formed (hal w).

(** A client's callback may use the HAL, through its operations. *)
Record typed_callbacks : Prop := {
  typed_data : ∀ k cid d w, typed w → typed (call_data k cid d w);
  typed_close : ∀ k cid w, typed w → typed (call_close k cid w);
  typed_udp : ∀ k cid host port d w, typed w → typed (call_udp k cid host port d w);
}.
Context (Hcalls : typed_callbacks).

Lemma keeps_typed f : (∀ h, well_formed h → well_formed (f h)) → keeps typed (modify (set_hal f) : act unit).
Proof. intros Hf. apply keeps_modify. intros w. apply Hf. Qed.

Lemma typed_urcs calls w : typed w → typed (fold_left on_urc calls w).
Proof.
  revert w; induction calls as [|i calls IH]; intros w Hw; [done|]. apply IH. unfold on_urc.
  destruct (list_find _ _) as [[n [hd k]]|]; [|done]. by apply wf_handler.
Qed.

Lemma typed_command cmd timeout : keeps typed (command cmd timeout : act _).
Proof. intros w Hw. unfold command. destruct (at_command _ _ _) as [[l calls] r]. by apply typed_urcs. Qed.
Lemma typed_line_out cmd : keeps typed (line_out cmd : act _).
Proof. intros w Hw. unfold line_out. destruct (at_line _ _) as [[l calls] r]. by apply typed_urcs. Qed.
Lemma typed_data_out cmd data timeout : keeps typed (data_out cmd data timeout : act _).
Proof. intros w Hw. unfold data_out. destruct (at_data _ _ _ _) as [[l calls] r]. by apply typed_urcs. Qed.

Lemma typed_RetireSlot id : keeps typed (RetireSlot id : act _).
Proof.
  intros w Hw. unfold RetireSlot. destruct (in_pool id) eqn:Hid; [|done]. destruct (used _); [|done]. cbn [negb fst].
  apply wf_set_send; [|done..]. apply wf_set_peer; [|done]. apply wf_set_close_serial; [|done|apply zero_is_u32].
  apply wf_set_pending; [|done]. apply wf_set_slot; [exact Hw|done|apply zero_is_u32].
Qed.

Lemma pick_slot_range i slots avoid id : pick_slot i slots avoid = Some id → i <= id < i + Z.of_nat (length slots).
Proof.
  revert i avoid; induction slots as [|s slots IH]; intros i [|a avoid] E; try done. cbn in E. cbn [length].
  destruct (used s || a); [apply IH in E|simplify_eq]; lia.
Qed.

Lemma in_pool_of id : pool_or_none id → 0 <= id → in_pool id = true.
Proof. unfold pool_or_none, in_pool. lia. Qed.

Lemma picked_in_pool h avoid id : well_formed h → pick_slot 0 (slots_ h) avoid = Some id → in_pool id = true.
Proof.
  intros Hh E%pick_slot_range. destruct (wf_slots h Hh) as [Hl _]. rewrite Hl in E.
  unfold pool_size, in_pool, kMaxConnections in *. lia.
Qed.

Lemma typed_AllocateConnectionId avoid : keeps typed (AllocateConnectionId avoid : act _).
Proof.
  intros w Hw. unfold AllocateConnectionId. destruct (pick_slot _ _ _) eqn:E; [|done].
  apply wf_take_slot; [done|by eapply picked_in_pool].
Qed.

Lemma typed_slot f id : in_pool id = true → (∀ s, serial (f s) = serial s) → keeps typed (modify (set_hal (λ h, set_slot h id (f (slot h id)))) : act unit).
Proof. intros Hid Hf. apply keeps_typed. intros h Hh. apply wf_set_slot; [done..|]. rewrite Hf. by apply wf_serial. Qed.

Lemma typed_pending_cleared : keeps typed (take_pending : act _).
Proof. intros w Hw. by apply wf_none_pending. Qed.

Lemma typed_release mode : keeps typed (modify (set_hal (ReleaseSocketForMode mode)) : act unit).
Proof. apply keeps_typed. intros h Hh. by apply wf_release. Qed.
Lemma typed_take_mode mode : keeps typed (modify (set_hal (take_mode mode)) : act unit).
Proof. apply keeps_typed. intros h Hh. by apply wf_take_mode. Qed.

(** Runs down an operation; what changes the HAL is left, or is a lemma. *)
Ltac keeps_run :=
  repeat first
    [ apply keeps_ret | apply keeps_fail | apply keeps_gets | apply typed_command | apply typed_line_out | apply typed_data_out
    | apply typed_RetireSlot | apply typed_AllocateConnectionId | apply typed_pending_cleared | apply typed_release
    | apply typed_take_mode | assumption
    | apply keeps_attempt | apply keeps_bind; [|intros ?] | apply keeps_if
    | apply keeps_typed; solve [intros; by auto with air780e | intros; by apply (wf_same _ ltac:(eassumption))]
    | progress cbv zeta | case_match ].

Lemma typed_checked cmd timeout : keeps typed (checked cmd timeout : act _).
Proof. unfold checked. keeps_run. Qed.
Lemma typed_ReleaseConnectionId id : keeps typed (ReleaseConnectionId id : act _).
Proof. unfold ReleaseConnectionId. keeps_run. Qed.
Lemma typed_reading cmd : keeps typed (ReadSingleLineResponse cmd : act _).
Proof. unfold ReadSingleLineResponse, checked. keeps_run. Qed.

(** ** Receiving and waiting *)

Local Abbreviation sleep := (sleep call_data call_close call_udp).
Local Abbreviation wait_for := (wait_for call_data call_close call_udp).

Lemma wf_reader_update f h : reader_update (λ id, in_pool id = true) f → well_formed h → well_formed (f h).
Proof. intros [] Hh; auto with air780e. Qed.

Lemma pending_in_pool h : well_formed h → Forall (λ id, in_pool id = true) (pending_ids h).
Proof.
  intros Hh. apply Forall_forall. intros id Hid. apply list_elem_of_omap in Hid as ([n b] & Hn & E).
  apply list_elem_of_lookup in Hn as [i Hn]. rewrite list_lookup_imap in Hn.
  destruct (rx_pending_ h !! i) as [p|] eqn:Hp; [|done]. cbn in Hn. injection Hn as <- <-. destruct p; [|done].
  injection E as <-. apply lookup_lt_Some in Hp. rewrite (wf_pending h Hh) in Hp.
  unfold pool_size, in_pool, kMaxConnections in *. lia.
Qed.

Lemma reader_typed : reader_frame call_data call_close call_udp (λ id, in_pool id = true) typed.
Proof.
  split.
  - intros f w Hf. by apply wf_reader_update.
  - intros id. apply typed_command.
  - intros id. apply typed_ReleaseConnectionId.
  - intros id d w Hw. unfold DispatchTcpData. destruct (FindTcpRouteLocked _ _) as [r|]; [|done].
    destruct (tr_on_data r); [by apply (typed_data Hcalls)|done].
  - intros id w Hw. unfold DispatchTcpClose. destruct (end_routes w.1 id) as [h ks].
    assert (typed (h, w.2)) as Hv by done. revert Hv. generalize (h, w.2).
    induction ks as [|k ks IH]; intros v Hv; [done|]. by apply IH, (typed_close Hcalls).
  - intros id host port d w Hw. unfold DispatchUdpData. destruct (FindUdpRouteLocked _ _) as [r|]; [|done].
    destruct (ur_on_data r); [by apply (typed_udp Hcalls)|done].
  - intros w Hw. by apply pending_in_pool.
Qed.

Lemma typed_sleep ms : keeps typed (sleep ms : act _).
Proof. apply (sleep_frame_of _ _ _ _ _ reader_typed); [intros i w; apply (typed_urcs [i])|done]. Qed.

Lemma typed_wait ms pred : keeps typed (wait_for ms pred : act _).
Proof. intros w Hw. unfold Air780eHal.wait_for. destruct (pred w); [done|by apply typed_sleep]. Qed.

Ltac keeps_op :=
  repeat first [ progress keeps_run | apply typed_wait | apply typed_sleep | apply typed_reading | apply typed_ReleaseConnectionId ].

(** ** Sending, closing and opening *)

Lemma typed_SendPayload id data : keeps typed (SendPayload call_data call_close call_udp id data : act _).
Proof.
  unfold SendPayload, with_channel, send_begin, send_finish. destruct (in_pool id) eqn:Hid; cbn [negb]; [|keeps_op].
  keeps_op; apply keeps_typed; intros h Hh.
  - apply wf_set_send; [done..|]. pose proof (wf_send h Hh id). cbn. lia.
  - cbv zeta. destruct (Z.ltb_spec 0 (sw_pending (send_wait h id))); [|done]. apply wf_set_send; [done..|]. cbn. lia.
  - by apply wf_set_send.
Qed.

Lemma typed_CloseConnection id : keeps typed (CloseConnection call_data call_close call_udp id : act _).
Proof.
  unfold CloseConnection, with_channel. destruct (in_pool id) eqn:Hid; cbn [negb]; [|keeps_op]. apply in_pool_id in Hid. keeps_op.
Qed.

Lemma typed_ApplySslSwitch enable : keeps typed (ApplySslSwitch enable : act _).
Proof. unfold ApplySslSwitch, with_channel, checked. keeps_op. Qed.

Lemma wf_set_switching h b : well_formed h → well_formed (set_switching h b).
Proof. intros Hh. by apply (wf_same h). Qed.
Hint Resolve wf_set_switching : air780e.

Lemma typed_ReserveSocketForMode mode : keeps typed (ReserveSocketForMode mode : act _).
Proof. unfold ReserveSocketForMode. repeat first [progress keeps_op | apply typed_ApplySslSwitch]. Qed.

(** An operation whose result is of [R]. *)
Lemma keeps_bind_of {A B} (R : A → Prop) (m : act A) (k : A → act B) :
  (∀ w, typed w → typed (m w).1 ∧ ∀ a, (m w).2 = Ok a → R a) → (∀ a, R a → keeps typed (k a)) → keeps typed (bind m k).
Proof.
  intros Hm Hk w Hw. destruct (Hm w Hw) as [H1 H2]. unfold bind. destruct (m w) as [w1 [x|e]]; [|done]. apply Hk; [|done]. by apply H2.
Qed.

Lemma AllocateConnectionId_typed avoid w : typed w → typed (AllocateConnectionId avoid w : world * Result Z).1 ∧
  ∀ id, (AllocateConnectionId avoid w).2 = Ok id → pool_or_none id.
Proof.
  intros Hw. split; [by apply typed_AllocateConnectionId|]. intros id. unfold AllocateConnectionId.
  destruct (pick_slot _ _ _) as [i|] eqn:E; cbn; intros [=<-]; [|by left].
  by eapply in_pool_id, picked_in_pool.
Qed.

Lemma typed_open_loop attempts tried type host port mode : keeps typed (open_loop call_data call_close call_udp attempts tried type host port mode : act _).
Proof.
  revert tried; induction attempts as [|k IH]; intros tried; cbn [Air780eHal.open_loop]; [keeps_op|].
  apply (keeps_bind_of pool_or_none); [apply AllocateConnectionId_typed|]. intros id Hpool.
  destruct (Z.ltb_spec id 0) as [|Hid]; [keeps_op|]. apply (in_pool_of id Hpool) in Hid.
  unfold WaitForOpenResult, open_result, ArmOpenWait.
  repeat first [progress keeps_op | apply IH].
  - apply (typed_slot (λ s, MkSocketSlot (used s) (bool_decide (type = lit "UDP")) (ssl s) (holds_mode s) (serial s)) id); done.
  - apply keeps_typed. intros h Hh. by apply wf_set_open_wait, none_in_pool.
  - apply (typed_slot (λ s, MkSocketSlot (used s) (udp s) mode true (serial s)) id); done.
Qed.

Lemma typed_OpenSocket type host port mode : keeps typed (OpenSocket call_data call_close call_udp type host port mode : act _).
Proof. apply keeps_bind; [apply typed_ReserveSocketForMode|]. intros _. apply typed_open_loop. Qed.

(** ** The operations of the HAL *)

Lemma typed_step {A} name (m : act A) : keeps typed m → keeps typed (step name m).
Proof. intros Hm. unfold step. keeps_run. Qed.

Lemma typed_ActivatePdp : keeps typed (ActivatePdp : act _).
Proof. unfold ActivatePdp, with_channel, checked. keeps_op. Qed.

Lemma int_or_99 (s : bytes) : is_int (default 99 (ParseInt s)).
Proof. unfold is_int. destruct (ParseInt s) as [v|] eqn:E; [by apply ParseInt_range in E|]. unfold INT_MIN, INT_MAX. cbn. lia. Qed.

Lemma typed_GetSignalInfo : keeps typed (GetSignalInfo : act _).
Proof.
  unfold GetSignalInfo. keeps_op. apply keeps_typed. intros h Hh. apply wf_set_signal; [done|apply int_or_99..].
Qed.

Lemma typed_guarded (m : act bytes) w : keeps typed m → typed w → typed (match through_channel m w with Some (w', _) => w' | None => w end).
Proof. intros Hm Hw. unfold through_channel. destruct (channel_ _); [|done]. specialize (Hm w Hw). by destruct (m w). Qed.

Lemma typed_TcpConnect host port mode config : keeps typed (TcpConnect call_data call_close call_udp host port mode config : act _).
Proof. apply keeps_bind; [keeps_run|]. intros set. apply keeps_if; [|keeps_run]. cbv zeta. case_decide; [keeps_run|apply typed_OpenSocket]. Qed.
Lemma typed_UdpOpen host port : keeps typed (UdpOpen call_data call_close call_udp host port : act _).
Proof. apply keeps_bind; [keeps_run|]. intros set. apply keeps_if; [apply typed_OpenSocket|keeps_run]. Qed.
Lemma typed_GetSimState : keeps typed (GetSimState : act _).
Proof. unfold GetSimState. keeps_op. Qed.
Lemma typed_GetRegistrationState : keeps typed (GetRegistrationState : act _).
Proof. unfold GetRegistrationState. keeps_op. Qed.
Lemma typed_query_value cmd : keeps typed (query_value cmd : act _).
Proof. unfold query_value. keeps_op. Qed.
Lemma typed_guarded_checked cmd timeout : keeps typed (with_channel (checked cmd timeout) : act _).
Proof. unfold with_channel, checked. keeps_op. Qed.
Lemma typed_GetCarrier w : typed w → typed (match GetCarrier w with Some (w', _) => w' | None => w end).
Proof. intros Hw. apply typed_guarded; [|done]. keeps_op. Qed.

Lemma typed_ConfigureApn config : keeps typed (ConfigureApn config : act _).
Proof.
  unfold ConfigureApn, with_channel, checked.
  repeat first [progress keeps_op | apply typed_step | apply typed_ActivatePdp].
Qed.

Lemma typed_Initialize : keeps typed (Initialize call_data call_close call_udp : act _).
Proof.
  unfold Initialize, checked. apply keeps_bind.
  { apply keeps_typed. intros h Hh. by apply (wf_same h). }
  intros _. apply keeps_bind.
  { intros w Hw. unfold RegisterUrcHandlers. cbn [modify fst]. destruct (negb _); [done|].
    unfold subscribe. repeat destruct (at_subscribe _ _). by apply (wf_same (hal w)). }
  intros _. repeat first [progress keeps_op | apply typed_ApplySslSwitch]; apply keeps_typed; intros h Hh.
  apply (wf_same (set_rx h (rx_peer_ h) ((λ _, false) <$> rx_pending_ h) (rx_close_serial_ h))); try done. by apply wf_none_pending.
Qed.
End Types.

Section Reachable.
Context {K U W0 : Type} `{IModemLink W0}.
Local Abbreviation world := (IModuleHal K * (Air780eHal * ((W0 * list exchange) * U)))%type.
Context (call_data : K → Z → bytes → world → world) (call_close : K → Z → world → world).
Context (call_udp : K → Z → bytes → Z → bytes → world → world).
Context (Hcalls : typed_callbacks call_data call_close call_udp).
Implicit Types w : world.

Lemma run_call_typed c w : typed w → typed (run_call call_data call_close call_udp c w).
Proof.
  intros Hw. destruct c; cbn [run_call]; try (apply typed_guarded; [apply typed_query_value|done]);
    [by apply typed_TcpConnect|by apply typed_CloseConnection|by apply typed_SendPayload|by apply typed_UdpOpen
    |by apply typed_CloseConnection|by apply typed_SendPayload|by apply typed_GetSimState|by apply typed_GetRegistrationState
    |by apply typed_GetSignalInfo|by apply typed_GetCarrier|by apply typed_ConfigureApn|by apply typed_ActivatePdp
    |by apply typed_guarded_checked..|by apply typed_sleep].
Qed.

(** Everything that can be done to a HAL, initializing it included. *)
Inductive hal_use := UseInitialize | UseCall (c : hal_call).
Definition use w (u : hal_use) : world :=
  match u with
  | UseInitialize => (Initialize call_data call_close call_udp w).1
  | UseCall c => run_call call_data call_close call_udp c w
  end.

End Reachable.

Lemma notes_typed : typed_callbacks note_data note_close note_udp.
Proof. by constructor. Qed.

(** A module that names ids it has not, in each of the events it reports. *)
Definition stray_answers : list (option (Z * Z) * list bytes) :=
  [ok_after []; ok_after []; ok_after [lit "+CIPSSL: 1"];
   reports ["+CIPRXGET: 1,7"; "+CIPRXGET: 1,-1"; "6, CLOSED"; "9, SEND FAIL"; "0, CONNECT OK"]].

