(* ===== verification/Air780eDrain.v ===== *)
(** What a client of the AIR780E hears of its socket: the bytes the module held, in
    order, and the peer's close after the last of them.

    The first half is about one pass of the reader, for any client whose callbacks add
    to a list of its own and leave the HAL and the link alone; the second about a
    client that notes what it hears. *)
From stdpp Require Import base decidable list strings gmap.
From Stdlib Require Import ZArith Ascii Lia.
From S2P Require Import Prelude Errors CommonTypes StateResult AtParser UrcDispatcher HalRoutes HalStreams SocketHal.
From S2P Require Import ModemLink Air780eHal.

(** * Specification: the module's receive buffers *)

Definition read_command (id : Z) : bytes := snprintf_ 48 (lit "AT+CIPRXGET=3," ++ to_string id ++ lit "," ++ to_string kReadChunk).

(** What the module answers a read of [chunk], with [left] bytes to come. *)
Definition read_header (id : Z) (n left : Z) : bytes :=
  lit "+CIPRXGET: " ++ render_csv [Plain (lit "3"); Plain (to_string id); Plain (to_string n); Plain (to_string left)].
Definition read_answer (id : Z) (chunk : bytes) (left : nat) : list bytes :=
  read_header id (Z.of_nat (length chunk)) (Z.of_nat left) :: (if decide (chunk = []) then [] else [EncodeHex chunk]).

Definition read_size : nat := Z.to_nat kReadChunk.

(** A module that keeps what arrived for each connection until it is read: a read
    takes up to [kReadChunk] bytes from the front and leaves the others alone. *)
Definition keeps_buffers {W : Type} `{IModemLink W} (held : W → Z → bytes) : Prop :=
  ∀ id l l' calls r, in_pool id = true → at_command (read_command id) kDefaultTimeout l = (l', calls, r) →
    r = Ok () ∧ at_lines l' = read_answer id (take read_size (held l id)) (length (held l id) - read_size) ∧
    held l' id = drop read_size (held l id) ∧
    ∀ j, in_pool j = true → j ≠ id → held l' j = held l j.

(** * Lemmas: the answer to a read *)

Lemma digits_trimmed n : Trim (to_string n) = to_string n.
Proof. destruct (minus_or_digits n). by apply trim_by_none. Qed.

Lemma header_fields id n left : 0 <= left →
  SplitCsv (StripKeyPrefix (read_header id n left)) = [lit "3"; to_string id; to_string n; to_string left].
Proof.
  intros Hleft. assert (field_ok (Plain (lit "3"))) as H3 by by apply (bool_decide_unpack _).
  set (fs := [Plain (lit "3"); Plain (to_string id); Plain (to_string n); Plain (to_string left)]).
  change (read_header id n left) with (lit "+CIPRXGET" ++ ":"%char :: " "%char :: render_csv fs).
  unfold StripKeyPrefix. rewrite find_byte_app by (by apply (bool_decide_unpack _)).
  rewrite drop_app_ge by lia. replace (_ + 1 - _)%nat with 1%nat by lia. cbn [drop].
  assert (trim_by isblank (" "%char :: render_csv fs) = render_csv fs) as ->.
  { change (" "%char :: render_csv fs) with ([" "%char] ++ render_csv fs). rewrite trim_by_app_l by by repeat constructor.
    apply trim_by_none; [by intros c [= <-]|]. intros c Hl. destruct (minus_or_digits left) as [_ Hb]. apply Hb.
    assert (render_csv fs = (lit "3," ++ to_string id ++ COMMA :: to_string n ++ [COMMA]) ++ to_string left) as E.
    { unfold fs. cbn [render_csv render_field]. repeat (rewrite <- ?app_assoc; cbn [app]). done. }
    rewrite E, last_app in Hl. destruct (last (to_string left)) eqn:El; [congruence|].
    apply last_None in El. by destruct (to_string_nonneg left) as (Hne & _). }
  rewrite SplitCsv_render; [done|done|].
  repeat (apply Forall_cons_2 || apply Forall_nil_2); [done|apply plain_ok, number_plain..].
Qed.

Lemma answer_read id chunk left : in_pool id = true → (length chunk <= read_size)%nat → (Z.of_nat left <= INT_MAX) →
  find_header id (read_answer id chunk left) =
  Some (Z.of_nat (length chunk), if decide (chunk = []) then [] else EncodeHex chunk, []).
Proof.
  intros [H1%Z.leb_le H2%Z.ltb_lt]%andb_prop Hlen Hleft. unfold kMaxConnections, read_size, kReadChunk in *. unfold read_answer.
  cbn [find_header]. rewrite header_fields by lia. cbn [length Nat.ltb Nat.leb field nth].
  change (Trim (lit "3")) with (to_string 3). rewrite !digits_trimmed, !ParseInt_to_string by (unfold INT_MIN, INT_MAX in *; lia).
  rewrite !Z.eqb_refl. cbn [negb orb]. by destruct (decide (chunk = [])).
Qed.

(** * A client that takes note of what it hears *)

Section Reads.
Context {W U N : Type} `{IModemLink W}.
Local Abbreviation world := (hal_world Air780eHal W U).
Implicit Types w : world.
Context (cl : closures world) (note_of : U → list N) (k : nat) (ev_data : Z → bytes → N) (ev_close : Z → N).

(** What the client has heard. *)
Definition noted w : list N := note_of w.2.2.2.

(** Its callbacks, subscribed as [k]. *)
Record noting : Prop := {
  nt_data : ∀ cid d w, ∃ u, cl_data cl k cid d w = (w.1, (w.2.1, (w.2.2.1, u))) ∧ note_of u = noted w ++ [ev_data cid d];
  nt_close : ∀ cid w, ∃ h u, cl_close cl k cid w = (h, (w.2.1, (w.2.2.1, u))) ∧ note_of u = noted w ++ [ev_close cid];
}.
Context (Hnoting : noting).

Local Abbreviation act := (op world NetworkError).
Local Abbreviation drain_loop := (drain_loop (cl_data cl) (cl_close cl) (cl_udp cl)).
Local Abbreviation DrainOneCid := (DrainOneCid (cl_data cl) (cl_close cl) (cl_udp cl)).
Local Abbreviation FinishClosedCid := (FinishClosedCid (cl_close cl)).

Lemma data_routed cid handle d w : routed w.1 cid handle k →
  ∃ u, DispatchTcpData (cl_data cl) cid d w = (w.1, (w.2.1, (w.2.2.1, u))) ∧ note_of u = noted w ++ [ev_data cid d].
Proof.
  intros [E Hu]. unfold DispatchTcpData, FindTcpRouteLocked. rewrite (routes_of_one w.1 cid handle _ E eq_refl Hu).
  cbn. apply (nt_data Hnoting).
Qed.

Lemma close_routed cid handle w : routed w.1 cid handle k →
  ∃ h u, DispatchTcpClose (cl_close cl) cid w = (h, (w.2.1, (w.2.2.1, u))) ∧ note_of u = noted w ++ [ev_close cid].
Proof.
  intros [E Hu]. unfold DispatchTcpClose, end_routes. rewrite (routes_of_one w.1 cid handle _ E eq_refl Hu).
  cbn. match goal with |- context [cl_close cl k cid ?v] => exact (nt_close Hnoting cid v) end.
Qed.

(** What the module says meanwhile does not touch the sockets; it may note that
    the peer of one closed. *)
Record quiet id w w' : Prop := {
  qt_routes : w'.1 = w.1;
  qt_link : link w' = link w;
  qt_noted : noted w' = noted w;
  qt_slots : slots_ (hal w') = slots_ (hal w);
  qt_closed : OwnsSerial (hal w) id (entry (rx_close_serial_ (hal w)) id 0) = true →
              OwnsSerial (hal w') id (entry (rx_close_serial_ (hal w')) id 0) = true;
}.

Lemma quiet_refl id w : quiet id w w.
Proof. by constructor. Qed.
Lemma quiet_trans id w w1 w2 : quiet id w w1 → quiet id w1 w2 → quiet id w w2.
Proof. intros [] []. constructor; try congruence. auto. Qed.

Lemma entry_same {A} (l : list A) id v d : entry (set_entry l id v) id d = v ∨ set_entry l id v = l ∧ entry l id d = d.
Proof.
  unfold entry, set_entry. destruct (decide (Z.to_nat id < length l)%nat).
  - left. by erewrite nth_lookup_Some by (by apply list_lookup_insert_eq).
  - right. split; [apply list_insert_ge; lia|]. apply nth_overflow. lia.
Qed.
Lemma entry_other {A} (l : list A) i j v d : Z.to_nat i ≠ Z.to_nat j → entry (set_entry l i v) j d = entry l j d.
Proof. intros Hne. unfold entry, set_entry. by rewrite !nth_lookup, list_lookup_insert_ne. Qed.

Lemma peer_close_noted id i (h : Air780eHal) :
  OwnsSerial h id (entry (rx_close_serial_ h) id 0) = true →
  OwnsSerial (NotePeerClosed i h) id (entry (rx_close_serial_ (NotePeerClosed i h)) id 0) = true.
Proof.
  intros Ho. unfold NotePeerClosed. destruct (in_pool i && used (slot h i)) eqn:Hi; [|done].
  destruct (Z.eqb_spec (serial (slot h i)) 0); [done|]. apply andb_prop in Hi as [Hp Hused].
  change (OwnsSerial (set_pending (set_close_serial h i ?s) i true) id) with (OwnsSerial h id).
  cbn [set_pending set_close_serial set_rx rx_close_serial_].
  destruct (decide (Z.to_nat i = Z.to_nat id)) as [E|Hne]; [|by rewrite entry_other].
  assert (i = id) as ->.
  { unfold OwnsSerial in Ho. do 3 apply andb_prop in Ho as [Ho _]. unfold in_pool in *.
    apply andb_prop in Hp as [?%Z.leb_le _], Ho as [?%Z.leb_le _]. lia. }
  destruct (entry_same (rx_close_serial_ h) id (serial (slot h id)) 0) as [->|[-> _]]; [|done].
  unfold OwnsSerial. rewrite Hp, Hused, Z.eqb_refl. by rewrite (proj2 (Z.eqb_neq _ 0)).
Qed.

Lemma on_urc_quiet id w i : quiet id w (on_urc w i).
Proof.
  unfold on_urc. destruct (list_find _ _) as [[n [hd f]]|]; [|apply quiet_refl].
  constructor; try done.
  - change (slots_ (run_handler f i (hal w)) = slots_ (hal w)). destruct f; cbn [run_handler];
      unfold OnCiprxgetUrc, OnUnsolicitedLine, RecordOpenResult, NotePeerClosed; repeat case_match; done.
  - change (hal (set_hal (run_handler f i) w)) with (run_handler f i (hal w)). intros Ho.
    destruct f; cbn [run_handler]; unfold OnCiprxgetUrc, OnUnsolicitedLine, RecordOpenResult;
      repeat case_match; try done; by apply peer_close_noted.
Qed.

Lemma urcs_quiet id calls w : quiet id w (fold_left on_urc calls w).
Proof.
  revert w; induction calls as [|i calls IH]; intros w; [apply quiet_refl|]. eapply quiet_trans; [apply on_urc_quiet|apply IH].
Qed.

(** ** One read, and the end of a socket *)

Lemma EncodeHex_nonempty d : d ≠ [] → ParseHex (EncodeHex d) = d ∧ EncodeHex d ≠ [].
Proof.
  intros Hd. pose proof (ParseHex_EncodeHex d) as E. split; [done|]. intros E'. rewrite E' in E. by destruct d.
Qed.

Context (held : W → Z → bytes) (Hheld : keeps_buffers held).

(** The module says nothing of its own accord. *)
Definition silent : Prop := ∀ cmd timeout l, (at_command cmd timeout l).1.2 = [].

Lemma read_spec id w : in_pool id = true → Z.of_nat (length (held (link w) id)) <= INT_MAX →
  wp (command (read_command id) kDefaultTimeout : act _) (λ r w', r = Ok (Ok ()) ∧
    (∃ l, quiet id (set_link l w) w') ∧
    find_header id (at_lines (link w')) =
      (let chunk := take read_size (held (link w) id) in
       Some (Z.of_nat (length chunk), if decide (chunk = []) then [] else EncodeHex chunk, [])) ∧
    held (link w') id = drop read_size (held (link w) id) ∧ (silent → ∃ l, w' = set_link l w)) w.
Proof.
  intros Hid Hlen. apply wp_intro. intros w' r E. unfold command in E.
  destruct (at_command (read_command id) kDefaultTimeout (link w)) as [[l calls] a] eqn:Ea.
  destruct (Hheld id _ _ _ _ Hid Ea) as (-> & El & Eh & _). injection E as <- <-.
  pose proof (urcs_quiet id calls (set_link l w)) as Hq. split; [done|]. split; [by exists l|].
  rewrite (qt_link _ _ _ Hq). change (link (set_link l w)) with l. rewrite El, Eh. split; [|split; [done|]].
  - rewrite answer_read; [done|done|rewrite length_take; lia|lia].
  - intros Hs. specialize (Hs (read_command id) kDefaultTimeout (link w)). rewrite Ea in Hs. cbn in Hs. rewrite Hs. by exists l.
Qed.

Definition serial_noted w id : bool := OwnsSerial (hal w) id (entry (rx_close_serial_ (hal w)) id 0).

Lemma slot_slots (h h' : Air780eHal) id : slots_ h = slots_ h' → slot h id = slot h' id.
Proof. unfold slot. by intros ->. Qed.
Lemma OwnsSerial_slots (h h' : Air780eHal) id s : slots_ h = slots_ h' → OwnsSerial h id s = OwnsSerial h' id s.
Proof. intros E. unfold OwnsSerial. by rewrite (slot_slots h h'). Qed.
Lemma slots_released mode h : slots_ (ReleaseSocketForMode mode h) = slots_ h.
Proof. by destruct mode. Qed.

(** A socket in use is retired. *)
Lemma release_spec id w : in_pool id = true → used (slot (hal w) id) = true →
  wp (ReleaseConnectionId id : act _) (λ r w', r = Ok () ∧ w'.1 = DiscardUndelivered w.1 id ∧ noted w' = noted w ∧ link w' = link w ∧
    slots_ (hal w') = set_entry (slots_ (hal w)) id no_socket) w.
Proof.
  intros Hid Hu. apply wp_intro. intros w' r E. unfold ReleaseConnectionId, RetireSlot, bind in E.
  rewrite Hid in E. cbn [negb] in E. rewrite Hu in E. cbn [negb] in E.
  match type of E with ?f ?v = _ => set (w2 := v) in E end.
  assert (slots_ (hal w2) = set_entry (slots_ (hal w)) id no_socket) as E4 by reflexivity.
  assert (noted w2 = noted w ∧ link w2 = link w ∧ w2.1 = DiscardUndelivered w.1 id) as (E2 & E3 & E1) by done. clearbody w2.
  destruct (holds_mode _); [|by injection E as <- <-]. injection E as <- <-.
  split_and!; [done..|]. change (slots_ (ReleaseSocketForMode (ssl (slot (hal w) id)) (hal w2)) = set_entry (slots_ (hal w)) id no_socket).
  by rewrite slots_released.
Qed.

Lemma finish_spec id handle w : routed w.1 id handle k → IsConnectionUsed (hal w) id = true →
  wp (FinishClosedCid id : act _) (λ r w', r = Ok () ∧ link w' = link w ∧
    noted w' = noted w ++ (if serial_noted w id then [ev_close id] else []) ∧
    IsConnectionUsed (hal w') id = negb (serial_noted w id)) w.
Proof.
  intros Hr Hused. unfold Air780eHal.FinishClosedCid. wp_run. unfold serial_noted.
  set (s := entry (rx_close_serial_ (hal w)) id 0). set (w1 := set_hal _ w).
  assert (slots_ (hal w1) = slots_ (hal w) ∧ noted w1 = noted w ∧ link w1 = link w ∧ w1.1 = w.1) as (E1 & E2 & E3 & E4) by done.
  clearbody w1. assert (IsConnectionUsed (hal w1) id = true) as Hused1.
  { unfold IsConnectionUsed. rewrite (slot_slots _ (hal w)) by done. exact Hused. }
  destruct (Z.eqb_spec s 0) as [->|Hs].
  { replace (OwnsSerial (hal w) id 0) with false by (unfold OwnsSerial; by rewrite andb_false_r).
    wp_run. by rewrite E2, app_nil_r. }
  wp_run. rewrite (OwnsSerial_slots _ (hal w)) by done.
  destruct (OwnsSerial (hal w) id s); cbn [negb]; wp_run; [|by rewrite E2, app_nil_r].
  assert (in_pool id = true ∧ used (slot (hal w1) id) = true) as [Hid Hu] by by apply andb_prop.
  eapply wp_mono; [by apply release_spec|]. intros r w3 (-> & R1 & R2 & R3 & R4).
  assert (routed w3.1 id handle k) as Hr3 by (by rewrite R1, E4).
  wp_run. destruct (close_routed id handle w3 Hr3) as (h & u & Eh & Eu). rewrite Eh. cbn. split; [done|]. split; [by transitivity (link w3); [|congruence]|].
  unfold noted in Eu, R2, E2 |- *. cbn. rewrite Eu, R2, E2. split; [done|]. unfold IsConnectionUsed, slot. unfold hal in R4. rewrite R4, Hid.
  unfold hal. by destruct (entry_same (slots_ w1.2.1) id no_socket no_socket) as [->|[-> ->]].
Qed.

(** ** A pass *)

(** What a pass that started with [w] comes to, [before] bytes already taken. *)
Definition passed id (before : nat) w (r : Result bool) w' : Prop :=
  ∃ ps closed, concat ps ++ held (link w') id = held (link w) id ∧ Forall (λ p, p ≠ []) ps ∧
    noted w' = noted w ++ (ev_data id <$> ps) ++ (if closed : bool then [ev_close id] else []) ∧
    IsConnectionUsed (hal w') id = negb closed ∧
    ((r = Ok true ∧ closed = false ∧ (kMaxDrainPerWake <= before + length (concat ps))%nat) ∨
     (r = Ok false ∧ held (link w') id = [] ∧ (serial_noted w id = true → closed = true) ∧
       (silent → closed = true → serial_noted w id = true))).

Record passing id handle w : Prop := {
  pg_routed : routed w.1 id handle k;
  pg_used : IsConnectionUsed (hal w) id = true;
  pg_tcp : udp (slot (hal w) id) = false;
  pg_length : Z.of_nat (length (held (link w) id)) <= INT_MAX;
}.

Lemma passed_more id before p w v r w' : p ≠ [] → p ++ held (link v) id = held (link w) id →
  noted v = noted w ++ [ev_data id p] → (serial_noted w id = true → serial_noted v id = true) →
  (silent → serial_noted v id = serial_noted w id) → passed id (before + length p) v r w' → passed id before w r w'.
Proof.
  intros Hp Hh Hn Hs Hq (ps & closed & E1 & HF & E2 & E3 & Hr). exists (p :: ps), closed. split_and!.
  - cbn [concat]. rewrite <- Hh, <- E1. by rewrite app_assoc.
  - by constructor.
  - rewrite E2, Hn, <- app_assoc. done.
  - done.
  - destruct Hr as [(-> & -> & Hl)|(-> & Hl & Hc & Hc')]; [left|right]; split_and!; auto.
    + cbn [concat]. rewrite length_app. lia.
    + intros Hsil. rewrite <- (Hq Hsil). auto.
Qed.

Lemma passed_stop drained id handle w : passing id handle w → (kMaxDrainPerWake <= drained)%nat →
  passed id drained w (Ok true) w.
Proof.
  intros [] Hd. exists [], false. split_and!; [done|constructor|by rewrite !app_nil_r|done|]. left. split_and!; [done..|].
  cbn. lia.
Qed.

Lemma drain_loop_passed fuel drained id handle w : passing id handle w → (kMaxDrainPerWake <= drained + fuel)%nat →
  wp (drain_loop fuel id drained : act _) (passed id drained w) w.
Proof.
  revert drained w; induction fuel as [|n IH]; intros drained w Hw Hf; cbn [Air780eHal.drain_loop].
  { apply wp_ret. eapply passed_stop; [done|lia]. }
  destruct (Nat.leb_spec kMaxDrainPerWake drained); [by eapply wp_ret, passed_stop|].
  destruct Hw as [Hr Hused Htcp Hlen]. wp_run. rewrite Hused. cbn [negb]. wp_run. rewrite Htcp.
  assert (in_pool id = true) as Hid by by apply andb_prop in Hused as [].
  eapply wp_mono; [by apply read_spec|]. intros r v (-> & (l & Hq) & Eh & Ed & Hsil). wp_run. rewrite Eh. cbv zeta beta iota.
  set (chunk := take read_size (held (link w) id)) in *.
  assert (routed v.1 id handle k) as Hrv by (by rewrite (qt_routes _ _ _ Hq)).
  assert (IsConnectionUsed (hal v) id = true ∧ udp (slot (hal v) id) = false) as [Huv Htv].
  { unfold IsConnectionUsed, slot in *. by rewrite (qt_slots _ _ _ Hq). }
  assert (noted v = noted w) as Hnv by (by rewrite (qt_noted _ _ _ Hq)).
  assert (serial_noted w id = true → serial_noted v id = true) as Hsv by apply (qt_closed _ _ _ Hq).
  assert (silent → serial_noted v id = serial_noted w id) as Hsilv by (intros Hs; by destruct (Hsil Hs) as [? ->]).
  assert (chunk ++ held (link v) id = held (link w) id) as Hcut by (rewrite Ed; apply take_drop).
  destruct (decide (chunk = [])) as [Ec|Ec].
  - assert (held (link w) id = []) as Hempty.
    { subst chunk. destruct (held (link w) id); [done|]. by unfold read_size, kReadChunk in Ec. }
    rewrite Ec. cbn [length]. change (Z.of_nat 0 <=? 0) with true. wp_run. eapply wp_mono; [by eapply finish_spec|].
    intros r v' (-> & El & En & Eu). wp_run. exists [], (serial_noted v id). rewrite El, Ed, Hempty. split_and!; try done.
    + by rewrite En, Hnv.
    + right. split_and!; [done..|]. intros Hs <-. by rewrite (Hsilv Hs).
  - rewrite (proj2 (Z.leb_gt _ 0)) by (destruct chunk; [done|cbn; lia]).
    destruct (EncodeHex_nonempty chunk Ec) as [-> _]. rewrite decide_False by done. wp_run.
    destruct (data_routed id handle chunk v Hrv) as (u & -> & Eu). set (v1 := (v.1, _)).
    eapply wp_mono; [apply IH|].
    + constructor; [done|done|done|]. change (link v1) with (link v). rewrite Ed, length_drop. lia.
    + destruct chunk; [done|]. cbn [length]. lia.
    + intros r w'. apply passed_more; [done|exact Hcut|by unfold v1, noted in *; cbn; rewrite Eu, Hnv|exact Hsv|exact Hsilv].
Qed.

(** One pass over an open socket. *)
Lemma DrainOneCid_passed id handle w : channel_ (hal w) = true → passing id handle w → wp (DrainOneCid id : act _) (passed id 0 w) w.
Proof.
  intros Hch Hw. unfold Air780eHal.DrainOneCid. wp_run. rewrite Hch. cbn [negb]. by eapply drain_loop_passed.
Qed.
End Reads.

(** * Clients that take note of what they hear *)

Section Drain.
Context {W : Type} `{IModemLink W}.
Local Abbreviation world := (IModuleHal nat * (Air780eHal * (W * list notice)))%type.
Implicit Types w : world.

Definition hear (f : recording → recording) w : world :=
  let v := f (w.1, w.2.2.2) in (v.1, (w.2.1, (w.2.2.1, v.2))).

Definition hear_data (k : nat) (cid : Z) (d : bytes) : world → world := hear (on_data_noted k cid d).
Definition hear_close (k : nat) (cid : Z) : world → world := hear (on_close_noted k cid).
Definition hear_udp (k : nat) (cid : Z) (host : bytes) (port : Z) (d : bytes) : world → world := hear (on_data_noted k cid d).
Definition hearing : closures world := MkClosures hear_data hear_close hear_udp.

Lemma hearing_notes k : noting hearing Datatypes.id k (NData k) (NClose k).
Proof. split; intros; [by eexists|by do 2 eexists]. Qed.

Local Abbreviation DrainOneCid := (DrainOneCid hear_data hear_close hear_udp).

Context (held : W → Z → bytes) (Hheld : keeps_buffers held).

(** A pass over the socket of client [k], which notes what it hears. *)
Definition pass_heard (id : Z) (k : nat) : nat → world → Result bool → world → Prop :=
  passed Datatypes.id (NData k) (NClose k) held id.
Definition pass_ready (id handle : Z) (k : nat) : world → Prop := passing k held id handle.

(** C9: a socket's close comes after its last byte. Let the module keep what
    arrived until it is read, whatever it reports meanwhile. One pass of the reader
    over an open TCP socket hands its client what the module held, in order and
    without gaps. Either the pass reached its budget of 8 KiB, with the socket
    still open and the rest still at the module, or nothing is left at the module,
    and then, if the peer was noted to have closed this socket, the client is told
    after those bytes and the connection id is free; a module that reports nothing
    meanwhile makes no socket end whose close was not noted. *)
Theorem drained_in_order id handle k w w' r :
  channel_ (hal w) = true → pass_ready id handle k w → DrainOneCid id w = (w', r) → pass_heard id k 0 w r w'.
Proof.
  intros Hch Hw E. refine (wp_elim (DrainOneCid id) (pass_heard id k 0 w) w w' r _ E).
  by apply (DrainOneCid_passed hearing Datatypes.id k _ _ (hearing_notes k) held Hheld id handle).
Qed.
End Drain.

(** * A module that keeps buffers *)

Definition buffers : Type := list bytes * list bytes.
Definition pool_ids : list Z := [0; 1; 2; 3; 4; 5].
Definition buffer (s : buffers) (id : Z) : bytes := entry s.1 id [].

#[export] Instance buffering_module : IModemLink buffers := {|
  at_command cmd timeout s :=
    match list_find (λ id, cmd = read_command id) pool_ids with
    | Some (_, id) =>
        let d := buffer s id in
        ((set_entry s.1 id (drop read_size d), read_answer id (take read_size d) (length d - read_size)), [], Ok ())
    | None => ((s.1, []), [], Ok ())
    end;
  at_line cmd s := (s, [], Ok ());
  at_data cmd data timeout s := (s, [], Ok ());
  at_lines s := s.2;
  at_subscribe prefix s := (s, 1);
  at_unsubscribe handle s := s;
  pause timeout s := (s, []);
  steady_now s := 0;
|}.

Lemma buffering_keeps : keeps_buffers buffer.
Proof.
  intros id s s' calls r Hid E. cbn [at_command buffering_module] in E.
  assert (∃ n, list_find (λ j, read_command id = read_command j) pool_ids = Some (n, id)) as [n Hn].
  { unfold in_pool, kMaxConnections in Hid. apply andb_prop in Hid as [?%Z.leb_le ?%Z.ltb_lt].
    assert (id = 0 ∨ id = 1 ∨ id = 2 ∨ id = 3 ∨ id = 4 ∨ id = 5) as Hids by lia.
    repeat destruct Hids as [->|Hids]; try subst id; eexists; vm_compute; reflexivity. }
  rewrite Hn in E. cbv zeta in E. injection E as <- <- <-. split_and!; [done|done| |]; unfold buffer at 1; cbn [fst].
  - destruct (entry_same s.1 id (drop read_size (buffer s id)) []) as [->|[-> E]]; [done|].
    unfold buffer. by rewrite E, drop_nil.
  - intros j Hj Hne. apply entry_other. unfold in_pool in *.
    apply andb_prop in Hid as [?%Z.leb_le _], Hj as [?%Z.leb_le _]. lia.
Qed.

(** A client is subscribed to a socket with 1000 bytes at the module, whose peer
    has closed it. *)
Definition draining : IModuleHal nat * (Air780eHal * (buffers * list notice)) :=
  let h := take_slot (set_channel (new_air780e true) true) 2 in
  ((register_tcp new_hal 2 (Some 7%nat) (Some 7%nat)).1.1,
   (NotePeerClosed 2 h, ((set_entry (replicate 6 []) 2 (replicate 1000 "x"%char), []), []))).

Lemma drained_in_order_witness :
  let w' := (DrainOneCid hear_data hear_close hear_udp 2 draining : _ * result NetworkError bool).1 in
  w'.2.2.2 = [NData 7 2 (replicate 720 "x"%char); NData 7 2 (replicate 280 "x"%char); NClose 7 2] ∧
  pass_heard buffer 2 7 0 draining (Ok false) w'.
Proof.
  cbv zeta. split; [vm_compute; reflexivity|].
  apply (drained_in_order buffer buffering_keeps 2 1 7 draining _ (Ok false)).
  - reflexivity.
  - constructor; [|vm_compute; reflexivity|vm_compute; reflexivity|vm_compute; discriminate].
    apply (register_routed new_hal 2 7). right. intros i r. cbn. by rewrite lookup_empty.
  - apply op_result. vm_compute. reflexivity.
Defined.
