(* ===== verification/Air780eEvents.v ===== *)
(** Events of the AIR780E that reach the wrong socket, or none: runs of the HAL
    over a UART, from a module that has just come up. *)
From stdpp Require Import base decidable list strings gmap.
From Stdlib Require Import ZArith Ascii Lia.
From S2P Require Import Prelude Errors CommonTypes StateResult AtParser UrcDispatcher HalRoutes ModemLink Air780eHal.
From S2P Require Import Air780eModes.

(** The HAL over a UART, and what its clients noted. *)
Local Abbreviation act := (op sample_world NetworkError).
Definition connect (tls : bool) : act Z := TcpConnect note_data note_close note_udp (lit "a.example") 443 tls default_tls.
Definition close (id : Z) : act unit := TcpClose note_data note_close note_udp id.
Definition send (id : Z) (data : string) : act Z := TcpSend note_data note_close note_udp id (lit data).
Definition wait (ms : Z) : act unit := sleep note_data note_close note_udp ms.

(** What the UART delivers, and whether the reader runs then. *)
Definition hears (lines : list string) (reader : bool) : list bytes * bool := ([concat ((line_ ∘ lit) <$> lines)], reader).
(** The switch is off already: a plaintext socket needs one line and its answer. *)
Definition plain_switch : list (option (Z * Z) * list bytes) := [ok_after []; ok_after [lit "+CIPSSL: 0"]].

(** The prompt, and nothing about the payload. *)
Definition prompted : option (Z * Z) * list bytes := (None, [lit "> "]).

(** A payload whose socket the peer ends before acknowledging it is reported as
    sent: emptying the slot empties the count of what is outstanding. *)
Lemma retired_send_reported_sent :
  let w := sample_air780e (plain_switch ++ [reports ["0, CONNECT OK"]; prompted; reports ["+CME ERROR: 3"]])
             [hears ["0, CLOSED"] true] in
  let r := (connect false ;;; send 0 "payload") w in
  r.2 = Ok 7 ∧ IsConnectionUsed (hal r.1) 0 = false ∧ r.1.2.2.2 = [].
Proof. vm_compute. by split_and!. Qed.

(** An acknowledgement that comes after its chunk was given up on is counted for
    the chunk sent next, of which the module has said nothing. *)
Lemma late_acknowledgement_claimed :
  let w := sample_air780e (plain_switch ++ [reports ["0, CONNECT OK"]; prompted; prompted])
             [hears [] false; hears ["0, SEND OK"] false] in
  let r := (connect false ;;; let! first := attempt (send 0 "one") in let! second := send 0 "three" in ret (first, second)) w in
  r.2 = Ok (Err (MkNetworkError kTimeout 0 (lit "no SEND OK for connection 0")), 5).
Proof. vm_compute. reflexivity. Qed.

(** The confirmation of a close, late, is taken for the peer's close of the socket
    that has the connection id by then: its client is told, and the id is free. *)
Lemma late_close_confirmation_ends_next :
  let w := sample_air780e (plain_switch ++
             [reports ["0, CONNECT OK"]; reports []] ++ plain_switch ++ [reports ["0, CONNECT OK"]; ok_after [lit "+CIPRXGET: 3,0,0,0"]])
             [hears [] false; hears ["0, CLOSE OK"] true] in
  let r := (connect false ;;; close 0 ;;; let! id := connect false in
            modify (λ w, (HalRoutes.SubscribeTcp note_data note_close (λ _ w, w) HalRoutes.undisturbed id (Some 7%nat) (Some 7%nat) w).1) ;;;
            wait 1000 ;;; ret id) w in
  r.2 = Ok 0 ∧ IsConnectionUsed (hal r.1) 0 = false ∧ r.1.2.2.2 = [(0, [])].
Proof. vm_compute. by split_and!. Qed.

(** A socket that is connected and closed in one breath is finished by the reader
    before its opener marks it: the reservation of the mode is never given back,
    and sockets of the other mode are refused from then on. *)
Lemma reservation_lost :
  let w := sample_air780e (plain_switch ++ [reports []; reports ["+CME ERROR: 3"]])
             [hears ["0, CONNECT OK"; "0, CLOSED"] true] in
  let r := (let! id := connect false in close id ;;; attempt (connect true)) w in
  r.2 = Ok (Err (mode_taken true)) ∧ forallb (λ s, negb (used s)) (slots_ (hal r.1)) = true.
Proof. vm_compute. by split. Qed.

(** A close that could not be sent stays the one awaited: the peer's close of the
    next socket with that id is taken for its confirmation, and its client is told
    nothing. *)
Lemma failed_close_hides_next :
  let w := sample_air780e (plain_switch ++ [reports ["0, CONNECT OK"]; (Some (0, 0), [])] ++ plain_switch ++ [reports ["0, CONNECT OK"]])
             [hears ["0, CLOSE OK"] true] in
  let r := (connect false ;;; attempt (close 0) ;;; let! id := connect false in
            modify (λ w, (HalRoutes.SubscribeTcp note_data note_close (λ _ w, w) HalRoutes.undisturbed id (Some 7%nat) (Some 7%nat) w).1) ;;;
            wait 1000 ;;; ret id) w in
  r.2 = Ok 0 ∧ IsConnectionUsed (hal r.1) 0 = true ∧ PeerCloseNoted (hal r.1) 0 = false ∧ r.1.2.2.2 = [].
Proof. vm_compute. by split_and!. Qed.

(** A keyed line reaches the keyless handler without its key's colon, so the
    filter on the colon sees nothing: this one ends a socket. *)
Lemma keyed_line_taken_for_event :
  let w := sample_air780e (plain_switch ++ [reports ["0, CONNECT OK"]]) [hears ["0, CLOSED: by nobody"] false] in
  let r := (connect false ;;; wait 1000) w in
  PeerCloseNoted (hal r.1) 0 = true.
Proof. vm_compute. reflexivity. Qed.

(** Initialized again with a TLS socket not yet given back, the HAL has the module
    switched to plaintext and still counts a TLS socket: the next TLS socket is
    opened without the switch. *)
Lemma initialized_again_opens_tls_in_plaintext :
  let up := [ok_after []; ok_after []; reports ["SHUT OK"]; ok_after []; ok_after [lit "+CIPMUX: 1"]; ok_after []; ok_after [];
             ok_after []; ok_after [lit "+CIPSSL: 0"]] in
  let w := sample_air780e (tls_answers ++ up ++ [reports ["1, CONNECT OK"]]) [] in
  let r := (connect true ;;; Initialize note_data note_close note_udp ;;; connect true) w in
  r.2 = Ok 1 ∧ ssl (slot (hal r.1) 1) = true ∧ last_switch (log r.1) = Some false.
Proof. vm_compute. by split_and!. Qed.

(** After 2^32 - 1 sockets the next has the serial that means none: its peer's
    close is not noted. *)
Lemma serial_wraps :
  let h := take_slot (set_slots (new_air780e true) (slots_ (new_air780e true)) (2 ^ 32 - 1)) 0 in
  let h := take_slot (set_slot h 0 no_socket) 0 in
  IsConnectionUsed h 0 = true ∧ NotePeerClosed 0 h = h.
Proof. vm_compute. by split. Qed.

(** Two threads open a socket each: there is one rendezvous, and the success of
    the socket the rendezvous is not for is lost, and its opener waits in vain. *)
Lemma concurrent_opens_lost :
  let w := ArmOpenWait 1 (ArmOpenWait 0 (sample_air780e [] [])) in
  let w := set_hal (RecordOpenResult 0 kConnected) w in
  let r := (WaitForOpenResult note_data note_close note_udp 0 30000 : act _) w in
  r.2 = Err (MkNetworkError kTimeout 0 (lit "no CONNECT OK, CONNECT FAIL or ALREADY CONNECT for connection 0")).
Proof. vm_compute. reflexivity. Qed.
