(* ===== verification/CellularNetwork.v ===== *)
(** [CellularNetwork] (src/src/network/cellular_network.{h,cpp}): which client an
    application gets, by what the module can do and the protocol mode.

    A client on a socket is what it is built from: whether the socket is under TLS
    and how it is configured. A client of the module's own stack is [B]; [W] is
    the HAL that makes it. A software engine is the factory of its transports. *)
From stdpp Require Import base decidable list strings gmap.
From Stdlib Require Import ZArith Ascii Lia.
From S2P Require Import Prelude Errors CommonTypes StateResult Ml307Hal Air780eHal.

(** A [HalTcpClient] or [HalUdpClient] on the HAL. *)
Inductive socket_client := TcpSocket (tls : bool) (config : TlsConfig) | UdpSocket.

(** An engine: the module's own, or the software one over what its factory makes. *)
Inductive engine (B : Type) := BuiltinEngine (b : B) | SoftwareEngine (factory : bool → TlsConfig → Result socket_client).
Arguments BuiltinEngine {B} _.
Arguments SoftwareEngine {B} _.

(** The HAL as this layer sees it. *)
Record network_hal (W B : Type) := MkNetworkHal {
  GetCapabilities : ModuleCapabilities;
  HasBuiltinHttp : bool;
  HasBuiltinMqtt : bool;
  CreateBuiltinHttp : op W NetworkError B;
  CreateBuiltinMqtt : op W NetworkError B;
}.
Arguments GetCapabilities {W B} _.
Arguments HasBuiltinHttp {W B} _.
Arguments HasBuiltinMqtt {W B} _.
Arguments CreateBuiltinHttp {W B} _.
Arguments CreateBuiltinMqtt {W B} _.
Arguments MkNetworkHal {W B}.

Section Network.
Context {W B : Type}.
Context (hal_ : network_hal W B) (protocol_mode_ : ProtocolMode).
Local Abbreviation caps := (GetCapabilities hal_).

Definition CreateTcp : Result socket_client :=
  if negb (cap_tcp caps) then Err (NotSupported "TCP not supported by module") else Ok (TcpSocket false default_tls).

Definition CreateSsl : Result socket_client :=
  if negb (cap_ssl_tcp caps) then Err (NotSupported "SSL/TLS not supported by module") else Ok (TcpSocket true default_tls).

Definition CreateUdp : Result socket_client :=
  if negb (cap_udp caps) then Err (NotSupported "UDP not supported by module") else Ok UdpSocket.

Definition OpenTransport (tls : bool) (config : TlsConfig) : Result socket_client :=
  if tls && negb (cap_ssl_tcp caps) then Err (NotSupported "TLS is required here, and this module does not support it")
  else Ok (TcpSocket tls config).

Definition CreateHttp : op W NetworkError (engine B) :=
  let software : op W NetworkError (engine B) :=
    if negb (cap_tcp caps) then fail (NotSupported "HTTP not available: the module has neither a builtin HTTP stack nor TCP")
    else ret (SoftwareEngine OpenTransport) in
  if negb (bool_decide (protocol_mode_ = kSoftware)) && cap_http caps && HasBuiltinHttp hal_ then
    let! builtin := attempt (CreateBuiltinHttp hal_) in
    match builtin with
    | Ok b => ret (BuiltinEngine b)
    | Err e => if decide (protocol_mode_ = kBuiltin) then fail e else software
    end
  else software.

Definition CreateMqtt : op W NetworkError (engine B) :=
  let software : op W NetworkError (engine B) :=
    if negb (cap_tcp caps) then fail (NotSupported "MQTT not available: the module has neither a builtin MQTT stack nor TCP")
    else ret (SoftwareEngine OpenTransport) in
  if negb (bool_decide (protocol_mode_ = kSoftware)) && cap_mqtt caps && HasBuiltinMqtt hal_ then
    let! builtin := attempt (CreateBuiltinMqtt hal_) in
    match builtin with
    | Ok b => ret (BuiltinEngine b)
    | Err e => if decide (protocol_mode_ = kBuiltin) then fail e else software
    end
  else software.

Definition CreateWebSocket : Result (engine B) :=
  if negb (cap_tcp caps) then Err (NotSupported "WebSocket not available: the module has no TCP")
  else Ok (SoftwareEngine OpenTransport).

Definition HasCapability (proto : NetworkProtocol) : bool :=
  match proto with
  | kTcp => cap_tcp caps
  | kSsl => cap_ssl_tcp caps
  | kUdp => cap_udp caps
  | kHttp | kHttps => cap_http caps
  | kMqtt | kMqtts => cap_mqtt caps
  | kWebSocket => cap_tcp caps
  | kWss => cap_ssl_tcp caps
  end.

Definition GetMaxConnections (proto : NetworkProtocol) : Z :=
  match proto with
  | kTcp | kSsl | kUdp => cap_max_connections caps
  | _ => 0
  end.

(** * No engine is given a plaintext socket for TLS *)

(** What every socket an application ends up with is. *)
Definition honest (factory : bool → TlsConfig → Result socket_client) : Prop :=
  ∀ tls config s, factory tls config = Ok s → s = TcpSocket tls config ∧ (tls = true → cap_ssl_tcp caps = true).

Lemma OpenTransport_honest : honest OpenTransport.
Proof.
  intros tls config s. unfold OpenTransport. destruct tls, (cap_ssl_tcp caps); cbn; intros E; by simplify_eq.
Qed.

Lemma software_honest (made : bool) (create : op W NetworkError B) (refusal : NetworkError) w w' engine_ :
  (if made then
     let! builtin := attempt create in
     match builtin with
     | Ok b => ret (BuiltinEngine b)
     | Err e => if decide (protocol_mode_ = kBuiltin) then fail e
                else if negb (cap_tcp caps) then fail refusal else ret (SoftwareEngine OpenTransport)
     end
   else if negb (cap_tcp caps) then fail refusal else ret (SoftwareEngine OpenTransport)) w = (w', Ok engine_) →
  match engine_ with
  | BuiltinEngine b => made = true ∧ (create w).2 = Ok b
  | SoftwareEngine factory => cap_tcp caps = true ∧ honest factory ∧ (made = true → protocol_mode_ ≠ kBuiltin ∧ ∃ e, (create w).2 = Err e)
  end.
Proof.
  pose proof OpenTransport_honest. unfold bind, attempt, fail, ret. destruct made.
  - destruct (create w) as [w1 [b|e]]; [by intros [= <- <-]|]. case_decide; [done|].
    destruct (cap_tcp caps); [|done]. intros [= <- <-]. split_and!; [done|done|]. intros _. split; [done|]. by exists e.
  - destruct (cap_tcp caps); [|done]. intros [= <- <-]. by split_and!.
Qed.

(** a client is what was asked for. The module's own engine is never given
    where the software one was required; a software engine needs a module with
    TCP, and every transport its factory makes is the socket it asked for, with
    its configuration: one asked for under TLS is under TLS, or refused. *)
Theorem engines_honest w w' e :
  CreateHttp w = (w', Ok e) ∨ CreateMqtt w = (w', Ok e) ∨ CreateWebSocket = Ok e →
  match e with
  | BuiltinEngine b => protocol_mode_ ≠ kSoftware ∧ ((CreateBuiltinHttp hal_ w).2 = Ok b ∨ (CreateBuiltinMqtt hal_ w).2 = Ok b)
  | SoftwareEngine factory => cap_tcp caps = true ∧ honest factory
  end.
Proof.
  intros [E|[E|E]].
  - apply software_honest in E. destruct e as [b|f]; [|by destruct E as (? & ? & _)].
    destruct E as [Hm Hb]. split; [|by left]. intros Hs. by rewrite bool_decide_true in Hm.
  - apply software_honest in E. destruct e as [b|f]; [|by destruct E as (? & ? & _)].
    destruct E as [Hm Hb]. split; [|by right]. intros Hs. by rewrite bool_decide_true in Hm.
  - unfold CreateWebSocket in E. destruct (cap_tcp caps); [|done]. injection E as <-. split; [done|apply OpenTransport_honest].
Qed.
End Network.

(** * What the modules give *)

(** Neither HAL overrides the two answers. *)
Definition network_of (c : ModuleCapabilities) : network_hal unit Empty_set :=
  MkNetworkHal c false false (fail (NotSupported "builtin HTTP not supported")) (fail (NotSupported "builtin MQTT not supported")).

(** A caller who requires the module's own engine is given the software one, by
    either module: the requirement is only looked at when the HAL says it has such
    an engine. *)
Lemma builtin_requirement_ignored :
  let gives_software (m : network_hal unit Empty_set) :=
    (CreateHttp m kBuiltin ()).2 = Ok (SoftwareEngine (OpenTransport m)) ∧
    (CreateMqtt m kBuiltin ()).2 = Ok (SoftwareEngine (OpenTransport m)) in
  gives_software (network_of ml307_capabilities) ∧ gives_software (network_of air780e_capabilities).
Proof. by vm_compute. Qed.

(** A module with sockets and no stacks of its own is said not to do HTTP or MQTT,
    though both clients can be had. *)
Lemma capability_denied_client_created :
  let m := network_of (MkCapabilities true true true false false false false false false 6 115200) in
  HasCapability m kHttp = false ∧ HasCapability m kMqtt = false ∧
  (CreateHttp m kAuto ()).2 = Ok (SoftwareEngine (OpenTransport m)) ∧
  (CreateMqtt m kAuto ()).2 = Ok (SoftwareEngine (OpenTransport m)).
Proof. by vm_compute. Qed.

Lemma engines_honest_witness :
  cap_tcp ml307_capabilities = true ∧ honest (network_of ml307_capabilities) (OpenTransport (network_of ml307_capabilities)).
Proof.
  apply (engines_honest (network_of ml307_capabilities) kAuto () () (SoftwareEngine (OpenTransport (network_of ml307_capabilities)))).
  left. vm_compute. reflexivity.
Defined.
