(* ===== verification/HalTransport.v ===== *)
(** A module's socket as the transport of a protocol engine: [OpenTransport] of the
    network layer (src/src/network/cellular_network.cpp) over the TCP client of
    [HalTcpClient] over any HAL.

    The client is the only one on its HAL. Its callbacks are the engine's: what they
    were called with during an operation is what the operation delivered; one that has
    heard nothing of its end is still connected and subscribed. The receive task runs
    while an operation waits, so nothing is dispatched beside the hand-over of what
    was held ([undisturbed]; [HalStreams] has what is heard otherwise). *)
From stdpp Require Import base decidable list strings gmap.
From Stdlib Require Import ZArith Ascii Lia.
From S2P Require Import Prelude Errors CommonTypes StateResult TcpTransport UrcDispatcher HalRoutes HalTcpClient SocketHal.
From S2P Require Import CellularNetwork.

(** What the engine's [HalTcpClient] was built with, and what its callbacks heard. *)
Record socket := MkSocket { sk_tls : bool; sk_config : TlsConfig; sk_heard : list tcp_event }.

Definition socket_network (capabilities : ModuleCapabilities) : network_hal unit Empty_set :=
  MkNetworkHal capabilities false false (fail (net_error kUnknown "")) (fail (net_error kUnknown "")).

Section Transport.
Context {H W : Type} `{ISocketHal H W}.

(** The world as the HAL sees it, and as the client does. *)
Local Abbreviation world := (hal_world H W (HalTcpClient * socket)).
Local Abbreviation client_world := (IModuleHal nat * (HalTcpClient * (H * (W * socket))))%type.
Definition to_client (w : world) : client_world := let '(r, (h, (l, (c, s)))) := w in (r, (c, (h, (l, s)))).
Definition of_client (w : client_world) : world := let '(r, (c, (h, (l, s)))) := w in (r, (h, (l, (c, s)))).

Definition sock (w : world) : socket := w.2.2.2.2.
Definition set_heard (evs : list tcp_event) (w : world) : world :=
  let '(r, (h, (l, (c, s)))) := w in (r, (h, (l, (c, MkSocket (sk_tls s) (sk_config s) evs)))).

(** The engine's callbacks. *)
Definition hear (e : tcp_event) (w : client_world) : client_world :=
  to_client (set_heard (sk_heard (sock (of_client w)) ++ [e]) (of_client w)).
Definition on_data : option (bytes → client_world → client_world) := Some (λ d, hear (EvData d)).
Definition on_disconnected : option (client_world → client_world) := Some (hear EvDisconnected).

(** The closures the HAL holds: this client's are numbered 0. *)
Definition nobody_data (k : nat) (cid : Z) (d : bytes) (w : client_world) : client_world := w.
Definition nobody_close (k : nat) (cid : Z) (w : client_world) : client_world := w.
Definition nobody_udp (k : nat) (cid : Z) (host : bytes) (port : Z) (d : bytes) (w : world) : world := w.
Definition sock_data (k : nat) (cid : Z) (d : bytes) (w : world) : world :=
  of_client (call_data 0 nobody_data on_data k cid d (to_client w)).
Definition sock_close (k : nat) (cid : Z) (w : world) : world :=
  of_client (call_close 0 nobody_close on_disconnected k cid (to_client w)).

Definition socks : closures world := MkClosures sock_data sock_close nobody_udp.

(** The HAL's operations, called by the client. *)
Definition sock_tcp_connect (host : bytes) (port : Z) (w : client_world) : client_world * Result Z :=
  let s := sock (of_client w) in
  let '(w, r) := hal_connect socks host port (sk_tls s) (sk_config s) (of_client w) in
  (to_client w, r).
Definition sock_tcp_close (cid : Z) (w : client_world) : client_world :=
  to_client (hal_close socks cid (of_client w)).1.
Definition sock_tcp_send (cid : Z) (data : bytes) (w : client_world) : client_world * Result Z :=
  let '(w, r) := hal_send socks cid data (of_client w) in (to_client w, r).

(** An operation, and what was delivered during it. *)
Definition delivering {A} (m : world → world * A) (w : world) : world * list tcp_event * A :=
  let '(w, r) := m (set_heard [] w) in (set_heard [] w, sk_heard (sock w), r).

#[export] Instance hal_transport : ITransport world := {|
  make_transport tls config w :=
    match OpenTransport (socket_network socket_capabilities) tls config with
    | Err e => (w, Err e)
    | Ok _ => let '(r, (h, (l, _))) := w in ((r, (h, (l, (new_tcp_client, MkSocket tls config [])))), Ok ())
    end;
  tcp_connect host port := delivering (λ w,
    let '(w, r) := Connect 0 nobody_data nobody_close (sock_tcp_connect host port) sock_tcp_close undisturbed
                     on_data on_disconnected (to_client w) in (of_client w, r));
  tcp_send data := delivering (λ w, let '(w, r) := Send sock_tcp_send data (to_client w) in (of_client w, r));
  tcp_disconnect w :=
    set_heard [] (of_client (HalTcpClient.destroy sock_tcp_close None (Disconnect sock_tcp_close None (to_client w))));
  await timeout w :=
    let '(w, evs, _) := delivering (hal_sleep socks timeout) w in (w, evs);
|}.

(** * Lemmas: the world's two shapes *)

Lemma of_to w : of_client (to_client w) = w.
Proof. by destruct w as [r [h [l [c s]]]]. Qed.
Lemma to_of w : to_client (of_client w) = w.
Proof. by destruct w as [r [c [h [l s]]]]. Qed.
Lemma set_heard_same w : set_heard (sk_heard (sock w)) w = w.
Proof. by destruct w as [r [h [l [c []]]]]. Qed.

Lemma sock_data_same k cid d w : (sock_data k cid d w).2.1 = w.2.1 ∧ (sock_data k cid d w).2.2.1 = w.2.2.1.
Proof. destruct w as [r [h [l [c s]]]]. unfold sock_data, call_data. by destruct (_ =? _)%nat. Qed.
End Transport.

(** * A lone client, and one that is connected *)

Section Socket.
Context {H W : Type} `{SocketHalFrame H W}.
Local Abbreviation world := (hal_world H W (HalTcpClient * socket)).
Local Abbreviation client_world := (IModuleHal nat * (HalTcpClient * (H * (W * socket))))%type.
Implicit Types w : world.

Definition tcp w : HalTcpClient := w.2.2.2.1.

(** Nobody is subscribed, and this is the client. *)
Definition lone (c : HalTcpClient) (s : socket) w : Prop := tcp_routes w.1 = ∅ ∧ w.2.2.2 = (c, s).

Definition own (cid : Z) : TcpRoute nat := MkTcpRoute cid (Some 0%nat) (Some 0%nat).

(** The client keeps its route, or has been told that its socket ended. *)
Definition attached (c : HalTcpClient) (handle cid : Z) w : Prop :=
  EvDisconnected ∈ sk_heard (sock w) ∨ tcp w = c ∧ tcp_routes w.1 = {[handle := own cid]}.

(** The client is connected to [cid], subscribed, and has heard nothing yet. *)
Definition live (cid : Z) w : Prop :=
  connected (tcp w) = true ∧ connect_id (tcp w) = cid ∧ sk_heard (sock w) = [] ∧
  tcp_routes w.1 = {[subscription (tcp w) := own cid]}.

Lemma hold_routes {K} (h : IModuleHal K) cid d : tcp_routes (HoldLocked h cid d) = tcp_routes h.
Proof. done. Qed.

Lemma lone_framed c s : socket_framed socks (lone c s).
Proof.
  split.
  - by intros f [? [? [? ?]]].
  - by intros l [? [? [? ?]]].
  - by intros id [? ?].
  - intros cid d w [Hr Hs]. unfold DispatchTcpData, FindTcpRouteLocked, routes_of. by rewrite Hr, map_to_list_empty.
  - intros cid w [Hr Hs]. unfold DispatchTcpClose, end_routes, routes_of. rewrite Hr, map_to_list_empty. cbn.
    split; [apply map_filter_empty|done].
  - intros cid host port d w [Hr Hs]. unfold DispatchUdpData. by repeat case_match.
Qed.

Lemma hears k cid d w : ∃ evs, sk_heard (sock (sock_data k cid d w)) = sk_heard (sock w) ++ evs ∧
  tcp (sock_data k cid d w) = tcp w ∧ (sock_data k cid d w).1 = w.1.
Proof.
  destruct w as [r [h [l [c s]]]]. unfold sock_data, call_data. destruct (_ =? _)%nat; cbn.
  - by exists [EvData d].
  - exists []. by rewrite app_nil_r.
Qed.

Lemma told k cid w : ∃ evs, sk_heard (sock (sock_close k cid w)) = sk_heard (sock w) ++ evs ∧
  (k = 0%nat → evs = [EvDisconnected]).
Proof.
  destruct w as [r [h [l [c s]]]]. unfold sock_close, call_close. destruct (Nat.eqb_spec k 0); cbn.
  - by exists [EvDisconnected].
  - exists []. by rewrite app_nil_r.
Qed.

Lemma told_all ks cid w : EvDisconnected ∈ sk_heard (sock w) ∨ 0%nat ∈ ks →
  EvDisconnected ∈ sk_heard (sock (fold_left (λ w k, sock_close k cid w) ks w)).
Proof.
  revert w; induction ks as [|k ks IH]; intros w Hd; cbn [fold_left].
  { destruct Hd as [?|Hd]; [done|]. by apply not_elem_of_nil in Hd. }
  apply IH. destruct (told k cid w) as (evs & -> & Hk). destruct Hd as [Hd|Hd]; [left; set_solver|].
  apply elem_of_cons in Hd as [E|Hd]; [left|by right]. rewrite Hk by done. set_solver.
Qed.

(** The end of its socket is told to an attached client. *)
Lemma close_ends c handle cid w : attached c handle cid w → EvDisconnected ∈ sk_heard (sock (DispatchTcpClose sock_close cid w)).
Proof.
  intros Ha. unfold DispatchTcpClose. destruct (end_routes w.1 cid) as [r ks] eqn:E. apply told_all.
  destruct Ha as [Ha|[Ht Hr]]; [left; by destruct w|right]. unfold end_routes, routes_of in E.
  rewrite Hr, map_to_list_singleton, filter_cons, filter_nil, decide_True in E by done. injection E as _ <-. set_solver.
Qed.

Lemma attached_framed c handle cid : socket_framed socks (attached c handle cid).
Proof.
  split; cbn [socks cl_data cl_close cl_udp].
  - by intros f [? [? [? ?]]].
  - by intros l [? [? [? ?]]].
  - by intros id [? ?].
  - intros cid' d w Ha. unfold DispatchTcpData. destruct (FindTcpRouteLocked _ _) as [route|]; [|by destruct w].
    destruct (tr_on_data route) as [k|]; [|done]. destruct (hears k cid' d w) as (evs & Eh & Et & Er).
    unfold attached. rewrite Eh, Et, Er. destruct Ha as [Ha|Ha]; [left; set_solver|by right].
  - intros cid' w Ha. destruct (decide (cid' = cid)) as [->|Hc]; [left; by apply (close_ends c handle)|].
    unfold DispatchTcpClose. destruct (end_routes w.1 cid') as [r ks] eqn:E.
    destruct Ha as [Ha|[Ht Hr]]; [left; apply told_all; left; by destruct w|right].
    unfold end_routes, routes_of in E. rewrite Hr, map_to_list_singleton, filter_cons, filter_nil, decide_False in E
      by (cbn; congruence).
    injection E as <- <-. cbn. split; [done|]. by rewrite map_filter_singleton_True by (cbn; congruence).
  - intros cid' host port d w Ha. unfold DispatchUdpData. by repeat case_match.
Qed.

(** * The transport's operations *)

Lemma close_dispatched cid (w : client_world) :
  of_client (DispatchTcpClose (call_close 0 nobody_close on_disconnected) cid w) = DispatchTcpClose sock_close cid (of_client w).
Proof.
  unfold DispatchTcpClose. destruct w as [r [c [h [l s]]]]. cbn [fst snd of_client].
  destruct (end_routes r cid) as [r' ks]. revert c h l s r'; induction ks as [|k ks IH]; intros c h l s r'; [done|].
  cbn [fold_left]. change (r', (h, (l, (c, s)))) with (of_client (r', (c, (h, (l, s))))). unfold sock_close at 2. rewrite to_of.
  destruct (call_close 0 nobody_close on_disconnected k cid (r', (c, (h, (l, s))))) as [r2 [c2 [h2 [l2 s2]]]]. apply IH.
Qed.

(** Subscribing a client that hears nothing by it: the route is there, and nothing
    else has changed. *)
Lemma subscribe_quiet cid (w : client_world) : tcp_routes w.1 = ∅ → sk_heard (sock (of_client w)) = [] →
  let '(w', handle) := SubscribeTcp (call_data 0 nobody_data on_data) (call_close 0 nobody_close on_disconnected)
                         sock_tcp_close undisturbed cid (Some 0%nat) (Some 0%nat) w in
  sk_heard (sock (of_client w')) = [] → w'.2 = w.2 ∧ tcp_routes w'.1 = {[handle := own cid]}.
Proof.
  intros Hr Hh. destruct w as [r [c [h [l s]]]]. cbn [fst] in Hr. unfold SubscribeTcp, register_tcp, undisturbed. cbn [fst snd]. rewrite Hr.
  set (handle := next_subscription r). set (held := default nothing_held (undelivered r !! cid)).
  set (r1 := MkHal _ _ _ _). set (w1 := (r1, (c, (h, (l, s))))).
  assert (tcp_routes r1 = {[handle := own cid]}) as Hr1 by done.
  set (w2 := if decide (un_data held = []) then w1 else DispatchHeld (call_data 0 nobody_data on_data) (λ _ v, v) cid (un_data held) w1).
  assert (∃ evs, of_client w2 = (r1, (h, (l, (c, MkSocket (sk_tls s) (sk_config s) (sk_heard s ++ evs))))) ∧
    (un_data held ≠ [] → evs ≠ [])) as (evs & E2 & Hevs).
  { unfold w2. case_decide as Hd.
    - exists []. rewrite app_nil_r. by destruct s.
    - exists [EvData (un_data held)]. split; [|done].
      unfold DispatchHeld, FindTcpRouteLocked, routes_of. cbn [fst w1]. rewrite Hr1, map_to_list_singleton, filter_cons, filter_nil.
      rewrite decide_True by done. done. }
  assert (attached c handle cid (of_client w2)) as Ha by (right; by rewrite E2).
  assert (∀ w3 : client_world, attached c handle cid (of_client w3) → sk_heard (sock (of_client
    (DispatchTcpClose (call_close 0 nobody_close on_disconnected) cid w3))) ≠ []) as Hends.
  { intros w3 H3 E3. pose proof (close_ends c handle cid _ H3) as Hc. rewrite <- close_dispatched, E3 in Hc.
    by apply not_elem_of_nil in Hc. }
  destruct (un_closed held); [intros E; by apply Hends in E|].
  destruct (un_truncated held).
  { intros E. apply Hends in E; [done|]. unfold sock_tcp_close. rewrite of_to.
    by apply (close_keeps _ _ (attached_framed c handle cid)). }
  intros E. rewrite E2 in E. cbn in E, Hh. rewrite Hh in E. cbn in E.
  assert (w2 = w1) as ->; [|done]. unfold w2. case_decide as Hd; [done|]. by apply Hevs in Hd.
Qed.

(** Connecting, with nothing heard by the time it is over: the module opened a
    socket, and the client is subscribed to it. *)
Lemma connect_live host port w w' : connected (tcp w) = false → tcp_routes w.1 = ∅ →
  tcp_connect host port w = (w', [], Ok ()) →
  ∃ cid wm, hal_connect socks host port (sk_tls (sock w)) (sk_config (sock w)) (set_heard [] w)
    = (wm, Ok cid) ∧ w'.2.1 = wm.2.1 ∧ w'.2.2.1 = wm.2.2.1 ∧ live cid w'.
Proof.
  intros Hc Hr E. cbn [tcp_connect hal_transport] in E. unfold delivering in E.
  destruct w as [r [h [l [c s]]]]. cbn [set_heard sock tcp fst snd to_client] in *.
  unfold Connect, client in E. cbn [fst snd] in E. rewrite Hc in E. unfold sock_tcp_connect in E.
  cbn [of_client sock fst snd sk_tls sk_config] in E. set (w0 := (r, (h, (l, (c, MkSocket (sk_tls s) (sk_config s) []))))) in *.
  pose proof (connect_keeps _ _ (lone_framed c (MkSocket (sk_tls s) (sk_config s) [])) host port (sk_tls s) (sk_config s) w0
    (conj Hr eq_refl)) as Hf.
  destruct (hal_connect socks host port (sk_tls s) (sk_config s) w0) as [wm [cid|e]] eqn:Ec; [|done].
  destruct wm as [r1 [h1 [l1 cs1]]]. destruct Hf as [Hr1 Ecs]. cbn in Hr1, Ecs. subst cs1. cbn [to_client] in E.
  set (g := u32 _) in E. set (w1 := set_client _ _) in E.
  pose proof (subscribe_quiet cid w1 Hr1 eq_refl) as Hq.
  destruct (SubscribeTcp _ _ _ _ _ _ _ _) as [[r2 cw2] handle]. cbn [fst snd] in *.
  assert (sk_heard (sock (of_client (r2, cw2))) = []) as Hh.
  { destruct cw2 as [c2 [h2 [l2 s2]]]. cbn in E. destruct (_ =? _); by injection E. }
  destruct (Hq Hh) as [-> Hr2]. cbn in E. rewrite Z.eqb_refl in E. injection E as <-.
  exists cid, (r1, (h1, (l1, (c, MkSocket (sk_tls s) (sk_config s) [])))). by split_and!.
Qed.

(** Sending, with nothing heard by the time it is over. *)
Lemma send_live cid data w w' n : live cid w → tcp_send data w = (w', [], Ok n) →
  hal_send socks cid data w = (w', Ok n) ∧ live cid w'.
Proof.
  intros (Hc & Hi & Hh & Hr) E. cbn [tcp_send hal_transport] in E. unfold delivering in E.
  rewrite <- Hh, set_heard_same in E. unfold Send in E. unfold client in E.
  assert ((to_client w).2.1 = tcp w) as Et by (by destruct w as [r [h [l [c s]]]]). rewrite Et, Hc, Hi in E.
  cbn [negb] in E. unfold sock_tcp_send in E. rewrite of_to in E.
  pose proof (send_keeps _ _ (attached_framed (tcp w) (subscription (tcp w)) cid) cid data w
    (or_intror (conj eq_refl Hr))) as Ha.
  destruct (hal_send socks cid data w) as [w1 r1]. cbn [fst] in Ha. rewrite of_to in E.
  injection E as Ew Eh ->. rewrite <- Eh, set_heard_same in Ew. subst w'. split; [done|].
  destruct Ha as [Ha|[Et1 Hr1]]; [rewrite Eh, Hh in Ha; by apply not_elem_of_nil in Ha|].
  unfold live. rewrite Et1. split_and!; [done|done| |done]. by rewrite Eh.
Qed.
End Socket.


(** An operation's result, put together from its parts. *)
Lemma triple_result {A B C} (x : A * B * C) b c : x.1.2 = b → x.2 = c → x = (x.1.1, b, c).
Proof. intros <- <-. by destruct x as [[? ?] ?]. Qed.
