(* ===== verification/Ml307Transport.v ===== *)
(** The sockets of the ML307, and what a client that waits on one hears: the payloads
    reported for its cid. *)
From stdpp Require Import base decidable list strings gmap.
From Stdlib Require Import ZArith Ascii Lia.
From S2P Require Import Prelude Errors CommonTypes StateResult TcpTransport AtParser UrcDispatcher AtUart HalRoutes.
From S2P Require Import HalTcpClient SocketHal ModemLink Ml307Hal Ml307Facts Ml307Sockets Ml307Events Ml307Frame.
From S2P Require Import HalTransport.

#[export] Instance ml307_sockets `{IModemLink W} : ISocketHal Ml307Hal W := {|
  socket_capabilities := ml307_capabilities;
  hal_connect U cl := TcpConnect (cl_data cl) (cl_close cl) (cl_udp cl) None;
  hal_send U cl := TcpSend (cl_data cl) (cl_close cl) (cl_udp cl) None;
  hal_close U cl := TcpClose (cl_data cl) (cl_close cl) (cl_udp cl) None;
  hal_sleep U cl := Ml307Hal.sleep (cl_data cl) (cl_close cl) (cl_udp cl) None;
|}.

Lemma ml307_framed {W U} `{IModemLink W} (cl : closures (hal_world Ml307Hal W U)) Q :
  socket_framed cl Q → framed (cl_data cl) (cl_close cl) (cl_udp cl) None Q.
Proof. intros F. split; [intros f w; apply (sf_hal _ _ F (f (hal w)))|apply F..|done]. Qed.

#[export] Instance ml307_sockets_frame `{IModemLink W} : SocketHalFrame Ml307Hal W.
Proof.
  split; intros U cl Q F%ml307_framed; intros.
  - by apply TcpConnect_frame.
  - by apply TcpSend_frame.
  - by apply TcpClose_frame.
  - by apply sleep_frame.
Qed.

(** * Waiting, on a UART *)

Section Waiting.
Local Abbreviation world := (IModuleHal nat * (Ml307Hal * ((uart_link * list exchange) * (HalTcpClient * socket))))%type.
Implicit Types w : world.

Lemma sock_calm : calm_callbacks sock_data sock_close nobody_udp None (W0 := uart_link).
Proof.
  split; [| |done|done].
  - intros k cid d w. apply sock_data_same.
  - intros k cid [r [h [l [c s]]]]. unfold sock_close, call_close. by destruct (_ =? _)%nat.
Qed.

(** The payloads of one cid among reports. *)
Definition payloads_of (cid : Z) (reports : list report) : list bytes :=
  (λ r, ParseHex (rp_hex r)) <$> filter (λ r, rp_cid r = cid) reports.

Lemma arrives_heard cid reports w : tcp_routes w.1 = {[subscription (tcp w) := own cid]} →
  sk_heard (sock (fold_left (arrives sock_data) reports w)) = sk_heard (sock w) ++ (EvData <$> payloads_of cid reports).
Proof.
  revert w; induction reports as [|r reports IH]; intros w Hr; [by rewrite app_nil_r|]. cbn [fold_left].
  unfold arrives at 2, DispatchTcpData, FindTcpRouteLocked, routes_of.
  rewrite Hr, map_to_list_singleton, filter_cons, filter_nil. unfold payloads_of. rewrite filter_cons.
  destruct (decide (rp_cid r = cid)) as [E|E].
  - rewrite decide_True by done. destruct w as [rt [h [l [c s]]]]. cbn [head fmap option_fmap option_map snd own tr_on_data].
    rewrite IH by done. cbn. by rewrite <- app_assoc.
  - rewrite decide_False by (cbn; congruence). destruct w as [rt [h [l [c s]]]]. cbn [head fmap option_fmap option_map].
    by rewrite IH.
Qed.

Lemma await_payloads cid reports reads reader rest ms w : live cid w → listening w →
  lk_idle (link w).1 = (reads, reader) :: rest → Forall well_formed reports →
  concat reads = wire (report_line <$> reports) →
  ∃ w', await ms w = (w', EvData <$> payloads_of cid reports).
Proof.
  intros (Hc & Hi & Hh & Hr) Hl Hidle HF Hreads.
  destruct (sleep_reports sock_data sock_close nobody_udp None reports reads reader rest ms w sock_calm Hl Hidle HF Hreads)
    as [l El].
  cbn [await hal_transport]. unfold delivering. rewrite <- Hh, set_heard_same. change (hal_sleep socks ms w) with (sleep sock_data sock_close nobody_udp None ms w). rewrite El.
  pose proof (arrives_heard cid reports (set_link l w) Hr) as Ha.
  change (sk_heard (sock (set_link l w))) with (sk_heard (sock w)) in Ha. rewrite Hh in Ha. cbn [app] in Ha.
  eexists. by rewrite Ha.
Qed.
End Waiting.
