(* ===== verification/Air780eSockets.v ===== *)
(** The sockets of the AIR780E, as an instance of [ISocketHal], and what its operations
    leave alone: a property that the HAL's members and the line have no part in, and
    that survives what clients are told. *)
From stdpp Require Import base decidable list strings gmap.
From Stdlib Require Import ZArith Ascii Lia.
From S2P Require Import Prelude Errors CommonTypes StateResult AtParser UrcDispatcher HalRoutes SocketHal ModemLink.
From S2P Require Import Air780eHal Air780eFrame.

#[export] Instance air780e_sockets `{IModemLink W} : ISocketHal Air780eHal W := {|
  socket_capabilities := air780e_capabilities;
  hal_connect U cl := TcpConnect (cl_data cl) (cl_close cl) (cl_udp cl);
  hal_send U cl := TcpSend (cl_data cl) (cl_close cl) (cl_udp cl);
  hal_close U cl := TcpClose (cl_data cl) (cl_close cl) (cl_udp cl);
  hal_sleep U cl := Air780eHal.sleep (cl_data cl) (cl_close cl) (cl_udp cl);
|}.

Section Frame.
Context {W U : Type} `{IModemLink W}.
Local Abbreviation world := (hal_world Air780eHal W U).
Local Abbreviation act := (op world NetworkError).
Context (cl : closures world) (Q : world → Prop) (F : socket_framed cl Q).
Implicit Types w : world.

Lemma frame_hal f : keeps Q (modify (set_hal f) : act unit).
Proof. apply keeps_modify. intros w. apply (sf_hal _ _ F (f (hal w))). Qed.

Lemma frame_urcs calls w : Q w → Q (fold_left on_urc calls w).
Proof.
  revert w; induction calls as [|i calls IH]; intros w Hw; [done|]. apply IH. unfold on_urc.
  destruct (list_find _ _) as [[n [hd k]]|]; [|done]. by apply (sf_hal _ _ F).
Qed.

Lemma frame_command cmd timeout : keeps Q (command cmd timeout : act _).
Proof. intros w Hw. unfold command. destruct (at_command _ _ _) as [[l calls] r]. by apply frame_urcs, (sf_link _ _ F). Qed.
Lemma frame_line_out cmd : keeps Q (line_out cmd : act _).
Proof. intros w Hw. unfold line_out. destruct (at_line _ _) as [[l calls] r]. by apply frame_urcs, (sf_link _ _ F). Qed.
Lemma frame_data_out cmd data timeout : keeps Q (data_out cmd data timeout : act _).
Proof. intros w Hw. unfold data_out. destruct (at_data _ _ _ _) as [[l calls] r]. by apply frame_urcs, (sf_link _ _ F). Qed.

Lemma frame_RetireSlot id : keeps Q (RetireSlot id : act _).
Proof.
  intros w Hw. unfold RetireSlot. destruct (in_pool id); [|done]. destruct (used _); [|done]. cbn [negb fst].
  match goal with |- Q (_, (?h, _)) => apply (sf_hal _ _ F h (DiscardUndelivered w.1 id, w.2)) end. by apply (sf_discard _ _ F).
Qed.
Lemma frame_AllocateConnectionId avoid : keeps Q (AllocateConnectionId avoid : act _).
Proof.
  intros w Hw. unfold AllocateConnectionId. destruct (pick_slot _ _ _) as [id|]; [|done]. cbn [fst].
  apply (sf_hal _ _ F _ (DiscardUndelivered w.1 id, w.2)). by apply (sf_discard _ _ F).
Qed.

(** Runs down an operation. *)
Ltac frame_run :=
  repeat first
    [ apply keeps_ret | apply keeps_fail | apply keeps_gets | apply frame_command | apply frame_line_out | apply frame_data_out
    | apply frame_RetireSlot | apply frame_AllocateConnectionId | apply frame_hal | assumption
    | apply keeps_attempt | apply keeps_bind; [|intros ?] | apply keeps_if
    | progress cbv zeta | case_match ].

Lemma frame_ReleaseConnectionId id : keeps Q (ReleaseConnectionId id : act _).
Proof. unfold ReleaseConnectionId. frame_run. Qed.

Lemma air780e_reader_frame : reader_frame (cl_data cl) (cl_close cl) (cl_udp cl) any_id Q.
Proof.
  split; [|intros id; apply frame_command|apply frame_ReleaseConnectionId|apply F..|intros w _; apply any_ids].
  intros f w _. apply (sf_hal _ _ F (f (hal w))).
Qed.

Local Abbreviation sleep := (Air780eHal.sleep (cl_data cl) (cl_close cl) (cl_udp cl)).
Local Abbreviation wait_for := (Air780eHal.wait_for (cl_data cl) (cl_close cl) (cl_udp cl)).

Lemma frame_sleep ms : keeps Q (sleep ms : act _).
Proof. apply (sleep_frame_of _ _ _ _ _ air780e_reader_frame); [intros i w; apply (frame_urcs [i])|intros w; apply (sf_link _ _ F)]. Qed.
Lemma frame_wait ms pred : keeps Q (wait_for ms pred : act _).
Proof. intros w Hw. unfold Air780eHal.wait_for. destruct (pred w); [done|by apply frame_sleep]. Qed.

Ltac frame_op := repeat first [ progress frame_run | apply frame_wait | apply frame_ReleaseConnectionId ].

Lemma frame_TcpSend cid data : keeps Q (TcpSend (cl_data cl) (cl_close cl) (cl_udp cl) cid data : act _).
Proof. unfold TcpSend, SendPayload, with_channel, send_begin, send_finish. frame_op. Qed.
Lemma frame_TcpClose cid : keeps Q (TcpClose (cl_data cl) (cl_close cl) (cl_udp cl) cid : act _).
Proof. unfold TcpClose, CloseConnection, with_channel. frame_op. Qed.

Lemma frame_open_loop attempts tried type host port ssl :
  keeps Q (open_loop (cl_data cl) (cl_close cl) (cl_udp cl) attempts tried type host port ssl : act _).
Proof.
  revert tried; induction attempts as [|k IH]; intros tried; cbn [Air780eHal.open_loop]; [frame_op|].
  unfold WaitForOpenResult, open_result, ArmOpenWait. repeat first [progress frame_op | apply IH].
Qed.
Lemma frame_TcpConnect host port ssl config : keeps Q (TcpConnect (cl_data cl) (cl_close cl) (cl_udp cl) host port ssl config : act _).
Proof.
  pose proof frame_open_loop as Hopen.
  unfold TcpConnect, OpenSocket, ReserveSocketForMode, ApplySslSwitch, with_channel, checked. frame_op; apply Hopen.
Qed.
End Frame.

#[export] Instance air780e_sockets_frame `{IModemLink W} : SocketHalFrame Air780eHal W.
Proof.
  split; intros U cl Q F; intros.
  - by apply frame_TcpConnect.
  - by apply frame_TcpSend.
  - by apply frame_TcpClose.
  - by apply frame_sleep.
Qed.
