(* ===== verification/Air780eTransport.v ===== *)
(** A socket of the AIR780E as a transport: what a client that waits on it hears is what
    the module held for it, and what it sends goes over the line as its payload. *)
From stdpp Require Import base decidable list strings gmap.
From Stdlib Require Import ZArith Ascii Lia.
From S2P Require Import Prelude Errors CommonTypes StateResult TcpTransport AtParser UrcDispatcher HalRoutes HalStreams.
From S2P Require Import HalTcpClient SocketHal ModemLink Air780eHal Air780eFrame Air780eModes Air780eOpen Air780eDrain.
From S2P Require Import HalTransport Air780eSockets.

(** * Waiting *)

Section Waiting.
Context {W : Type} `{IModemLink W}.
Local Abbreviation world := (hal_world Air780eHal W (HalTcpClient * socket)).
Implicit Types w : world.

(** What the engine's callbacks heard. *)
Definition heard_of (u : HalTcpClient * socket) : list tcp_event := sk_heard u.2.
Definition ev_of (cid : Z) (d : bytes) : tcp_event := EvData d.
Definition end_of (cid : Z) : tcp_event := EvDisconnected.

Lemma socks_note : noting (socks (H := Air780eHal) (W := W)) heard_of 0 ev_of end_of.
Proof.
  split.
  - intros cid d [r [h [l [c s]]]]. by eexists.
  - intros cid [r [h [l [c s]]]]. by do 2 eexists.
Qed.

(** The reader is running with nothing to do, and the socket is open. *)
Record attentive (cid : Z) w : Prop := {
  at_channel : channel_ (hal w) = true;
  at_reader : rx_task_ (hal w) = true;
  at_running : rx_stop_ (hal w) = false;
  at_rest : rx_pending_ (hal w) = replicate (Z.to_nat kMaxConnections) false;
  at_used : IsConnectionUsed (hal w) cid = true;
  at_tcp : udp (slot (hal w) cid) = false;
  at_open : serial_noted w cid = false;
}.

(** A line that announces data for [cid], as the dispatcher hands it over. *)
Definition announces (cid : Z) (handles : list (Z * urc_handler)) (i : invocation) : Prop :=
  (∃ n e, list_find (λ e, e.1 = iv_handle i) handles = Some (n, (e, HCiprxget))) ∧
  iv_arguments i = lit "1," ++ to_string cid.

Lemma announcement_fields cid : 0 <= cid < kMaxConnections →
  SplitCsv (lit "1," ++ to_string cid) = [lit "1"; to_string cid] ∧ ParseInt (Trim (to_string cid)) = Some cid.
Proof.
  unfold kMaxConnections. intros Hc. assert (cid = 0 ∨ cid = 1 ∨ cid = 2 ∨ cid = 3 ∨ cid = 4 ∨ cid = 5) as Hcs by lia.
  repeat destruct Hcs as [->|Hcs]; try subst cid; split; by_vm.
Qed.

Lemma announced cid w i : announces cid (urc_handles_ (hal w)) i → 0 <= cid < kMaxConnections →
  on_urc w i = set_hal (λ h, set_pending h cid true) w.
Proof.
  intros [(n & e & Hf) Ha] Hc. unfold on_urc. rewrite Hf. unfold set_hal. f_equal. f_equal. cbn [run_handler].
  rewrite Ha. unfold OnCiprxgetUrc. destruct (announcement_fields cid Hc) as [-> Hp]. cbn [length Nat.ltb Nat.leb field nth].
  rewrite Hp. assert (in_pool cid = true) as -> by (unfold in_pool; apply andb_true_intro; split; [apply Z.leb_le|apply Z.ltb_lt]; lia).
  done.
Qed.

(** The one connection with data waiting. *)
Lemma only_pending cid (h : Air780eHal) : rx_pending_ h = replicate (Z.to_nat kMaxConnections) false → 0 <= cid < kMaxConnections →
  omap (λ e : nat * bool, if e.2 then Some (Z.of_nat e.1) else None) (imap pair (rx_pending_ (set_pending h cid true))) = [cid].
Proof.
  intros E Hc. unfold kMaxConnections in *. unfold set_pending, set_entry. cbn [rx_pending_ set_rx]. rewrite E.
  assert (cid = 0 ∨ cid = 1 ∨ cid = 2 ∨ cid = 3 ∨ cid = 4 ∨ cid = 5) as Hcs by lia.
  repeat destruct Hcs as [->|Hcs]; try subst cid; by_vm.
Qed.

Context (held : W → Z → bytes) (Hheld : keeps_buffers held).

(** A client waits, the module announces its data, and the reader runs: the client hears
    what the module held, piece by piece and in order, and nothing else. *)
Lemma await_held cid ms w l i : live cid w → attentive cid w → silent (W := W) →
  pause ms (link w) = (l, [Line i; Reader]) → announces cid (urc_handles_ (hal w)) i →
  (length (held l cid) < kMaxDrainPerWake)%nat →
  ∃ w' ps, await ms w = (w', EvData <$> ps) ∧ concat ps = held l cid ∧ Forall (λ p, p ≠ []) ps.
Proof.
  intros (Hc & Hi & Hh & Hr) Hat Hs Hp Ha Hlen. destruct Hat. cbn [await hal_transport]. unfold delivering.
  rewrite <- Hh, set_heard_same. change (hal_sleep socks ms w) with (Air780eHal.sleep sock_data sock_close nobody_udp ms w).
  unfold Air780eHal.sleep. rewrite Hp. cbn [fold_left on_happening].
  assert (0 <= cid < kMaxConnections) as Hcid.
  { pose proof at_used0 as [[H1%Z.leb_le H2%Z.ltb_lt]%andb_prop _]%andb_prop. unfold kMaxConnections in *. lia. }
  rewrite (announced cid (set_link l w) i Ha Hcid). set (w1 := set_hal _ (set_link l w)).
  change (rx_task_ (hal w1)) with (rx_task_ (hal w)). rewrite at_reader0.
  set (w2 := set_hal (λ h, set_rx h (rx_peer_ h) ((λ _, false) <$> rx_pending_ h) (rx_close_serial_ h)) w1).
  assert (passing 0 held cid (subscription (tcp w)) w2) as Hpass.
  { split; [|exact at_used0|exact at_tcp0|].
    - split; [by change (tcp_routes w2.1) with (tcp_routes w.1); rewrite Hr, lookup_singleton_eq|].
      intros j s. change (tcp_routes w2.1) with (tcp_routes w.1). rewrite Hr. by intros [-> _]%lookup_singleton_Some.
    - change (link w2) with l. unfold kMaxDrainPerWake in Hlen. unfold INT_MAX. lia. }
  pose proof (DrainOneCid_passed socks heard_of 0 ev_of end_of socks_note held Hheld cid _ w2 at_channel0 Hpass) as Hd.
  unfold wp in Hd. cbn [socks cl_data cl_close cl_udp] in Hd.
  assert (ReceiveTurn sock_data sock_close nobody_udp w1 = drain_cids sock_data sock_close nobody_udp [cid] w2) as ->.
  { unfold ReceiveTurn, bind, gets. change (rx_stop_ (hal w1)) with (rx_stop_ (hal w)). rewrite at_running0. unfold take_pending.
    change (rx_pending_ (hal w1)) with (rx_pending_ (set_pending (hal w) cid true)).
    by rewrite (only_pending cid (hal w) at_rest0 Hcid). }
  cbn [drain_cids]. unfold bind, gets. change (rx_stop_ (hal w2)) with (rx_stop_ (hal w)). rewrite at_running0.
  destruct (DrainOneCid sock_data sock_close nobody_udp cid w2) as [w3 r] eqn:Ed. cbn [fst snd] in Hd.
  destruct Hd as (ps & closed & Eps & HF & En & _ & Hres). change (link w2) with l in *.
  change (noted heard_of w2) with (sk_heard (sock w)) in En. rewrite Hh in En. cbn [app] in En.
  destruct Hres as [(-> & -> & Hl)|(-> & Eh & _ & Hcl)].
  { rewrite <- Eps, length_app in Hlen. cbn in Hl. lia. }
  assert (closed = false) as ->.
  { destruct closed; [|done]. rewrite <- at_open0. symmetry. exact (Hcl Hs eq_refl). }
  rewrite Eh, app_nil_r in Eps. cbn [ret fst snd].
  unfold noted, heard_of in En. change (sk_heard w3.2.2.2.2) with (sk_heard (sock w3)) in En. rewrite app_nil_r in En.
  rewrite En. by eexists _, ps.
Qed.
End Waiting.

(** * Opening and sending, on the record *)

Section Recorded.
Context {W : Type} `{IModemLink W}.
Local Abbreviation world := (hal_world Air780eHal (W * list exchange) (HalTcpClient * socket)).
Local Abbreviation act := (op world NetworkError).
Implicit Types w : world.

Lemma socks_still : still_callbacks (sock_data (H := Air780eHal) (W := W * list exchange)) sock_close nobody_udp.
Proof.
  split; [| |done].
  - intros k cid d w. apply sock_data_same.
  - intros k cid [r [h [l [c s]]]]. unfold sock_close, call_close. by destruct (_ =? _)%nat.
Qed.

(** Something is on the record, and stays there. *)
Definition logged (x : exchange) w : Prop := x ∈ (link w).2.

Lemma logged_urcs x calls w : logged x (fold_left on_urc calls w) ↔ logged x w.
Proof.
  revert w; induction calls as [|i calls IH]; intros w; [done|]. cbn [fold_left]. rewrite IH. unfold on_urc.
  by destruct (list_find _ _) as [[n [hd k]]|].
Qed.

Lemma logged_command x cmd timeout : keeps (logged x) (command cmd timeout : act _).
Proof.
  intros w Hw. unfold command. cbn [at_command recorded_link]. destruct (at_command cmd timeout (link w).1) as [[l calls] r].
  cbn [fst]. apply logged_urcs. unfold logged in *. cbn. set_solver.
Qed.

Lemma logged_same x w w' : same w w' → logged x w → logged x w'.
Proof. unfold logged. by intros [_ ->]. Qed.

Lemma logged_RetireSlot x id : keeps (logged x) (RetireSlot id : act _).
Proof. intros w Hw. unfold RetireSlot. destruct (in_pool id); [|done]. by destruct (used _). Qed.
Lemma logged_hal x f : keeps (logged x) (modify (set_hal f) : act unit).
Proof. by apply keeps_modify. Qed.
Lemma logged_ReleaseConnectionId x id : keeps (logged x) (ReleaseConnectionId id : act _).
Proof.
  apply keeps_bind; [apply logged_RetireSlot|]. intros [m|]; [apply logged_hal|apply keeps_ret].
Qed.

Lemma logged_reader x : reader_frame sock_data sock_close nobody_udp any_id (logged x).
Proof.
  split.
  - done.
  - intros id. apply logged_command.
  - apply logged_ReleaseConnectionId.
  - intros id d w. apply logged_same. by apply (data_dispatch_same _ _ _ socks_still).
  - intros id w. apply logged_same. by apply (close_dispatch_same _ _ _ socks_still).
  - intros id host port d w. apply logged_same. by apply (udp_dispatch_same _ _ _ socks_still).
  - intros w _. apply any_ids.
Qed.

Lemma logged_sleep x ms : keeps (logged x) (Air780eHal.sleep sock_data sock_close nobody_udp ms : act _).
Proof.
  apply (sleep_frame_of _ _ _ _ _ (logged_reader x)); [intros i w; apply (logged_urcs x [i])|].
  intros w Hw. cbn [pause recorded_link]. destruct (pause ms (link w).1) as [l hs]. unfold logged in *. cbn. set_solver.
Qed.

Lemma logged_send_finish x cid data : keeps (logged x) (send_finish cid data : act _).
Proof.
  unfold send_finish. repeat first [apply keeps_bind; [|intros ?] | apply keeps_gets | apply keeps_if | apply keeps_fail | apply keeps_ret | apply logged_hal].
Qed.

Definition send_text (cid : Z) (data : bytes) : bytes :=
  snprintf_ 48 (lit "AT+CIPSEND=" ++ to_string cid ++ lit "," ++ to_string (Z.of_nat (length data))).

(** A send that succeeds was prompted for, and the module took its payload. *)
Lemma TcpSend_taken cid data w : wp (TcpSend sock_data sock_close nobody_udp cid data : act _)
  (λ r w', ∀ n, r = Ok n → logged (XData (send_text cid data) data (Ok ())) w') w.
Proof.
  unfold TcpSend, SendPayload, with_channel. wp_run. destruct (channel_ _); [|by wp_run]. destruct (in_pool cid); cbn [negb]; [|by wp_run].
  unfold send_begin. wp_run. set (w1 := set_hal _ w). apply wp_intro. intros w2 r E. unfold data_out in E.
  cbn [at_data recorded_link] in E. fold (send_text cid data) in E.
  destruct (at_data (send_text cid data) data kLongTimeout (link w1).1) as [[l calls] a]. injection E as <- <-. wp_run.
  destruct a as [[]|e]; wp_run; [|by destruct (PeerCloseNoted _ _); wp_run].
  match goal with |- wp _ _ ?v => assert (logged (XData (send_text cid data) data (Ok ())) v) as Hv end.
  { apply logged_urcs. unfold logged. cbn. set_solver. }
  eapply wp_mono; [apply (wp_keeps (logged (XData (send_text cid data) data (Ok ())))); [|exact Hv]|].
  - intros v Hx. unfold Air780eHal.wait_for. destruct (send_over cid v); [done|by apply logged_sleep].
  - intros [[]|e] v Hx; [|done]. eapply wp_mono; [apply (wp_keeps _ _ _ (logged_send_finish _ cid data) Hx)|]. done.
Qed.

(** The slot of a socket opened in [mode], for as long as it is in use. *)
Definition opened_as (mode : bool) (id : Z) w : Prop :=
  used (slot (hal w) id) = true → ssl (slot (hal w) id) = mode ∧ holds_mode (slot (hal w) id) = true.

Lemma opened_as_slots mode id w w' : slots_ (hal w') = slots_ (hal w) → opened_as mode id w → opened_as mode id w'.
Proof. unfold opened_as, slot. by intros ->. Qed.

Lemma opened_as_urcs mode id calls w : opened_as mode id w → opened_as mode id (fold_left on_urc calls w).
Proof. apply opened_as_slots. apply (urcs_framed calls w). Qed.

Lemma opened_as_command mode id cmd timeout : keeps (opened_as mode id) (command cmd timeout : act _).
Proof. intros w Hw. unfold command. destruct (at_command _ _ _) as [[l calls] r]. by apply opened_as_urcs. Qed.

Lemma opened_as_RetireSlot mode id i : keeps (opened_as mode id) (RetireSlot i : act _).
Proof.
  intros w Hw. unfold RetireSlot. destruct (in_pool i); [|done]. destruct (used (slot (hal w) i)); [|done]. cbn [negb fst].
  match goal with |- opened_as _ _ ?v =>
    assert (slots_ (hal v) = set_entry (slots_ (hal w)) i no_socket) as Es by reflexivity; revert Es; generalize v
  end.
  intros w2 Es. unfold opened_as, slot in *. rewrite Es. destruct (decide (Z.to_nat i = Z.to_nat id)) as [E|Hne]; [|by rewrite entry_other].
  assert (entry (set_entry (slots_ (hal w)) i no_socket) id no_socket = no_socket ∨
    set_entry (slots_ (hal w)) i no_socket = slots_ (hal w)) as [->| ->]; [|done|done].
  unfold entry at 1. rewrite <- E. destruct (entry_same (slots_ (hal w)) i no_socket no_socket) as [?|[? _]]; [by left|by right].
Qed.

Lemma opened_as_hal mode id f : (∀ h, slots_ (f h) = slots_ h) → keeps (opened_as mode id) (modify (set_hal f) : act unit).
Proof. intros Hf. apply keeps_modify. intros w. apply opened_as_slots. apply Hf. Qed.
Lemma opened_as_ReleaseConnectionId mode id i : keeps (opened_as mode id) (ReleaseConnectionId i : act _).
Proof.
  apply keeps_bind; [apply opened_as_RetireSlot|]. intros [m|]; [|apply keeps_ret]. apply opened_as_hal. intros h. by destruct m.
Qed.

Lemma opened_as_same mode id w w' : same w w' → opened_as mode id w → opened_as mode id w'.
Proof. intros [E _]. apply opened_as_slots. by rewrite E. Qed.

Lemma opened_as_reader mode id : reader_frame sock_data sock_close nobody_udp any_id (opened_as mode id).
Proof.
  split.
  - intros f w Hf. apply opened_as_slots. by apply (reader_update_kept any_id f).
  - intros i. apply opened_as_command.
  - apply opened_as_ReleaseConnectionId.
  - intros i d w. apply opened_as_same. by apply (data_dispatch_same _ _ _ socks_still).
  - intros i w. apply opened_as_same. by apply (close_dispatch_same _ _ _ socks_still).
  - intros i host port d w. apply opened_as_same. by apply (udp_dispatch_same _ _ _ socks_still).
  - intros w _. apply any_ids.
Qed.

Lemma opened_as_sleep mode id ms : keeps (opened_as mode id) (Air780eHal.sleep sock_data sock_close nobody_udp ms : act _).
Proof. apply (sleep_frame_of _ _ _ _ _ (opened_as_reader mode id)); [intros i w; apply (opened_as_urcs mode id [i])|done]. Qed.

Lemma opened_as_TcpSend mode id cid data : keeps (opened_as mode id) (TcpSend sock_data sock_close nobody_udp cid data : act _).
Proof.
  assert (∀ cmd d timeout, keeps (opened_as mode id) (data_out cmd d timeout : act _)) as Hdata.
  { intros cmd d timeout w Hw. unfold data_out. destruct (at_data _ _ _ _) as [[l calls] r]. by apply opened_as_urcs. }
  assert (∀ timeout pred, keeps (opened_as mode id) (Air780eHal.wait_for sock_data sock_close nobody_udp timeout pred : act _)) as Hwait.
  { intros timeout pred w Hw. unfold Air780eHal.wait_for. destruct (pred w); [done|by apply opened_as_sleep]. }
  assert (∀ f : Air780eHal → list SendWait, keeps (opened_as mode id) (modify (set_hal (λ h, set_send_wait h (f h))) : act unit)) as Hset.
  { intros f. by apply opened_as_hal. }
  unfold TcpSend, SendPayload, with_channel, send_begin, send_finish.
  repeat first [ apply keeps_ret | apply keeps_fail | apply keeps_gets | apply Hdata | apply Hwait
    | apply opened_as_hal; intros h; cbv zeta; by repeat case_match | apply keeps_bind; [|intros ?] | apply keeps_if | case_match ].
Qed.

Lemma trivially_kept {A} (m : act A) : keeps (λ _, True) m.
Proof. by intros w _. Qed.

(** A socket that is opened has its slot marked with its mode. *)
Lemma TcpConnect_opened_as host port mode config w :
  wp (TcpConnect sock_data sock_close nobody_udp host port mode config : act _) (λ r w', ∀ id, r = Ok id → opened_as mode id w') w.
Proof.
  set (Q := λ (r : Result Z) w', ∀ id, r = Ok id → opened_as mode id w').
  assert (∀ {A} (m : act A) (k : A → act Z) v, (∀ a v, wp (k a) Q v) → wp (bind m k) Q v) as Hseq.
  { intros A m k v Hk. by apply (wp_through (λ _, True)); [apply trivially_kept| |auto|]. }
  assert (∀ e v, wp (fail e : act Z) Q v) as Hfail by (intros e v; by apply wp_fail).
  assert (∀ n tried v, wp (open_loop sock_data sock_close nobody_udp n tried (lit "TCP") host port mode : act _) Q v) as Hloop.
  { induction n as [|n IH]; intros tried v; cbn [open_loop]; [by apply Hseq|].
    apply Hseq. intros id v1. destruct (id <? 0); [by apply Hseq|]. do 2 (apply Hseq; intros _ ?). apply Hseq. intros [[]|e] v4.
    - apply Hseq. intros [[]|e] v5; cycle 1. { destruct (_ =? _); apply Hseq; intros _ ?; [apply IH|by apply Hseq]. }
      wp_run. intros id' [= <-]. unfold opened_as. cbv zeta. set (s := MkSocketSlot (used (slot (hal v5) id)) (udp (slot (hal v5) id)) mode true (serial (slot (hal v5) id))).
      change (slot (hal (set_hal _ v5)) id) with (entry (set_entry (slots_ (hal v5)) id s) id no_socket).
      destruct (entry_same (slots_ (hal v5)) id s no_socket) as [->|[-> ->]]; done.
    - apply Hseq. intros _ ?. by apply Hseq. }
  unfold TcpConnect, with_channel. apply Hseq. intros set v. destruct set; [|apply Hfail]. cbv zeta. case_decide; [apply Hfail|].
  unfold OpenSocket. by apply Hseq.
Qed.

Lemma balanced_same a b w w' : same w w' → balanced a b w → balanced a b w'.
Proof.
  intros [Eh El] Hb. apply (balanced_framed a b w); [done|by rewrite Eh|]. unfold log. by rewrite El.
Qed.
Lemma sock_fair : fair_callbacks (sock_data (H := Air780eHal) (W := W * list exchange)) sock_close nobody_udp.
Proof.
  split; intros; (eapply balanced_same; [|eassumption]); [apply (still_data _ _ _ socks_still)|apply (still_close _ _ _ socks_still)|done].
Qed.

(** While a socket is in use, the module's switch stands where its mode needs it. *)
Lemma switch_stands mode id w : balanced 0 0 w → opened_as mode id w → IsConnectionUsed (hal w) id = true →
  last_switch (log w) = Some mode.
Proof.
  intros Hb Ho [Hp Hu]%andb_prop. destruct (Ho Hu) as [Hm Hh].
  assert (0 < holders mode (slots_ (hal w))) as Hpos.
  { unfold holders. unfold slot, entry in *. set (l := slots_ (hal w)) in *.
    destruct (decide (Z.to_nat id < length l)%nat) as [Hl|Hl]; [|by rewrite nth_overflow in Hu by lia].
    destruct (lookup_lt_is_Some_2 l (Z.to_nat id) Hl) as [s Es]. rewrite (nth_lookup_Some _ _ _ _ Es) in *.
    destruct (filter _ l) as [|s0 rest] eqn:Ef; [|cbn; lia]. exfalso.
    assert (s ∈ filter (λ s, holder mode s = true) l) as Hin.
    { apply list_elem_of_filter. split; [|by eapply list_elem_of_lookup_2]. unfold holder. rewrite Hu, Hh, Hm. by destruct mode. }
    rewrite Ef in Hin. by apply elem_of_nil in Hin. }
  destruct Hb as [_ Hs Hpl _ Hon Hoff]. destruct mode; [apply Hon|apply Hoff]; lia.
Qed.

(** An opening and a send, from a balanced state to a balanced one. *)
Lemma TcpConnect_keeps host port mode config : keeps (balanced 0 0) (TcpConnect sock_data sock_close nobody_udp host port mode config : act _).
Proof.
  apply keeps_with_channel. cbv zeta. case_decide; [apply keeps_fail|]. by apply (keeps_OpenSocket _ _ _ sock_fair).
Qed.
Lemma TcpSend_keeps cid data : keeps (balanced 0 0) (TcpSend sock_data sock_close nobody_udp cid data : act _).
Proof. by apply (keeps_SendPayload _ _ _ sock_fair). Qed.

(** What was opened in [mode] and has been sent on stands under that mode's switch, as
    long as the socket is in use. *)
Lemma sent_under_mode host port mode config id data n w wm w1 w2 : balanced 0 0 w →
  TcpConnect sock_data sock_close nobody_udp host port mode config w = (wm, Ok id) → same wm w1 →
  TcpSend sock_data sock_close nobody_udp id data w1 = (w2, Ok n) →
  IsConnectionUsed (hal w2) id = true → last_switch (log w2) = Some mode.
Proof.
  intros Hb Ec Hsame Es Hu. pose proof (TcpConnect_keeps host port mode config w Hb) as Hb1.
  pose proof (TcpConnect_opened_as host port mode config w) as Ho. unfold wp in Ho. rewrite Ec in Hb1, Ho.
  pose proof (TcpSend_keeps id data w1 (balanced_same _ _ _ _ Hsame Hb1)) as Hb2.
  pose proof (opened_as_TcpSend mode id id data w1 (opened_as_same _ _ _ _ Hsame (Ho id eq_refl))) as Ho2.
  rewrite Es in Hb2, Ho2. by eapply switch_stands.
Qed.
End Recorded.
