(* ===== verification/CellularDevice.v ===== *)
(** [CellularDevice] (src/src/device/cellular_device.{h,cpp}) and the registry it
    finds its module in (src/src/hal/module_registry.{h,cpp}).

    A device is a HAL, everything it runs with, and the channel to the module:
    [H * C]. [Initialize] and the other operations are the HAL's, by the interface
    [IHal]; the two modules are its instances. A [std::unique_ptr] that may be
    null is an option. *)
From stdpp Require Import base decidable list strings gmap.
From Stdlib Require Import ZArith Ascii Lia.
From S2P Require Import Prelude Errors CommonTypes StateResult AtParser UrcDispatcher AtChannel BaudAlignment HalRoutes.
From S2P Require Import ModemLink Ml307Hal Air780eHal.

(** * The registry *)

(** [detect] and [create] are function pointers; [create] may return null. *)
Record ModuleEntry (C H : Type) := MkModuleEntry {
  entry_type : ModuleType;
  entry_name : bytes;
  entry_detect : option (C → C * bool);
  entry_create : option (option H);
}.
Arguments entry_type {C H} _.
Arguments entry_name {C H} _.
Arguments entry_detect {C H} _.
Arguments entry_create {C H} _.
Arguments MkModuleEntry {C H}.

Section Registry.
Context {C H : Type}.
Implicit Types entries : list (ModuleEntry C H).

Definition Register entries (entry : ModuleEntry C H) : list (ModuleEntry C H) := entries ++ [entry].

(** [None] is a call through a null [create]. *)
Fixpoint DetectModule entries (c : C) : option (C * Result H) :=
  match entries with
  | [] => Some (c, Err (NotSupported "no compatible module detected"))
  | entry :: entries =>
      match entry_detect entry with
      | None => DetectModule entries c
      | Some detect =>
          let '(c, found) := detect c in
          if negb found then DetectModule entries c else
          match entry_create entry with
          | None => None
          | Some None => DetectModule entries c
          | Some (Some hal) => Some (c, Ok hal)
          end
      end
  end.

Fixpoint CreateModule entries (type : ModuleType) : Result H :=
  match entries with
  | [] => Err (NotSupported "module type not registered")
  | entry :: entries =>
      if decide (entry_type entry = type) then
        match entry_create entry with
        | Some (Some hal) => Ok hal
        | _ => CreateModule entries type
        end
      else CreateModule entries type
  end.
End Registry.

(** What the registrars of the two modules add. *)
Definition ml307_entry `{IAtChannel C} {H} (create : H) : ModuleEntry C H :=
  MkModuleEntry kMl307 (lit "ML307") (Some DetectMl307) (Some (Some create)).
Definition air780e_entry `{IAtChannel C} {H} (create : H) : ModuleEntry C H :=
  MkModuleEntry kAir780E (lit "AIR780E") (Some DetectAir780e) (Some (Some create)).

(** * The HAL, as a device uses it *)

(** The identity queries are [None] where the code calls through a channel that is
    not set. *)
Class IHal (H C : Type) := {
  hal_initialize : op (H * C) NetworkError unit;
  hal_reset : op (H * C) NetworkError unit;
  hal_configure_apn : ApnConfig → op (H * C) NetworkError unit;
  hal_registration : H * C → (H * C) * RegistrationState;
  hal_sim : H * C → (H * C) * SimState;
  hal_signal : H * C → (H * C) * SignalInfo;
  hal_flight_mode : bool → op (H * C) NetworkError unit;
  hal_enter_sleep : SleepConfig → op (H * C) NetworkError unit;
  hal_exit_sleep : op (H * C) NetworkError unit;
  hal_imei : H * C → option ((H * C) * Result bytes);
  hal_iccid : H * C → option ((H * C) * Result bytes);
  hal_revision : H * C → option ((H * C) * Result bytes);
  hal_carrier : H * C → option ((H * C) * Result bytes);
  (** [platform::Sleep] and [std::chrono::steady_clock::now], in milliseconds. *)
  device_sleep : Z → H * C → H * C;
  device_now : H * C → Z;
}.

(** * Operations *)

Section Device.
Context {H C : Type} `{IAtChannel C} `{IHal H C}.

(** [CreateUart] and the channel over it. *)
Definition OpenChannel (create_uart : option C) (device : bytes) : Result C :=
  match create_uart with
  | None => Err (MkNetworkError kInvalidArgument 0 (lit "failed to open UART " ++ device))
  | Some channel => Ok channel
  end.

Definition Assemble (hal : H) (c : C) : (H * C) * Result unit := hal_initialize (hal, c).

Definition AlignBeforeIdentify (c : C) : C * Z :=
  let requested := ch_baud c in
  if 0 <? requested then ((FindModuleBaudRate c (BaudRateCandidates requested)).1, requested) else (c, requested).

Definition AlignAfterIdentify (c : C) (requested : Z) : C * Result unit :=
  if requested <=? 0 then (c, Ok ()) else
  match SetModuleBaudRate c requested with
  | (c, Err e) => (c, Err (ToNetworkError e))
  | (c, Ok _) => (c, Ok ())
  end.

(** What a factory leaves: a device, or the channel it gave up with. *)
Definition created : Type := (H * C) + (C * NetworkError).

Definition BringUp (c : C) (identify : C → option (C * Result H)) : option created :=
  let '(c, requested) := AlignBeforeIdentify c in
  match identify c with
  | None => None
  | Some (c, Err e) => Some (inr (c, e))
  | Some (c, Ok hal) =>
      Some (match AlignAfterIdentify c requested with
            | (c, Err e) => inr (c, e)
            | (c, Ok _) => match Assemble hal c with
                           | (d, Ok _) => inl d
                           | (d, Err e) => inr (d.2, e)
                           end
            end)
  end.

(** Over a channel; [None] inside is a null one. *)
Definition no_channel : NetworkError := net_error kInvalidArgument "AT channel must not be null".

Definition Detect (entries : list (ModuleEntry C H)) (channel : option C) : option (result NetworkError created) :=
  match channel with
  | None => Some (Err no_channel)
  | Some c => Ok <$> BringUp c (DetectModule entries)
  end.

Definition Create (entries : list (ModuleEntry C H)) (type : ModuleType) (channel : option C) : option (result NetworkError created) :=
  match channel with
  | None => Some (Err no_channel)
  | Some c => Ok <$> BringUp c (λ c, Some (c, CreateModule entries type))
  end.

(** Over a UART of its own. *)
Definition DetectOn (entries : list (ModuleEntry C H)) (create_uart : option C) (device : bytes) : option (result NetworkError created) :=
  match OpenChannel create_uart device with
  | Err e => Some (Err e)
  | Ok c => Ok <$> BringUp c (DetectModule entries)
  end.

Definition CreateOn (entries : list (ModuleEntry C H)) (type : ModuleType) (create_uart : option C) (device : bytes)
  : option (result NetworkError created) :=
  match OpenChannel create_uart device with
  | Err e => Some (Err e)
  | Ok c => Ok <$> BringUp c (λ c, Some (c, CreateModule entries type))
  end.

(** The loop of [WaitForNetwork], so many polls at most. *)
Fixpoint wait_loop (polls : nat) (start timeout : Z) (d : H * C) : option ((H * C) * Result RegistrationState) :=
  match polls with
  | O => None
  | S k =>
      let '(d, state) := hal_registration d in
      if decide (state = kRegisteredHome ∨ state = kRegisteredRoaming) then Some (d, Ok state)
      else if timeout <=? device_now d - start then
        Some (d, Err (net_error kTimeout "timeout waiting for network registration"))
      else wait_loop k start timeout (device_sleep 1000 d)
  end.

Definition WaitForNetwork (polls : nat) (timeout : Z) (d : H * C) : option ((H * C) * Result RegistrationState) :=
  wait_loop polls (device_now d) timeout d.

Definition Reboot : op (H * C) NetworkError unit := hal_reset.
Definition SetSleepMode (enable : bool) (config : SleepConfig) : op (H * C) NetworkError unit :=
  if enable then hal_enter_sleep config else hal_exit_sleep.
Definition GetSignalStrength (d : H * C) : (H * C) * Result Z := let '(d, s) := hal_signal d in (d, Ok (rssi s)).
End Device.
Arguments created : clear implicits.

(** * The two modules as HALs *)

Section Instances.
Context {K W U HAL : Type} `{IModemLink W}.
Local Abbreviation world := (IModuleHal K * (HAL * (W * U)))%type.
Local Abbreviation device := ((IModuleHal K * HAL * U) * W)%type.

Definition to_world (d : device) : world := (d.1.1.1, (d.1.1.2, (d.2, d.1.2))).
Definition to_device (w : world) : device := ((w.1, w.2.1, w.2.2.2), w.2.2.1).

Definition on_device {A} (m : world → world * A) (d : device) : device * A :=
  let '(w, a) := m (to_world d) in (to_device w, a).
(** For the queries that answer whatever happens. *)
Definition answered {A} (default_ : A) (m : op world NetworkError A) (d : device) : device * A :=
  let '(d, r) := on_device m d in (d, match r with Ok a => a | Err _ => default_ end).
Definition guarded (m : world → option (world * Result bytes)) (d : device) : option (device * Result bytes) :=
  match m (to_world d) with Some (w, r) => Some (to_device w, r) | None => None end.
End Instances.

Section Ml307.
Context {K W U : Type} `{IModemLink W}.
Local Abbreviation world := (IModuleHal K * (Ml307Hal * (W * U)))%type.
Context (call_data : K → Z → bytes → world → world) (call_close : K → Z → world → world).
Context (call_udp : K → Z → bytes → Z → bytes → world → world).
Context (on_network_state : option (RegistrationState → world → world)).

Definition ml307_device : IHal (IModuleHal K * Ml307Hal * U) W := {|
  hal_initialize := on_device (Ml307Hal.Initialize call_data call_close call_udp on_network_state);
  hal_reset := on_device (Ml307Hal.Reset call_data call_close call_udp on_network_state);
  hal_configure_apn config := on_device (Ml307Hal.ConfigureApn call_data call_close call_udp on_network_state config);
  hal_registration := answered kRegistrationUnknown (Ml307Hal.GetRegistrationState call_data call_close call_udp on_network_state);
  hal_sim := answered kSimUnknown (Ml307Hal.GetSimState call_data call_close call_udp on_network_state);
  hal_signal := answered default_signal (Ml307Hal.GetSignalInfo call_data call_close call_udp on_network_state);
  hal_flight_mode enable := on_device (Ml307Hal.SetFlightMode call_data call_close call_udp on_network_state enable);
  hal_enter_sleep _ := on_device (Ml307Hal.EnterSleep call_data call_close call_udp on_network_state);
  hal_exit_sleep := on_device (Ml307Hal.ExitSleep call_data call_close call_udp on_network_state);
  hal_imei := guarded (Ml307Hal.GetImei call_data call_close call_udp on_network_state);
  hal_iccid := guarded (Ml307Hal.GetIccid call_data call_close call_udp on_network_state);
  hal_revision := guarded (Ml307Hal.GetRevision call_data call_close call_udp on_network_state);
  hal_carrier := guarded (Ml307Hal.GetCarrier call_data call_close call_udp on_network_state);
  device_sleep ms d := (on_device (Ml307Hal.sleep call_data call_close call_udp on_network_state ms) d).1;
  device_now d := steady_now d.2;
|}.
End Ml307.

Section Air780e.
Context {K W U : Type} `{IModemLink W}.
Local Abbreviation world := (IModuleHal K * (Air780eHal * (W * U)))%type.
Context (call_data : K → Z → bytes → world → world) (call_close : K → Z → world → world).
Context (call_udp : K → Z → bytes → Z → bytes → world → world).

Definition air780e_device : IHal (IModuleHal K * Air780eHal * U) W := {|
  hal_initialize := on_device (Air780eHal.Initialize call_data call_close call_udp);
  hal_reset := on_device Air780eHal.Reset;
  hal_configure_apn config := on_device (Air780eHal.ConfigureApn config);
  hal_registration := answered kRegistrationUnknown Air780eHal.GetRegistrationState;
  hal_sim := answered kSimUnknown Air780eHal.GetSimState;
  hal_signal := answered default_signal Air780eHal.GetSignalInfo;
  hal_flight_mode enable := on_device (Air780eHal.SetFlightMode enable);
  hal_enter_sleep config := on_device (Air780eHal.EnterSleep config);
  hal_exit_sleep := on_device Air780eHal.ExitSleep;
  hal_imei := guarded Air780eHal.GetImei;
  hal_iccid := guarded Air780eHal.GetIccid;
  hal_revision := guarded Air780eHal.GetRevision;
  hal_carrier := guarded Air780eHal.GetCarrier;
  device_sleep ms d := (on_device (Air780eHal.sleep call_data call_close call_udp ms) d).1;
  device_now d := steady_now d.2;
|}.
End Air780e.

(** * What is sent before the module is known *)

(** Any channel, with a record of the commands sent. *)
#[export] Instance logged_channel `{IAtChannel C} : IAtChannel (C * list bytes) := {|
  ch_send c cmd timeout := let '(c1, r) := ch_send c.1 cmd timeout in ((c1, c.2 ++ [cmd]), r);
  ch_lines c := ch_lines c.1;
  ch_baud c := ch_baud c.1;
  ch_set_baud c rate := let '(c1, r) := ch_set_baud c.1 rate in ((c1, c.2), r);
|}.

(** The command that has the module keep a rate. *)
Definition writes_rate (cmd : bytes) : bool := starts_with (lit "AT+IPR=") cmd && negb (bool_decide (cmd = lit "AT+IPR=?")).

Section Writes.
Context {C : Type} `{IAtChannel C}.
Local Abbreviation channel := (C * list bytes)%type.
Implicit Types c : channel.

Definition asked c c' : Prop := ∃ l, c'.2 = c.2 ++ l ∧ Forall (λ cmd, writes_rate cmd = false) l.

Lemma asked_refl c : asked c c.
Proof. exists []. by rewrite app_nil_r. Qed.
Lemma asked_trans c c1 c2 : asked c c1 → asked c1 c2 → asked c c2.
Proof.
  intros (l & E & Hl) (l' & E' & Hl'). exists (l ++ l'). rewrite E', E, app_assoc. split; [done|by apply Forall_app].
Qed.

Lemma ch_send_asked c cmd timeout : writes_rate cmd = false → asked c (ch_send c cmd timeout).1.
Proof. intros Hw. cbn. destruct (ch_send c.1 cmd timeout) as [c1 r]. exists [cmd]. split; [done|by constructor]. Qed.
Lemma ch_set_baud_asked c rate : asked c (ch_set_baud c rate).1.
Proof. cbn. destruct (ch_set_baud c.1 rate) as [c1 r]. exists []. by rewrite app_nil_r. Qed.

Lemma MoveHostTo_asked c rate : asked c (MoveHostTo c rate).1.
Proof.
  unfold MoveHostTo. destruct (_ =? _); [apply asked_refl|]. pose proof (ch_set_baud_asked c rate) as Hs.
  by destruct (ch_set_baud c rate) as [c1 [|]].
Qed.

Lemma QueryLines_asked c cmd timeout : writes_rate cmd = false → asked c (QueryLines c cmd timeout).1.
Proof.
  intros Hw. unfold QueryLines, send_lines. pose proof (ch_send_asked c cmd timeout Hw).
  by destruct (ch_send c cmd timeout) as [c1 [|]].
Qed.

Lemma probe_loop_asked candidates tried c : asked c (probe_loop candidates tried c).1.1.
Proof.
  revert tried c; induction candidates as [|rate cs IH]; intros tried c; cbn [probe_loop]; [apply asked_refl|].
  destruct (rate <=? 0); [done|]. destruct (bool_decide _); [done|].
  pose proof (MoveHostTo_asked c rate) as Hm. destruct (MoveHostTo c rate) as [c1 [|]]; cbn [negb fst] in *;
    [|by eapply asked_trans].
  pose proof (QueryLines_asked c1 (lit "AT+IPR?") kQueryTimeout eq_refl) as Hq.
  destruct (QueryLines c1 _ _) as [c2 [ls|e]]; cbn [fst] in *; [by eapply asked_trans|].
  eapply asked_trans; [exact Hm|]. by eapply asked_trans.
Qed.

Lemma AlignBeforeIdentify_asked c : asked c (AlignBeforeIdentify c).1.
Proof.
  unfold AlignBeforeIdentify, FindModuleBaudRate. destruct (0 <? _); [|apply asked_refl]. cbn [fst].
  destruct (_ <=? 0); [apply asked_refl|]. pose proof (probe_loop_asked (BaudRateCandidates (ch_baud c)) [] c) as Hp.
  destruct (probe_loop _ _ c) as [[c1 [rate|]] tried]; cbn [fst] in *; [done|].
  eapply asked_trans; [exact Hp|apply ch_set_baud_asked].
Qed.

(** A [detect] that asks, as both modules' do. *)
Definition asks (detect : channel → channel * bool) : Prop := ∀ c, asked c (detect c).1.

Lemma two_questions_ask (say : bytes) : asks (λ c, let '(c, r) := ch_send c (lit "AT") 1000 in
  match r with
  | Err _ => (c, false)
  | Ok _ => let '(c, r) := ch_send c (lit "AT+CGMR") 1000 in
            match r with
            | Err _ => (c, false)
            | Ok _ => (c, existsb (λ line, bool_decide (find_sub say line ≠ None)) (ch_lines c))
            end
  end).
Proof.
  intros c. pose proof (ch_send_asked c (lit "AT") 1000 eq_refl) as H1.
  destruct (ch_send c (lit "AT") 1000) as [c1 [|]]; cbn [fst] in *; [|done].
  pose proof (ch_send_asked c1 (lit "AT+CGMR") 1000 eq_refl) as H2.
  destruct (ch_send c1 (lit "AT+CGMR") 1000) as [c2 [|]]; cbn [fst] in *; by eapply asked_trans.
Qed.

Context {HAL : Type} `{IHal HAL (C * list bytes)}.

Lemma DetectModule_asked (entries : list (ModuleEntry channel HAL)) c c' r :
  Forall (λ e, ∀ d, entry_detect e = Some d → asks d) entries → DetectModule entries c = Some (c', r) → asked c c'.
Proof.
  intros HF. revert c; induction HF as [|e es He HF IH]; intros c; cbn [DetectModule]; [intros [= <- _]; apply asked_refl|].
  destruct (entry_detect e) as [d|]; [|by apply IH]. specialize (He d eq_refl c). destruct (d c) as [c1 [|]]; cbn [negb fst] in *.
  - destruct (entry_create e) as [[hal|]|]; [by intros [= <- _]|intros E; eapply asked_trans; [exact He|by apply IH]|done].
  - intros E. eapply asked_trans; [exact He|by apply IH].
Qed.

(** C29: a module that is not identified is not reconfigured. Detection over any
    channel, with the modules this library knows registered in any order and any
    number: if it does not find its module, the device is not created, the error
    is detection's, and no command that has a module keep a rate was sent. *)
Theorem unidentified_not_reconfigured (entries : list (ModuleEntry channel HAL)) c c' e :
  Forall (λ en, ∃ hal, en = ml307_entry hal ∨ en = air780e_entry hal) entries →
  DetectModule entries (AlignBeforeIdentify c).1 = Some (c', Err e) →
  Detect entries (Some c) = Some (Ok (inr (c', e))) ∧ ∃ l, c'.2 = c.2 ++ l ∧ Forall (λ cmd, writes_rate cmd = false) l.
Proof.
  intros HF E. split.
  - unfold Detect, BringUp. destruct (AlignBeforeIdentify c) as [c1 requested]. cbn [fst] in E. by rewrite E.
  - change (asked c c'). eapply asked_trans; [apply AlignBeforeIdentify_asked|]. eapply DetectModule_asked; [|exact E].
    eapply Forall_impl; [exact HF|]. intros en [hal [-> | ->]] d [= <-]; apply two_questions_ask.
Qed.
End Writes.

(** * Waiting for the network *)

Section Waiting.
Context {H C : Type} `{IHal H C}.

(** Time does not run back, and a sleep lasts. *)
Record clock : Prop := {
  ck_registration : ∀ d, device_now d <= device_now (hal_registration d).1;
  ck_sleep : ∀ ms d, 0 <= ms → device_now d + ms <= device_now (device_sleep ms d);
}.

Lemma wait_loop_ends start timeout polls d : clock → start + timeout - device_now d < 1000 * Z.of_nat polls - 1000 + 1 → (1 <= polls)%nat →
  ∃ d' r, wait_loop polls start timeout d = Some (d', r) ∧
    match r with
    | Ok state => (state = kRegisteredHome ∨ state = kRegisteredRoaming) ∧ ∃ d0, hal_registration d0 = (d', state)
    | Err e => e = net_error kTimeout "timeout waiting for network registration" ∧ timeout <= device_now d' - start
    end.
Proof.
  intros [Hr Hs]. revert d; induction polls as [|k IH]; intros d Hd Hk; [lia|]. cbn [wait_loop].
  specialize (Hr d) as Hrd. destruct (hal_registration d) as [d1 state] eqn:E1. cbn [fst] in Hrd.
  case_decide; [exists d1, (Ok state); split; [done|]; split; [done|by exists d]|].
  destruct (Z.leb_spec timeout (device_now d1 - start)); [by eexists _, _|].
  apply IH; [|lia]. specialize (Hs 1000 d1). lia.
Qed.

(** waiting for the network ends. A timeout of [timeout] ms takes at most
    [timeout / 1000 + 2] polls, whatever the module answers; the wait returns the
    state of its last poll if that is home or roaming, and otherwise fails, and
    not before the timeout has passed. *)
Theorem WaitForNetwork_ends timeout d : clock → 0 <= timeout →
  ∃ d' r, WaitForNetwork (Z.to_nat (timeout / 1000 + 2)) timeout d = Some (d', r) ∧
    match r with
    | Ok state => (state = kRegisteredHome ∨ state = kRegisteredRoaming) ∧ ∃ d0, hal_registration d0 = (d', state)
    | Err e => e = net_error kTimeout "timeout waiting for network registration" ∧ timeout <= device_now d' - device_now d
    end.
Proof.
  intros Hc Ht. pose proof (Z.div_mod timeout 1000). pose proof (Z.mod_pos_bound timeout 1000).
  apply wait_loop_ends; [done|lia|]. lia.
Qed.
End Waiting.

(** * A device to try things on *)

(** Registration states to report, one per poll, and a clock. *)
Definition scripted_hal : Type := list RegistrationState * Z.

#[export] Instance scripted_device {C} : IHal scripted_hal C := {|
  hal_initialize := ret ();
  hal_reset := ret ();
  hal_configure_apn _ := ret ();
  hal_registration d :=
    let '((states, now), c) := d in
    match states with
    | [] => (d, kSearching)
    | state :: states => (((states, now + 300), c), state)
    end;
  hal_sim d := (d, kSimReady);
  hal_signal d := (d, default_signal);
  hal_flight_mode _ := ret ();
  hal_enter_sleep _ := ret ();
  hal_exit_sleep := ret ();
  hal_imei _ := None;
  hal_iccid _ := None;
  hal_revision _ := None;
  hal_carrier _ := None;
  device_sleep ms d := ((d.1.1, d.1.2 + ms), d.2);
  device_now d := d.1.2;
|}.

Lemma scripted_clock {C} : clock (H := scripted_hal) (C := C).
Proof.
  constructor.
  - intros [[[|s states] now] c]; cbn; lia.
  - intros ms d Hms. cbn. lia.
Qed.

(** A module at another rate than the port that answers neither question. *)
Definition stranger : bench * list bytes := (MkBench 115200 921600 0 0 [], []).
Definition known_modules : list (ModuleEntry (bench * list bytes) scripted_hal) := [ml307_entry ([], 0); air780e_entry ([], 0)].

Lemma unidentified_not_reconfigured_witness :
  let gone := (MkBench 921600 921600 0 0 [lit "+IPR: 921600"], [lit "AT+IPR?"; lit "AT+IPR?"; lit "AT"; lit "AT"]) in
  Detect known_modules (Some stranger) = Some (Ok (inr (gone, NotSupported "no compatible module detected"))) ∧
  ∃ l, gone.2 = stranger.2 ++ l ∧ Forall (λ cmd, writes_rate cmd = false) l.
Proof.
  apply (unidentified_not_reconfigured known_modules stranger).
  - repeat (apply Forall_cons_2 || apply Forall_nil_2); exists ([], 0); [by left|by right].
  - vm_compute. reflexivity.
Defined.

Lemma WaitForNetwork_ends_witness :
  ∃ d' r, WaitForNetwork 4 2500 (([kSearching; kNotRegistered; kRegisteredRoaming], 0), ()) = Some (d', r) ∧
    (WaitForNetwork 4 2500 (([kSearching; kNotRegistered; kRegisteredRoaming], 0), ())) = Some (([], 2900), (), Ok kRegisteredRoaming).
Proof.
  destruct (WaitForNetwork_ends 2500 (([kSearching; kNotRegistered; kRegisteredRoaming], 0), ()) scripted_clock) as (d' & r & E & _).
  { lia. }
  exists d', r. split; [exact E|]. vm_compute. reflexivity.
Defined.
