(* ===== verification/HttpRequest.v ===== *)
(** URLs, requests and redirects (src/src/protocol/http/http_request_builder.cpp
    and http_redirect.cpp). *)
From stdpp Require Import base decidable list strings gmap.
From Stdlib Require Import ZArith Ascii Lia.
From S2P Require Import Prelude Errors AtParser.

(** * URLs *)

Record ParsedUrl := MkParsedUrl {
  u_tls : bool;
  u_host : bytes;
  u_port : Z;
  u_path : bytes;
}.

#[export] Instance ParsedUrl_eq_dec : EqDecision ParsedUrl.
Proof. solve_decision. Defined.

Definition kDefaultHttpPort : Z := 80.
Definition kDefaultHttpsPort : Z := 443.

Definition UrlError (context : string) : NetworkError := net_error kInvalidArgument context.

(** The authority's host and port, userinfo already gone. *)
Definition parse_authority (default_port : Z) (authority : bytes) : Result (bytes * Z) :=
  match rfind_byte ":" authority with
  | None => Ok (authority, default_port)
  | Some colon =>
      match ParseInt (drop (colon + 1) authority) with
      | Some port =>
          if (port <=? 0) || (port >? 65535) then Err (UrlError "URL has an invalid port")
          else Ok (take colon authority, u16 port)
      | None => Err (UrlError "URL has an invalid port")
      end
  end.

Definition ParseUrl (url : bytes) : Result ParsedUrl :=
  let scheme := if starts_with (lit "http://") url then Some (false, drop 7 url)
                else if starts_with (lit "https://") url then Some (true, drop 8 url)
                else None in
  match scheme with
  | None => Err (UrlError "URL must start with http:// or https://")
  | Some (tls, rest) =>
      let default_port := if tls then kDefaultHttpsPort else kDefaultHttpPort in
      let authority_end := find_first_of (lit "/?") rest in
      let authority := match authority_end with Some i => take i rest | None => rest end in
      let path := match authority_end with Some i => drop i rest | None => lit "/" end in
      let path := match path with
                  | [] => lit "/"
                  | c :: _ => if decide (c = "?"%char) then lit "/" ++ path else path
                  end in
      if decide (authority = []) then Err (UrlError "URL has no host") else
      let authority := match find_byte "@" authority with
                       | Some at_ => drop (at_ + 1) authority
                       | None => authority
                       end in
      match parse_authority default_port authority with
      | Err e => Err e
      | Ok (host, port) =>
          if decide (host = []) then Err (UrlError "URL has no host")
          else Ok (MkParsedUrl tls host port path)
      end
  end.

(** * Requests *)

Definition header := (bytes * bytes)%type.

Record HttpRequestOptions := MkRequestOptions {
  ro_method : bytes;
  ro_headers : list header;
  ro_body : bytes;
  ro_keep_alive : bool;
  ro_user_agent : bytes;
  ro_chunked_upload : bool;
}.

Definition default_options : HttpRequestOptions :=
  MkRequestOptions (lit "GET") [] [] false (lit "esp-modem-link/1.0") false.

Definition default_port (u : ParsedUrl) : bool :=
  (u_tls u && (u_port u =? kDefaultHttpsPort)) || (negb (u_tls u) && (u_port u =? kDefaultHttpPort)).

Definition host_header (u : ParsedUrl) : bytes :=
  if default_port u then u_host u else u_host u ++ lit ":" ++ to_string (u_port u).

(** The [set_header] lambda: replace the first header of that name, or append. *)
Fixpoint set_header (headers : list header) (key value : bytes) : list header :=
  match headers with
  | [] => [(key, value)]
  | (k, v) :: hs =>
      if decide (to_lower k = to_lower key) then (k, value) :: hs
      else (k, v) :: set_header hs key value
  end.

Definition remove_header (headers : list header) (key : bytes) : list header :=
  filter (λ h, to_lower h.1 ≠ to_lower key) headers.

Definition request_headers (u : ParsedUrl) (o : HttpRequestOptions) : list header :=
  let headers := [(lit "Host", host_header u); (lit "User-Agent", ro_user_agent o);
                  (lit "Connection", if ro_keep_alive o then lit "keep-alive" else lit "close")] in
  let headers := fold_left (λ hs h, set_header hs h.1 h.2) (ro_headers o) headers in
  if ro_chunked_upload o then
    let headers := remove_header headers (lit "Content-Length") in
    set_header headers (lit "Transfer-Encoding") (lit "chunked")
  else
    set_header headers (lit "Content-Length") (to_string (Z.of_nat (length (ro_body o)))).

Definition render_headers (headers : list header) : bytes :=
  headers ≫= λ h, h.1 ++ lit ": " ++ h.2 ++ CRLF.

Definition BuildHttpRequest (u : ParsedUrl) (o : HttpRequestOptions) : bytes :=
  ro_method o ++ lit " " ++ (if decide (u_path u = []) then lit "/" else u_path u)
  ++ lit " HTTP/1.1" ++ CRLF ++ render_headers (request_headers u o) ++ CRLF
  ++ (if ro_chunked_upload o then [] else ro_body o).

(** * Redirects *)

Definition kMaxRedirects : Z := 5.

Definition EqualsIgnoreCase (a b : bytes) : bool := bool_decide (to_lower a = to_lower b).

(** The [while] loop of [NormalizePath] over the path part: at most one segment
    per byte and one more, so [length] iterations reach the end. *)
Fixpoint normalize_loop (fuel : nat) (segments : list bytes) (path_part : bytes) : list bytes :=
  match fuel with
  | O => segments
  | S k =>
      match path_part with
      | [] => segments
      | _ :: _ =>
          let next := default (length path_part) (find_byte "/" path_part) in
          let segment := take next path_part in
          let segments := if decide (segment = lit "..") then removelast segments
                          else if decide (segment = lit "." ∨ segment = []) then segments
                          else segments ++ [segment] in
          normalize_loop k segments (drop (next + 1) path_part)
      end
  end.

(** [out] before the query is put back: the segments joined. *)
Fixpoint join_segments (segments : list bytes) : bytes :=
  match segments with
  | [] => []
  | [s] => s
  | s :: ss => s ++ lit "/" ++ join_segments ss
  end.

Definition names_directory (path_part : bytes) : bool :=
  bool_decide (last path_part = Some "/"%char) || bool_decide (path_part = lit ".")
  || bool_decide (path_part = lit "..") || ends_with (lit "/.") path_part
  || ends_with (lit "/..") path_part.

Definition NormalizePath (path : bytes) : bytes :=
  let query_at := find_byte "?" path in
  let path_part := match query_at with Some i => take i path | None => path end in
  let query := match query_at with Some i => drop i path | None => [] end in
  let out := lit "/" ++ join_segments (normalize_loop (length path_part) [] path_part) in
  let out := if negb (bool_decide (path_part = [])) && (1 <? length out)%nat
                && names_directory path_part then out ++ lit "/" else out in
  out ++ query.

(** The part of a path before its query. *)
Definition base_path (path : bytes) : bytes :=
  match find_byte "?" path with Some i => take i path | None => path end.

Definition ResolvePath (from : ParsedUrl) (location : bytes) : bytes :=
  if decide (head location = Some "?"%char) then base_path (u_path from) ++ location
  else if decide (head location = Some "/"%char) then location
  else
    let b := base_path (u_path from) in
    match rfind_byte "/" b with
    | None => location
    | Some last_slash => take (last_slash + 1) b ++ location
    end.

Definition IsRedirectStatus (status : Z) : bool :=
  bool_decide (status ∈ [301; 302; 303; 307; 308]).

(** Over the response's headers in the map's own order. *)
Fixpoint RedirectLocation (headers : list header) : bytes :=
  match headers with
  | [] => []
  | (key, value) :: hs => if EqualsIgnoreCase key (lit "Location") then value else RedirectLocation hs
  end.

(** Scheme, host and the port when the scheme does not imply it. *)
Definition origin_text (u : ParsedUrl) : bytes :=
  (if u_tls u then lit "https://" else lit "http://") ++ u_host u
  ++ (if u_port u =? (if u_tls u then 443 else 80) then [] else lit ":" ++ to_string (u_port u)).

Definition ResolveRedirect (from : ParsedUrl) (location : bytes) : Result ParsedUrl :=
  let location := match find_byte "#" location with Some i => take i location | None => location end in
  if decide (location = []) then
    Err (net_error kProtocolError "the redirect has an empty Location")
  else
    let resolved :=
      if starts_with (lit "http://") location || starts_with (lit "https://") location then Ok location
      else if starts_with (lit "//") location then
        Ok ((if u_tls from then lit "https:" else lit "http:") ++ location)
      else
        let first_segment := match find_first_of (lit "/?") location with
                             | Some i => take i location
                             | None => location
                             end in
        match find_byte ":" first_segment with
        | Some _ => Err (MkNetworkError kProtocolError 0
                     (lit "the redirect names a scheme this client cannot follow: " ++ location))
        | None => Ok (origin_text from ++ NormalizePath (ResolvePath from location))
        end in
    match resolved with
    | Err e => Err e
    | Ok resolved =>
        match ParseUrl resolved with
        | Err _ => Err (MkNetworkError kProtocolError 0
                    (lit "the redirect points somewhere this client cannot go: " ++ resolved))
        | Ok parsed => Ok parsed
        end
    end.

Definition SameOrigin (a b : ParsedUrl) : bool :=
  bool_decide (u_tls a = u_tls b) && (u_port a =? u_port b) && EqualsIgnoreCase (u_host a) (u_host b).

Definition IsCredentialHeader (name : bytes) : bool :=
  bool_decide (to_lower name ∈ [lit "authorization"; lit "cookie"; lit "proxy-authorization"]).
