(* ===== verification/HttpOrigin.v ===== *)
(** URLs, requests and redirects: what [ParseUrl] accepts and gives back, how a
    request's headers are made up, and where a redirect may lead. *)
From stdpp Require Import base decidable list strings gmap.
From Stdlib Require Import ZArith Ascii Lia.
From S2P Require Import Prelude Errors AtParser HttpRequest.

(** * Specification vocabulary *)

(** A URL a socket and a request line can be made from, with nothing in the host
    that the URL syntax gives a meaning. *)
Record url_ok (u : ParsedUrl) : Prop := {
  uo_host : u_host u ≠ [];
  uo_chars : Forall (λ c, c ∉ lit "/?@:") (u_host u);
  uo_port : 1 <= u_port u <= 65535;
  uo_path : head (u_path u) = Some "/"%char;
}.

Definition render_url (u : ParsedUrl) : bytes := origin_text u ++ u_path u.

Definition header_names (hs : list header) : list bytes := (λ h, to_lower h.1) <$> hs.

(** The value sent under a name, names compared without case. *)
Fixpoint header_value (hs : list header) (name : bytes) : option bytes :=
  match hs with
  | [] => None
  | (k, v) :: hs => if decide (to_lower k = to_lower name) then Some v else header_value hs name
  end.

(** A path segment that is a name: not empty, not a step, and with no separator. *)
Definition seg_ok (s : bytes) : Prop :=
  s ≠ [] ∧ s ≠ lit "." ∧ s ≠ lit ".." ∧ "/"%char ∉ s.

(** A Location that names no authority of its own. *)
Definition relative (location : bytes) : Prop :=
  starts_with (lit "http://") location = false ∧ starts_with (lit "https://") location = false ∧
  starts_with (lit "//") location = false.

(** * Lemmas: searching *)

Lemma find_first_of_app cs l c r : Forall (λ x, x ∉ cs) l → c ∈ cs →
  find_first_of cs (l ++ c :: r) = Some (length l).
Proof.
  intros H Hc. induction H as [|x l Hx H IH]; cbn [app find_first_of].
  - by rewrite decide_True.
  - rewrite decide_False, IH by done. done.
Qed.

Lemma find_first_of_prefix cs s i : find_first_of cs s = Some i →
  Forall (λ x, x ∉ cs) (take i s) ∧ ∃ c, s !! i = Some c ∧ c ∈ cs.
Proof.
  revert i; induction s as [|x s IH]; intros i H; [done|]. cbn [find_first_of] in H.
  case_decide; [simplify_eq; split; [constructor|by exists x]|].
  destruct (find_first_of cs s) as [j|]; [|done]. simplify_eq/=.
  destruct (IH j eq_refl) as [H1 H2]. split; [by constructor|done].
Qed.

Lemma find_first_of_None cs s : find_first_of cs s = None → Forall (λ x, x ∉ cs) s.
Proof.
  induction s as [|x s IH]; intros H; [constructor|]. cbn [find_first_of] in H.
  case_decide; [done|]. destruct (find_first_of cs s); [done|]. by constructor; [|apply IH].
Qed.

Lemma rfind_byte_None c s : c ∉ s → rfind_byte c s = None.
Proof.
  induction s as [|x s IH]; intros H; [done|]. apply not_elem_of_cons in H as [H1 H2]. simpl.
  rewrite IH by done. by rewrite decide_False by congruence.
Qed.

Lemma rfind_byte_app c l r : c ∉ r → rfind_byte c (l ++ c :: r) = Some (length l).
Proof.
  intros H. induction l as [|x l IH]; simpl.
  - by rewrite rfind_byte_None, decide_True by done.
  - by rewrite IH.
Qed.

Lemma to_string_chars n c : 0 <= n → isdigit c = false → c ∉ to_string n.
Proof.
  intros Hn Hc Hin. destruct (to_string_nonneg n Hn) as (_ & Hd & _).
  rewrite forallb_forall in Hd. apply list_elem_of_In, Hd in Hin. congruence.
Qed.

(** * Lemmas: URLs *)

(** The authority as [origin_text] writes it. *)
Definition authority_text (u : ParsedUrl) : bytes :=
  u_host u ++ (if u_port u =? (if u_tls u then 443 else 80) then [] else lit ":" ++ to_string (u_port u)).

Lemma Forall_not_elem (P : ascii → Prop) (cs : bytes) s x : Forall (λ c, c ∉ cs) s → x ∈ cs → x ∉ s.
Proof. intros H Hx Hin. rewrite Forall_forall in H. by apply (H x). Qed.

Lemma authority_chars u : url_ok u →
  Forall (λ c, c ∉ lit "/?") (authority_text u) ∧ "@"%char ∉ authority_text u ∧ authority_text u ≠ [].
Proof.
  intros [H1 H2 H3 _]. unfold authority_text.
  assert (∀ c, isdigit c = false → c ∉ to_string (u_port u)) as Hd by (intros; apply to_string_chars; lia || done).
  split_and!.
  - apply Forall_app. split.
    + eapply Forall_impl; [exact H2|]. intros c Hc Hin. apply Hc.
      change (lit "/?@:") with (lit "/?" ++ lit "@:"). apply elem_of_app. by left.
    + case_match; [constructor|]. apply Forall_app. split; [repeat constructor; decide_now|].
      apply Forall_forall. intros c Hc Hin.
      apply (Hd c); [|done]. revert Hin. unfold lit. simpl. intros Hin.
      repeat (apply elem_of_cons in Hin as [-> | Hin]; [done|]). by apply not_elem_of_nil in Hin.
  - rewrite not_elem_of_app. split; [apply (Forall_not_elem (λ _, True) _ _ _ H2); decide_now|].
    case_match; [apply not_elem_of_nil|]. rewrite not_elem_of_app.
    split; [decide_now|by apply Hd].
  - by destruct (u_host u).
Qed.

Lemma parse_authority_text u : url_ok u →
  parse_authority (if u_tls u then kDefaultHttpsPort else kDefaultHttpPort) (authority_text u) =
  Ok (u_host u, u_port u).
Proof.
  intros [H1 H2 H3 _]. unfold parse_authority, authority_text.
  assert (":"%char ∉ u_host u) as Hc by (apply (Forall_not_elem (λ _, True) _ _ _ H2); decide_now).
  destruct (Z.eqb_spec (u_port u) (if u_tls u then 443 else 80)) as [E|E].
  - rewrite app_nil_r, rfind_byte_None by done. f_equal. f_equal. rewrite E. by destruct (u_tls u).
  - change (lit ":" ++ to_string (u_port u)) with (":"%char :: to_string (u_port u)).
    rewrite rfind_byte_app by (apply to_string_chars; lia || done).
    rewrite take_app_length, drop_app_S.
    rewrite ParseInt_to_string by (unfold INT_MIN, INT_MAX; lia).
    rewrite (proj2 (Z.leb_gt _ _)), Z.gtb_ltb, (proj2 (Z.ltb_ge _ _)) by lia. cbn [orb].
    unfold u16. by rewrite Z.mod_small by lia.
Qed.

Lemma scheme_split u rest :
  (if starts_with (lit "http://") (origin_text u ++ rest) then Some (false, drop 7 (origin_text u ++ rest))
   else if starts_with (lit "https://") (origin_text u ++ rest) then Some (true, drop 8 (origin_text u ++ rest))
   else None) = Some (u_tls u, authority_text u ++ rest).
Proof.
  unfold origin_text, authority_text. destruct (u_tls u); rewrite <- ?app_assoc; reflexivity.
Qed.

(** A well-formed URL, rendered, parses to itself. *)
Lemma ParseUrl_render_url u : url_ok u → ParseUrl (render_url u) = Ok u.
Proof.
  intros Hu. unfold ParseUrl, render_url. cbv zeta. rewrite scheme_split.
  destruct (authority_chars u Hu) as (Ha & Hat & Hne). pose proof (parse_authority_text u Hu) as Hp.
  destruct (u_path u) as [|c path] eqn:Ep; [by destruct Hu as [? ? ? Hh]; rewrite Ep in Hh|].
  assert (c = "/"%char) as -> by (destruct Hu as [? ? ? Hh]; rewrite Ep in Hh; by injection Hh).
  rewrite (find_first_of_app (lit "/?") (authority_text u) "/"%char path Ha) by decide_now.
  rewrite take_app_length, drop_app_length. rewrite decide_False by done.
  rewrite decide_False by done. rewrite (proj2 (find_byte_None _ _)) by done.
  rewrite Hp. rewrite decide_False by apply (uo_host _ Hu).
  f_equal. destruct u; simpl in *; by rewrite Ep.
Qed.

Lemma path_start c : c ∈ lit "/?" → c = "/"%char ∨ c = "?"%char.
Proof.
  intros H. change (lit "/?") with ["/"%char; "?"%char] in H.
  rewrite !elem_of_cons in H. destruct H as [?|[?|H]]; [auto|auto|by apply not_elem_of_nil in H].
Qed.

(** What [ParseUrl] guarantees of anything it accepts. *)
Lemma ParseUrl_accepts s u : ParseUrl s = Ok u →
  u_host u ≠ [] ∧ 1 <= u_port u <= 65535 ∧ head (u_path u) = Some "/"%char.
Proof.
  intros H. unfold ParseUrl in H. cbv zeta in H.
  set (scheme := if starts_with _ s then _ else _) in H. destruct scheme as [[tls rest]|]; [|done].
  case_decide; [done|]. destruct (parse_authority _ _) as [[host port]|e] eqn:Ep; [|done].
  case_decide; [done|]. simplify_eq. cbn [u_host u_port u_path]. split; [done|split].
  - unfold parse_authority in Ep. destruct (rfind_byte _ _); [|simplify_eq; by destruct tls].
    destruct (ParseInt _) as [v|]; [|done]. case_match eqn:Ev; [done|]. simplify_eq.
    apply orb_false_iff in Ev as [E1%Z.leb_gt E2]. rewrite Z.gtb_ltb in E2. apply Z.ltb_ge in E2.
    unfold u16. rewrite Z.mod_small; lia.
  - destruct (find_first_of (lit "/?") rest) as [i|] eqn:Ei; [|done].
    apply find_first_of_prefix in Ei as (_ & c & Hc & Hin).
    assert (head (drop i rest) = Some c) as Hh by (by rewrite head_lookup, lookup_drop, Nat.add_0_r).
    destruct (drop i rest) as [|x r]; [done|]. injection Hh as ->.
    case_decide as Hq; [done|]. apply path_start in Hin as [-> | ->]; done.
Qed.

(** * Lemmas: headers *)

Lemma set_header_names hs k v :
  header_names (set_header hs k v) =
  if decide (to_lower k ∈ header_names hs) then header_names hs else header_names hs ++ [to_lower k].
Proof.
  induction hs as [|[k' v'] hs IH].
  { rewrite decide_False by (apply not_elem_of_nil). done. }
  cbn [set_header]. destruct (decide (to_lower k' = to_lower k)) as [E|E].
  - rewrite decide_True; [done|]. unfold header_names. rewrite fmap_cons. simpl. rewrite E.
    apply elem_of_cons. by left.
  - unfold header_names in *. rewrite !fmap_cons, IH. cbn [fst].
    destruct (decide (to_lower k ∈ (λ h, to_lower h.1) <$> hs)) as [Hin|Hin].
    + rewrite decide_True by (apply elem_of_cons; by right). done.
    + rewrite decide_False by (rewrite elem_of_cons; intros [?|?]; congruence). done.
Qed.

Lemma set_header_NoDup hs k v : NoDup (header_names hs) → NoDup (header_names (set_header hs k v)).
Proof.
  intros H. rewrite set_header_names. case_decide as Hin; [done|].
  apply NoDup_app. split; [done|]. split; [|apply NoDup_singleton].
  intros x Hx ->%list_elem_of_singleton. done.
Qed.

Lemma set_header_value hs k v name :
  header_value (set_header hs k v) name =
  if decide (to_lower k = to_lower name) then Some v else header_value hs name.
Proof.
  induction hs as [|[k' v'] hs IH]; [done|]. cbn [set_header].
  destruct (decide (to_lower k' = to_lower k)) as [E|E]; cbn [header_value].
  - rewrite E. case_decide; done.
  - rewrite IH. destruct (decide (to_lower k' = to_lower name)), (decide (to_lower k = to_lower name));
      congruence.
Qed.

Lemma remove_header_NoDup hs k : NoDup (header_names hs) → NoDup (header_names (remove_header hs k)).
Proof.
  unfold header_names, remove_header. intros H. eapply sublist_NoDup; [exact H|].
  apply fmap_sublist, sublist_filter.
Qed.

Lemma remove_header_value hs k : header_value (remove_header hs k) k = None.
Proof.
  unfold remove_header. induction hs as [|[k' v'] hs IH]; [done|]. rewrite filter_cons. cbn [fst].
  case_decide as E; cbn [header_value]; [by rewrite decide_False|done].
Qed.

Lemma set_headers_NoDup l hs : NoDup (header_names hs) →
  NoDup (header_names (fold_left (λ hs h, set_header hs h.1 h.2) l hs)).
Proof.
  revert hs; induction l as [|h l IH]; intros hs H; [done|]. apply IH. by apply set_header_NoDup.
Qed.

(** * Lemmas: paths *)

(** A segment of a path without a query. *)
Definition clean_seg (s : bytes) : Prop := seg_ok s ∧ "?"%char ∉ s.

Lemma take_find_not c s : c ∉ take (default (length s) (find_byte c s)) s.
Proof.
  destruct (find_byte c s) as [i|] eqn:E; simpl.
  - apply find_byte_Some in E. apply E.
  - rewrite firstn_all. by apply find_byte_None.
Qed.

Lemma Forall_removelast {A} (P : A → Prop) l : Forall P l → Forall P (removelast l).
Proof.
  induction 1 as [|x l Hx H IH]; [constructor|]. simpl. destruct l; [constructor|by constructor].
Qed.

Lemma normalize_loop_segs k segs p : "?"%char ∉ p → Forall clean_seg segs →
  Forall clean_seg (normalize_loop k segs p).
Proof.
  revert segs p; induction k as [|k IH]; intros segs p Hq Hs; [done|].
  cbn [normalize_loop]. destruct p as [|c p']; [done|]. set (p := c :: p') in *. clearbody p.
  apply IH.
  - intros Hin. apply Hq. rewrite <- (take_drop (default (length p) (find_byte "/" p) + 1) p).
    apply elem_of_app. by right.
  - case_decide; [by apply Forall_removelast|]. case_decide as Hd; [done|].
    apply Forall_app. split; [done|]. constructor; [|constructor].
    split; [split_and!|]; [tauto|tauto|done|apply take_find_not|].
    intros Hin. apply Hq. rewrite <- (take_drop (default (length p) (find_byte "/" p)) p).
    apply elem_of_app. by left.
Qed.

Lemma join_no_query segs : Forall clean_seg segs → "?"%char ∉ join_segments segs.
Proof.
  induction 1 as [|s segs [_ Hs] H IH]; [apply not_elem_of_nil|].
  destruct segs as [|s' segs]; [done|]. cbn [join_segments] in *.
  rewrite !not_elem_of_app. split_and!; [done|decide_now|done].
Qed.

Lemma base_path_app out query : "?"%char ∉ out →
  (query = [] ∨ head query = Some "?"%char) → base_path (out ++ query) = out.
Proof.
  intros Ho [-> | Hq]; unfold base_path.
  - rewrite app_nil_r. by rewrite (proj2 (find_byte_None _ _)).
  - destruct query as [|c q]; [done|]. injection Hq as ->.
    by rewrite find_byte_app, take_app_length.
Qed.

(** What [NormalizePath] makes of any path: an absolute one whose segments are
    names, with the query as it was. *)
Lemma NormalizePath_shape path :
  ∃ segs, Forall seg_ok segs ∧
    (base_path (NormalizePath path) = lit "/" ++ join_segments segs ∨
     base_path (NormalizePath path) = lit "/" ++ join_segments segs ++ lit "/") ∧
    head (NormalizePath path) = Some "/"%char ∧
    drop (length (base_path (NormalizePath path))) (NormalizePath path) =
    drop (length (base_path path)) path.
Proof.
  set (query := match find_byte "?" path with Some i => drop i path | None => [] end).
  assert ("?"%char ∉ base_path path ∧ (query = [] ∨ head query = Some "?"%char) ∧
          query = drop (length (base_path path)) path) as (Hp & Hq & Hqd).
  { unfold query, base_path. destruct (find_byte "?" path) as [i|] eqn:E.
    - apply find_byte_Some in E as (Hi & Hn & Hlt). split_and!; [done| |by rewrite length_take, Nat.min_l by lia].
      right. rewrite Hi, drop_app_length' by (rewrite length_take; lia). done.
    - split_and!; [by apply find_byte_None|by left|by rewrite drop_all]. }
  set (segs := normalize_loop (length (base_path path)) [] (base_path path)).
  assert (Forall clean_seg segs) as Hsegs by (by apply normalize_loop_segs).
  pose proof (join_no_query segs Hsegs) as Hj.
  assert (∃ slash, (slash = [] ∨ slash = lit "/") ∧
            NormalizePath path = (lit "/" ++ join_segments segs ++ slash) ++ query) as (slash & Hsl & E).
  { unfold NormalizePath. fold (base_path path). fold query. fold segs. cbv zeta.
    case_match; [exists (lit "/")|exists []]; (split; [auto|]); by rewrite <- ?app_assoc, ?app_nil_r. }
  assert ("?"%char ∉ lit "/" ++ join_segments segs ++ slash) as Hno.
  { rewrite !not_elem_of_app. split_and!; [decide_now|done|].
    destruct Hsl as [-> | ->]; [apply not_elem_of_nil|decide_now]. }
  exists segs. rewrite E, (base_path_app _ _ Hno Hq), drop_app_length. split_and!.
  - eapply Forall_impl; [exact Hsegs|]. by intros s [? _].
  - destruct Hsl as [-> | ->]; [left; by rewrite app_nil_r|by right].
  - done.
  - done.
Qed.

Definition strip_fragment (location : bytes) : bytes :=
  match find_byte "#" location with Some i => take i location | None => location end.

Definition first_segment (location : bytes) : bytes :=
  match find_first_of (lit "/?") location with Some i => take i location | None => location end.

Lemma ResolveRedirect_relative from location : url_ok from → relative (strip_fragment location) →
  ResolveRedirect from location =
  let l := strip_fragment location in
  if decide (l = []) then Err (net_error kProtocolError "the redirect has an empty Location")
  else if decide (":"%char ∈ first_segment l)
  then Err (MkNetworkError kProtocolError 0 (lit "the redirect names a scheme this client cannot follow: " ++ l))
  else Ok (MkParsedUrl (u_tls from) (u_host from) (u_port from) (NormalizePath (ResolvePath from l))).
Proof.
  intros Hf (R1 & R2 & R3). unfold ResolveRedirect. fold (strip_fragment location). cbv zeta.
  set (l := strip_fragment location) in *. fold (first_segment l). rewrite R1, R2, R3. cbn [orb].
  case_decide as Hl; [done|]. destruct (find_byte ":" (first_segment l)) as [i|] eqn:E.
  - rewrite decide_True; [done|]. apply find_byte_Some in E as (E & _).
    rewrite E. apply elem_of_app. right. apply elem_of_cons. by left.
  - rewrite decide_False by (by apply find_byte_None).
    destruct (NormalizePath_shape (ResolvePath from l)) as (segs & _ & _ & Hh & _).
    set (u := MkParsedUrl _ _ _ _).
    assert (url_ok u) as Hu by (by destruct Hf; constructor).
    pose proof (ParseUrl_render_url u Hu) as HP. unfold render_url in HP.
    change (origin_text u) with (origin_text from) in HP.
    change (u_path u) with (NormalizePath (ResolvePath from l)) in HP. by rewrite HP.
Qed.

Lemma SameOrigin_spec a b :
  SameOrigin a b = true ↔ u_tls a = u_tls b ∧ u_port a = u_port b ∧ to_lower (u_host a) = to_lower (u_host b).
Proof.
  unfold SameOrigin, EqualsIgnoreCase. rewrite !andb_true_iff, !bool_decide_eq_true, Z.eqb_eq. tauto.
Qed.

(** * Properties *)

(** C39: a URL survives being written out and parsed. For a host with no URL
    syntax in it, any port and any absolute path and query, [ParseUrl] of the text
    with the port left out when the scheme implies it gives the URL back. *)
Theorem ParseUrl_render (u : ParsedUrl) : url_ok u → ParseUrl (render_url u) = Ok u.
Proof. apply ParseUrl_render_url. Qed.

Lemma ParseUrl_render_witness :
  ParseUrl (lit "https://example.com:8443/a/b?x=1") =
  Ok (MkParsedUrl true (lit "example.com") 8443 (lit "/a/b?x=1")).
Proof.
  apply (ParseUrl_render (MkParsedUrl true (lit "example.com") 8443 (lit "/a/b?x=1"))).
  constructor; [discriminate| |split; discriminate|reflexivity].
  repeat constructor; decide_now.
Defined.

(** a request never carries a header twice and its framing headers agree
    with its body. Names compared without case, the headers of any request are
    distinct; a chunked one says so and has no [Content-Length] even if the caller
    set one, and any other carries exactly the length of its body, whatever the
    caller set. *)
Theorem request_headers_consistent (u : ParsedUrl) (o : HttpRequestOptions) :
  let hs := request_headers u o in
  NoDup (header_names hs) ∧
  if ro_chunked_upload o
  then header_value hs (lit "Content-Length") = None ∧
       header_value hs (lit "Transfer-Encoding") = Some (lit "chunked")
  else header_value hs (lit "Content-Length") = Some (to_string (Z.of_nat (length (ro_body o)))).
Proof.
  cbn zeta. unfold request_headers. set (base := fold_left _ _ _).
  assert (NoDup (header_names base)) as Hb.
  { apply set_headers_NoDup. apply (bool_decide_unpack _). by vm_compute. }
  destruct (ro_chunked_upload o).
  - split; [by apply set_header_NoDup, remove_header_NoDup|]. rewrite !set_header_value.
    rewrite decide_False by decide_now. by rewrite decide_True, remove_header_value.
  - split; [by apply set_header_NoDup|]. by rewrite set_header_value, decide_True.
Qed.

(** C40: a relative redirect cannot leave its origin or its document root. For a
    Location that names no authority, the resolved URL has the scheme, host and
    port of the request it answers and a path made of plain names only - no
    empty, "." or ".." segment; the only failures are an empty Location and one
    whose first segment has a colon. *)
Theorem relative_redirect_confined (from : ParsedUrl) (location : bytes) :
  url_ok from → relative (strip_fragment location) →
  match ResolveRedirect from location with
  | Ok u => SameOrigin from u = true ∧ url_ok u ∧
            ∃ segs, Forall seg_ok segs ∧
              (base_path (u_path u) = lit "/" ++ join_segments segs ∨
               base_path (u_path u) = lit "/" ++ join_segments segs ++ lit "/")
  | Err _ => strip_fragment location = [] ∨ ":"%char ∈ first_segment (strip_fragment location)
  end.
Proof.
  intros Hf Hr. rewrite ResolveRedirect_relative by done. cbn zeta.
  case_decide; [by left|]. case_decide; [by right|].
  destruct (NormalizePath_shape (ResolvePath from (strip_fragment location))) as (segs & H1 & H2 & H3 & _).
  split; [by apply SameOrigin_spec|]. split; [by destruct Hf; constructor|]. by exists segs.
Qed.

Lemma relative_redirect_confined_witness :
  let from := MkParsedUrl true (lit "h.example") 443 (lit "/a/b?q") in
  let u := MkParsedUrl true (lit "h.example") 443 (lit "/etc?x") in
  SameOrigin from u = true ∧ url_ok u ∧
  ∃ segs, Forall seg_ok segs ∧
    (base_path (u_path u) = lit "/" ++ join_segments segs ∨
     base_path (u_path u) = lit "/" ++ join_segments segs ++ lit "/").
Proof.
  apply (relative_redirect_confined (MkParsedUrl true (lit "h.example") 443 (lit "/a/b?q"))
           (lit "../../.././/etc?x#frag")).
  - constructor; [discriminate| |split; discriminate|reflexivity]. repeat constructor; decide_now.
  - vm_compute. by split_and!.
Defined.
