(* ===== verification/HttpClient.v ===== *)
(** The HTTP client engine over any transport
    (src/src/protocol/http/software_http_client.{h,cpp}).

    The client is a record of the source's members, [world_] being everything
    outside it. The transport's callbacks are [on_event]; what the receive thread
    delivers during an operation comes from the transport interface. The mutex
    makes each locked block one step and is otherwise left out. *)
From stdpp Require Import base decidable list strings gmap.
From Stdlib Require Import ZArith Ascii Lia.
From S2P Require Import Prelude Errors CommonTypes StateResult TcpTransport HttpParser HttpResponses HttpRequest.

Record HttpResponse := MkHttpResponse {
  hr_status_code : Z;
  hr_headers : gmap bytes bytes;
  hr_body : bytes;
}.

Definition empty_http_response : HttpResponse := MkHttpResponse 0 ∅ [].

(** The request as it changes down a redirect chain. *)
Record RequestState := MkRequestState {
  rs_method : bytes;
  rs_url : ParsedUrl;
  rs_body : bytes;
  rs_headers : list header;
}.

(** The safe methods. *)
Definition MethodIsRepeatable (method : bytes) : bool :=
  bool_decide (method = lit "GET") || bool_decide (method = lit "HEAD") || bool_decide (method = lit "OPTIONS").

(** * State *)

Section State.
Context {W : Type}.

Record SoftwareHttpClient := MkHttpClient {
  transport_ : bool;
  timeout_ : Z;
  headers_ : list header;
  request_body_ : bytes;
  keep_alive_ : bool;
  follow_redirects_ : bool;
  max_redirects_ : Z;
  tls_ : TlsConfig;
  chunked_upload_ : bool;
  upload_chunked_ : bool;
  upload_active_ : bool;
  parser_ : HttpParser;
  parse_failed_ : bool;
  parse_error_ : option NetworkError;
  closed_ : bool;
  streaming_ : bool;
  pending_ : bytes;
  response_ : HttpResponse;
  connected_ : bool;
  connected_host_ : bytes;
  connected_port_ : Z;
  connected_tls_ : bool;
  world_ : W;
}.

Definition set_transport (c : SoftwareHttpClient) (b : bool) : SoftwareHttpClient :=
  MkHttpClient b (timeout_ c) (headers_ c) (request_body_ c) (keep_alive_ c)
    (follow_redirects_ c) (max_redirects_ c) (tls_ c) (chunked_upload_ c) (upload_chunked_
    c) (upload_active_ c) (parser_ c) (parse_failed_ c) (parse_error_ c) (closed_ c)
    (streaming_ c) (pending_ c) (response_ c) (connected_ c) (connected_host_ c)
    (connected_port_ c) (connected_tls_ c) (world_ c).
Definition SetTimeout (c : SoftwareHttpClient) (timeout : Z) : SoftwareHttpClient :=
  MkHttpClient (transport_ c) timeout (headers_ c) (request_body_ c) (keep_alive_ c)
    (follow_redirects_ c) (max_redirects_ c) (tls_ c) (chunked_upload_ c) (upload_chunked_
    c) (upload_active_ c) (parser_ c) (parse_failed_ c) (parse_error_ c) (closed_ c)
    (streaming_ c) (pending_ c) (response_ c) (connected_ c) (connected_host_ c)
    (connected_port_ c) (connected_tls_ c) (world_ c).
Definition set_headers_ (c : SoftwareHttpClient) (hs : list header) : SoftwareHttpClient :=
  MkHttpClient (transport_ c) (timeout_ c) hs (request_body_ c) (keep_alive_ c)
    (follow_redirects_ c) (max_redirects_ c) (tls_ c) (chunked_upload_ c) (upload_chunked_
    c) (upload_active_ c) (parser_ c) (parse_failed_ c) (parse_error_ c) (closed_ c)
    (streaming_ c) (pending_ c) (response_ c) (connected_ c) (connected_host_ c)
    (connected_port_ c) (connected_tls_ c) (world_ c).
Definition SetBody (c : SoftwareHttpClient) (body : bytes) : SoftwareHttpClient :=
  MkHttpClient (transport_ c) (timeout_ c) (headers_ c) body (keep_alive_ c)
    (follow_redirects_ c) (max_redirects_ c) (tls_ c) (chunked_upload_ c) (upload_chunked_
    c) (upload_active_ c) (parser_ c) (parse_failed_ c) (parse_error_ c) (closed_ c)
    (streaming_ c) (pending_ c) (response_ c) (connected_ c) (connected_host_ c)
    (connected_port_ c) (connected_tls_ c) (world_ c).
Definition SetKeepAlive (c : SoftwareHttpClient) (enable : bool) : SoftwareHttpClient :=
  MkHttpClient (transport_ c) (timeout_ c) (headers_ c) (request_body_ c) enable
    (follow_redirects_ c) (max_redirects_ c) (tls_ c) (chunked_upload_ c) (upload_chunked_
    c) (upload_active_ c) (parser_ c) (parse_failed_ c) (parse_error_ c) (closed_ c)
    (streaming_ c) (pending_ c) (response_ c) (connected_ c) (connected_host_ c)
    (connected_port_ c) (connected_tls_ c) (world_ c).
Definition SetFollowRedirects (c : SoftwareHttpClient) (enable : bool) : SoftwareHttpClient :=
  MkHttpClient (transport_ c) (timeout_ c) (headers_ c) (request_body_ c) (keep_alive_ c)
    enable (max_redirects_ c) (tls_ c) (chunked_upload_ c) (upload_chunked_ c)
    (upload_active_ c) (parser_ c) (parse_failed_ c) (parse_error_ c) (closed_ c)
    (streaming_ c) (pending_ c) (response_ c) (connected_ c) (connected_host_ c)
    (connected_port_ c) (connected_tls_ c) (world_ c).
Definition set_max_redirects (c : SoftwareHttpClient) (max : Z) : SoftwareHttpClient :=
  MkHttpClient (transport_ c) (timeout_ c) (headers_ c) (request_body_ c) (keep_alive_ c)
    (follow_redirects_ c) max (tls_ c) (chunked_upload_ c) (upload_chunked_ c)
    (upload_active_ c) (parser_ c) (parse_failed_ c) (parse_error_ c) (closed_ c)
    (streaming_ c) (pending_ c) (response_ c) (connected_ c) (connected_host_ c)
    (connected_port_ c) (connected_tls_ c) (world_ c).
Definition SetTlsConfig (c : SoftwareHttpClient) (config : TlsConfig) : SoftwareHttpClient :=
  MkHttpClient (transport_ c) (timeout_ c) (headers_ c) (request_body_ c) (keep_alive_ c)
    (follow_redirects_ c) (max_redirects_ c) config (chunked_upload_ c) (upload_chunked_ c)
    (upload_active_ c) (parser_ c) (parse_failed_ c) (parse_error_ c) (closed_ c)
    (streaming_ c) (pending_ c) (response_ c) (connected_ c) (connected_host_ c)
    (connected_port_ c) (connected_tls_ c) (world_ c).
Definition SetChunkedUpload (c : SoftwareHttpClient) (enable : bool) : SoftwareHttpClient :=
  MkHttpClient (transport_ c) (timeout_ c) (headers_ c) (request_body_ c) (keep_alive_ c)
    (follow_redirects_ c) (max_redirects_ c) (tls_ c) enable (upload_chunked_ c)
    (upload_active_ c) (parser_ c) (parse_failed_ c) (parse_error_ c) (closed_ c)
    (streaming_ c) (pending_ c) (response_ c) (connected_ c) (connected_host_ c)
    (connected_port_ c) (connected_tls_ c) (world_ c).
Definition set_upload (c : SoftwareHttpClient) (chunked : bool) (active : bool) : SoftwareHttpClient :=
  MkHttpClient (transport_ c) (timeout_ c) (headers_ c) (request_body_ c) (keep_alive_ c)
    (follow_redirects_ c) (max_redirects_ c) (tls_ c) (chunked_upload_ c) chunked active
    (parser_ c) (parse_failed_ c) (parse_error_ c) (closed_ c) (streaming_ c) (pending_ c)
    (response_ c) (connected_ c) (connected_host_ c) (connected_port_ c) (connected_tls_ c)
    (world_ c).
Definition set_parser (c : SoftwareHttpClient) (p : HttpParser) : SoftwareHttpClient :=
  MkHttpClient (transport_ c) (timeout_ c) (headers_ c) (request_body_ c) (keep_alive_ c)
    (follow_redirects_ c) (max_redirects_ c) (tls_ c) (chunked_upload_ c) (upload_chunked_
    c) (upload_active_ c) p (parse_failed_ c) (parse_error_ c) (closed_ c) (streaming_ c)
    (pending_ c) (response_ c) (connected_ c) (connected_host_ c) (connected_port_ c)
    (connected_tls_ c) (world_ c).
Definition set_failed (c : SoftwareHttpClient) (failed : bool) (e : option NetworkError) : SoftwareHttpClient :=
  MkHttpClient (transport_ c) (timeout_ c) (headers_ c) (request_body_ c) (keep_alive_ c)
    (follow_redirects_ c) (max_redirects_ c) (tls_ c) (chunked_upload_ c) (upload_chunked_
    c) (upload_active_ c) (parser_ c) failed e (closed_ c) (streaming_ c) (pending_ c)
    (response_ c) (connected_ c) (connected_host_ c) (connected_port_ c) (connected_tls_ c)
    (world_ c).
Definition set_closed (c : SoftwareHttpClient) (b : bool) : SoftwareHttpClient :=
  MkHttpClient (transport_ c) (timeout_ c) (headers_ c) (request_body_ c) (keep_alive_ c)
    (follow_redirects_ c) (max_redirects_ c) (tls_ c) (chunked_upload_ c) (upload_chunked_
    c) (upload_active_ c) (parser_ c) (parse_failed_ c) (parse_error_ c) b (streaming_ c)
    (pending_ c) (response_ c) (connected_ c) (connected_host_ c) (connected_port_ c)
    (connected_tls_ c) (world_ c).
Definition set_streaming (c : SoftwareHttpClient) (b : bool) : SoftwareHttpClient :=
  MkHttpClient (transport_ c) (timeout_ c) (headers_ c) (request_body_ c) (keep_alive_ c)
    (follow_redirects_ c) (max_redirects_ c) (tls_ c) (chunked_upload_ c) (upload_chunked_
    c) (upload_active_ c) (parser_ c) (parse_failed_ c) (parse_error_ c) (closed_ c) b
    (pending_ c) (response_ c) (connected_ c) (connected_host_ c) (connected_port_ c)
    (connected_tls_ c) (world_ c).
Definition set_pending (c : SoftwareHttpClient) (bs : bytes) : SoftwareHttpClient :=
  MkHttpClient (transport_ c) (timeout_ c) (headers_ c) (request_body_ c) (keep_alive_ c)
    (follow_redirects_ c) (max_redirects_ c) (tls_ c) (chunked_upload_ c) (upload_chunked_
    c) (upload_active_ c) (parser_ c) (parse_failed_ c) (parse_error_ c) (closed_ c)
    (streaming_ c) bs (response_ c) (connected_ c) (connected_host_ c) (connected_port_ c)
    (connected_tls_ c) (world_ c).
Definition set_response (c : SoftwareHttpClient) (r : HttpResponse) : SoftwareHttpClient :=
  MkHttpClient (transport_ c) (timeout_ c) (headers_ c) (request_body_ c) (keep_alive_ c)
    (follow_redirects_ c) (max_redirects_ c) (tls_ c) (chunked_upload_ c) (upload_chunked_
    c) (upload_active_ c) (parser_ c) (parse_failed_ c) (parse_error_ c) (closed_ c)
    (streaming_ c) (pending_ c) r (connected_ c) (connected_host_ c) (connected_port_ c)
    (connected_tls_ c) (world_ c).
Definition set_connected (c : SoftwareHttpClient) (b : bool) (host : bytes) (port : Z) (tls : bool) : SoftwareHttpClient :=
  MkHttpClient (transport_ c) (timeout_ c) (headers_ c) (request_body_ c) (keep_alive_ c)
    (follow_redirects_ c) (max_redirects_ c) (tls_ c) (chunked_upload_ c) (upload_chunked_
    c) (upload_active_ c) (parser_ c) (parse_failed_ c) (parse_error_ c) (closed_ c)
    (streaming_ c) (pending_ c) (response_ c) b host port tls (world_ c).
Definition set_world (c : SoftwareHttpClient) (w : W) : SoftwareHttpClient :=
  MkHttpClient (transport_ c) (timeout_ c) (headers_ c) (request_body_ c) (keep_alive_ c)
    (follow_redirects_ c) (max_redirects_ c) (tls_ c) (chunked_upload_ c) (upload_chunked_
    c) (upload_active_ c) (parser_ c) (parse_failed_ c) (parse_error_ c) (closed_ c)
    (streaming_ c) (pending_ c) (response_ c) (connected_ c) (connected_host_ c)
    (connected_port_ c) (connected_tls_ c) w.

(** A client as constructed, over a world. *)
Definition new_http_client (w : W) : SoftwareHttpClient :=
  MkHttpClient false 10000 [] [] false true kMaxRedirects default_tls false false false
    (new_parser false) false None false false [] empty_http_response false [] 0 false w.

Definition SetHeader (c : SoftwareHttpClient) (key value : bytes) : SoftwareHttpClient :=
  set_headers_ c (headers_ c ++ [(key, value)]).

Definition SetMaxRedirects (c : SoftwareHttpClient) (max : Z) : SoftwareHttpClient :=
  set_max_redirects c (if max <? 0 then 0 else max).
End State.
Arguments SoftwareHttpClient : clear implicits.

Section Client.
Context {W : Type} `{ITransport W} (sm : size_model).
Local Abbreviation client := (SoftwareHttpClient W).
Local Abbreviation act := (op client NetworkError).

Definition parser_complete (p : HttpParser) : bool := bool_decide (state p = kComplete).

(** * Callbacks *)

Definition HandleBody (c : client) (data : bytes) : client :=
  if streaming_ c then set_pending c (pending_ c ++ data)
  else let r := response_ c in
       set_response c (MkHttpResponse (hr_status_code r) (hr_headers r) (hr_body r ++ data)).

(** [Feed] with [HandleBody] as the body callback: it has been called with what
    the parser's sink has gained. *)
Definition OnTransportData (c : client) (data : bytes) : client :=
  if parser_complete (parser_ c) then c else
  let '(p, result) := Feed sm (parser_ c) data in
  let c := HandleBody (set_parser c p) (drop (length (sunk (parser_ c))) (sunk p)) in
  match result with
  | Err e => set_failed c true (Some e)
  | Ok _ => c
  end.

Definition OnTransportClosed (c : client) : client :=
  set_parser (set_closed c true) (Finish (parser_ c)).

Definition on_event (c : client) (e : tcp_event) : client :=
  match e with
  | EvData data => OnTransportData c data
  | EvDisconnected => OnTransportClosed c
  | EvError e => set_failed c true (Some e)
  end.

(** The callbacks are set while there is a transport. *)
Definition deliver (c : client) (evs : list tcp_event) : client :=
  if transport_ c then fold_left on_event evs c else c.

(** * The transport *)

Definition DropTransport (c : client) : client :=
  let c := if transport_ c then set_transport (set_world c (tcp_disconnect (world_ c))) false else c in
  let c := set_connected c false (connected_host_ c) (connected_port_ c) (connected_tls_ c) in
  set_upload c false false.

(** Drop the transport and report [e]. *)
Definition abandon {A} (e : NetworkError) : act A := modify DropTransport ;;; fail e.

Definition make (tls : bool) (config : TlsConfig) : act unit := λ c,
  let '(w, r) := make_transport tls config (world_ c) in (set_world c w, r).
Definition connect (host : bytes) (port : Z) : act unit := λ c,
  let '(w, evs, r) := tcp_connect host port (world_ c) in (deliver (set_world c w) evs, r).
Definition send (data : bytes) : act Z := λ c,
  let '(w, evs, r) := tcp_send data (world_ c) in (deliver (set_world c w) evs, r).

(** [cv_.wait_for]: no wait when the condition holds already. *)
Definition wait_for (pred : client → bool) : act unit := λ c,
  if pred c then (c, Ok ()) else
  let '(w, evs) := await (timeout_ c) (world_ c) in (deliver (set_world c w) evs, Ok ()).

Definition reusable (c : client) (url : ParsedUrl) : bool :=
  connected_ c && transport_ c && keep_alive_ c && bool_decide (u_host url = connected_host_ c)
  && (u_port url =? connected_port_ c) && bool_decide (u_tls url = connected_tls_ c).

Definition EnsureConnected (url : ParsedUrl) : act unit :=
  let! c := gets id in
  if reusable c url then ret () else
  modify DropTransport ;;;
  let! tls_config := gets tls_ in
  make (u_tls url) (if u_tls url then tls_config else default_tls) ;;;
  modify (λ c, set_transport c true) ;;;
  let! connected := attempt (connect (u_host url) (u_port url)) in
  match connected with
  | Err e => abandon e
  | Ok _ => modify (λ c, set_connected c true (u_host url) (u_port url) (u_tls url))
  end.

(** * Requests *)

Definition FailedError (c : client) : NetworkError :=
  default (net_error kProtocolError "HTTP request failed") (parse_error_ c).

(** The reset of the response side: a fresh callback has received nothing. *)
Definition reset_response (c : client) : client :=
  let c := set_parser c (set_sunk (OnBody (Reset (parser_ c)) true) []) in
  let c := set_failed c false None in
  let c := set_closed c false in
  let c := set_response c empty_http_response in
  let c := if streaming_ c then set_pending c [] else c in
  set_upload c false false.

Definition request_options (request : RequestState) (keep_alive chunked_upload : bool) : HttpRequestOptions :=
  MkRequestOptions (rs_method request) (rs_headers request) (rs_body request) keep_alive
    (ro_user_agent default_options) chunked_upload.

Definition StartRequest (request : RequestState) (chunked_upload : bool) : act unit :=
  let! c := gets id in
  if upload_active_ c then
    fail (net_error kInvalidArgument "a chunked request body is still open; call EndBody() to finish it or Close() to abandon it before starting another request")
  else
  EnsureConnected (rs_url request) ;;;
  modify reset_response ;;;
  let! keep_alive := gets keep_alive_ in
  let! sent := attempt (send (BuildHttpRequest (rs_url request) (request_options request keep_alive chunked_upload))) in
  match sent with
  | Err e => abandon e
  | Ok _ => ret ()
  end.

(** [Some] is the request of the next hop, [None] a response to be given back. *)
Definition ApplyRedirect (response : HttpResponse) (hop : Z) (request : RequestState)
  : act (option RequestState) :=
  let! c := gets id in
  if negb (IsRedirectStatus (hr_status_code response)) then ret None
  else if negb (follow_redirects_ c) || (max_redirects_ c =? 0) then ret None
  else
  let location := RedirectLocation (map_to_list (hr_headers response)) in
  if decide (location = []) then ret None
  else if hop >=? max_redirects_ c then
    fail (MkNetworkError kProtocolError (hr_status_code response)
            (lit "the request was redirected more than " ++ to_string (max_redirects_ c) ++ lit " times"))
  else
  let! next := of_result (ResolveRedirect (rs_url request) location) in
  let headers := if SameOrigin (rs_url request) next then rs_headers request
                 else filter (λ h : header, IsCredentialHeader h.1 = false) (rs_headers request) in
  let rewrite_ := (hr_status_code response =? 303)
    || (((hr_status_code response =? 301) || (hr_status_code response =? 302))
        && negb (bool_decide (rs_method request = lit "GET"))
        && negb (bool_decide (rs_method request = lit "HEAD"))) in
  let method := if rewrite_ then lit "GET" else rs_method request in
  let body := if rewrite_ then [] else rs_body request in
  (if streaming_ c then modify DropTransport else ret ()) ;;;
  ret (Some (MkRequestState method next body headers)).

(** * Execute *)

Definition response_over (c : client) : bool := parser_complete (parser_ c) || parse_failed_ c || closed_ c.

(** [result_], the response as it is handed over. *)
Definition take_response (c : client) : HttpResponse :=
  MkHttpResponse (status_code (parser_ c)) (HttpParser.headers (parser_ c) ∪ hr_headers (response_ c))
    (hr_body (response_ c)).

Definition ExecuteOnce (request : RequestState) : act HttpResponse :=
  modify (λ c, set_streaming c false) ;;;
  StartRequest request false ;;;
  wait_for response_over ;;;
  let! c := gets id in
  if parse_failed_ c then abandon (FailedError c)
  else if negb (parser_complete (parser_ c)) then
    abandon (if negb (closed_ c) then net_error kTimeout "timed out waiting for the HTTP response"
             else net_error kConnectionLost "connection closed before the response was complete")
  else
  modify (λ c, set_response c empty_http_response) ;;;
  (if negb (keep_alive_ c) then modify DropTransport else ret ()) ;;;
  ret (take_response c).

Definition lost (r : Result HttpResponse) : bool :=
  match r with Err e => bool_decide (ne_code e = kConnectionLost) | Ok _ => false end.

(** At most one repeat: the loop's second attempt is its last. *)
Definition ExecuteAttempt (request : RequestState) : act HttpResponse :=
  let! first := attempt (ExecuteOnce request) in
  if lost first && MethodIsRepeatable (rs_method request) then ExecuteOnce request else of_result first.

(** The redirect loop. [None] is a loop cut off at [fuel] requests; [Execute]
    gives it one more than the limit, which [Execute_bounded] shows is never
    used up. *)
Fixpoint execute_loop (fuel : nat) (hop : Z) (request : RequestState) : act (option HttpResponse) :=
  match fuel with
  | O => ret None
  | S k =>
      let! result := ExecuteAttempt request in
      let! followed := ApplyRedirect result hop request in
      match followed with
      | Some request => execute_loop k (hop + 1) request
      | None => ret (Some result)
      end
  end.

Definition initial_request (c : client) (method : bytes) (url : ParsedUrl) : RequestState :=
  MkRequestState method url (request_body_ c) (headers_ c).

Definition Execute (method url : bytes) : act (option HttpResponse) :=
  let! parsed := of_result (ParseUrl url) in
  let! c := gets id in
  execute_loop (S (Z.to_nat (max_redirects_ c))) 0 (initial_request c method parsed).
End Client.
