(* ===== verification/HttpStream.v ===== *)
(** The streaming half of the HTTP client engine
    (src/src/protocol/http/software_http_client.cpp): [Open], [Read], the chunked
    upload with [Write] and [EndBody], [Close] and the accessors. *)
From stdpp Require Import base decidable list strings gmap.
From Stdlib Require Import ZArith Ascii Lia.
From S2P Require Import Prelude Errors CommonTypes StateResult TcpTransport AtParser HttpParser HttpResponses HttpRequest.
From S2P Require Import HttpClient.

Section Stream.
Context {W : Type} `{ITransport W} (sm : size_model).
Local Abbreviation client := (SoftwareHttpClient W).
Local Abbreviation act := (op client NetworkError).

(** * Open *)

Definition before_body (p : HttpParser) : bool :=
  bool_decide (state p = kStatusLine) || bool_decide (state p = kHeaders).

Definition headers_over (c : client) : bool :=
  negb (before_body (parser_ c)) || parse_failed_ c || closed_ c.

Definition AwaitHeaders : act HttpResponse :=
  wait_for sm headers_over ;;;
  let! c := gets id in
  if parse_failed_ c then fail (FailedError c)
  else if bool_decide (state (parser_ c) = kError) then
    fail (net_error kProtocolError "malformed HTTP response")
  else if before_body (parser_ c) then
    if closed_ c then
      fail (net_error kConnectionLost "connection closed before the HTTP response headers arrived")
    else fail (net_error kTimeout "timed out waiting for the HTTP response headers")
  else ret (MkHttpResponse (status_code (parser_ c)) (HttpParser.headers (parser_ c)) []).

Definition BeginChunkedUpload (request : RequestState) : act unit :=
  if decide (rs_body request ≠ []) then
    fail (MkNetworkError kInvalidArgument 0
      (lit "a body was set with SetBody() and chunked upload is on; a chunked body is written with Write(), not set in advance. SetBody("
       ++ [QUOTE; QUOTE] ++ lit ") clears the one that is held"))
  else if existsb (λ h, bool_decide (to_lower h.1 = lit "expect")) (rs_headers request) then
    fail (net_error kInvalidArgument "Expect: 100-continue cannot be used with a chunked upload; the interim response is not handled")
  else
  StartRequest sm request true ;;;
  modify (λ c, set_upload c true true).

(** As [execute_loop]: [false] is a loop cut off. *)
Fixpoint open_loop (fuel : nat) (hop : Z) (request : RequestState) : act bool :=
  match fuel with
  | O => ret false
  | S k =>
      StartRequest sm request false ;;;
      let! head := AwaitHeaders in
      let! followed := ApplyRedirect head hop request in
      match followed with
      | Some request => open_loop k (hop + 1) request
      | None => ret true
      end
  end.

Definition Open (method url : bytes) : act bool :=
  let! parsed := of_result (ParseUrl url) in
  let! c := gets id in
  let request := initial_request c method parsed in
  modify (λ c, set_streaming c true) ;;;
  if chunked_upload_ c then
    let! begun := attempt (BeginChunkedUpload request) in
    match begun with
    | Err e => modify (λ c, set_streaming c false) ;;; fail e
    | Ok _ => ret true
    end
  else open_loop (S (Z.to_nat (max_redirects_ c))) 0 request.

(** * Read *)

Definition body_ready (c : client) : bool :=
  negb (bool_decide (pending_ c = [])) || parse_failed_ c || closed_ c || parser_complete (parser_ c).

(** The bytes put in the caller's buffer; their number is what [Read] returns. *)
Definition Read (size : nat) : act bytes :=
  wait_for sm body_ready ;;;
  let! c := gets id in
  if decide (pending_ c = []) then
    if parse_failed_ c then fail (FailedError c)
    else if parser_complete (parser_ c) then ret []
    else if closed_ c then
      fail (net_error kConnectionLost "connection closed before the response was complete")
    else fail (net_error kTimeout "timed out reading HTTP body")
  else
  let count := Nat.min size (length (pending_ c)) in
  modify (λ c, set_pending c (drop count (pending_ c))) ;;;
  ret (take count (pending_ c)).

(** * Chunked upload *)

Definition upload_ended : NetworkError :=
  net_error kInvalidArgument "the chunked request body is no longer being written - it was ended by EndBody(), or the server answered before it was finished".

Definition answered_early (status : Z) : NetworkError :=
  MkNetworkError kProtocolError status
    (lit "the server answered with status " ++ to_string status ++
     lit " before the request body was finished, so no more was sent; the response is readable").

(** The buffer is [None] for a null pointer, and otherwise holds [size] bytes. *)
Definition Write (buffer : option bytes) (size : Z) : act Z :=
  let! c := gets id in
  if negb (upload_chunked_ c) then
    if negb (chunked_upload_ c) then
      fail (NotSupported "streaming a request body requires SetChunkedUpload(true) before Open(); a body that is known up front belongs in SetBody()")
    else fail (net_error kNotConnected "no chunked request is open; call Open() before Write()")
  else if negb (upload_active_ c) then fail upload_ended
  else if closed_ c then
    fail (net_error kNotConnected "the connection was closed while the chunked body was being written")
  else if negb (bool_decide (state (parser_ c) = kStatusLine)) then
    modify (λ c, set_upload c (upload_chunked_ c) false) ;;;
    fail (answered_early (status_code (parser_ c)))
  else if size =? 0 then ret 0
  else match buffer with
  | None => fail (net_error kInvalidArgument "Write() was given no buffer")
  | Some data =>
      if size >? INT_MAX then
        fail (net_error kInvalidArgument "a chunk larger than INT_MAX bytes cannot be reported as a length")
      else if negb (transport_ c) then
        fail (net_error kNotConnected "the connection was dropped while the chunked body was being written")
      else
      let frame := ChunkFrame (take (Z.to_nat size) data) in
      let! sent := attempt (send sm frame) in
      match sent with
      | Err e => abandon e
      | Ok sent =>
          if to_size sm sent =? Z.of_nat (length frame) then ret size
          else abandon (net_error kTransmitFailed "the transport accepted only part of a chunk, so the framing no longer matches the bytes on the wire")
      end
  end.

Definition EndBody : act unit :=
  let! c := gets id in
  if negb (upload_chunked_ c) then
    if negb (chunked_upload_ c) then
      fail (NotSupported "EndBody() ends a chunked request body, and none was asked for; SetChunkedUpload(true) before Open()")
    else fail (net_error kNotConnected "no chunked request is open; call Open() before EndBody()")
  else if negb (upload_active_ c) then fail upload_ended
  else
  modify (λ c, set_upload c (upload_chunked_ c) false) ;;;
  if negb (transport_ c) then
    fail (net_error kNotConnected "the connection was dropped before the request body was ended")
  else
  let! sent := attempt (send sm kTerminator) in
  match sent with
  | Err e => abandon e
  | Ok sent =>
      if negb (to_size sm sent =? Z.of_nat (length kTerminator)) then
        abandon (net_error kTransmitFailed "the request body terminator could not be sent whole")
      else
      let! head := attempt AwaitHeaders in
      match head with
      | Err e => abandon e
      | Ok head =>
          let! c := gets id in
          if follow_redirects_ c && IsRedirectStatus (hr_status_code head) then
            abandon (MkNetworkError kProtocolError (hr_status_code head)
              (lit "the server answered a streamed request body with a redirect, and a body that has already gone out cannot be sent again; read the status and the Location, or turn following off to treat it as an answer"))
          else ret ()
      end
  end.

(** * Close and the accessors *)

Definition Close (c : client) : client :=
  set_streaming (set_pending (DropTransport c) []) false.

(** The destructor. *)
Definition destroy (c : client) : client := DropTransport c.

Definition GetStatusCode (c : client) : Result Z :=
  if decide (state (parser_ c) = kStatusLine) then Err (net_error kNotConnected "no response started")
  else Ok (status_code (parser_ c)).

Definition GetResponseHeader (c : client) (key : bytes) : bytes := GetHeader (parser_ c) key.
Definition GetContentLength (c : client) : Z := content_length (parser_ c).
Definition IsChunked (c : client) : bool := chunked (parser_ c).
End Stream.
