(* ===== verification/HttpClientFacts.v ===== *)
(** What the HTTP client does to the world: which requests it issues, to whom,
    and what each of its operations leaves alone. The world is any transport with
    a record kept of it. *)
From stdpp Require Import base decidable list strings gmap.
From Stdlib Require Import ZArith Ascii Lia.
From S2P Require Import Prelude Errors CommonTypes StateResult TcpTransport HttpParser HttpRequest HttpClient.

Section Facts.
Context {W0 : Type} `{ITransport W0} (sm : size_model).
Local Abbreviation W := (W0 * list action)%type.
Local Abbreviation client := (SoftwareHttpClient W).
Implicit Types c : client.

(** * Specification vocabulary *)

Definition log c : list action := (world_ c).2.
Definition peer_now c : peer := peer_after (false, None) (log c).

(** The caller's settings. *)
Definition config c :=
  (timeout_ c, headers_ c, request_body_ c, keep_alive_ c, follow_redirects_ c, max_redirects_ c, tls_ c,
   chunked_upload_ c).

(** Everything the transport's callbacks leave alone. *)
Definition session c :=
  (config c, transport_ c, (connected_ c, connected_host_ c, connected_port_ c, connected_tls_ c),
   (upload_chunked_ c, upload_active_ c), streaming_ c, world_ c).

(** A client that takes itself to be connected is connected to whom it thinks. *)
Definition session_ok c : Prop :=
  connected_ c = true → peer_now c = (connected_tls_ c, Some (connected_host_ c, connected_port_ c)).

(** [c'] comes after [c], which issued these requests in between. *)
Definition issued c c' (reqs : list (peer * bytes)) : Prop :=
  ∃ l, log c' = log c ++ l ∧ addressed (peer_now c) l = reqs.

Definition url_peer (u : ParsedUrl) : peer := (u_tls u, Some (u_host u, u_port u)).

(** [request] as it goes out on a connection of its own. *)
Definition issue c (request : RequestState) (chunked_upload : bool) : peer * bytes :=
  (url_peer (rs_url request),
   BuildHttpRequest (rs_url request) (request_options request (keep_alive_ c) chunked_upload)).

(** * Lemmas: the record *)

Lemma addressed_sends p l : (addressed p l).*2 = sends l.
Proof.
  revert p; induction l as [|a l IH]; intros p; [done|].
  destruct a; cbn [addressed sends omap list_omap]; try apply IH. cbn [fmap list_fmap]. f_equal. apply IH.
Qed.

Lemma issued_refl c : issued c c [].
Proof. exists []. by rewrite app_nil_r. Qed.

Lemma issued_trans c c1 c2 r1 r2 : issued c c1 r1 → issued c1 c2 r2 → issued c c2 (r1 ++ r2).
Proof.
  intros (l1 & E1 & <-) (l2 & E2 & <-). exists (l1 ++ l2).
  rewrite E2, E1, app_assoc, addressed_app. split; [done|]. unfold peer_now. by rewrite E1, peer_after_app.
Qed.

Lemma issued_quiet c c' l : log c' = log c ++ l → sends l = [] → issued c c' [].
Proof.
  intros E Hl. exists l. split; [done|]. apply (fmap_nil_inv snd). by rewrite addressed_sends.
Qed.

Lemma peer_now_app c c' l : log c' = log c ++ l → peer_now c' = peer_after (peer_now c) l.
Proof. intros E. unfold peer_now. by rewrite E, peer_after_app. Qed.

(** * Lemmas: callbacks leave the session alone *)

Lemma HandleBody_session c data : session (HandleBody c data) = session c.
Proof. unfold HandleBody. by destruct (streaming_ c). Qed.

Lemma on_event_session c e : session (on_event sm c e) = session c.
Proof.
  destruct e as [data| |e]; cbn [on_event]; [|done..]. unfold OnTransportData.
  case_match; [done|]. destruct (Feed sm _ data) as [p r].
  pose proof (HandleBody_session (set_parser c p) (drop (length (sunk (parser_ c))) (sunk p))) as E.
  by destruct r.
Qed.

Lemma deliver_session c evs : session (deliver sm c evs) = session c.
Proof.
  unfold deliver. destruct (transport_ c); [|done]. revert c; induction evs as [|e evs IH]; intros c; [done|].
  cbn [fold_left]. by rewrite IH, on_event_session.
Qed.

Lemma session_eq c c' : session c' = session c →
  config c' = config c ∧ transport_ c' = transport_ c ∧ connected_ c' = connected_ c ∧
  connected_host_ c' = connected_host_ c ∧ connected_port_ c' = connected_port_ c ∧
  connected_tls_ c' = connected_tls_ c ∧ upload_chunked_ c' = upload_chunked_ c ∧
  upload_active_ c' = upload_active_ c ∧ streaming_ c' = streaming_ c ∧ world_ c' = world_ c.
Proof.
  intros E. split_and!.
  - exact (f_equal (λ x, x.1.1.1.1.1) E).
  - exact (f_equal (λ x, x.1.1.1.1.2) E).
  - exact (f_equal (λ x, x.1.1.1.2.1.1.1) E).
  - exact (f_equal (λ x, x.1.1.1.2.1.1.2) E).
  - exact (f_equal (λ x, x.1.1.1.2.1.2) E).
  - exact (f_equal (λ x, x.1.1.1.2.2) E).
  - exact (f_equal (λ x, x.1.1.2.1) E).
  - exact (f_equal (λ x, x.1.1.2.2) E).
  - exact (f_equal (λ x, x.1.2) E).
  - exact (f_equal (λ x, x.2) E).
Qed.

(** * Lemmas: operations *)

(** What every operation gives back: settings, streaming mode, a connection the
    client knows, and these requests issued. *)
Definition after c (P : list (peer * bytes) → Prop) c' : Prop :=
  config c' = config c ∧ (session_ok c → session_ok c') ∧ ∃ reqs, issued c c' reqs ∧ P reqs.

Lemma DropTransport_log c :
  log (DropTransport c) = log c ++ (if transport_ c then [ADisconnect] else []) ∧
  config (DropTransport c) = config c ∧ connected_ (DropTransport c) = false ∧
  streaming_ (DropTransport c) = streaming_ c ∧ transport_ (DropTransport c) = false ∧
  upload_active_ (DropTransport c) = false.
Proof. unfold DropTransport, log. destruct (transport_ c) eqn:E; cbn; rewrite ?app_nil_r; by split_and!. Qed.

Lemma DropTransport_after c : after c (λ reqs, reqs = []) (DropTransport c).
Proof.
  destruct (DropTransport_log c) as (El & Ec & Ed & _). split_and!; [done| |].
  - intros _ ?. congruence.
  - exists []. split; [|done]. eapply issued_quiet; [exact El|]. by destruct (transport_ c).
Qed.

Lemma after_refl c c' (P : list (peer * bytes) → Prop) : session c' = session c → P [] → after c P c'.
Proof.
  intros (Ec & _ & E1 & E2 & E3 & E4 & _ & _ & _ & Ew)%session_eq HP. split_and!; [done| |].
  - unfold session_ok, peer_now, log. by rewrite E1, E2, E3, E4, Ew.
  - exists []. split; [|done]. eapply (issued_quiet c c' []); [unfold log; by rewrite Ew, app_nil_r|done].
Qed.

Lemma after_trans c c1 c2 (P Q R : list (peer * bytes) → Prop) : after c P c1 → after c1 Q c2 →
  (∀ r1 r2, P r1 → Q r2 → R (r1 ++ r2)) → after c R c2.
Proof.
  intros (Ec1 & O1 & r1 & I1 & H1) (Ec2 & O2 & r2 & I2 & H2) HR. split_and!; [congruence|auto|].
  exists (r1 ++ r2). split; [by eapply issued_trans|auto].
Qed.

Lemma after_quiet_l c c1 c2 (Q : list (peer * bytes) → Prop) : after c (λ r, r = []) c1 → after c1 Q c2 → after c Q c2.
Proof. intros H1 H2. eapply after_trans; [exact H1|exact H2|]. by intros r1 r2 ->. Qed.

Lemma after_quiet_r c c1 c2 (P : list (peer * bytes) → Prop) : after c P c1 → after c1 (λ r, r = []) c2 → after c P c2.
Proof. intros H1 H2. eapply after_trans; [exact H1|exact H2|]. intros r1 r2 ? ->. by rewrite app_nil_r. Qed.

Lemma after_mono c c' (P Q : list (peer * bytes) → Prop) : (∀ r, P r → Q r) → after c P c' → after c Q c'.
Proof. intros HQ (? & ? & r & ? & ?). split_and!; [done..|]. exists r. eauto. Qed.

Lemma keep_alive_config c c' : config c' = config c → keep_alive_ c' = keep_alive_ c.
Proof. unfold config. intros E. by simplify_eq. Qed.

(** A world in which something was recorded, and the callbacks that came with it. *)
Lemma after_delivered c w evs l : w.2 = log c ++ l → peer_after (peer_now c) l = peer_now c →
  after c (λ reqs, reqs = addressed (peer_now c) l) (deliver sm (set_world c w) evs).
Proof.
  intros Ew Hl. pose proof (deliver_session (set_world c w) evs) as Hs.
  apply session_eq in Hs as (Ec & _ & E1 & E2 & E3 & E4 & _ & _ & _ & E5). cbn in *.
  assert (log (deliver sm (set_world c w) evs) = log c ++ l) as El by (unfold log at 1; by rewrite E5).
  split_and!; [done| |].
  - unfold session_ok. rewrite E1, E2, E3, E4, (peer_now_app _ _ _ El), Hl. done.
  - exists (addressed (peer_now c) l). split; [|done]. by exists l.
Qed.

Lemma send_after data c : wp (send sm data) (λ _ c', after c (λ reqs, reqs = [(peer_now c, data)]) c' ∧
  transport_ c' = transport_ c ∧ streaming_ c' = streaming_ c ∧ peer_now c' = peer_now c ∧
  upload_chunked_ c' = upload_chunked_ c ∧ upload_active_ c' = upload_active_ c) c.
Proof.
  apply wp_intro. intros c' r E. unfold send in E. cbn [tcp_send recorded] in E.
  destruct (tcp_send data (world_ c).1) as [[w1 evs] r1] eqn:Es. simplify_eq.
  set (w := (w1, _)).
  destruct (session_eq _ _ (deliver_session (set_world c w) evs)) as (_ & ? & _ & _ & _ & _ & ? & ? & ? & Ew).
  split_and!; [|done|done| |done|done].
  - eapply after_mono; [|eapply (after_delivered c w evs [ASend data; AHeard evs]); done]. by intros ? ->.
  - transitivity (peer_after (false, None) (log c ++ [ASend data; AHeard evs])).
    + unfold peer_now, log. by rewrite Ew.
    + by rewrite peer_after_app.
Qed.

Lemma wait_for_after pred c : wp (wait_for sm pred) (λ _ c', after c (λ reqs, reqs = []) c' ∧
  transport_ c' = transport_ c ∧ streaming_ c' = streaming_ c) c.
Proof.
  apply wp_intro. intros c' r E. unfold wait_for in E. destruct (pred c).
  { simplify_eq. split; [by apply after_refl|done]. }
  cbn [await recorded] in E. destruct (await (timeout_ c) (world_ c).1) as [w1 evs] eqn:Es. simplify_eq.
  set (w := (w1, _)).
  split; [|pose proof (deliver_session (set_world c w) evs) as Hs; apply session_eq in Hs; by cbn in Hs; destruct_and!].
  eapply after_mono; [|eapply (after_delivered c w evs [AHeard evs]); done]. by intros ? ->.
Qed.

Lemma abandon_after {A} e c : wp (abandon (A := A) e) (λ r c', r = Err e ∧ after c (λ reqs, reqs = []) c' ∧
  streaming_ c' = streaming_ c) c.
Proof.
  unfold abandon. wp_run. split_and!; [done|apply DropTransport_after|].
  destruct (DropTransport_log c) as (_ & _ & _ & ? & _). done.
Qed.

Lemma after_disconnected c c' l : config c' = config c → connected_ c' = false → log c' = log c ++ l →
  sends l = [] → after c (λ reqs, reqs = []) c'.
Proof.
  intros Ec Ed El Hl. split_and!; [done|intros _ ?; congruence|]. exists []. split; [|done].
  by eapply issued_quiet.
Qed.

Definition steady c c' : Prop :=
  config c' = config c ∧ connected_ c' = connected_ c ∧ streaming_ c' = streaming_ c ∧ transport_ c' = transport_ c.

Lemma make_spec tls cfg c : wp (make tls cfg) (λ _ c', steady c c' ∧ log c' = log c ++ [AMake tls cfg]) c.
Proof.
  apply wp_intro. intros c' r E. unfold make in E. cbn [make_transport recorded] in E.
  destruct (make_transport tls cfg (world_ c).1) as [w1 r1]. by simplify_eq.
Qed.

Lemma connect_spec host port c : wp (connect sm host port) (λ _ c', steady c c' ∧
  ∃ evs, log c' = log c ++ [AConnect host port; AHeard evs]) c.
Proof.
  apply wp_intro. intros c' r E. unfold connect in E. cbn [tcp_connect recorded] in E.
  destruct (tcp_connect host port (world_ c).1) as [[w1 evs] r1]. simplify_eq. set (w := (w1, _)).
  destruct (session_eq _ _ (deliver_session (set_world c w) evs)) as (? & ? & ? & _ & _ & _ & _ & _ & ? & Ew).
  split; [by split_and!|]. exists evs. unfold log at 1. by rewrite Ew.
Qed.

Lemma EnsureConnected_after url c : wp (EnsureConnected sm url) (λ r c', after c (λ reqs, reqs = []) c' ∧
  streaming_ c' = streaming_ c ∧
  (r = Ok () → session_ok c → peer_now c' = url_peer url ∧ transport_ c' = true)) c.
Proof.
  unfold EnsureConnected. wp_run. change (id c) with c. destruct (reusable c url) eqn:Er.
  { wp_run. split_and!; [by apply after_refl|done|]. intros _ Hok. unfold reusable in Er.
    rewrite !andb_true_iff, !bool_decide_eq_true, Z.eqb_eq in Er. destruct Er as [[[[[E1 E2] _] E3] E4] E5].
    rewrite (Hok E1). unfold url_peer. by rewrite E3, E4, E5. }
  wp_run. destruct (DropTransport_log c) as (El & Ec & Ed & Es & _).
  set (c1 := DropTransport c) in *. clearbody c1. eapply wp_mono; [apply make_spec|]. intros r c2 [(Ec2 & Ed2 & Es2 & _) El2].
  destruct r as [[]|e].
  2: { split_and!; [|congruence|done]. eapply (after_disconnected c c2); [congruence|congruence| |].
       - by rewrite El2, El, <- app_assoc.
       - by destruct (transport_ c). }
  wp_run. set (c2' := set_transport c2 true). eapply wp_mono; [apply (connect_spec _ _ c2')|].
  intros r c3 [(Ec3 & Ed3 & Es3 & Et3) (evs & El3)].
  change (config c2') with (config c2) in Ec3. cbn in Ed3, Es3, Et3.
  change (log c2') with (log c2) in El3. rewrite El2, El, <- !app_assoc in El3.
  assert (after c (λ reqs, reqs = []) c3) as Ha.
  { eapply after_disconnected; [congruence|congruence|exact El3|]. by destruct (transport_ c). }
  destruct r as [[]|e].
  - wp_run. assert (peer_now c3 = url_peer url) as Hp.
    { rewrite (peer_now_app c _ _ El3). by destruct (transport_ c). }
    destruct Ha as (? & _ & Hi). split_and!; [split_and!; [done| |exact Hi]| |].
    + intros _ _. exact Hp.
    + change (streaming_ c3 = streaming_ c). congruence.
    + intros _ _. split; [exact Hp|exact Et3].
  - eapply wp_mono; [apply abandon_after|]. intros r c4 (-> & Ha' & Es4). split_and!; [|congruence|done].
    eapply after_quiet_l; [exact Ha|exact Ha'].
Qed.

Lemma reset_response_steady c :
  steady c (reset_response c) ∧ log (reset_response c) = log c ∧ (session_ok c → session_ok (reset_response c)).
Proof.
  unfold reset_response. cbv zeta. cbn [streaming_]. case_match; by split_and!.
Qed.

Lemma StartRequest_after request chunked c : session_ok c →
  wp (StartRequest sm request chunked) (λ r c',
    after c (λ reqs, reqs = [issue c request chunked] ∨ reqs = [] ∧ r ≠ Ok ()) c' ∧ streaming_ c' = streaming_ c ∧
    (r = Ok () → peer_now c' = url_peer (rs_url request) ∧ transport_ c' = true)) c.
Proof.
  intros Hok. unfold StartRequest. wp_run. change (id c) with c. destruct (upload_active_ c).
  { wp_run. split_and!; [|done..]. apply after_refl; [done|]. by right. }
  wp_run. eapply wp_mono; [apply EnsureConnected_after|]. intros [[]|e] c1 (Ha1 & Es1 & Hp).
  2: { split_and!; [|done..]. eapply after_mono; [|exact Ha1]. intros r ->. by right. }
  destruct (Hp eq_refl Hok) as [Hp1 Ht1]. wp_run. set (c2 := reset_response c1).
  destruct (reset_response_steady c1) as ((Ec2 & _ & Es2 & Et2) & El2 & Ho2).
  fold c2 in Ec2, Es2, Et2, El2, Ho2. clearbody c2.
  assert (after c1 (λ r, r = []) c2) as Ha2.
  { split_and!; [done..|]. exists []. split; [|done]. exists []. by rewrite app_nil_r. }
  assert (peer_now c2 = url_peer (rs_url request)) as Hp2 by (unfold peer_now in *; by rewrite El2).
  assert (keep_alive_ c2 = keep_alive_ c) as Ek.
  { rewrite (keep_alive_config c1 c2), (keep_alive_config c c1); [done|apply Ha1|done]. }
  pose proof (after_quiet_l _ _ _ _ Ha1 Ha2) as Ha.
  eapply wp_mono; [apply send_after|]. intros r c3 (Ha3 & Et3 & Es3 & Ep3 & _).
  assert (after c (λ reqs, reqs = [issue c request chunked]) c3) as Ha4.
  { eapply after_quiet_l; [exact Ha|]. eapply after_mono; [|exact Ha3]. intros reqs ->.
    by rewrite Hp2, Ek. }
  destruct r as [n|e].
  - wp_run. split_and!; [|congruence|intros _; split; congruence]. eapply after_mono; [|exact Ha4]. by left.
  - eapply wp_mono; [apply abandon_after|]. intros r c4 (-> & Ha5 & Es4). split_and!; [|congruence|done].
    eapply after_mono; [|eapply after_quiet_r; [exact Ha4|exact Ha5]]. by left.
Qed.
End Facts.
