(* ===== verification/HttpRedirects.v ===== *)
(** Following redirects: how many requests an [Execute] or an [Open] can send, that
    it ends, and who is shown the caller's credentials. *)
From stdpp Require Import base decidable list strings gmap relations.
From Stdlib Require Import ZArith Ascii Lia.
From S2P Require Import Prelude Errors CommonTypes StateResult TcpTransport HttpParser HttpRequest HttpOrigin HttpClient.
From S2P Require Import HttpStream HttpClientFacts.

(** * Specification vocabulary *)

(** One hop of a redirect chain, as far as the request is concerned: credentials
    stay behind when the origin changes, and the request is sent again as it was
    or as a plain read. *)
Definition redirects (q q' : RequestState) : Prop :=
  rs_headers q' = (if SameOrigin (rs_url q) (rs_url q') then rs_headers q
                   else filter (λ h : header, IsCredentialHeader h.1 = false) (rs_headers q)) ∧
  (rs_method q' = rs_method q ∧ rs_body q' = rs_body q ∨ rs_method q' = lit "GET" ∧ rs_body q' = []).

Definition no_credentials (hs : list header) : Prop := Forall (λ h, IsCredentialHeader h.1 = false) hs.

(** * Lemmas: credentials along a chain *)

Lemma SameOrigin_refl u : SameOrigin u u = true.
Proof. by apply SameOrigin_spec. Qed.

Lemma SameOrigin_trans u v w : SameOrigin u v = true → SameOrigin v w = true → SameOrigin u w = true.
Proof. rewrite !SameOrigin_spec. intros (?&?&?) (?&?&?). split_and!; congruence. Qed.

Lemma chain_credentials q q' : rtc redirects q q' →
  SameOrigin (rs_url q) (rs_url q') = true ∨ no_credentials (rs_headers q').
Proof.
  revert q'. apply rtc_ind_r; [left; apply SameOrigin_refl|]. intros q1 q2 _ [Eh _] IH.
  destruct (SameOrigin (rs_url q1) (rs_url q2)) eqn:E.
  - destruct IH as [IH|IH]; [left; by eapply SameOrigin_trans|right; by rewrite Eh].
  - right. rewrite Eh. apply Forall_forall. intros h Hh. by apply list_elem_of_filter in Hh as [? _].
Qed.

Lemma set_header_credentials hs k v : IsCredentialHeader k = false → no_credentials hs →
  no_credentials (set_header hs k v).
Proof.
  intros Hk. induction 1 as [|[k' v'] hs H1 H2 IH]; [by repeat constructor|]. cbn [set_header].
  case_decide; by constructor.
Qed.

Lemma set_headers_credentials l hs : no_credentials l → no_credentials hs →
  no_credentials (fold_left (λ hs h, set_header hs h.1 h.2) l hs).
Proof.
  intros Hl. revert hs; induction Hl as [|h l H1 H2 IH]; intros hs H; [done|]. cbn [fold_left]. apply IH.
  by apply set_header_credentials.
Qed.

(** The client adds no credentials of its own. *)
Lemma request_headers_credentials u o : no_credentials (ro_headers o) → no_credentials (request_headers u o).
Proof.
  intros H. unfold request_headers. cbv zeta. set (base := fold_left _ _ _).
  assert (no_credentials base) as Hb by (apply set_headers_credentials; [done|by repeat constructor]).
  destruct (ro_chunked_upload o); apply set_header_credentials; try done.
  apply Forall_forall. intros h Hh. apply list_elem_of_filter in Hh as [_ Hh].
  by eapply Forall_forall in Hb.
Qed.

Section Chain.
Context {W0 : Type} `{ITransport W0} (sm : size_model).
Local Abbreviation client := (SoftwareHttpClient (W0 * list action)).
Implicit Types c : client.

(** * Lemmas: one request *)

Lemma set_streaming_after c b : after c (λ reqs, reqs = []) (set_streaming c b).
Proof. split_and!; [done..|]. exists []. split; [|done]. exists []. by rewrite app_nil_r. Qed.

Lemma set_response_after c r : after c (λ reqs, reqs = []) (set_response c r).
Proof. split_and!; [done..|]. exists []. split; [|done]. exists []. by rewrite app_nil_r. Qed.

Lemma issue_config c c' request chunked : config c' = config c → issue c' request chunked = issue c request chunked.
Proof. intros E. unfold issue. by rewrite (keep_alive_config c c'). Qed.

Lemma ExecuteOnce_after request c : session_ok c → wp (ExecuteOnce sm request) (λ r c',
  after c (λ reqs, reqs = [issue c request false] ∨ reqs = [] ∧ is_ok r = false) c') c.
Proof.
  intros Hok. unfold ExecuteOnce. wp_run. set (c1 := set_streaming c false).
  pose proof (set_streaming_after c false) as Ha1. fold c1 in Ha1.
  eapply wp_mono; [apply StartRequest_after; by apply Ha1|]. intros r c2 [Ha2 _].
  rewrite (issue_config c c1) in Ha2 by apply Ha1. pose proof (after_quiet_l _ _ _ _ Ha1 Ha2) as Ha.
  destruct r as [[]|e].
  2: { eapply after_mono; [|exact Ha]. intros reqs [->|[-> _]]; auto. }
  assert (after c (λ reqs, reqs = [issue c request false]) c2) as Hc2.
  { eapply after_mono; [|exact Ha]. by intros reqs [->|[-> ?]]. }
  clear Ha Ha2. wp_run. eapply wp_mono; [apply wait_for_after|]. intros r c3 (Ha3 & _).
  assert (after c (λ reqs, reqs = [issue c request false]) c3) as Hc3 by (eapply after_quiet_r; eassumption).
  assert (∀ (A : Type) (r : Result A) c4, after c3 (λ reqs, reqs = []) c4 →
    after c (λ reqs, reqs = [issue c request false] ∨ reqs = [] ∧ is_ok r = false) c4) as Hend.
  { intros A r4 c4 H4. eapply after_mono; [|eapply after_quiet_r; [exact Hc3|exact H4]]. auto. }
  destruct r as [[]|e]; [|by apply Hend, after_refl]. wp_run. change (id c3) with c3.
  destruct (parse_failed_ c3).
  { eapply wp_mono; [apply abandon_after|]. intros r c4 (_ & Ha4 & _). by apply Hend. }
  destruct (negb (parser_complete _)).
  { eapply wp_mono; [apply abandon_after|]. intros r c4 (_ & Ha4 & _). by apply Hend. }
  wp_run. destruct (negb (keep_alive_ c3)); wp_run; apply Hend.
  - eapply after_quiet_l; [apply set_response_after|apply DropTransport_after].
  - apply set_response_after.
Qed.

Lemma ExecuteAttempt_after request c : session_ok c → wp (ExecuteAttempt sm request) (λ r c',
  after c (λ reqs, Forall (λ q, q = issue c request false) reqs ∧
    (length reqs <= if MethodIsRepeatable (rs_method request) then 2 else 1)%nat ∧
    (is_ok r = true → reqs ≠ [])) c') c.
Proof.
  intros Hok. unfold ExecuteAttempt. wp_run. eapply wp_mono; [by apply ExecuteOnce_after|].
  intros r c1 Ha1. destruct (lost r && MethodIsRepeatable (rs_method request)) eqn:El.
  - apply andb_true_iff in El as [El ->]. eapply wp_mono; [apply ExecuteOnce_after; by apply Ha1|].
    intros r2 c2 Ha2. rewrite (issue_config c c1) in Ha2 by apply Ha1.
    eapply after_trans; [exact Ha1|exact Ha2|].
    intros r1 r2' [->|[-> _]] [->|[-> ?]]; simpl; repeat constructor; intros; (done || lia || congruence).
  - wp_run. eapply after_mono; [|exact Ha1].
    intros reqs [->|[-> ?]]; simpl; repeat constructor; intros; (done || congruence || by destruct (MethodIsRepeatable _); lia).
Qed.

Lemma ApplyRedirect_after response hop request c : wp (ApplyRedirect response hop request) (λ r c',
  after c (λ reqs, reqs = []) c' ∧ ∀ request', r = Ok (Some request') →
    hop < max_redirects_ c ∧ follow_redirects_ c = true ∧ redirects request request') c.
Proof.
  assert (after c (λ reqs, reqs = []) c) as Hr by by apply after_refl.
  unfold ApplyRedirect. wp_run. change (id c) with c.
  destruct (negb (IsRedirectStatus _)); [by wp_run|].
  destruct (negb (follow_redirects_ c) || (max_redirects_ c =? 0)) eqn:Ef; [by wp_run|].
  apply orb_false_iff in Ef as [Ef%negb_false_iff _]. case_decide; [by wp_run|].
  rewrite Z.geb_leb. destruct (Z.leb_spec (max_redirects_ c) hop); [by wp_run|]. wp_run.
  destruct (ResolveRedirect _ _) as [next|e]; [|done]. wp_run.
  assert (∀ c', after c (λ reqs, reqs = []) c' →
    ∀ m b, (m = rs_method request ∧ b = rs_body request ∨ m = lit "GET" ∧ b = []) →
    after c (λ reqs, reqs = []) c' ∧ ∀ request', Ok (E := NetworkError) (Some (MkRequestState m next b
       (if SameOrigin (rs_url request) next then rs_headers request
        else filter (λ h : header, IsCredentialHeader h.1 = false) (rs_headers request)))) = Ok (Some request') →
    hop < max_redirects_ c ∧ follow_redirects_ c = true ∧ redirects request request') as Hend.
  { intros c' Hc' m b Hmb. split; [done|]. intros request' [= <-]. by split_and!. }
  destruct (streaming_ c); wp_run; (apply Hend; [done || apply DropTransport_after|];
    match goal with |- context [if ?b then lit "GET" else _] => destruct b; auto end).
Qed.

(** * Lemmas: the chain *)

Definition chain_of c request (reqs : list (peer * bytes)) : Prop :=
  Forall (λ q, ∃ request', rtc redirects request request' ∧ q = issue c request' false) reqs.

Lemma execute_loop_after fuel hop request c : session_ok c → max_redirects_ c < hop + Z.of_nat fuel → 0 <= hop →
  wp (execute_loop sm fuel hop request) (λ r c',
    after c (λ reqs, chain_of c request reqs ∧ (length reqs <= 2 * fuel)%nat ∧
      (follow_redirects_ c = false → (length reqs <= if MethodIsRepeatable (rs_method request) then 2 else 1)%nat)) c' ∧
    ((0 < fuel)%nat → r ≠ Ok None)) c.
Proof.
  revert hop request c; induction fuel as [|k IH]; intros hop request c Hok Hmax Hhop; cbn [execute_loop].
  { wp_run. split; [|lia]. apply after_refl; [done|]. split_and!; [constructor|done|]. cbn; lia. }
  wp_run. eapply wp_mono; [by apply ExecuteAttempt_after|]. intros r c1 Ha1.
  assert (after c (λ reqs, chain_of c request reqs ∧
    (length reqs <= if MethodIsRepeatable (rs_method request) then 2 else 1)%nat) c1) as Hc1.
  { eapply after_mono; [|exact Ha1]. intros reqs (Hf & Hl & _). split; [|done].
    eapply Forall_impl; [exact Hf|]. intros q ->. by exists request. }
  clear Ha1. pose proof Hc1 as (Ec1 & Ho1 & _). set (n := if MethodIsRepeatable _ then 2%nat else 1%nat) in *.
  assert (n <= 2)%nat as Hn by (unfold n; case_match; lia). clearbody n.
  assert (∀ c2, after c1 (λ reqs, reqs = []) c2 → after c (λ reqs, chain_of c request reqs ∧ (length reqs <= 2 * S k)%nat ∧
      (follow_redirects_ c = false → (length reqs <= n)%nat)) c2) as Hend.
  { intros c2 H2. eapply after_mono; [|eapply after_quiet_r; [exact Hc1|exact H2]].
    intros reqs (? & ?). split_and!; [done|lia|done]. }
  destruct r as [result|e]; [|split; [by apply Hend, after_refl|done]]. wp_run.
  eapply wp_mono; [apply ApplyRedirect_after|]. intros r c2 [Ha2 Hr2].
  destruct r as [[request'|]|e]; [|by wp_run; split; [apply Hend|]|by split; [apply Hend|]].
  destruct (Hr2 _ eq_refl) as (Hlt & Hf & Hred).
  assert (max_redirects_ c2 = max_redirects_ c1 ∧ max_redirects_ c1 = max_redirects_ c ∧
          follow_redirects_ c1 = follow_redirects_ c) as (Em2 & Em1 & Ef1).
  { destruct Ha2 as (Ec2 & _). unfold config in Ec1, Ec2. by simplify_eq. }
  eapply wp_mono; [apply IH; [by apply Ha2, Ho1|lia|lia]|]. intros r c3 [Ha3 Hr3].
  split.
  - eapply after_trans; [eapply after_quiet_r; [exact Hc1|exact Ha2]|exact Ha3|].
    intros r1 r2 (H1 & H2) (H3 & H4 & _). split_and!.
    + apply Forall_app. split; [done|]. eapply Forall_impl; [exact H3|]. intros q (q' & Hq & ->).
      exists q'. split; [by eapply rtc_l|]. apply issue_config. destruct Ha2 as (Ec2 & _). congruence.
    + rewrite length_app. lia.
    + congruence.
  - intros _. destruct k as [|k]; [|apply Hr3; lia]. lia.
Qed.

Lemma Execute_after method url c u : session_ok c → ParseUrl url = Ok u →
  wp (Execute sm method url) (λ r c', r ≠ Ok None ∧
    after c (λ reqs, chain_of c (initial_request c method u) reqs ∧
      (length reqs <= 2 * S (Z.to_nat (max_redirects_ c)))%nat ∧
      (follow_redirects_ c = false → (length reqs <= if MethodIsRepeatable method then 2 else 1)%nat)) c') c.
Proof.
  intros Hok Hu. unfold Execute. rewrite Hu. wp_run. change (id c) with c.
  eapply wp_mono; [apply execute_loop_after; [done|lia|lia]|]. intros r c' [Ha Hr]. split; [|exact Ha].
  apply Hr. lia.
Qed.
(** * Lemmas: the streaming client's chain *)

Lemma AwaitHeaders_quiet c : wp (AwaitHeaders sm) (λ _ c', after c (λ reqs, reqs = []) c' ∧
  upload_active_ c' = upload_active_ c) c.
Proof.
  unfold AwaitHeaders. wp_run. apply wp_intro. intros c1 r E.
  pose proof (wp_elim _ _ _ _ _ (wait_for_after sm headers_over c) E) as (Ha & _). cbv beta in Ha.
  assert (upload_active_ c1 = upload_active_ c) as Ea.
  { unfold wait_for in E. destruct (headers_over c); [by simplify_eq|].
    cbn [await recorded] in E. destruct (await _ _) as [w1 evs]. simplify_eq.
    apply (session_eq _ _ (deliver_session sm (set_world c _) evs)). }
  destruct r as [[]|e]; [|done]. wp_run. change (id c1) with c1.
  destruct (parse_failed_ c1); [by wp_run|]. destruct (bool_decide _); [by wp_run|].
  destruct (before_body _); [by destruct (closed_ c1); wp_run|]. by wp_run.
Qed.

Lemma open_loop_after fuel hop request c : session_ok c → max_redirects_ c < hop + Z.of_nat fuel → 0 <= hop →
  wp (open_loop sm fuel hop request) (λ r c',
    after c (λ reqs, chain_of c request reqs ∧ (length reqs <= fuel)%nat) c' ∧ ((0 < fuel)%nat → r ≠ Ok false)) c.
Proof.
  revert hop request c; induction fuel as [|k IH]; intros hop request c Hok Hmax Hhop; cbn [open_loop].
  { wp_run. split; [|lia]. apply after_refl; [done|]. split; [constructor|done]. }
  wp_run. eapply wp_mono; [by apply StartRequest_after|]. intros r c1 (Ha1 & _).
  assert (after c (λ reqs, chain_of c request reqs ∧ (length reqs <= 1)%nat) c1) as Hc1.
  { eapply after_mono; [|exact Ha1]. intros reqs [->|[-> _]]; (split; [|cbn; lia]); repeat constructor. by exists request. }
  pose proof Hc1 as (Ec1 & Ho1 & _). clear Ha1.
  assert (∀ c2, after c1 (λ reqs, reqs = []) c2 → after c (λ reqs, chain_of c request reqs ∧ (length reqs <= S k)%nat) c2) as Hend.
  { intros c2 H2. eapply after_mono; [|eapply after_quiet_r; [exact Hc1|exact H2]]. intros reqs (? & ?). split; [done|lia]. }
  destruct r as [[]|e]; [|split; [by apply Hend, after_refl|done]]. wp_run.
  eapply wp_mono; [apply AwaitHeaders_quiet|]. intros r c2 [Ha2 _].
  destruct r as [head|e]; [|split; [by apply Hend|done]]. wp_run.
  eapply wp_mono; [apply ApplyRedirect_after|]. intros r c3 [Ha3 Hr3].
  pose proof (after_quiet_l _ _ _ _ Ha2 Ha3) as Ha23.
  destruct r as [[request'|]|e]; [|by wp_run; split; [apply Hend|]|by split; [apply Hend|]].
  destruct (Hr3 _ eq_refl) as (Hlt & _ & Hred). pose proof Ha23 as (Ec3 & Ho3 & _).
  assert (max_redirects_ c3 = max_redirects_ c ∧ max_redirects_ c2 = max_redirects_ c) as [Em3 Em2].
  { destruct Ha2 as (Ec2 & _). unfold config in Ec1, Ec2, Ec3. simplify_eq. split; congruence. }
  eapply wp_mono; [apply IH; [by apply Ho3, Ho1|lia|lia]|]. intros r c4 [Ha4 Hr4].
  split.
  - eapply after_trans; [eapply after_quiet_r; [exact Hc1|exact Ha23]|exact Ha4|].
    intros r1 r2 (H1 & H2) (H3 & H4). split; [|rewrite length_app; lia].
    apply Forall_app. split; [done|]. eapply Forall_impl; [exact H3|]. intros q (q' & Hq & ->).
    exists q'. split; [by eapply rtc_l|]. apply issue_config. congruence.
  - intros _. destruct k as [|k]; [lia|]. apply Hr4; lia.
Qed.

(** The requests of an [Open], the first of which may be the head of an upload. *)
Definition opening c request (reqs : list (peer * bytes)) : Prop :=
  (length reqs <= S (Z.to_nat (max_redirects_ c)))%nat ∧
  Forall (λ q, ∃ request' b, rtc redirects request request' ∧ q = issue c request' b) reqs.

Lemma opening_upload c request reqs : reqs = [] ∨ reqs = [issue c request true] → opening c request reqs.
Proof.
  intros [->| ->]; (split; [cbn; lia|]); [constructor|]. apply list.Forall_singleton. by exists request, true.
Qed.

Lemma BeginChunkedUpload_after request c : session_ok c → wp (BeginChunkedUpload sm request) (λ _ c',
  after c (λ reqs, reqs = [] ∨ reqs = [issue c request true]) c') c.
Proof.
  intros Hok. assert (after c (λ reqs, reqs = [] ∨ reqs = [issue c request true]) c) as Hr by (apply after_refl; auto).
  unfold BeginChunkedUpload. case_decide; [by wp_run|]. destruct (existsb _ _); [by wp_run|]. wp_run.
  eapply wp_mono; [by apply StartRequest_after|]. intros r c2 (Ha & _).
  assert (after c (λ reqs, reqs = [] ∨ reqs = [issue c request true]) c2) as H2.
  { eapply after_mono; [|exact Ha]. intros reqs [->|[-> _]]; auto. }
  by destruct r as [[]|e]; wp_run.
Qed.

Lemma Open_after method url c u : session_ok c → ParseUrl url = Ok u →
  wp (Open sm method url) (λ r c', r ≠ Ok false ∧ after c (opening c (initial_request c method u)) c') c.
Proof.
  intros Hok Hu. unfold Open. rewrite Hu. wp_run. change (id c) with c. set (c1 := set_streaming c true).
  pose proof (set_streaming_after c true) as Ha1. fold c1 in Ha1. destruct (chunked_upload_ c).
  - wp_run. eapply wp_mono; [apply BeginChunkedUpload_after; by apply Ha1|]. intros r c2 H2.
    assert (after c (opening c (initial_request c method u)) c2) as Ha2.
    { eapply after_quiet_l; [exact Ha1|]. eapply after_mono; [|exact H2]. apply opening_upload. }
    destruct r as [[]|e]; wp_run; (split; [done|]); [exact Ha2|].
    eapply after_quiet_r; [exact Ha2|apply set_streaming_after].
  - eapply wp_mono; [apply (open_loop_after _ _ _ c1); [by apply Ha1|cbn; lia|lia]|].
    intros r c' [Ha Hr]. split; [apply Hr; lia|]. eapply after_quiet_l; [exact Ha1|].
    eapply after_mono; [|exact Ha]. intros reqs [Hc Hl]. split; [done|].
    eapply Forall_impl; [exact Hc|]. intros q (q' & Hq & ->). by exists q', false.
Qed.
End Chain.
