(* ===== verification/HttpReply.v ===== *)
(** The response an [Execute] gives back is what was heard after its last
    request, read by the response parser to its end. *)
From stdpp Require Import base decidable list strings gmap.
From Stdlib Require Import ZArith Ascii Lia.
From S2P Require Import Prelude Errors CommonTypes StateResult TcpTransport AtParser HttpParser HttpParserFacts HttpRequest.
From S2P Require Import HttpClient HttpClientFacts HttpRedirects.

(** * Specification vocabulary *)

(** What the callbacks told, in order. *)
Definition heard (l : list action) : list tcp_event :=
  l ≫= λ a, match a with AHeard evs => evs | _ => [] end.

(** A response parser fed with it. *)
Definition parse_event (sm : size_model) (p : HttpParser) (e : tcp_event) : HttpParser :=
  match e with
  | EvData data => if parser_complete p then p else (Feed sm p data).1
  | EvDisconnected => Finish p
  | EvError _ => p
  end.
Definition reply_of (sm : size_model) (evs : list tcp_event) : HttpParser :=
  fold_left (parse_event sm) evs (new_parser true).

(** * Lemmas: the parser's sink *)

(** Body bytes go to the callback once there is one. *)
Definition sinks (p p' : HttpParser) : Prop :=
  on_body p' = on_body p ∧ (on_body p = true → body p' = body p ∧ sunk p `prefix_of` sunk p').

#[export] Instance sinks_refl : Reflexive sinks.
Proof. by intros p. Qed.
#[export] Instance sinks_trans : Transitive sinks.
Proof.
  intros p q r [E1 H1] [E2 H2]. split; [congruence|]. intros H. destruct (H1 H) as [B1 S1].
  destruct H2 as [B2 S2]; [congruence|]. split; [congruence|by etrans].
Qed.

Lemma EmitBody_sinks p d : sinks p (EmitBody p d).
Proof.
  unfold EmitBody. case_decide; [done|]. destruct (on_body p) eqn:E; split; try done.
  - intros _. split; [done|]. by apply prefix_app_r.
  - congruence.
Qed.

(** A change of fields that are none of the sink's. *)
Lemma same_sink p p' q : sinks p p' → on_body q = on_body p' → body q = body p' → sunk q = sunk p' → sinks p q.
Proof. unfold sinks. intros H -> -> ->. exact H. Qed.

Section Sink.
Context (sm : size_model).

Lemma feed_step_sinks p s : sinks p (feed_step sm p s).1.
Proof.
  unfold feed_step, FeedStatusLine, FeedHeaders, FeedBody, FeedChunkSize, FeedChunkData, FeedChunkDataEnd,
    FeedChunkTrailer, protocol_error, end_headers.
  repeat (case_match; simpl; try (apply (same_sink p p); done)).
  all: try (eapply same_sink; [apply EmitBody_sinks|done..]).
Qed.

Lemma feed_loop_sinks k p data n : sinks p (feed_loop sm k p data n).1.
Proof.
  revert p n; induction k as [|k IH]; intros p n; [done|]. cbn [feed_loop].
  case_match; [|done]. pose proof (feed_step_sinks p (drop n data)) as Hs.
  destruct (feed_step sm p _) as [p' [m|e]]; [|done]. case_match; [done|]. etrans; [exact Hs|apply IH].
Qed.

Lemma Feed_sinks p data : sinks p (Feed sm p data).1.
Proof.
  unfold Feed. case_match; [done|]. cbv zeta.
  pose proof (feed_loop_sinks (length (buffer p ++ data)) p (buffer p ++ data) 0) as Hs.
  destruct (feed_loop sm _ p _ 0) as [p' [m|e]]; (eapply same_sink; [exact Hs|done..]).
Qed.

Lemma parse_event_sinks p e : sinks p (parse_event sm p e).
Proof.
  destruct e; cbn [parse_event]; [case_match; [done|apply Feed_sinks]| |done].
  unfold Finish. repeat case_match; try done; by apply (same_sink p p).
Qed.

(** ** Announced lengths *)

Lemma parse_event_accounted base p e : wf sm p → accounted base p →
  wf sm (parse_event sm p e) ∧ accounted base (parse_event sm p e).
Proof.
  intros Hw Ha. destruct e; cbn [parse_event].
  - case_match; [done|]. split; [by apply Feed_wf|by apply Feed_accounted].
  - split; [|by apply Finish_accounted]. unfold Finish. repeat case_match; try done.
    destruct Hw; by split.
  - done.
Qed.

Lemma reply_of_facts evs : let p := reply_of sm evs in
  on_body p = true ∧ body p = [] ∧ wf sm p ∧ accounted 0 p.
Proof.
  cbn zeta. unfold reply_of.
  assert (on_body (new_parser true) = true ∧ body (new_parser true) = [] ∧ wf sm (new_parser true) ∧
          accounted 0 (new_parser true)) as H.
  { split_and!; [done|done|apply new_parser_wf|]. split; cbn; naive_solver. }
  revert H. generalize (new_parser true). induction evs as [|e evs IH]; intros p (H1 & H2 & H3 & H4); [by split_and!|].
  cbn [fold_left]. apply IH. destruct (parse_event_sinks p e) as [E1 E2]. destruct (E2 H1) as [E3 _].
  destruct (parse_event_accounted 0 p e H3 H4). split_and!; (done || congruence).
Qed.

Lemma reply_of_length evs : let p := reply_of sm evs in state p = kComplete → has_content_length p = true →
  chunked p = false → Z.of_nat (length (sunk p)) = content_length p.
Proof.
  cbn zeta. intros Hs Hh Hc. destruct (reply_of_facts evs) as (_ & Hb & _ & Ha).
  pose proof (acc_done _ _ Ha Hs Hh Hc) as H. unfold received in H. rewrite Hb in H. simpl in H. lia.
Qed.
End Sink.

Lemma heard_app l l' : heard (l ++ l') = heard l ++ heard l'.
Proof. apply bind_app. Qed.

(** * Lemmas: the client's response side *)

Section Reply.
Context {W0 : Type} `{ITransport W0} (sm : size_model).
Local Abbreviation client := (SoftwareHttpClient (W0 * list action)).
Implicit Types c : client.

(** The response side of a client, [evs] having been heard: it buffers, or it
    streams and the caller has [got] what is no longer pending. *)
Definition listening (got : option bytes) c (evs : list tcp_event) : Prop :=
  transport_ c = true ∧ parser_ c = reply_of sm evs ∧
  match got with
  | Some got => streaming_ c = true ∧ got ++ pending_ c = sunk (parser_ c)
  | None => streaming_ c = false ∧ hr_body (response_ c) = sunk (parser_ c) ∧ hr_headers (response_ c) = ∅
  end.

(** A callback feeds the parser, and what the parser made of it goes to the buffer
    the client's mode has for it. *)
Lemma on_event_reply c evs e : parser_ c = reply_of sm evs →
  let c' := on_event sm c e in
  parser_ c' = reply_of sm (evs ++ [e]) ∧ ∃ d, sunk (parser_ c') = sunk (parser_ c) ++ d ∧
  pending_ c' = (if streaming_ c then pending_ c ++ d else pending_ c) ∧
  hr_body (response_ c') = (if streaming_ c then hr_body (response_ c) else hr_body (response_ c) ++ d) ∧
  hr_headers (response_ c') = hr_headers (response_ c).
Proof.
  intros H3. cbv zeta.
  assert (∀ c', sunk (parser_ c') = sunk (parser_ c) → pending_ c' = pending_ c → response_ c' = response_ c →
    ∃ d, sunk (parser_ c') = sunk (parser_ c) ++ d ∧
    pending_ c' = (if streaming_ c then pending_ c ++ d else pending_ c) ∧
    hr_body (response_ c') = (if streaming_ c then hr_body (response_ c) else hr_body (response_ c) ++ d) ∧
    hr_headers (response_ c') = hr_headers (response_ c)) as Hnone.
  { intros c' -> -> ->. exists []. rewrite !app_nil_r. by destruct (streaming_ c). }
  unfold reply_of. rewrite fold_left_app. cbn [fold_left]. fold (reply_of sm evs). rewrite <- H3.
  destruct e as [data| |e]; cbn [on_event parse_event]; [| |by split; [|apply Hnone]].
  2: { split; [done|]. apply Hnone; [|done..]. unfold OnTransportClosed, Finish. cbn. by repeat case_match. }
  unfold OnTransportData. destruct (parser_complete (parser_ c)); [by split; [|apply Hnone]|].
  destruct (reply_of_facts sm evs) as (Hob & _). rewrite <- H3 in Hob.
  destruct (Feed_sinks sm (parser_ c) data) as [_ Hsk]. destruct (Hsk Hob) as [_ [d Hd]].
  unfold HandleBody. destruct (Feed sm (parser_ c) data) as [p r]; cbn [fst] in *. cbn [streaming_ set_parser].
  split; [by destruct (streaming_ c), r|]. exists d. rewrite Hd, drop_app_length.
  by destruct (streaming_ c), r; cbn; rewrite ?Hd.
Qed.

Lemma on_event_listening got c evs e : listening got c evs → listening got (on_event sm c e) (evs ++ [e]).
Proof.
  intros (H1 & H2 & H3). pose proof (on_event_session sm c e) as Hs.
  destruct (session_eq _ _ Hs) as (_ & Et & _ & _ & _ & _ & _ & _ & Es & _).
  destruct (on_event_reply c evs e H2) as (Hp & d & Hd & Hq & Hb & Hh).
  unfold listening. rewrite Et, Es, Hb, Hh, Hd, Hq. split_and!; [done..|].
  destruct got as [got|]; [destruct H3 as [-> <-]; by rewrite app_assoc|]. destruct H3 as (-> & -> & ->). done.
Qed.

Lemma deliver_listening got c evs evs' : listening got c evs → listening got (deliver sm c evs') (evs ++ evs').
Proof.
  intros Hl. unfold deliver. rewrite (proj1 Hl).
  revert c evs Hl; induction evs' as [|e evs' IH]; intros c evs Hl; [by rewrite app_nil_r|].
  cbn [fold_left]. rewrite cons_middle, app_assoc. by apply IH, on_event_listening.
Qed.

(** A request went out and these are the callbacks since. *)
Definition asked c c' (evs : list tcp_event) : Prop :=
  ∃ pre d post, log c' = log c ++ pre ++ ASend d :: post ∧ sends post = [] ∧ heard post = evs.

(** The response of a parser that has read one to its end. *)
Definition answer_of (evs : list tcp_event) (r : HttpResponse) : Prop :=
  let p := reply_of sm evs in
  state p = kComplete ∧ r = MkHttpResponse (status_code p) (HttpParser.headers p) (sunk p).

Lemma asked_later c0 c c' P evs : after c0 P c → asked c c' evs → asked c0 c' evs.
Proof.
  intros (_ & _ & _ & (l & El & _) & _) (pre & d & post & E & Hs & Hh). exists (l ++ pre), d, post.
  split_and!; [|done..]. by rewrite E, El, <- !app_assoc.
Qed.

Lemma asked_more c0 c c' l evs : asked c0 c evs → log c' = log c ++ l → sends l = [] →
  asked c0 c' (evs ++ heard l).
Proof.
  intros (pre & d & post & E & Hs & Hh) El Hl. exists pre, d, (post ++ l). split_and!.
  - by rewrite El, E, <- !app_assoc.
  - by rewrite sends_app, Hs.
  - by rewrite heard_app, Hh.
Qed.

Definition nothing_got c : option bytes := if streaming_ c then Some [] else None.

Lemma StartRequest_listening request chunked c : session_ok c →
  wp (StartRequest sm request chunked) (λ r c', r = Ok () → ∃ evs, asked c c' evs ∧ listening (nothing_got c) c' evs) c.
Proof.
  intros Hok. unfold StartRequest. wp_run. change (id c) with c. destruct (upload_active_ c); [by wp_run|].
  wp_run. eapply wp_mono; [apply (EnsureConnected_after sm)|]. intros [[]|e] c1 (Ha1 & Es1 & Hp); [|done].
  destruct (Hp eq_refl Hok) as [_ Ht1]. wp_run. set (c2 := reset_response c1).
  destruct (reset_response_steady c1) as ((_ & _ & Es2 & Et2) & El2 & _).
  fold c2 in Es2, Et2, El2.
  assert (listening (nothing_got c) c2 []) as Hl2.
  { split_and!; [congruence| |]; [by unfold c2, reset_response; cbv zeta; case_match|].
    unfold nothing_got. rewrite <- Es1, Es2. unfold c2, reset_response. cbv zeta. cbn [streaming_ set_response set_closed set_failed set_parser].
    by destruct (streaming_ c1). }
  clearbody c2. destruct Ha1 as (_ & _ & _ & (l1 & El1 & _) & _).
  set (req := BuildHttpRequest _ _). clearbody req.
  apply wp_intro. intros c3 r E. unfold send in E. cbn [tcp_send recorded] in E.
  destruct (tcp_send req (world_ c2).1) as [[w1 evs] r1]. simplify_eq. set (w := (w1, _)).
  assert (listening (nothing_got c) (deliver sm (set_world c2 w) evs) evs) as Hl3 by (by apply (deliver_listening _ _ [])).
  assert (log (deliver sm (set_world c2 w) evs) = log c ++ l1 ++ [ASend req; AHeard evs]) as El3.
  { destruct (session_eq _ _ (deliver_session sm (set_world c2 w) evs)) as (_ & _ & _ & _ & _ & _ & _ & _ & _ & Ew).
    unfold log at 1. rewrite Ew. cbn. fold (log c2). by rewrite El2, El1, <- app_assoc. }
  destruct r as [n|e]; wp_run; [|by eapply wp_mono; [apply abandon_after|]; intros ? ? [-> _]].
  intros _. exists evs. split; [|exact Hl3]. exists l1, req, [AHeard evs].
  split_and!; [exact El3|done|]. cbn. by rewrite app_nil_r.
Qed.

Lemma wait_for_listening pred got c0 c evs : asked c0 c evs → listening got c evs →
  wp (wait_for sm pred) (λ _ c', ∃ evs', asked c0 c' evs' ∧ listening got c' evs') c.
Proof.
  intros Ha Hl. apply wp_intro. intros c' r E. unfold wait_for in E. destruct (pred c).
  { simplify_eq. by exists evs. }
  cbn [await recorded] in E. destruct (await (timeout_ c) (world_ c).1) as [w1 evs'] eqn:Es. simplify_eq.
  set (w := (w1, _)). exists (evs ++ evs'). split; [|by apply deliver_listening].
  destruct (session_eq _ _ (deliver_session sm (set_world c w) evs')) as (_ & _ & _ & _ & _ & _ & _ & _ & _ & Ew).
  replace evs' with (heard [AHeard evs']) at 2 by (cbn; by rewrite app_nil_r).
  eapply asked_more; [exact Ha| |done]. unfold log at 1. by rewrite Ew.
Qed.

Lemma ExecuteOnce_answer request c : session_ok c →
  wp (ExecuteOnce sm request) (λ r c', ∀ resp, r = Ok resp → ∃ evs, asked c c' evs ∧ answer_of evs resp) c.
Proof.
  intros Hok. unfold ExecuteOnce. wp_run.
  eapply wp_mono; [by apply (StartRequest_listening _ _ (set_streaming c false))|].
  intros [[]|e] c2 H2; [|done]. destruct (H2 eq_refl) as (evs & Ha & Hl). wp_run.
  eapply wp_mono; [apply (wait_for_listening response_over None c _ evs); [exact Ha|exact Hl]|]. intros [[]|e] c3 (evs' & Ha3 & Hl3); [|done].
  wp_run. change (id c3) with c3. destruct (parse_failed_ c3).
  { eapply wp_mono; [apply abandon_after|]. by intros r c4 [-> _]. }
  destruct (parser_complete (parser_ c3)) eqn:Ep; cbn [negb].
  2: { eapply wp_mono; [apply abandon_after|]. by intros r c4 [-> _]. }
  destruct Hl3 as (_ & Hp & _ & Hb & Hh). rewrite Hp in Ep. apply bool_decide_eq_true in Ep.
  assert (answer_of evs' (take_response c3)) as Hans.
  { split; [done|]. unfold take_response. by rewrite Hb, Hh, Hp, map_union_empty. }
  destruct (keep_alive_ c3); cbn [negb]; wp_run; intros resp [= <-]; exists evs'; (split; [|done]).
  - exact Ha3.
  - set (c4 := set_response c3 empty_http_response). destruct (DropTransport_log c4) as (El4 & _).
    replace evs' with (evs' ++ heard (if transport_ c4 then [ADisconnect] else [])) by
      (by destruct (transport_ c4); cbn; rewrite app_nil_r).
    eapply asked_more; [exact Ha3|exact El4|]. by destruct (transport_ c4).
Qed.

Lemma ExecuteAttempt_answer request c : session_ok c →
  wp (ExecuteAttempt sm request) (λ r c', ∀ resp, r = Ok resp → ∃ evs, asked c c' evs ∧ answer_of evs resp) c.
Proof.
  intros Hok. unfold ExecuteAttempt. wp_run. apply wp_intro. intros c1 r E.
  pose proof (wp_elim _ _ _ _ _ (ExecuteOnce_after sm request c Hok) E) as Ha1.
  pose proof (wp_elim _ _ _ _ _ (ExecuteOnce_answer request c Hok) E) as H1. cbv beta in *.
  case_match; [|by wp_run]. eapply wp_mono; [apply ExecuteOnce_answer; by apply Ha1|].
  intros r2 c2 H2 resp ->. destruct (H2 _ eq_refl) as (evs & Hs & Hans). exists evs. split; [|done].
  by eapply asked_later.
Qed.

Lemma ApplyRedirect_none response hop request c :
  wp (ApplyRedirect response hop request) (λ r c', r = Ok None → c' = c) c.
Proof.
  unfold ApplyRedirect. wp_run. change (id c) with c. destruct (negb _); [by wp_run|].
  destruct (_ || _); [by wp_run|]. case_decide; [by wp_run|]. destruct (_ >=? _); [by wp_run|]. wp_run.
  destruct (ResolveRedirect _ _); [|done]. wp_run. by destruct (streaming_ c); wp_run.
Qed.

Lemma execute_loop_answer fuel hop request c : session_ok c → wp (execute_loop sm fuel hop request)
  (λ r c', ∀ resp, r = Ok (Some resp) → ∃ evs, asked c c' evs ∧ answer_of evs resp) c.
Proof.
  revert hop request c; induction fuel as [|k IH]; intros hop request c Hok; cbn [execute_loop]; [by wp_run|].
  wp_run. apply wp_intro. intros c1 r E.
  pose proof (wp_elim _ _ _ _ _ (ExecuteAttempt_after sm request c Hok) E) as Ha1.
  pose proof (wp_elim _ _ _ _ _ (ExecuteAttempt_answer request c Hok) E) as H1. cbv beta in *.
  destruct r as [result|e]; [|done]. wp_run. apply wp_intro. intros c2 r E2.
  pose proof (wp_elim _ _ _ _ _ (ApplyRedirect_after result hop request c1) E2) as [Ha2 _].
  pose proof (wp_elim _ _ _ _ _ (ApplyRedirect_none result hop request c1) E2) as H2. cbv beta in *.
  destruct r as [[request'|]|e]; [| |done].
  - eapply wp_mono; [apply IH; by apply Ha2, Ha1|]. intros r c3 H3 resp ->.
    destruct (H3 _ eq_refl) as (evs & Hs & Hans). exists evs. split; [|done].
    by eapply asked_later, asked_later.
  - wp_run. intros resp [= <-]. rewrite (H2 eq_refl). by apply H1.
Qed.
End Reply.
