(* ===== verification/HttpConversation.v ===== *)
(** The conversation of an [Execute] or an [Open]: which request goes out when, and
    what was heard that made the client send another. *)
From stdpp Require Import base decidable list strings gmap relations.
From Stdlib Require Import ZArith Ascii Lia.
From S2P Require Import Prelude Errors CommonTypes StateResult TcpTransport AtParser HttpParser HttpRequest HttpOrigin.
From S2P Require Import HttpClient HttpStream HttpClientFacts HttpRedirects HttpReply.

(** * Specification vocabulary *)

(** [request] as it goes out. *)
Definition wire (keep_alive : bool) (request : RequestState) : bytes :=
  BuildHttpRequest (rs_url request) (request_options request keep_alive false).

(** What a redirect has [q] followed by: a request to where it points, without the
    caller's credentials if that is elsewhere, that reads - or keeps the method and the
    body, if they were a read's already or the code is one of the two that ask for it. *)
Definition asks_again (resp : HttpResponse) (q q' : RequestState) : Prop :=
  IsRedirectStatus (hr_status_code resp) = true ∧
  ResolveRedirect (rs_url q) (RedirectLocation (map_to_list (hr_headers resp))) = Ok (rs_url q') ∧
  rs_headers q' = (if SameOrigin (rs_url q) (rs_url q') then rs_headers q
                   else filter (λ h : header, IsCredentialHeader h.1 = false) (rs_headers q)) ∧
  (rs_method q' = lit "GET" ∧ rs_body q' = [] ∨
   rs_method q' = rs_method q ∧ rs_body q' = rs_body q ∧
     (hr_status_code resp ∈ [307; 308] ∨ rs_method q ∈ [lit "GET"; lit "HEAD"])).

(** What goes out from [q] on. [reply] is how a response is read from what was heard,
    [repeat] whether a request may be sent once more and [first] whether it still may:
    a request is followed by nothing, by itself if its method is a safe one, or by what
    a redirect heard in answer to it asks for. *)
Section Conversation.
Context (reply : list tcp_event → HttpResponse → Prop) (repeat keep_alive follow : bool).

Inductive conversation : bool → RequestState → list action → Prop :=
  | conv_silent first q l : sends l = [] → conversation first q l
  | conv_last first q pre post : sends pre = [] → sends post = [] →
      conversation first q (pre ++ ASend (wire keep_alive q) :: post)
  | conv_repeat q pre mid rest : sends pre = [] → sends mid = [] →
      MethodIsRepeatable (rs_method q) = true → conversation false q rest →
      conversation true q (pre ++ ASend (wire keep_alive q) :: mid ++ rest)
  | conv_redirect first q q' resp pre mid rest : sends pre = [] → sends mid = [] →
      follow = true → reply (heard mid) resp → asks_again resp q q' → conversation repeat q' rest →
      conversation first q (pre ++ ASend (wire keep_alive q) :: mid ++ rest).

(** One request and how it ended: it may not have gone out at all. *)
Definition exchange (q : RequestState) (r : Result HttpResponse) (l : list action) : Prop :=
  sends l = [] ∧ is_ok r = false ∨
  ∃ pre mid, l = pre ++ ASend (wire keep_alive q) :: mid ∧ sends pre = [] ∧ sends mid = [] ∧
    ∀ resp, r = Ok resp → reply (heard mid) resp.

(** What may follow it: nothing, or what its response asks for. *)
Definition followed (q : RequestState) (r : Result HttpResponse) (rest : list action) : Prop :=
  sends rest = [] ∨
  ∃ resp q', r = Ok resp ∧ follow = true ∧ asks_again resp q q' ∧ conversation repeat q' rest.

(** * Lemmas *)

Lemma conversation_later first q l0 l : sends l0 = [] → conversation first q l → conversation first q (l0 ++ l).
Proof.
  intros H0 Hl. destruct Hl as [first q l Hl|first q pre post H1 H2|q pre mid rest H1 H2 Hm Hr|first q q' resp pre mid rest H1 H2 Hf Hp Ha Hr].
  - apply conv_silent. by rewrite sends_app, H0, Hl.
  - rewrite app_assoc. apply conv_last; [|done]. by rewrite sends_app, H0, H1.
  - rewrite app_assoc. apply conv_repeat; try done. by rewrite sends_app, H0, H1.
  - rewrite app_assoc. eapply conv_redirect; try done. by rewrite sends_app, H0, H1.
Qed.

Lemma conversation_first first q l : conversation false q l → conversation first q l.
Proof.
  intros Hl. inversion Hl; simplify_eq; [by apply conv_silent|by apply conv_last|by eapply conv_redirect].
Qed.

Lemma exchange_followed first q r l rest : exchange q r l → followed q r rest → conversation first q (l ++ rest).
Proof.
  intros [[Hl Hr]|(pre & mid & -> & H1 & H2 & H3)] Hf.
  - destruct Hf as [Hf|(resp & q' & -> & _)]; [|done]. apply conv_silent. by rewrite sends_app, Hl, Hf.
  - rewrite <- app_assoc. cbn [app]. destruct Hf as [Hf|(resp & q' & -> & Hf & Ha & Hc)].
    + apply conv_last; [done|]. by rewrite sends_app, H2, Hf.
    + eapply conv_redirect; try done. by apply H3.
Qed.

Lemma exchange_repeated q r l rest : exchange q r l → MethodIsRepeatable (rs_method q) = true →
  conversation false q rest → conversation true q (l ++ rest).
Proof.
  intros [[Hl _]|(pre & mid & -> & H1 & H2 & _)] Hm Hc.
  - apply conversation_later; [done|]. by apply conversation_first.
  - rewrite <- app_assoc. by apply conv_repeat.
Qed.

Lemma sends_one l d : sends l = [d] → ∃ pre mid, l = pre ++ ASend d :: mid ∧ sends pre = [] ∧ sends mid = [].
Proof.
  induction l as [|a l IH]; [done|]. destruct a as [| |d'| | |] eqn:Ea;
    try (intros H; destruct (IH H) as (pre & mid & -> & H1 & H2); exists (a :: pre), mid; subst a; by split_and!).
  cbn. intros [= -> Hl]. by exists [], l.
Qed.

(** A log that has one request in it, and what was heard after it. *)
Lemma exchange_asked q r l pre d post : sends l = [wire keep_alive q] → l = pre ++ ASend d :: post →
  sends post = [] → (∀ resp, r = Ok resp → reply (heard post) resp) → exchange q r l.
Proof.
  intros Hs -> Hp Hr. right. exists pre, post. rewrite sends_app in Hs. cbn in Hs.
  destruct (sends pre) as [|x xs] eqn:E; [|exfalso; injection Hs as _ Hs; by destruct xs].
  injection Hs as -> _. by split_and!.
Qed.
End Conversation.

(** A response read to its end, and the head of one. *)
Definition head_of (sm : size_model) (evs : list tcp_event) (r : HttpResponse) : Prop :=
  let p := reply_of sm evs in
  before_body p = false ∧ state p ≠ kError ∧ r = MkHttpResponse (status_code p) (HttpParser.headers p) [].

(** * Lemmas: the client *)

Section Client.
Context {W0 : Type} `{ITransport W0} (sm : size_model).
Local Abbreviation client := (SoftwareHttpClient (W0 * list action)).
Implicit Types c : client.

Lemma follow_config c c' : config c' = config c → follow_redirects_ c' = follow_redirects_ c.
Proof. unfold config. intros E. by simplify_eq. Qed.

(** The log of an operation that issued these requests. *)
Lemma after_log c c' (P : list (peer * bytes) → Prop) : after c P c' →
  ∃ l reqs, log c' = log c ++ l ∧ sends l = reqs.*2 ∧ P reqs.
Proof. intros (_ & _ & reqs & (l & El & <-) & HP). exists l, (addressed (peer_now c) l). by rewrite addressed_sends. Qed.

Lemma after_silent c c' : after c (λ reqs, reqs = []) c' → ∃ l, log c' = log c ++ l ∧ sends l = [].
Proof. intros (l & reqs & El & Es & ->)%after_log. by exists l. Qed.

(** An operation that issued one request or none, and what it was told since. *)
Lemma exchange_of reply q c c' r : 
  after c (λ reqs, reqs = [issue c q false] ∨ reqs = [] ∧ is_ok r = false) c' →
  (∀ resp, r = Ok resp → ∃ evs, asked c c' evs ∧ reply evs resp) →
  ∃ l, log c' = log c ++ l ∧ exchange reply (keep_alive_ c) q r l.
Proof.
  intros (l & reqs & El & Es & Hr)%after_log Ha. exists l. split; [done|]. destruct Hr as [->|[-> Hr]]; [|by left].
  change (sends l = [wire (keep_alive_ c) q]) in Es. destruct r as [resp|e].
  - destruct (Ha resp eq_refl) as (evs & (pre & d & post & El' & Hp & <-) & Hreply).
    rewrite El in El'. apply app_inv_head in El'.
    eapply exchange_asked; [exact Es|exact El'|exact Hp|]. by intros ? [= <-].
  - destruct (sends_one _ _ Es) as (pre & mid & -> & H1 & H2). right. exists pre, mid. by split_and!.
Qed.

Lemma ExecuteOnce_exchange request c : session_ok c → wp (ExecuteOnce sm request) (λ r c',
  ∃ l, log c' = log c ++ l ∧ exchange (answer_of sm) (keep_alive_ c) request r l) c.
Proof.
  intros Hok. apply wp_intro. intros c' r E. apply exchange_of.
  - exact (wp_elim _ _ _ _ _ (ExecuteOnce_after sm request c Hok) E).
  - exact (wp_elim _ _ _ _ _ (ExecuteOnce_answer sm request c Hok) E).
Qed.

(** One attempt, and whatever may come after it. *)
Lemma ExecuteAttempt_conversation request c follow : session_ok c → wp (ExecuteAttempt sm request) (λ r c',
  ∃ l, log c' = log c ++ l ∧ ∀ rest, followed (answer_of sm) true (keep_alive_ c) follow request r rest →
    conversation (answer_of sm) true (keep_alive_ c) follow true request (l ++ rest)) c.
Proof.
  intros Hok. unfold ExecuteAttempt. wp_run. apply wp_intro. intros c1 r E.
  pose proof (wp_elim _ _ _ _ _ (ExecuteOnce_after sm request c Hok) E) as Ha1.
  destruct (wp_elim _ _ _ _ _ (ExecuteOnce_exchange request c Hok) E) as (l1 & El1 & Hx1).
  destruct (lost r && MethodIsRepeatable (rs_method request)) eqn:Er.
  - apply andb_true_iff in Er as [_ Hm]. eapply wp_mono; [apply ExecuteOnce_exchange; by apply Ha1|].
    intros r2 c2 (l2 & El2 & Hx2). rewrite (keep_alive_config c c1) in Hx2 by apply Ha1. exists (l1 ++ l2).
    split; [by rewrite El2, El1, app_assoc|]. intros rest Hf. rewrite <- app_assoc.
    eapply exchange_repeated; [exact Hx1|done|]. by eapply exchange_followed.
  - assert (∀ rest, followed (answer_of sm) true (keep_alive_ c) follow request r rest →
      conversation (answer_of sm) true (keep_alive_ c) follow true request (l1 ++ rest)) as Hr.
    { intros rest. by apply exchange_followed. }
    destruct r; wp_run; by exists l1.
Qed.

Lemma ApplyRedirect_asks response hop request c : wp (ApplyRedirect response hop request) (λ r _,
  ∀ request', r = Ok (Some request') → follow_redirects_ c = true ∧ asks_again response request request') c.
Proof.
  unfold ApplyRedirect. wp_run. change (id c) with c.
  destruct (negb (IsRedirectStatus _)) eqn:Ei; [by wp_run|]. apply negb_false_iff in Ei.
  destruct (negb (follow_redirects_ c) || (max_redirects_ c =? 0)) eqn:Ef; [by wp_run|].
  apply orb_false_iff in Ef as [Ef%negb_false_iff _]. case_decide; [by wp_run|].
  destruct (_ >=? _); [by wp_run|]. wp_run. destruct (ResolveRedirect _ _) as [next|e] eqn:En; [|done]. wp_run.
  set (rewrite_ := _ || _). assert (rewrite_ = true ∨ hr_status_code response ∈ [307; 308] ∨
    rs_method request ∈ [lit "GET"; lit "HEAD"]) as Hr.
  { unfold IsRedirectStatus in Ei. apply bool_decide_eq_true in Ei. subst rewrite_.
    destruct (decide (rs_method request = lit "GET")) as [->|H1]; [right; right; set_solver|].
    destruct (decide (rs_method request = lit "HEAD")) as [->|H2]; [right; right; set_solver|].
    rewrite !bool_decide_eq_false_2 by done. revert Ei. generalize (hr_status_code response).
    intros code Hcode. rewrite !elem_of_cons in Hcode. rewrite !elem_of_cons.
    destruct Hcode as [->|[->|[->|[->|[->|Hcode]]]]]; auto. }
  assert (asks_again response request (MkRequestState (if rewrite_ then lit "GET" else rs_method request) next
    (if rewrite_ then [] else rs_body request) (if SameOrigin (rs_url request) next then rs_headers request
        else filter (λ h : header, IsCredentialHeader h.1 = false) (rs_headers request)))) as Ha.
  { split_and!; [done..|]. destruct rewrite_; [by left|right]. by destruct Hr. }
  clearbody rewrite_. destruct (streaming_ c); wp_run; intros request' [= <-]; by split.
Qed.

(** What a redirect that is followed leaves to say. *)
Lemma redirected reply repeat keep q r l2 l3 c (followed_ : Result (option RequestState)) resp :
  r = Ok resp → sends l2 = [] →
  (∀ q', followed_ = Ok (Some q') → follow_redirects_ c = true ∧ asks_again resp q q') →
  match followed_ with
  | Ok (Some q') => conversation reply repeat keep (follow_redirects_ c) repeat q' l3
  | _ => sends l3 = []
  end →
  followed reply repeat keep (follow_redirects_ c) q r (l2 ++ l3).
Proof.
  intros -> H2 Hr H3. destruct followed_ as [[q'|]|e].
  - right. destruct (Hr q' eq_refl) as [Hf Ha]. exists resp, q'. split_and!; [done..|]. by apply conversation_later.
  - left. by rewrite sends_app, H2, H3.
  - left. by rewrite sends_app, H2, H3.
Qed.

Lemma execute_loop_conversation fuel hop request c : session_ok c → wp (execute_loop sm fuel hop request) (λ _ c',
  ∃ l, log c' = log c ++ l ∧
    conversation (answer_of sm) true (keep_alive_ c) (follow_redirects_ c) true request l) c.
Proof.
  revert hop request c; induction fuel as [|k IH]; intros hop request c Hok; cbn [execute_loop].
  { wp_run. exists []. rewrite app_nil_r. split; [done|]. by apply conv_silent. }
  wp_run. apply wp_intro. intros c1 r E.
  pose proof (wp_elim _ _ _ _ _ (ExecuteAttempt_after sm request c Hok) E) as (Ec1 & Ho1 & _).
  destruct (wp_elim _ _ _ _ _ (ExecuteAttempt_conversation request c (follow_redirects_ c) Hok) E) as (l1 & El1 & Hx).
  destruct r as [result|e]; wp_run; cycle 1.
  { exists l1. split; [done|]. rewrite <- (app_nil_r l1). apply Hx. by left. }
  apply wp_intro. intros c2 r E2.
  pose proof (wp_elim _ _ _ _ _ (ApplyRedirect_after result hop request c1) E2) as [Ha2 _].
  pose proof (wp_elim _ _ _ _ _ (ApplyRedirect_asks result hop request c1) E2) as Hr. cbv beta in Ha2, Hr.
  rewrite (follow_config c c1 Ec1) in Hr. destruct (after_silent _ _ Ha2) as (l2 & El2 & Hl2).
  assert (∀ c3 l3, log c3 = log c2 ++ l3 → log c3 = log c ++ l1 ++ l2 ++ l3) as Hlog.
  { intros c3 l3 El3. by rewrite El3, El2, El1, <- !app_assoc. }
  destruct r as [[request'|]|e].
  - eapply wp_mono; [apply IH; by apply Ha2, Ho1|]. intros r3 c3 (l3 & El3 & H3).
    rewrite (keep_alive_config c c2), (follow_config c c2) in H3 by (destruct Ha2; congruence).
    exists (l1 ++ l2 ++ l3). split; [by apply Hlog|]. apply Hx. by eapply redirected.
  - wp_run. exists (l1 ++ l2 ++ []). split; [apply Hlog; by rewrite app_nil_r|]. apply Hx. by eapply redirected.
  - exists (l1 ++ l2 ++ []). split; [apply Hlog; by rewrite app_nil_r|]. apply Hx. by eapply redirected.
Qed.

(** ** The streaming client *)

Lemma AwaitHeaders_head got c0 c evs : asked c0 c evs → listening sm got c evs →
  wp (AwaitHeaders sm) (λ r c', ∀ head, r = Ok head → ∃ evs', asked c0 c' evs' ∧ head_of sm evs' head) c.
Proof.
  intros Ha Hl. unfold AwaitHeaders. wp_run. eapply wp_mono; [by apply (wait_for_listening sm headers_over got c0 c evs)|].
  intros [[]|e] c1 (evs' & Ha1 & Hl1); [|done]. wp_run. change (id c1) with c1.
  destruct (parse_failed_ c1); [by wp_run|]. case_bool_decide as Es; [by wp_run|].
  destruct (before_body (parser_ c1)) eqn:Eb; [by destruct (closed_ c1); wp_run|]. wp_run. intros head [= <-].
  exists evs'. split; [done|]. destruct Hl1 as (_ & Hp & _). rewrite Hp in Es, Eb. unfold head_of. by rewrite <- Hp in *.
Qed.

(** One request of [Open] and the head that answers it. *)
Lemma open_exchange request c : session_ok c →
  wp (let! _ := StartRequest sm request false in AwaitHeaders sm) (λ r c',
    config c' = config c ∧ session_ok c' ∧
    ∃ l, log c' = log c ++ l ∧ exchange (head_of sm) (keep_alive_ c) request r l) c.
Proof.
  intros Hok. wp_run. apply wp_intro. intros c1 r E.
  pose proof (wp_elim _ _ _ _ _ (StartRequest_after sm request false c Hok) E) as (Ha1 & _).
  pose proof (wp_elim _ _ _ _ _ (StartRequest_listening sm request false c Hok) E) as Hl1. cbv beta in *.
  destruct r as [[]|e].
  2: { split; [apply Ha1|]. split; [by apply Ha1|]. apply exchange_of; [|done]. eapply after_mono; [|exact Ha1]. naive_solver. }
  assert (after c (λ reqs, reqs = [issue c request false]) c1) as Hc1.
  { eapply after_mono; [|exact Ha1]. by intros reqs [->|[_ ?]]. }
  destruct (Hl1 eq_refl) as (evs & Hq & Hl). apply wp_intro. intros c2 r E2.
  pose proof (wp_elim _ _ _ _ _ (AwaitHeaders_quiet sm c1) E2) as [Ha2 _].
  pose proof (wp_elim _ _ _ _ _ (AwaitHeaders_head _ c c1 evs Hq Hl) E2) as Hh. cbv beta in *.
  pose proof (after_quiet_r _ _ _ _ Hc1 Ha2) as Ha. split; [apply Ha|]. split; [by apply Ha|].
  apply exchange_of; [|exact Hh]. eapply after_mono; [|exact Ha]. auto.
Qed.

Lemma open_loop_conversation fuel hop request c : session_ok c → wp (open_loop sm fuel hop request) (λ _ c',
  ∃ l, log c' = log c ++ l ∧
    conversation (head_of sm) false (keep_alive_ c) (follow_redirects_ c) false request l) c.
Proof.
  revert hop request c; induction fuel as [|k IH]; intros hop request c Hok; cbn [open_loop].
  { wp_run. exists []. rewrite app_nil_r. split; [done|]. by apply conv_silent. }
  pose proof (open_exchange request c Hok) as Hopen. unfold wp, bind in Hopen |- *.
  destruct (StartRequest sm request false c) as [c0 [[]|e]]; cycle 1.
  { destruct Hopen as (_ & _ & l & El & Hx). exists l. split; [done|]. rewrite <- (app_nil_r l).
    eapply exchange_followed; [exact Hx|]. by left. }
  destruct (AwaitHeaders sm c0) as [c1 [head|e]]; cbn [fst snd] in Hopen |- *;
    destruct Hopen as (Ec1 & Ho1 & l1 & El1 & Hx); cycle 1.
  { exists l1. split; [done|]. rewrite <- (app_nil_r l1). eapply exchange_followed; [exact Hx|]. by left. }
  destruct (ApplyRedirect head hop request c1) as [c2 r] eqn:E2.
  pose proof (wp_elim _ _ _ _ _ (ApplyRedirect_after head hop request c1) E2) as [Ha2 _].
  pose proof (wp_elim _ _ _ _ _ (ApplyRedirect_asks head hop request c1) E2) as Hr. cbv beta in Ha2, Hr.
  rewrite (follow_config c c1 Ec1) in Hr. destruct (after_silent _ _ Ha2) as (l2 & El2 & Hl2).
  assert (∀ c3 l3, log c3 = log c2 ++ l3 → log c3 = log c ++ l1 ++ l2 ++ l3) as Hlog.
  { intros c3 l3 El3. by rewrite El3, El2, El1, <- !app_assoc. }
  destruct r as [[request'|]|e].
  - pose proof (IH (hop + 1) request' c2 ltac:(by apply Ha2)) as H3. unfold wp in H3.
    destruct (open_loop sm k (hop + 1) request' c2) as [c3 r3]. cbn [fst snd] in H3 |- *. destruct H3 as (l3 & El3 & H3).
    rewrite (keep_alive_config c c2), (follow_config c c2) in H3 by (destruct Ha2; congruence).
    exists (l1 ++ l2 ++ l3). split; [by apply Hlog|]. eapply exchange_followed; [exact Hx|]. by eapply redirected.
  - exists (l1 ++ l2 ++ []). split; [cbn; apply Hlog; by rewrite app_nil_r|]. eapply exchange_followed; [exact Hx|]. by eapply redirected.
  - exists (l1 ++ l2 ++ []). split; [apply Hlog; by rewrite app_nil_r|]. eapply exchange_followed; [exact Hx|]. by eapply redirected.
Qed.

(** ** The two operations *)

Lemma Execute_conversation method url c u : session_ok c → ParseUrl url = Ok u → wp (Execute sm method url) (λ _ c',
  ∃ l, log c' = log c ++ l ∧
    conversation (answer_of sm) true (keep_alive_ c) (follow_redirects_ c) true (initial_request c method u) l) c.
Proof.
  intros Hok Hu. unfold Execute. rewrite Hu. wp_run. change (id c) with c. by apply execute_loop_conversation.
Qed.

Lemma Open_conversation method url c u : session_ok c → ParseUrl url = Ok u → chunked_upload_ c = false →
  wp (Open sm method url) (λ _ c', ∃ l, log c' = log c ++ l ∧
    conversation (head_of sm) false (keep_alive_ c) (follow_redirects_ c) false (initial_request c method u) l) c.
Proof.
  intros Hok Hu Hc. unfold Open. rewrite Hu. wp_run. change (id c) with c. rewrite Hc.
  apply (open_loop_conversation _ _ _ (set_streaming c true)). apply (set_streaming_after c true), Hok.
Qed.

Lemma Open_upload_sends method url c u : session_ok c → ParseUrl url = Ok u → chunked_upload_ c = true →
  wp (Open sm method url) (λ _ c', ∃ l, log c' = log c ++ l ∧ (length (sends l) <= 1)%nat) c.
Proof.
  intros Hok Hu Hc. unfold Open. rewrite Hu. wp_run. change (id c) with c. rewrite Hc. wp_run.
  pose proof (set_streaming_after c true) as Ha1. eapply wp_mono; [apply BeginChunkedUpload_after; by apply Ha1|].
  intros r c2 H2. pose proof (after_quiet_l _ _ _ _ Ha1 H2) as Ha.
  assert (∀ c3, after c2 (λ reqs, reqs = []) c3 → ∃ l, log c3 = log c ++ l ∧ (length (sends l) <= 1)%nat) as Hend.
  { intros c3 H3. destruct (after_log _ _ _ (after_quiet_r _ _ _ _ Ha H3)) as (l & reqs & El & Es & Hr). exists l.
    split; [done|]. rewrite Es, length_fmap. destruct Hr as [->| ->]; cbn; lia. }
  destruct r as [[]|e]; wp_run; apply Hend; [by apply after_refl|apply set_streaming_after].
Qed.
End Client.
