(* ===== verification/HttpExecute.v ===== *)
(** [Execute]: the response a server sends is the response returned, and what is
    returned is never anything else; how many requests that takes and why, and who is
    shown the caller's credentials. *)
From stdpp Require Import base decidable list strings gmap relations.
From Stdlib Require Import ZArith Ascii Lia.
From S2P Require Import Prelude Errors CommonTypes StateResult TcpTransport AtParser HttpParser HttpParserFacts.
From S2P Require Import HttpResponses HttpFraming HttpRequest HttpOrigin HttpClient HttpStream HttpClientFacts HttpRedirects.
From S2P Require Import HttpReply HttpConversation.

(** * Specification vocabulary *)

Section Server.
Context {W0 : Type} `{ITransport W0} (sm : size_model).
Local Abbreviation client := (SoftwareHttpClient (W0 * list action)).
Implicit Types c : client.

(** No connection and no upload. *)
Definition idle c : Prop := transport_ c = false ∧ connected_ c = false ∧ upload_active_ c = false.

(** From [c] the request [d] for [u] reaches a server, which answers with these
    reads while it is waited for. *)
Definition answers c (u : ParsedUrl) (d : bytes) (reads : list bytes) : Prop :=
  ∃ w1 w2 w3 w4 n,
    make_transport (u_tls u) (if u_tls u then tls_ c else default_tls) (world_ c).1 = (w1, Ok ()) ∧
    tcp_connect (u_host u) (u_port u) w1 = (w2, [], Ok ()) ∧
    tcp_send d w2 = (w3, [], Ok n) ∧
    await (timeout_ c) w3 = (w4, EvData <$> reads).

(** * Lemmas: reads *)

Lemma reply_of_reads reads : reply_of sm (EvData <$> reads) = feed_all sm (new_parser true) reads.
Proof.
  unfold reply_of, feed_all. generalize (new_parser true).
  induction reads as [|d reads IH]; intros p; [done|]. cbn [fmap list_fmap fold_left parse_event].
  rewrite <- IH. f_equal. unfold parser_complete. case_bool_decide as E; [|done].
  by rewrite Feed_ended by (unfold ended; by rewrite E).
Qed.

(** With data only, the one way to fail is a parser that has stopped. *)
Definition sound_failure c : Prop := parse_failed_ c = true → state (parser_ c) = kError.

Lemma OnTransportData_failure c d : closed_ c = false → sound_failure c →
  closed_ (OnTransportData sm c d) = false ∧ sound_failure (OnTransportData sm c d).
Proof.
  intros Hcl Hf. unfold OnTransportData. destruct (parser_complete (parser_ c)) eqn:Ep; [done|].
  destruct (Feed sm (parser_ c) d) as [p r] eqn:E. unfold HandleBody.
  assert (parse_failed_ c = true → state p = kError) as Hp.
  { intros H1. rewrite Feed_ended in E by (unfold ended; by rewrite (Hf H1)). simplify_eq. by apply Hf. }
  assert (∀ e, r = Err e → state p = kError) as He.
  { intros e ->. unfold Feed in E. case_match; [done|]. cbv zeta in E.
    destruct (feed_loop sm _ _ _ _) as [q [m|e']]; by simplify_eq. }
  destruct r; split; cbn; destruct (streaming_ _); try done; intros _; by eapply He.
Qed.

Lemma deliver_reads c reads : closed_ c = false → sound_failure c →
  closed_ (deliver sm c (EvData <$> reads)) = false ∧ sound_failure (deliver sm c (EvData <$> reads)).
Proof.
  unfold deliver. destruct (transport_ c); [|done]. revert c; induction reads as [|d reads IH]; intros c H1 H2; [done|].
  cbn [fmap list_fmap fold_left on_event]. by apply IH; apply OnTransportData_failure.
Qed.

Lemma deliver_nil c : deliver sm c [] = c.
Proof. unfold deliver. by destruct (transport_ c). Qed.

Lemma EnsureConnected_served u c d reads : idle c → answers c u d reads →
  wp (EnsureConnected sm u) (λ r c', r = Ok () ∧ steady (set_connected (set_transport c true) true [] 0 false) c' ∧
    timeout_ c' = timeout_ c ∧ ∃ w3 w4 n,
      tcp_send d (world_ c').1 = (w3, [], Ok n) ∧ await (timeout_ c) w3 = (w4, EvData <$> reads)) c.
Proof.
  intros (Ht & Hc & _) (w1 & w2 & w3 & w4 & n & Hm & Hcn & Hsd & Haw).
  unfold EnsureConnected. wp_run. change (id c) with c. unfold reusable. rewrite Hc. cbn [andb].
  wp_run. assert (DropTransport c = set_upload (set_connected c false (connected_host_ c) (connected_port_ c)
    (connected_tls_ c)) false false) as -> by (unfold DropTransport; by rewrite Ht).
  apply wp_intro. intros c1 r E. unfold make in E. cbn in E. rewrite Hm in E. injection E as <- <-.
  wp_run. apply wp_intro. intros c2 r E. unfold connect in E. cbn in E. rewrite Hcn in E. injection E as <- <-.
  wp_run. split_and!; [done|by split_and!|done|]. by exists w3, w4, n.
Qed.

(** One request of an idle client, served: the outcome is what the parser makes
    of the reads. *)
Lemma ExecuteOnce_served request c reads : idle c →
  answers c (rs_url request) (BuildHttpRequest (rs_url request) (request_options request (keep_alive_ c) false)) reads →
  let p := feed_all sm (new_parser true) reads in
  wp (ExecuteOnce sm request) (λ r _,
    (state p = kComplete → r = Ok (MkHttpResponse (status_code p) (HttpParser.headers p) (sunk p))) ∧
    (state p ≠ kComplete → state p ≠ kError →
       r = Err (net_error kTimeout "timed out waiting for the HTTP response"))) c.
Proof.
  intros Hi Ha. cbn zeta. unfold ExecuteOnce. wp_run. unfold StartRequest. wp_run. change (id ?x) with x.
  change (upload_active_ (set_streaming c false)) with (upload_active_ c). rewrite (proj2 (proj2 Hi)).
  wp_run. eapply wp_mono; [by apply (EnsureConnected_served _ (set_streaming c false))|].
  intros r c1 (-> & (Ec1 & _ & Es1 & Et1) & Eti & w3 & w4 & n & Hsd & Haw).
  change (timeout_ (set_streaming c false)) with (timeout_ c) in *.
  wp_run. cbn in Es1, Et1, Eti. set (c2 := reset_response c1).
  destruct (reset_response_steady c1) as ((Ec2 & _ & Es2 & Et2) & _ & _).
  assert (world_ c2 = world_ c1 ∧ parser_ c2 = new_parser true ∧ response_ c2 = empty_http_response ∧
          parse_failed_ c2 = false ∧ closed_ c2 = false) as (Ew2 & Ep2 & Er2 & Ef2 & Ecl2).
  { unfold c2, reset_response. cbv zeta. by case_match. }
  fold c2 in Ec2, Es2, Et2. clearbody c2.
  assert (keep_alive_ c2 = keep_alive_ c ∧ timeout_ c2 = timeout_ c) as [Ek Eto].
  { rewrite Ec1 in Ec2. split.
    - exact (keep_alive_config c c2 Ec2).
    - exact (f_equal (λ x, x.1.1.1.1.1.1.1) Ec2). }
  rewrite Ek. apply wp_intro. intros c3 r E. unfold send in E. cbn [tcp_send recorded] in E. rewrite Ew2, Hsd in E.
  rewrite deliver_nil in E. injection E as <- <-. wp_run.
  apply wp_intro. intros c4 r E. unfold wait_for in E.
  set (c3 := set_world c2 _) in E. assert (response_over c3 = false) as Eo.
  { unfold response_over, c3. cbn. by rewrite Ep2, Ef2, Ecl2. }
  rewrite Eo in E. cbn [await recorded] in E. change (timeout_ c3) with (timeout_ c2) in E.
  change (world_ c3).1 with w3 in E. rewrite Eto, Haw in E. injection E as E <-. set (c3' := set_world _ _) in E.
  assert (listening sm None c3' []) as Hl.
  { split_and!; cbn; rewrite ?Er2, ?Ep2; (done || congruence). }
  pose proof (deliver_listening sm None c3' [] (EvData <$> reads) Hl) as Hl4.
  destruct (deliver_reads c3' reads) as [Hcl4 Hf4]; [exact Ecl2|by intros ?; cbn in *; congruence|].
  cbn [app] in Hl4. rewrite E in Hl4, Hcl4, Hf4. destruct Hl4 as (_ & Hp & _ & Hb & Hh).
  rewrite reply_of_reads in Hp. rewrite <- Hp. wp_run. change (id c4) with c4. unfold parser_complete.
  destruct (parse_failed_ c4) eqn:Ef4.
  { rewrite (Hf4 Ef4). eapply wp_mono; [apply abandon_after|]. intros ? ? _. done. }
  case_bool_decide as Ep; cbn [negb].
  - assert (take_response c4 = MkHttpResponse (status_code (parser_ c4)) (HttpParser.headers (parser_ c4)) (sunk (parser_ c4)))
      as Hr by (unfold take_response; by rewrite Hb, Hh, map_union_empty).
    destruct (negb (keep_alive_ c4)); wp_run; by rewrite Hr.
  - rewrite Hcl4. eapply wp_mono; [apply abandon_after|]. intros ? ? [-> _]. done.
Qed.

(** The first hop of an [Execute] that takes no more. *)
Lemma Execute_one method url u c r : ParseUrl url = Ok u →
  (∀ resp, r = Ok resp → IsRedirectStatus (hr_status_code resp) = false) →
  (∀ e, r = Err e → ne_code e = kConnectionLost → MethodIsRepeatable method = false) →
  wp (ExecuteOnce sm (initial_request c method u)) (λ r' _, r' = r) c →
  (Execute sm method url c).2 = match r with Ok resp => Ok (Some resp) | Err e => Err e end.
Proof.
  intros Hu Hn Hl Hwp.
  change (wp (Execute sm method url) (λ r' _, r' = match r with Ok resp => Ok (Some resp) | Err e => Err e end) c).
  unfold Execute. rewrite Hu. wp_run. change (id c) with c. cbn [execute_loop]. wp_run.
  unfold ExecuteAttempt. wp_run. eapply wp_mono; [exact Hwp|]. intros r' c' ->. wp_run.
  assert (lost r && MethodIsRepeatable method = false) as El.
  { destruct r as [resp|e]; [done|]. cbn [lost]. case_bool_decide; [|done]. by rewrite (Hl e). }
  cbn [rs_method initial_request]. rewrite El. wp_run. destruct r as [resp|e]; [|done].
  unfold ApplyRedirect. wp_run. rewrite (Hn resp eq_refl). cbn [negb]. by wp_run.
Qed.

(** A complete response that does not redirect is what [Execute] returns. *)
Lemma Execute_reads method url u c reads : idle c → ParseUrl url = Ok u →
  answers c u (BuildHttpRequest u (request_options (initial_request c method u) (keep_alive_ c) false)) reads →
  let p := feed_all sm (new_parser true) reads in
  state p = kComplete → IsRedirectStatus (status_code p) = false →
  (Execute sm method url c).2 = Ok (Some (MkHttpResponse (status_code p) (HttpParser.headers p) (sunk p))).
Proof.
  intros Hi Hu Ha p Hc Hn. apply (Execute_one method url u c (Ok (MkHttpResponse (status_code p) _ _)) Hu).
  - by intros resp [= <-].
  - done.
  - eapply wp_mono; [by apply (ExecuteOnce_served _ c reads)|]. intros r' c' [H1 _]. by apply H1.
Qed.

(** A response of announced length, whole, is what [Execute] returns. *)
Lemma Execute_answered c method url u (r : response) (b : bytes) reads :
  idle c → ParseUrl url = Ok u →
  answers c u (BuildHttpRequest u (request_options (initial_request c method u) (keep_alive_ c) false)) reads →
  response_ok r → Z.of_nat (length b) <= INT_MAX → IsRedirectStatus (r_code r) = false →
  concat reads = render_head r (content_length_header (length b)) ++ b →
  (Execute sm method url c).2 =
  Ok (Some (MkHttpResponse (r_code r) (header_map (r_headers r ++ [content_length_header (length b)])) b)).
Proof.
  intros Hi Hu Ha Hr Hb Hn Hreads.
  destruct (content_length_read sm true r b reads Hr Hb Hreads) as (Es & _ & _ & Ec & _ & Eh & Ed).
  assert (on_body (feed_all sm (new_parser true) reads) = true) as Ho.
  { rewrite <- reply_of_reads. apply reply_of_facts. }
  unfold delivered in Ed. rewrite Ho in Ed.
  rewrite (Execute_reads method url u c reads Hi Hu Ha Es) by by rewrite Ec. by rewrite Ec, Eh, Ed.
Qed.

(** * Properties *)

(** what a server sends is what [Execute] returns. For an idle client, any
    request and settings, a server that answers with a response of announced
    length, and any way the response is split into reads: [Execute] gives the
    status, the headers with their names lowered and exactly the body. (A response
    that redirects is the subject of the next properties.) *)
Theorem Execute_response c method url u (r : response) (b : bytes) reads :
  idle c → ParseUrl url = Ok u →
  answers c u (BuildHttpRequest u (request_options (initial_request c method u) (keep_alive_ c) false)) reads →
  response_ok r → Z.of_nat (length b) <= INT_MAX → IsRedirectStatus (r_code r) = false →
  concat reads = render_head r (content_length_header (length b)) ++ b →
  (Execute sm method url c).2 =
  Ok (Some (MkHttpResponse (r_code r) (header_map (r_headers r ++ [content_length_header (length b)])) b)).
Proof. apply Execute_answered. Qed.


(** C7: credentials stay where they were meant for. Everything an [Execute] or an
    [Open] sends, down any chain of redirects and over reused or new connections, is
    a request for a URL sent to that URL's own host, port and security; and if that is not
    the origin the caller named, the request has none of [Authorization],
    [Cookie] and [Proxy-Authorization]. *)
Theorem credentials_stay_home c method url u c' : session_ok c → ParseUrl url = Ok u →
  c' = (Execute sm method url c).1 ∨ c' = (Open sm method url c).1 →
  ∃ l, log c' = log c ++ l ∧
    Forall (λ q, ∃ v o, q = (url_peer v, BuildHttpRequest v o) ∧
      (SameOrigin u v = true ∨ no_credentials (request_headers v o))) (addressed (peer_now c) l).
Proof.
  intros Hok Hu Hc'.
  assert (∃ l, log c' = log c ++ l ∧ Forall (λ q, ∃ request' b, rtc redirects (initial_request c method u) request' ∧
    q = issue c request' b) (addressed (peer_now c) l)) as (l & El & Hc).
  { destruct Hc' as [->| ->].
    - pose proof (Execute_after sm method url c u Hok Hu) as (_ & _ & _ & reqs & (l & El & <-) & Hc & _).
      exists l. split; [exact El|]. eapply Forall_impl; [exact Hc|]. intros q (q' & Hq & ->). by exists q', false.
    - pose proof (Open_after sm method url c u Hok Hu) as (_ & _ & _ & reqs & (l & El & <-) & _ & Hc). by exists l. }
  exists l. split; [done|]. eapply Forall_impl; [exact Hc|]. intros q (q' & b & Hq & ->).
  exists (rs_url q'), (request_options q' (keep_alive_ c) b). split; [done|].
  destruct (chain_credentials _ _ Hq) as [Hs|Hs]; [by left|right]. by apply request_headers_credentials.
Qed.

(** C4: a response is never made up or cut short. Whatever the transport does, a
    response [Execute] returns is what the parser read, to its end, from the
    bytes heard after the last request went out; and if it announced a length the
    body has exactly that many bytes. *)
Theorem Execute_sound c method url resp : session_ok c → (Execute sm method url c).2 = Ok (Some resp) →
  ∃ pre d post, log (Execute sm method url c).1 = log c ++ pre ++ ASend d :: post ∧ sends post = [] ∧
    let p := reply_of sm (heard post) in
    state p = kComplete ∧
    resp = MkHttpResponse (status_code p) (HttpParser.headers p) (sunk p) ∧
    (has_content_length p = true → chunked p = false → Z.of_nat (length (hr_body resp)) = content_length p).
Proof.
  intros Hok. destruct (Execute sm method url c) as [c' r] eqn:E. cbn. intros ->.
  assert (∃ evs, asked c c' evs ∧ answer_of sm evs resp) as (evs & (pre & d & post & El & Hs & <-) & Hst & ->).
  { unfold Execute in E. destruct (ParseUrl url) as [u|e]; [|done]. cbn [bind of_result gets id] in E.
    change (execute_loop sm (S (Z.to_nat (max_redirects_ c))) 0 (initial_request c method u) c = (c', Ok (Some resp))) in E.
    exact (wp_elim _ _ _ _ _ (execute_loop_answer sm _ _ _ c Hok) E resp eq_refl). }
  exists pre, d, post. split_and!; [done..|]. intros Hh Hc. by apply reply_of_length.
Qed.

(** A response to [HEAD] has the headers of the resource and no body; the parser
    waits for the body its [Content-Length] announces, so the client times out. *)
Lemma head_response_times_out c url u (r : response) (n : nat) reads :
  idle c → ParseUrl url = Ok u →
  answers c u (BuildHttpRequest u (request_options (initial_request c (lit "HEAD") u) (keep_alive_ c) false)) reads →
  response_ok r → Z.of_nat n <= INT_MAX → (0 < n)%nat →
  concat reads = render_head r (content_length_header n) →
  (Execute sm (lit "HEAD") url c).2 = Err (net_error kTimeout "timed out waiting for the HTTP response").
Proof.
  intros Hi Hu Ha Hr Hb Hn Hreads. rewrite <- (app_nil_r (render_head _ _)) in Hreads.
  destruct (short_body_read sm true r n [] reads Hr Hb Hn Hreads) as (Es & _ & _).
  apply (Execute_one (lit "HEAD") url u c (Err _) Hu); [done|by intros e [= <-]|].
  eapply wp_mono; [by apply (ExecuteOnce_served _ c reads)|]. intros r' c' [_ H2]. apply H2; by rewrite Es.
Qed.
End Server.

(** * Witnesses *)

(** A server elsewhere that is first pointed to by a redirect. *)
Definition moved : bytes :=
  lit "HTTP/1.1 302 Found" ++ CRLF ++ lit "Location: http://b.example/" ++ CRLF
  ++ lit "Content-Length: 0" ++ CRLF ++ CRLF.
Definition hello : bytes := render_head sample_response (content_length_header 5) ++ lit "hello".

(** A client with a secret to keep, in a world that serves these two answers. *)
Definition sample_client (answers : list (list tcp_event)) : SoftwareHttpClient (script * list action) :=
  SetHeader (new_http_client (MkScript [Ok (); Ok ()] [([], Ok ()); ([], Ok ())] [([], Ok 1); ([], Ok 1)] answers, []))
    (lit "Authorization") (lit "secret").
Definition sample_url : ParsedUrl := MkParsedUrl false (lit "a.example") 80 (lit "/x").

Lemma Execute_response_witness :
  (Execute Size32 (lit "GET") (lit "http://a.example/x")
     (sample_client [EvData <$> [take 9 hello; drop 9 hello]])).2 =
  Ok (Some (MkHttpResponse 200 (header_map (r_headers sample_response ++ [content_length_header 5])) (lit "hello"))).
Proof.
  apply (Execute_response Size32 (sample_client [EvData <$> [take 9 hello; drop 9 hello]]) (lit "GET") _ sample_url
           sample_response (lit "hello") [take 9 hello; drop 9 hello]).
  - by split_and!.
  - vm_compute. reflexivity.
  - exists (MkScript [Ok ()] [([], Ok ()); ([], Ok ())] [([], Ok 1); ([], Ok 1)] [EvData <$> [take 9 hello; drop 9 hello]]).
    exists (MkScript [Ok ()] [([], Ok ())] [([], Ok 1); ([], Ok 1)] [EvData <$> [take 9 hello; drop 9 hello]]).
    exists (MkScript [Ok ()] [([], Ok ())] [([], Ok 1)] [EvData <$> [take 9 hello; drop 9 hello]]).
    exists (MkScript [Ok ()] [([], Ok ())] [([], Ok 1)] []), 1. by split_and!.
  - apply sample_response_ok.
  - vm_compute. discriminate.
  - reflexivity.
  - vm_compute. reflexivity.
Defined.


Lemma credentials_stay_home_witness :
  ∃ l, log (Execute Size32 (lit "GET") (lit "http://a.example/x") (sample_client [[EvData moved]; [EvData hello]])).1 = l ∧
    length (addressed (false, None) l) = 2%nat ∧
    Forall (λ q, ∃ v o, q = (url_peer v, BuildHttpRequest v o) ∧
      (SameOrigin sample_url v = true ∨ no_credentials (request_headers v o))) (addressed (false, None) l).
Proof.
  destruct (credentials_stay_home Size32 (sample_client [[EvData moved]; [EvData hello]]) (lit "GET")
              (lit "http://a.example/x") sample_url
              (Execute Size32 (lit "GET") (lit "http://a.example/x") (sample_client [[EvData moved]; [EvData hello]])).1)
    as (l & El & Hl).
  - by intros [=].
  - vm_compute. reflexivity.
  - by left.
  - exists l. split; [exact El|]. split; [|exact Hl].
    rewrite <- (app_nil_l l). change [] with (log (sample_client [[EvData moved]; [EvData hello]])). rewrite <- El.
    vm_compute. reflexivity.
Defined.

Lemma Execute_sound_witness :
  let c := sample_client [[EvData moved]; [EvData hello]] in
  let resp := MkHttpResponse 200 (header_map (r_headers sample_response ++ [content_length_header 5])) (lit "hello") in
  ∃ pre d post, log (Execute Size32 (lit "GET") (lit "http://a.example/x") c).1 = log c ++ pre ++ ASend d :: post ∧
    sends post = [] ∧ state (reply_of Size32 (heard post)) = kComplete.
Proof.
  cbv zeta.
  destruct (Execute_sound Size32 (sample_client [[EvData moved]; [EvData hello]]) (lit "GET") (lit "http://a.example/x")
    (MkHttpResponse 200 (header_map (r_headers sample_response ++ [content_length_header 5])) (lit "hello")))
    as (pre & d & post & H1 & H2 & H3 & _).
  - by intros [=].
  - vm_compute. reflexivity.
  - exists pre, d, post. by split_and!.
Defined.

(** The same with a connection kept alive that its peer has since closed: the
    client still takes itself to be connected, sends into the dead transport and
    reports its refusal, without opening another. *)
Lemma stale_keep_alive_fails :
  let dead : Result Z := Err (net_error kNotConnected "not connected") in
  let c0 := SetKeepAlive (new_http_client
    (MkScript [Ok (); Ok ()] [([], Ok ()); ([], Ok ())] [([], Ok 1); ([], dead)] [[EvData hello]; [EvData hello]], [])) true in
  let c1 := (Execute Size32 (lit "GET") (lit "http://a.example/x") c0).1 in
  let '(c2, r) := Execute Size32 (lit "GET") (lit "http://a.example/x") (deliver Size32 c1 [EvDisconnected]) in
  is_ok (Execute Size32 (lit "GET") (lit "http://a.example/x") c0).2 = true ∧
  r = Err (net_error kNotConnected "not connected") ∧
  length (filter (λ a, a = true) ((λ a, match a with AConnect _ _ => true | _ => false end) <$> log c2)) = 1%nat.
Proof. vm_compute. by split_and!. Qed.
