(* ===== verification/HttpReading.v ===== *)
(** Streaming a response: what a caller of [Open] and [Read] is handed is what the
    response parser made of what was heard after the last request, in order, and
    the end of the body is the end of the response. *)
From stdpp Require Import base decidable list strings gmap.
From Stdlib Require Import ZArith Ascii Lia.
From S2P Require Import Prelude Errors CommonTypes StateResult TcpTransport AtParser HttpParser HttpParserFacts.
From S2P Require Import HttpResponses HttpRequest HttpClient HttpStream HttpClientFacts HttpRedirects HttpReply HttpExecute.

(** What happens to a client that streams: the receive thread delivers, or the
    caller reads. *)
Inductive read_step := Arrives (evs : list tcp_event) | ReadUpTo (size : nat).

Section Reading.
Context {W0 : Type} `{ITransport W0} (sm : size_model).
Local Abbreviation client := (SoftwareHttpClient (W0 * list action)).
Local Abbreviation act := (op client NetworkError).
Implicit Types c : client.

(** * Specification vocabulary *)

(** The receive thread delivers these, and they go on record. *)
Definition arrive (evs : list tcp_event) c : client :=
  deliver sm (set_world c ((world_ c).1, log c ++ [AHeard evs])) evs.

(** The bytes all reads returned, one after the other. *)
Fixpoint read_all (steps : list read_step) : act bytes :=
  match steps with
  | [] => ret []
  | Arrives evs :: steps => modify (arrive evs) ;;; read_all steps
  | ReadUpTo size :: steps =>
      let! d := Read sm size in
      let! rest := read_all steps in
      ret (d ++ rest)
  end.

(** * Lemmas *)

Lemma AwaitHeaders_listening got c0 c evs : asked c0 c evs → listening sm got c evs →
  wp (AwaitHeaders sm) (λ _ c', ∃ evs', asked c0 c' evs' ∧ listening sm got c' evs') c.
Proof.
  intros Ha Hl. unfold AwaitHeaders. wp_run. eapply wp_mono; [by apply (wait_for_listening sm _ got c0 c evs)|].
  intros [[]|e] c1 H1; [|done]. wp_run. change (id c1) with c1.
  destruct (parse_failed_ c1); [by wp_run|]. destruct (bool_decide _); [by wp_run|].
  destruct (before_body _); [by destruct (closed_ c1); wp_run|]. by wp_run.
Qed.

Lemma ApplyRedirect_streaming response hop request c :
  wp (ApplyRedirect response hop request) (λ _ c', streaming_ c' = streaming_ c) c.
Proof.
  unfold ApplyRedirect. wp_run. change (id c) with c. destruct (negb _); [by wp_run|].
  destruct (_ || _); [by wp_run|]. case_decide; [by wp_run|]. destruct (_ >=? _); [by wp_run|]. wp_run.
  destruct (ResolveRedirect _ _); [|done]. wp_run. destruct (streaming_ c) eqn:E; wp_run; [|done].
  by destruct (DropTransport_log c) as (_ & _ & _ & -> & _).
Qed.

(** A client that has opened a response streams it from its first byte. *)
Lemma open_loop_listening fuel hop request c : session_ok c → streaming_ c = true →
  wp (open_loop sm fuel hop request) (λ r c', r = Ok true → ∃ evs, asked c c' evs ∧ listening sm (Some []) c' evs) c.
Proof.
  revert hop request c; induction fuel as [|k IH]; intros hop request c Hok Hst; cbn [open_loop]; [by wp_run|].
  wp_run. apply wp_intro. intros c1 r E.
  pose proof (wp_elim _ _ _ _ _ (StartRequest_after sm request false c Hok) E) as (Ha1 & _).
  pose proof (wp_elim _ _ _ _ _ (StartRequest_listening sm request false c Hok) E) as H1. cbv beta in *.
  destruct r as [[]|e]; [|done]. destruct (H1 eq_refl) as (evs1 & Hs1 & Hl1).
  unfold nothing_got in Hl1. rewrite Hst in Hl1. wp_run. apply wp_intro. intros c2 r E2.
  pose proof (wp_elim _ _ _ _ _ (AwaitHeaders_quiet sm c1) E2) as [Ha2 _].
  pose proof (wp_elim _ _ _ _ _ (AwaitHeaders_listening _ c c1 evs1 Hs1 Hl1) E2) as (evs2 & Hs2 & Hl2). cbv beta in *.
  destruct r as [head|e]; [|done]. wp_run. apply wp_intro. intros c3 r E3.
  pose proof (wp_elim _ _ _ _ _ (ApplyRedirect_after head hop request c2) E3) as [Ha3 _].
  pose proof (wp_elim _ _ _ _ _ (ApplyRedirect_none head hop request c2) E3) as Hn3.
  pose proof (wp_elim _ _ _ _ _ (ApplyRedirect_streaming head hop request c2) E3) as Es3. cbv beta in *.
  destruct r as [[request'|]|e]; [| |done].
  - eapply wp_mono; [apply IH; [by apply Ha3, Ha2, Ha1|by rewrite Es3; apply Hl2]|].
    intros r c4 H4 Hr. destruct (H4 Hr) as (evs & Hs & Hl). exists evs. split; [|done].
    by eapply asked_later, asked_later, asked_later.
  - wp_run. intros _. rewrite (Hn3 eq_refl). by exists evs2.
Qed.

Lemma Open_listening method url c c1 b : session_ok c → chunked_upload_ c = false → Open sm method url c = (c1, Ok b) →
  b = true ∧ ∃ evs, asked c c1 evs ∧ listening sm (Some []) c1 evs.
Proof.
  intros Hok Hch E. destruct (ParseUrl url) as [u|e] eqn:Hu; [|by unfold Open in E; rewrite Hu in E].
  destruct (wp_elim _ _ _ _ _ (Open_after sm method url c u Hok Hu) E) as [Hb _]. destruct b; [|done]. split; [done|].
  assert (wp (Open sm method url) (λ r c', r = Ok true → ∃ evs, asked c c' evs ∧ listening sm (Some []) c' evs) c) as Hwp.
  2: { by apply (wp_elim _ _ _ _ _ Hwp E). }
  unfold Open. rewrite Hu. wp_run. change (id c) with c. rewrite Hch.
  by apply (open_loop_listening _ _ _ (set_streaming c true)).
Qed.

Lemma Read_listening size got c0 c evs : asked c0 c evs → listening sm (Some got) c evs →
  wp (Read sm size) (λ r c', ∃ evs', asked c0 c' evs' ∧
    match r with
    | Ok d => listening sm (Some (got ++ d)) c' evs' ∧ ((0 < size)%nat → d = [] → state (parser_ c') = kComplete ∧ pending_ c' = [])
    | Err _ => listening sm (Some got) c' evs'
    end) c.
Proof.
  intros Ha Hl. unfold Read. wp_run. eapply wp_mono; [by apply (wait_for_listening sm _ (Some got) c0 c evs)|].
  intros [[]|e] c1 (evs1 & Ha1 & Hl1); [|by exists evs1]. wp_run. change (id c1) with c1. case_decide as Hp.
  - destruct (parse_failed_ c1); [by wp_run; exists evs1|].
    destruct (parser_complete (parser_ c1)) eqn:Ec; [|by destruct (closed_ c1); wp_run; exists evs1].
    wp_run. exists evs1. rewrite app_nil_r. by apply bool_decide_eq_true in Ec.
  - wp_run. exists evs1. split; [exact Ha1|]. destruct Hl1 as (H1 & H2 & H3 & H4). split.
    + split_and!; [done..|]. cbn. by rewrite <- app_assoc, take_drop.
    + intros Hs He. apply (f_equal length) in He. rewrite length_take in He. cbn in He.
      destruct (pending_ c1); [done|cbn in He; lia].
Qed.

Lemma read_all_listening steps got c0 c evs : asked c0 c evs → listening sm (Some got) c evs →
  wp (read_all steps) (λ r c', ∀ d, r = Ok d → ∃ evs', asked c0 c' evs' ∧ listening sm (Some (got ++ d)) c' evs') c.
Proof.
  revert got c evs; induction steps as [|[evs1|size] steps IH]; intros got c evs Ha Hl; cbn [read_all].
  - wp_run. intros d [= <-]. exists evs. by rewrite app_nil_r.
  - wp_run. apply (IH _ _ (evs ++ evs1)); [|by apply deliver_listening].
    replace evs1 with (heard [AHeard evs1]) at 2 by (cbn; by rewrite app_nil_r).
    eapply asked_more; [exact Ha| |done].
    destruct (session_eq _ _ (deliver_session sm (set_world c ((world_ c).1, log c ++ [AHeard evs1])) evs1))
      as (_ & _ & _ & _ & _ & _ & _ & _ & _ & Ew).
    unfold arrive. unfold log at 1. by rewrite Ew.
  - wp_run. eapply wp_mono; [by apply (Read_listening size got c0 c evs)|].
    intros [d|e] c1 (evs1 & Ha1 & Hl1); [|done]. destruct Hl1 as [Hl1 _]. wp_run.
    eapply wp_mono; [by apply (IH (got ++ d) c1 evs1)|]. intros [rest|e] c2 H2; [|done]. wp_run.
    intros d' [= <-]. rewrite app_assoc. by apply H2.
Qed.

(** What is pending is handed out as it lies, without a wait. *)
Lemma read_pending sizes c : Forall (λ n, 0 < n)%nat sizes → (sum_list sizes <= length (pending_ c))%nat →
  (read_all (ReadUpTo <$> sizes) c).2 = Ok (take (sum_list sizes) (pending_ c)).
Proof.
  revert c; induction sizes as [|n sizes IH]; intros c Hn Hs; [done|]. change (sum_list (n :: sizes)) with (n + sum_list sizes)%nat in *.
  apply Forall_cons in Hn as [H0 Hn]. cbn [fmap list_fmap read_all].
  assert (pending_ c ≠ []) as Hp by (intros E; rewrite E in Hs; cbn in Hs; lia).
  assert (Read sm n c = (set_pending c (drop n (pending_ c)), Ok (take n (pending_ c)))) as Er.
  { unfold Read, wait_for, body_ready, bind, gets. rewrite bool_decide_eq_false_2 by done. cbn [negb orb].
    rewrite decide_False by done. cbn. rewrite Nat.min_l by lia. reflexivity. }
  unfold bind at 1. rewrite Er. unfold bind.
  specialize (IH (set_pending c (drop n (pending_ c))) Hn). cbn in IH. rewrite length_drop in IH.
  destruct (read_all (ReadUpTo <$> sizes) (set_pending c (drop n (pending_ c)))) as [c' r] eqn:E. cbn in IH.
  assert (r = Ok (take (sum_list sizes) (drop n (pending_ c)))) as -> by (apply IH; lia).
  cbn. by rewrite take_take_drop.
Qed.

(** * Properties *)

(** C11: a streamed response is handed over whole and in order, and ends where the
    response does. For any transport and redirects, once [Open] has succeeded and
    whatever then arrives between the caller's reads, the bytes read are the start
    of the body the parser made of what was heard after the last request; what is
    left of it can be read out in pieces of any size; and a read that comes back
    empty says the response was complete and every byte of its body had been
    handed over - as many as were announced, where a length was. *)
Theorem streamed_body c method url steps c1 c2 b got : session_ok c → chunked_upload_ c = false →
  Open sm method url c = (c1, Ok b) → read_all steps c1 = (c2, Ok got) →
  b = true ∧
  (∃ evs rest, asked c c2 evs ∧ sunk (reply_of sm evs) = got ++ rest ∧
     ∀ sizes, Forall (λ n, 0 < n)%nat sizes → (sum_list sizes <= length rest)%nat →
       (read_all (ReadUpTo <$> sizes) c2).2 = Ok (take (sum_list sizes) rest)) ∧
  (∀ size, (0 < size)%nat → (Read sm size c2).2 = Ok [] →
     ∃ evs, asked c (Read sm size c2).1 evs ∧
     let p := reply_of sm evs in state p = kComplete ∧ got = sunk p ∧
     (has_content_length p = true → chunked p = false → Z.of_nat (length got) = content_length p)).
Proof.
  intros Hok Hch E1 E2. destruct (Open_listening method url c c1 b Hok Hch E1) as (-> & evs1 & Ha1 & Hl1).
  destruct (wp_elim _ _ _ _ _ (read_all_listening steps [] c c1 evs1 Ha1 Hl1) E2 got eq_refl) as (evs & Ha & Hl).
  cbn [app] in Hl. split_and!; [done| |].
  - exists evs, (pending_ c2). destruct Hl as (_ & Hp & _ & Hg). rewrite <- Hp, Hg. split_and!; [done..|].
    intros sizes. apply read_pending.
  - intros size Hs Hr. pose proof (Read_listening size got c c2 evs Ha Hl) as Hwp. unfold wp in Hwp. rewrite Hr in Hwp.
    destruct Hwp as (evs' & Ha' & Hl' & Hend). destruct (Hend Hs eq_refl) as [Hc Hq]. exists evs'. split; [exact Ha'|].
    destruct Hl' as (_ & Hp & _ & Hg). rewrite Hq, !app_nil_r in Hg. cbv zeta. rewrite <- Hp.
    split_and!; [done..|]. intros H1 H2. rewrite Hg, Hp. rewrite Hp in Hc, H1, H2. by apply reply_of_length.
Qed.
End Reading.

(** * Witness *)

(** Redirected, then served a body that arrives in two parts and is read in two. *)
Definition streaming_sample : SoftwareHttpClient (script * list action) :=
  sample_client [[EvData moved]; [EvData (take (length hello - 4) hello)]; []; []].
Definition sample_reading : list read_step :=
  [ReadUpTo 10; Arrives [EvData (drop (length hello - 4) hello)]; ReadUpTo 3; ReadUpTo 10].

Lemma streamed_body_witness :
  let c1 := (Open Size32 (lit "GET") (lit "http://a.example/x") streaming_sample).1 in
  let c2 := (read_all Size32 sample_reading c1).1 in
  ∃ evs, asked streaming_sample (Read Size32 1 c2).1 evs ∧
    state (reply_of Size32 evs) = kComplete ∧ lit "hello" = sunk (reply_of Size32 evs).
Proof.
  cbv zeta.
  destruct (streamed_body Size32 streaming_sample (lit "GET") (lit "http://a.example/x") sample_reading
    (Open Size32 (lit "GET") (lit "http://a.example/x") streaming_sample).1
    (read_all Size32 sample_reading (Open Size32 (lit "GET") (lit "http://a.example/x") streaming_sample).1).1
    true (lit "hello")) as (_ & _ & H).
  - by intros [=].
  - reflexivity.
  - apply op_result. vm_compute. reflexivity.
  - apply op_result. vm_compute. reflexivity.
  - destruct (H 1%nat) as (evs & Ha & Hs & Hg & _).
    + lia.
    + vm_compute. reflexivity.
    + exists evs. split; [exact Ha|]. split; [exact Hs|exact Hg].
Defined.
