(* ===== verification/HttpUpload.v ===== *)
(** Chunked uploads: what a body written in pieces looks like on the wire. *)
From stdpp Require Import base decidable list strings gmap.
From Stdlib Require Import ZArith Ascii Lia.
From S2P Require Import Prelude Errors CommonTypes StateResult TcpTransport AtParser HttpParser HttpParserFacts.
From S2P Require Import HttpResponses HttpRequest HttpClient HttpStream HttpClientFacts HttpRedirects.

Section Upload.
Context {W0 : Type} `{ITransport W0} (sm : size_model).
Local Abbreviation client := (SoftwareHttpClient (W0 * list action)).
Local Abbreviation act := (op client NetworkError).
Implicit Types c : client.

(** * Specification vocabulary *)

(** The caller's loop: pieces written one after the other, with whatever the
    receive thread delivers before each. *)
Fixpoint write_all (pieces : list (list tcp_event * bytes)) : act unit :=
  match pieces with
  | [] => ret ()
  | (evs, d) :: pieces =>
      modify (λ c, deliver sm c evs) ;;;
      Write sm (Some d) (Z.of_nat (length d)) ;;;
      write_all pieces
  end.

(** A body is being written to [p]. *)
Definition uploading c (p : peer) : Prop :=
  upload_chunked_ c = true ∧ upload_active_ c = true ∧ transport_ c = true ∧ peer_now c = p.

(** The pieces that go out: an empty one is not a chunk. *)
Definition chunks_of (pieces : list bytes) : list bytes := filter (λ d, d ≠ []) pieces.

(** * Lemmas *)

Lemma deliver_uploading c evs p : uploading c p → uploading (deliver sm c evs) p ∧ log (deliver sm c evs) = log c.
Proof.
  intros (H1 & H2 & H3 & H4).
  destruct (session_eq _ _ (deliver_session sm c evs)) as (_ & Et & _ & _ & _ & _ & E1 & E2 & _ & Ew).
  unfold uploading, peer_now, log in *. rewrite Et, E1, E2, Ew. by split_and!.
Qed.

Lemma Write_ok c p d : uploading c p → wp (Write sm (Some d) (Z.of_nat (length d))) (λ r c', is_ok r = true →
  uploading c' p ∧ issued c c' ((λ f, (p, ChunkFrame f)) <$> chunks_of [d]) ∧ Z.of_nat (length d) <= INT_MAX) c.
Proof.
  intros (H1 & H2 & H3 & H4). unfold Write. wp_run. change (id c) with c. rewrite H1, H2, H3. cbn [negb].
  destruct (closed_ c); [by wp_run|]. destruct (negb _); [by wp_run|].
  destruct (Z.eqb_spec (Z.of_nat (length d)) 0) as [E|E].
  { assert (d = []) as -> by (apply length_zero_iff_nil; lia). wp_run. intros _.
    split_and!; [done|apply issued_refl|done]. }
  rewrite Z.gtb_ltb. destruct (Z.ltb_spec INT_MAX (Z.of_nat (length d))); [by wp_run|].
  rewrite Nat2Z.id, firstn_all. wp_run. eapply wp_mono; [apply send_after|].
  intros r c1 ((_ & _ & reqs & Hi & ->) & Et & _ & Ep & E1 & E2).
  destruct r as [n|e]; wp_run; [|by eapply wp_mono; [apply abandon_after|]; intros ? ? [-> _]].
  destruct (_ =? _); wp_run; [|by eapply wp_mono; [apply abandon_after|]; intros ? ? [-> _]].
  intros _. unfold chunks_of. rewrite filter_cons_True by (by intros ->).
  split; [unfold uploading; split_and!; congruence|]. split; [by rewrite H4 in Hi|done].
Qed.

Lemma write_all_ok c p pieces : uploading c p → wp (write_all pieces) (λ r c', is_ok r = true →
  uploading c' p ∧ issued c c' ((λ f, (p, ChunkFrame f)) <$> chunks_of pieces.*2) ∧
  Forall (λ d, Z.of_nat (length d) <= INT_MAX) pieces.*2) c.
Proof.
  revert c; induction pieces as [|[evs d] pieces IH]; intros c Hu; cbn [write_all].
  { wp_run. intros _. split_and!; [done|apply issued_refl|constructor]. }
  wp_run. destruct (deliver_uploading c evs p Hu) as [Hu1 El1]. set (c1 := deliver sm c evs) in *. clearbody c1.
  eapply wp_mono; [by apply Write_ok|]. intros [n|e] c2 H2; [|done]. destruct (H2 eq_refl) as (Hu2 & Hi2 & Hd).
  eapply wp_mono; [by apply IH|]. intros r c3 H3 Hr. destruct (H3 Hr) as (Hu3 & Hi3 & Hds). split_and!; [done| |].
  - assert (issued c c1 []) as Hi1 by (exists []; by rewrite app_nil_r).
    change (((evs, d) :: pieces).*2) with ([d] ++ pieces.*2). unfold chunks_of in *.
    rewrite filter_app, fmap_app. change (?a ++ ?b) with ([] ++ (a ++ b)) at 1.
    eapply issued_trans; [exact Hi1|]. by eapply issued_trans.
  - by constructor.
Qed.

Lemma EndBody_terminates c p : uploading c p → wp (EndBody sm) (λ _ c',
  issued c c' [(p, kTerminator)] ∧ upload_active_ c' = false) c.
Proof.
  intros (H1 & H2 & H3 & H4). unfold EndBody. wp_run. change (id c) with c. rewrite H1, H2, H3. cbn [negb]. wp_run.
  set (c1 := set_upload c (upload_chunked_ c) false).
  assert (issued c c1 []) as Hi1 by (exists []; by rewrite app_nil_r).
  assert (∀ reqs c', issued c1 c' reqs → issued c c' reqs) as Hlift by (intros ? ?; by apply (issued_trans c c1 _ [])).
  eapply wp_mono; [apply send_after|]. intros r c2 ((_ & _ & reqs & Hi2 & ->) & _ & _ & Ep2 & _ & Ea2).
  change (peer_now c1) with (peer_now c) in *. rewrite H4 in Hi2. change (upload_active_ c1) with false in Ea2.
  assert (∀ c3, after c2 (λ reqs, reqs = []) c3 → issued c c3 [(p, kTerminator)]) as Hend.
  { intros c3 (_ & _ & ? & Hi3 & ->). apply Hlift. by apply (issued_trans c1 c2 c3 [_] []). }
  assert (∀ c3 (e : NetworkError), after c2 (λ reqs, reqs = []) c3 → wp (abandon (A := unit) e) (λ _ c',
    issued c c' [(p, kTerminator)] ∧ upload_active_ c' = false) c3) as Habandon.
  { intros c3 e Ha. unfold abandon. wp_run. split; [|apply DropTransport_log].
    apply Hend. eapply after_quiet_l; [exact Ha|apply DropTransport_after]. }
  assert (after c2 (λ reqs, reqs = []) c2) as Hr by by apply after_refl.
  destruct r as [n|e]; wp_run; [|by apply Habandon].
  destruct (negb _); [by apply Habandon|]. wp_run.
  eapply wp_mono; [apply AwaitHeaders_quiet|]. intros r c3 [Ha3 Ea3].
  destruct r as [head|e]; wp_run; [|by apply Habandon]. change (id c3) with c3.
  destruct (_ && _); [by apply Habandon|]. wp_run. split; [by apply Hend|congruence].
Qed.

(** After the upload is over nothing more of it can be sent. *)
Lemma ended_upload_silent c : upload_active_ c = false →
  (∀ b n, (Write sm b n c).1 = c ∧ is_ok (Write sm b n c).2 = false) ∧
  (EndBody sm c).1 = c ∧ is_ok (EndBody sm c).2 = false.
Proof.
  intros Ha. unfold Write, EndBody, bind, gets. cbn. rewrite Ha.
  by destruct (upload_chunked_ c); cbn; [|destruct (chunked_upload_ c)].
Qed.

Lemma Open_chunked c method url u : session_ok c → chunked_upload_ c = true → ParseUrl url = Ok u →
  wp (Open sm method url) (λ r c', is_ok r = true → uploading c' (url_peer u) ∧
    issued c c' [issue c (initial_request c method u) true]) c.
Proof.
  intros Hok Hc Hu. unfold Open. rewrite Hu. wp_run. change (id c) with c. rewrite Hc. wp_run.
  unfold BeginChunkedUpload. case_decide; [by wp_run|]. destruct (existsb _ _); [by wp_run|]. wp_run.
  set (c1 := set_streaming c true).
  eapply wp_mono; [by apply (StartRequest_after _ _ _ c1)|].
  intros [[]|e] c2 ((_ & _ & reqs & Hi & Hr) & _ & Hp); wp_run; [|done]. intros _.
  destruct (Hp eq_refl) as [Hp2 Ht2]. split; [by split_and!|]. destruct Hr as [->|[_ Hr]]; [|done].
  change (issue c1 (initial_request c method u) true) with (issue c (initial_request c method u) true) in Hi.
  assert (issued c c1 []) as Hi1 by (exists []; by rewrite app_nil_r).
  by apply (issued_trans c c1 _ [] _ Hi1).
Qed.

(** * Properties *)

(** C20: a chunked upload is well formed on the wire. When [Open] and every [Write]
    of an upload succeed, whatever arrives in between, then once [EndBody] has run
    - whether or not the answer was to its liking - exactly this has been sent, and
    to the host the URL names: the chunked request head, one chunk for each piece
    that is not empty, and one terminator. Read back as a chunked body it is the
    pieces joined, and nothing further can be written. *)
Theorem upload_wire c method url u pieces c1 c2 : session_ok c → chunked_upload_ c = true → ParseUrl url = Ok u →
  (∃ b, Open sm method url c = (c1, Ok b)) → write_all pieces c1 = (c2, Ok ()) →
  let c3 := (EndBody sm c2).1 in
  let chunks := (ChunkFrame <$> chunks_of pieces.*2) ++ [kTerminator] in
  issued c c3 ((url_peer u,.) <$>
    BuildHttpRequest u (request_options (initial_request c method u) (keep_alive_ c) true) :: chunks) ∧
  (∀ reads, concat reads = concat chunks →
     let p := feed_all sm (set_state (new_parser false) kChunkSize) reads in
     state p = kComplete ∧ body p = concat pieces.*2) ∧
  (∀ b n, (Write sm b n c3).1 = c3) ∧ (EndBody sm c3).1 = c3.
Proof.
  intros Hok Hc Hu [b E1] E2. cbv zeta.
  destruct (wp_elim _ _ _ _ _ (Open_chunked c method url u Hok Hc Hu) E1 eq_refl) as [Hu1 Hi1].
  destruct (wp_elim _ _ _ _ _ (write_all_ok c1 _ pieces Hu1) E2 eq_refl) as (Hu2 & Hi2 & Hlen).
  destruct (EndBody sm c2) as [c3 r] eqn:E3.
  destruct (wp_elim _ _ _ _ _ (EndBody_terminates c2 _ Hu2) E3) as [Hi3 Ha3]. cbn [fst].
  destruct (ended_upload_silent c3 Ha3) as (HW & HE & _). split_and!; [| |apply HW|exact HE].
  - rewrite fmap_cons, fmap_app, <- list_fmap_compose.
    apply (issued_trans c c1 c3 [_] _ Hi1). apply (issued_trans c1 c2 c3 _ [_] Hi2 Hi3).
  - intros reads Hreads. set (p0 := set_state _ _).
    assert (Forall (λ d, d ≠ [] ∧ Z.of_nat (length d) < size_mod sm) (chunks_of pieces.*2)) as Hds.
    { apply Forall_forall. intros d Hd. apply list_elem_of_filter in Hd as [Hne Hd]. split; [done|].
      eapply Forall_forall in Hlen; [|exact Hd]. unfold INT_MAX in Hlen. destruct sm; simpl; lia. }
    assert (wf sm p0) as Hw by (destruct (new_parser_wf sm false); by split).
    destruct (chunks_advance sm (chunks_of pieces.*2) p0 kTerminator Hw eq_refl Hds)
      as (p1 & Hw1 & Hs1 & Hd1 & Hh1 & Hr1 & Hc1).
    destruct (terminator_advance sm p1 Hw1 Hs1) as (q & Hs2 & Hd2 & Hh2 & Hr2 & Hc2).
    assert (concat reads = concat (ChunkFrame <$> chunks_of pieces.*2) ++ kTerminator) as Hcat.
    { rewrite Hreads, concat_app. cbn [concat]. by rewrite app_nil_r. }
    rewrite (feed_all_completes sm _ reads q); [|done|done|done|by rewrite Hcat, Hr1|by rewrite Hcat, Hc1|done].
    split; [exact Hs2|]. change (body q = concat pieces.*2).
    destruct (same_head_trans _ _ _ Hh1 Hh2) as (_ & _ & _ & _ & _ & Ho & _). cbn in Ho.
    unfold delivered in Hd1, Hd2. destruct Hh2 as (_ & _ & _ & _ & _ & Ho2 & _). rewrite Ho2 in Ho.
    rewrite Ho2, Ho in Hd2. rewrite Ho in Hd1. cbn in Hd1. rewrite Hd2, Hd1.
    clear. unfold chunks_of. induction pieces as [|[evs d] pieces IH]; [done|]. rewrite fmap_cons, filter_cons. cbn [snd].
    case_decide as Hd; cbn [concat]; [by rewrite IH|]. destruct d as [|x d]; [exact IH|done].
Qed.
End Upload.

(** * Witness *)

Definition upload_client : SoftwareHttpClient (script * list action) :=
  SetChunkedUpload (new_http_client
    (MkScript [Ok ()] [([], Ok ())] [([], Ok 0); ([], Ok 9); ([], Ok 7); ([], Ok 5)] [], [])) true.

Lemma upload_wire_witness :
  let u := MkParsedUrl false (lit "a.example") 80 (lit "/x") in
  let c1 := (Open Size32 (lit "POST") (lit "http://a.example/x") upload_client).1 in
  let pieces := [([], lit "Wiki"); ([], []); ([], lit "ok")] in
  let c2 := (write_all Size32 pieces c1).1 in
  (write_all Size32 pieces c1).2 = Ok () ∧
  issued upload_client (EndBody Size32 c2).1
    ((url_peer u,.) <$>
     BuildHttpRequest u (request_options (initial_request upload_client (lit "POST") u) false true)
     :: (ChunkFrame <$> chunks_of pieces.*2) ++ [kTerminator]).
Proof.
  cbv zeta. split; [vm_compute; reflexivity|].
  eapply (upload_wire Size32 upload_client (lit "POST") (lit "http://a.example/x")).
  - by intros [=].
  - reflexivity.
  - vm_compute. reflexivity.
  - exists true. apply op_result. vm_compute. reflexivity.
  - apply op_result. vm_compute. reflexivity.
Defined.
