(* ===== verification/HttpOverMl307.v ===== *)
(** The stack put together: an HTTP request over a socket of the ML307 over a UART.
    What [Execute] says of any transport is joined with what the socket client, the
    HAL and the AT channel do under it. *)
From stdpp Require Import base decidable list strings gmap.
From Stdlib Require Import ZArith Ascii Lia.
From S2P Require Import Prelude Errors CommonTypes StateResult TcpTransport AtParser HttpParser HttpParserFacts.
From S2P Require Import HttpResponses AtUart HalRoutes HalTcpClient SocketHal ModemLink Ml307Hal Ml307Facts Ml307Sockets.
From S2P Require Import Ml307Events HalTransport Ml307Transport HttpRequest HttpClient HttpExecute.

Local Abbreviation stack := (IModuleHal nat * (Ml307Hal * ((uart_link * list exchange) * (HalTcpClient * socket))))%type.

(** C2: a request over the whole stack. For an idle HTTP client whose transport is a
    socket of an initialized ML307, if the module opens the socket and takes the
    request with nothing coming in yet, and then its reports arrive over the UART in
    reads of any sizes: the line shows the socket opened to the URL's host and port
    under the URL's security, with that security set up and acknowledged; it shows
    the request whole, in order and acknowledged; and [Execute] returns the response
    that the payloads reported for that socket's cid spell, whatever else is
    reported. *)
Theorem request_over_ml307 sm (c : SoftwareHttpClient (stack * list action)) method url u w1 w2 w3 n reports reads reader rest :
  let request := BuildHttpRequest u (request_options (initial_request c method u) (keep_alive_ c) false) in
  let config := if u_tls u then tls_ c else default_tls in
  idle c → ParseUrl url = Ok u →
  tcp_routes (world_ c).1.1 = ∅ → length (slots_ (hal (world_ c).1)) = 6%nat →
  make_transport (u_tls u) config (world_ c).1 = (w1, Ok ()) →
  tcp_connect (u_host u) (u_port u) w1 = (w2, [], Ok ()) →
  tcp_send request w2 = (w3, [], Ok n) →
  listening w3 → lk_idle (link w3).1 = (reads, reader) :: rest →
  Forall well_formed reports → concat reads = wire (report_line <$> reports) →
  let cid := connect_id (tcp w2) in
  ∃ wm, opened (lit "TCP") (u_host u) (u_port u) (u_tls u) config w1 wm cid ∧ link wm = link w2 ∧
    transmitted cid request (Ok ()) w2 w3 ∧
    let p := feed_all sm (new_parser true) (payloads_of cid reports) in
    (state p = kComplete → IsRedirectStatus (status_code p) = false →
     (Execute sm method url c).2 = Ok (Some (MkHttpResponse (status_code p) (HttpParser.headers p) (sunk p)))).
Proof.
  intros request config Hi Hu Hr H6 Em Ec Es Hl Hidle HF Hreads cid0; subst cid0.
  assert (w1.1 = (world_ c).1.1 ∧ hal w1 = hal (world_ c).1 ∧ connected (tcp w1) = false ∧ sock w1 = MkSocket (u_tls u) config [])
    as (E1 & E2 & E3 & E4).
  { cbn [make_transport hal_transport] in Em. destruct (world_ c).1 as [r [h [l cs]]].
    unfold CellularNetwork.OpenTransport in Em. cbn in Em. rewrite andb_false_r in Em. by injection Em as <-. }
  destruct (connect_live (u_host u) (u_port u) w1 w2 E3) as (cid & wm & Eo & Eh & El & Hlive); [by rewrite E1|done|].
  rewrite E4 in Eo. cbn [sk_tls sk_config] in Eo.
  assert (set_heard [] w1 = w1) as Ew1 by (rewrite <- (set_heard_same w1) at 2; by rewrite E4).
  rewrite Ew1 in Eo.
  pose proof (TcpConnect_opens _ _ _ _ sock_calm _ _ _ _ w1 wm (Ok cid) (eq_trans (f_equal (λ h, length (slots_ h)) E2) H6) Eo) as Hop.
  destruct (send_live cid request w2 w3 n Hlive Es) as [Et Hlive3].
  change (TcpSend sock_data sock_close nobody_udp None cid request w2 = (w3, Ok n)) in Et.
  rewrite (proj1 (proj2 Hlive)). exists wm. split_and!; [exact Hop|by symmetry| |].
  - destruct (channel_ (hal w2)) eqn:Hch; [by eapply (TcpSend_transmits _ _ _ _ sock_calm cid request w2 w3 (Ok n))|].
    unfold TcpSend, SendHexPayload, with_channel, bind, gets in Et. by rewrite Hch in Et.
  - intros p Hc Hn. destruct (await_payloads cid reports reads reader rest (timeout_ c) w3 Hlive3 Hl Hidle HF Hreads) as [w4 Ea].
    apply (Execute_reads sm method url u c (payloads_of cid reports)); [done..| |done|done]. by exists w1, w2, w3, w4, n.
Qed.

(** * Witness *)

(** An initialized ML307 with nothing on it. *)
Definition sample_stack (answers : list (option (Z * Z) * list bytes)) (idle : list (list bytes * bool)) : stack :=
  (Initialize sock_data sock_close nobody_udp None
    (new_hal, (new_ml307, ((MkUartLink (AtUart.new_uart 115200) (ok_after [] :: ok_after [] :: answers) idle 5000, []),
      (new_tcp_client, MkSocket false default_tls []))))).1.

(** The response in two reports, with another socket's payload between them; their
    lines come in three reads that cut through them. *)
Definition response_reports : list report :=
  [MkReport 0 30 (EncodeHex (take 30 hello)); MkReport 3 2 (EncodeHex (lit "no"));
   MkReport 0 9 (EncodeHex (drop 30 hello))].
Definition response_reads : list bytes :=
  let s := wire (report_line <$> response_reports) in [take 7 s; take 90 (drop 7 s); drop 97 s].
Definition sample_request : SoftwareHttpClient (stack * list action) :=
  new_http_client (sample_stack
    [free_answer 0; ok_after []; ok_after []; ok_after []; ok_after []]
    [([lit "+MIPOPEN: 0"; lit ",0" ++ CRLF], false); (response_reads, false)], []).

(** The world at each step of the request. *)
Definition made : stack :=
  (make_transport (u_tls sample_url) (if u_tls sample_url then tls_ sample_request else default_tls) (world_ sample_request).1).1.
Definition connected_ : stack := (tcp_connect (u_host sample_url) (u_port sample_url) made).1.1.
Definition request_text : bytes :=
  BuildHttpRequest sample_url (request_options (initial_request sample_request (lit "GET") sample_url) (keep_alive_ sample_request) false).
Definition requested : stack := (tcp_send request_text connected_).1.1.

Lemma requested_listening : listening requested.
Proof. split; [|split; [|split]]; by_vm. Qed.

Lemma response_reports_ok : Forall well_formed response_reports.
Proof.
  repeat (apply Forall_cons_2 || apply Forall_nil_2); (split; [vm_compute; split; congruence|]);
    (split; [vm_compute; split; congruence|]); (split; [done|]); apply (bool_decide_unpack _); vm_compute; exact I.
Qed.

Lemma request_over_ml307_witness :
  (Execute Size32 (lit "GET") (lit "http://a.example/x") sample_request).2 =
  Ok (Some (MkHttpResponse 200 (header_map (r_headers sample_response ++ [content_length_header 5])) (lit "hello"))).
Proof.
  destruct (request_over_ml307 Size32 sample_request (lit "GET") (lit "http://a.example/x") sample_url
    made connected_ requested (Z.of_nat (length request_text)) response_reports response_reads false []) as (wm & _ & _ & _ & H).
  - by split_and!.
  - vm_compute. reflexivity.
  - vm_compute. reflexivity.
  - vm_compute. reflexivity.
  - unfold made. apply (op_result (make_transport _ _)). vm_compute. reflexivity.
  - unfold connected_. apply triple_result; vm_compute; reflexivity.
  - unfold requested, request_text. apply triple_result; vm_compute; reflexivity.
  - apply requested_listening.
  - vm_compute. reflexivity.
  - apply response_reports_ok.
  - vm_compute. reflexivity.
  - etrans; [apply H|]; by_vm.
Defined.
