(* ===== verification/HttpOverAir780e.v ===== *)
(** The stack put together over the other module: an HTTP request over a socket of the
    AIR780E, which announces what it has received and keeps it until the HAL's reader
    fetches it. *)
From stdpp Require Import base decidable list strings gmap.
From Stdlib Require Import ZArith Ascii Lia.
From S2P Require Import Prelude Errors CommonTypes StateResult TcpTransport HttpParser HttpParserFacts HttpResponses.
From S2P Require Import UrcDispatcher HalRoutes HalTcpClient SocketHal ModemLink Air780eHal Air780eModes Air780eOpen.
From S2P Require Import Air780eDrain HalTransport Air780eSockets Air780eTransport HttpRequest HttpClient HttpExecute.

Section Stack.
Context {M : Type} `{IModemLink M} (held : M → Z → bytes).
Local Abbreviation stack := (hal_world Air780eHal (M * list exchange) (HalTcpClient * socket)).

(** What the module holds, its record left aside. *)
Definition held_by (l : M * list exchange) : Z → bytes := held l.1.

Lemma recorded_keeps : keeps_buffers held → keeps_buffers held_by.
Proof.
  intros Hk id [l x] [l' x'] calls r Hid E. cbn [at_command recorded_link fst] in E. unfold held_by. cbn [fst].
  destruct (at_command (read_command id) kDefaultTimeout l) as [[l1 calls1] r1] eqn:E1. injection E as <- _ _ <-.
  exact (Hk id l l1 calls1 r1 Hid E1).
Qed.
Lemma recorded_silent : silent (W := M) → silent (W := M * list exchange).
Proof.
  intros Hs cmd timeout [l x]. cbn. specialize (Hs cmd timeout l). by destruct (at_command cmd timeout l) as [[? ?] ?].
Qed.

(** C3: a request over the AIR780E. For an idle HTTP client whose transport is a socket
    of this module, if the socket opens and takes the request with nothing coming in
    yet, and the module then announces data and holds for this socket a whole response
    of announced length: the id was one the module reported CONNECT OK for; the module
    prompted for the request and took it whole, with its TLS switch standing where the
    URL asks for it; and [Execute] returns the response's status, headers and exactly
    its body, however many reads the HAL's reader needed to fetch it. *)
Theorem request_over_air780e sm (c : SoftwareHttpClient (stack * list action)) method url u w1 w2 w3 n l i (r : response) (b : bytes) :
  let request := BuildHttpRequest u (request_options (initial_request c method u) (keep_alive_ c) false) in
  let config := if u_tls u then tls_ c else default_tls in
  let text := render_head r (content_length_header (length b)) ++ b in
  let cid := connect_id (tcp w2) in
  keeps_buffers held → silent (W := M) →
  idle c → ParseUrl url = Ok u →
  tcp_routes (world_ c).1.1 = ∅ → channel_ (hal (world_ c).1) = true → length (slots_ (hal (world_ c).1)) = Z.to_nat kMaxConnections →
  balanced 0 0 (world_ c).1 →
  make_transport (u_tls u) config (world_ c).1 = (w1, Ok ()) →
  tcp_connect (u_host u) (u_port u) w1 = (w2, [], Ok ()) →
  tcp_send request w2 = (w3, [], Ok n) →
  attentive cid w3 → announces cid (urc_handles_ (hal w3)) i → pause (timeout_ c) (link w3).1 = (l, [Line i; Reader]) →
  held l cid = text → (length text < kMaxDrainPerWake)%nat →
  response_ok r → IsRedirectStatus (r_code r) = false →
  (∃ said, (link w2).2 = (link w1).2 ++ said ∧
    connect_verdict (u_host u) (u_port u) (u_tls u) config w1 w2 said (Ok cid)) ∧
  logged (XData (send_text cid request) request (Ok ())) w3 ∧
  last_switch (log w3) = Some (u_tls u) ∧
  (Execute sm method url c).2 =
    Ok (Some (MkHttpResponse (r_code r) (header_map (r_headers r ++ [content_length_header (length b)])) b)).
Proof.
  intros request config text cid0 Hk Hsil Hi Hu Hr Hch H6 Hbal Em Ec Es Hat Ha Hp Hheld Hlen Hok Hnr.
  assert (w1.1 = (world_ c).1.1 ∧ hal w1 = hal (world_ c).1 ∧ connected (tcp w1) = false ∧ sock w1 = MkSocket (u_tls u) config [] ∧ link w1 = link (world_ c).1)
    as (E1 & E2 & E3 & E4 & E5).
  { cbn [make_transport hal_transport] in Em. destruct (world_ c).1 as [rt [h [lk cs]]].
    unfold CellularNetwork.OpenTransport in Em. cbn in Em. rewrite andb_false_r in Em. by injection Em as <-. }
  destruct (connect_live (u_host u) (u_port u) w1 w2 E3) as (cid & wm & Eo & Eh & El & Hlive); [by rewrite E1|done|].
  rewrite E4 in Eo. cbn [sk_tls sk_config] in Eo.
  assert (set_heard [] w1 = w1) as Ew1 by (rewrite <- (set_heard_same w1) at 2; by rewrite E4).
  rewrite Ew1 in Eo. assert (cid0 = cid) as Ecid by apply Hlive. clearbody cid0. subst cid0.
  destruct (send_live cid request w2 w3 n Hlive Es) as [Et Hlive3]. split_and!.
  - pose proof (TcpConnect_said _ _ _ socks_still (u_host u) (u_port u) (u_tls u) config w1) as Hs.
    rewrite E2 in Hs. specialize (Hs Hch H6). unfold wp in Hs.
    change (TcpConnect sock_data sock_close nobody_udp (u_host u) (u_port u) (u_tls u) config w1 = (wm, Ok cid)) in Eo.
    rewrite Eo in Hs. destruct Hs as [_ (said & Hl & Hv)]. exists said.
    change (w2.2.1 = wm.2.1) in Eh. change (w2.2.2.1 = wm.2.2.1) in El.
    split; [unfold link; by rewrite El|]. inversion Hv as [| | |l1 l2 r0 Hun Hopp Hln Hsearch]; subst. apply connect_searched; [done..|].
    unfold hal at 2. by rewrite Eh.
  - pose proof (TcpSend_taken cid request w2) as Ht. unfold wp in Ht.
    change (TcpSend sock_data sock_close nobody_udp cid request w2 = (w3, Ok n)) in Et. rewrite Et in Ht. by apply (Ht n).
  - apply (sent_under_mode (u_host u) (u_port u) (u_tls u) config cid request n w1 wm w2 w3); [|exact Eo|done|exact Et|apply Hat].
    apply (balanced_framed 0 0 (world_ c).1); [done|by rewrite E2|]. unfold log. by rewrite E5.
  - assert (pause (timeout_ c) (link w3) = ((l, (link w3).2 ++ heard_in [Line i; Reader]), [Line i; Reader])) as Hp'.
    { cbn [pause recorded_link]. by rewrite Hp. }
    destruct (await_held held_by (recorded_keeps Hk) cid (timeout_ c) w3 _ i Hlive3 Hat (recorded_silent Hsil) Hp' Ha) as (w4 & ps & Ea & Eps & _).
    { unfold held_by. cbn [fst]. by rewrite Hheld. }
    unfold held_by in Eps. cbn [fst] in Eps. rewrite Hheld in Eps.
    apply (Execute_answered sm c method url u r b ps); [done|done| |done| |done|done].
    + by exists w1, w2, w3, w4, n.
    + unfold text in Hlen. rewrite length_app in Hlen. unfold kMaxDrainPerWake in Hlen. unfold INT_MAX. lia.
Qed.
End Stack.

(** * Witness *)

(** A module that announces what arrives and keeps it until it is read. *)
Record sample_air := MkSample {
  sa_buffers : list bytes;
  sa_lines : list bytes;
  sa_handle : Z;
  sa_tls : bool;
  sa_arriving : list (Z * bytes);
}.
Definition sa_held (s : sample_air) (id : Z) : bytes := entry (sa_buffers s) id [].
Definition sa_ids : list Z := [0; 1; 2; 3; 4; 5].

Definition sa_answer (cmd : bytes) (s : sample_air) : sample_air :=
  let say tls lines := MkSample (sa_buffers s) lines (sa_handle s) tls (sa_arriving s) in
  if decide (cmd = lit "AT+CIPMUX?") then say (sa_tls s) [lit "+CIPMUX: 1"]
  else if decide (cmd = lit "AT+CIPSSL=1") then say true []
  else if decide (cmd = lit "AT+CIPSSL=0") then say false []
  else if decide (cmd = lit "AT+CIPSSL?") then say (sa_tls s) [lit (if sa_tls s then "+CIPSSL: 1" else "+CIPSSL: 0")]
  else say (sa_tls s) [].

#[export] Instance sample_module : IModemLink sample_air := {|
  at_command cmd timeout s :=
    match list_find (λ id, cmd = read_command id) sa_ids with
    | Some (_, id) =>
        let d := sa_held s id in
        (MkSample (set_entry (sa_buffers s) id (drop read_size d)) (read_answer id (take read_size d) (length d - read_size))
           (sa_handle s) (sa_tls s) (sa_arriving s), [], Ok ())
    | None => (sa_answer cmd s, [], Ok ())
    end;
  at_line cmd s :=
    (s, [MkInvocation 2 (if decide (cmd = lit "AT+CIPSHUT") then lit "SHUT OK" else lit "0, CONNECT OK") []], Ok ());
  at_data cmd data timeout s := (s, [MkInvocation 2 (lit "0, SEND OK") []], Ok ());
  at_lines := sa_lines;
  at_subscribe prefix s :=
    (MkSample (sa_buffers s) (sa_lines s) (sa_handle s + 1) (sa_tls s) (sa_arriving s), sa_handle s + 1);
  at_unsubscribe handle s := s;
  pause timeout s :=
    match sa_arriving s with
    | [] => (s, [])
    | (id, d) :: rest =>
        (MkSample (set_entry (sa_buffers s) id (sa_held s id ++ d)) (sa_lines s) (sa_handle s) (sa_tls s) rest,
         [Line (MkInvocation 1 (lit "+CIPRXGET") (lit "1," ++ to_string id)); Reader])
    end;
  steady_now s := 0;
|}.

Lemma sample_keeps : keeps_buffers sa_held.
Proof.
  intros id s s' calls r Hid E. cbn [at_command sample_module] in E.
  assert (∃ n, list_find (λ j, read_command id = read_command j) sa_ids = Some (n, id)) as [n Hn].
  { unfold in_pool, kMaxConnections in Hid. apply andb_prop in Hid as [?%Z.leb_le ?%Z.ltb_lt].
    assert (id = 0 ∨ id = 1 ∨ id = 2 ∨ id = 3 ∨ id = 4 ∨ id = 5) as Hids by lia.
    repeat destruct Hids as [->|Hids]; try subst id; eexists; vm_compute; reflexivity. }
  rewrite Hn in E. cbv zeta in E. injection E as <- <- <-. split_and!; [done|done| |]; unfold sa_held at 1; cbn [sa_buffers].
  - destruct (entry_same (sa_buffers s) id (drop read_size (sa_held s id)) []) as [->|[-> E]]; [done|].
    unfold sa_held. by rewrite E, drop_nil.
  - intros j Hj Hne. apply entry_other. unfold in_pool in *.
    apply andb_prop in Hid as [?%Z.leb_le _], Hj as [?%Z.leb_le _]. lia.
Qed.
Lemma sample_silent : silent (W := sample_air).
Proof. intros cmd timeout s. cbn [at_command sample_module]. by destruct (list_find _ _) as [[? ?]|]. Qed.

Local Abbreviation air_stack := (hal_world Air780eHal (sample_air * list exchange) (HalTcpClient * socket)).

(** An HTTP client over an AIR780E that has come up, with this to arrive. *)
Definition switched_on (arriving : list (Z * bytes)) : air_stack :=
  (new_hal, (new_air780e true, ((MkSample (replicate 6 []) [] 0 false arriving, []),
    (new_tcp_client, MkSocket false default_tls [])))).
Definition brought_up (arriving : list (Z * bytes)) : air_stack :=
  (Initialize sock_data sock_close nobody_udp (switched_on arriving)).1.
Definition air_request : SoftwareHttpClient (air_stack * list action) := new_http_client (brought_up [(0, hello)], []).
Definition air_url : ParsedUrl := MkParsedUrl true (lit "a.example") 443 (lit "/x").

(** The world at each step of the request. *)
Definition air_made : air_stack := (make_transport (u_tls air_url) (tls_ air_request) (world_ air_request).1).1.
Definition air_connected : air_stack := (tcp_connect (u_host air_url) (u_port air_url) air_made).1.1.
Definition air_text : bytes :=
  BuildHttpRequest air_url (request_options (initial_request air_request (lit "GET") air_url) (keep_alive_ air_request) false).
Definition air_sent : air_stack := (tcp_send air_text air_connected).1.1.

Lemma switched_on_unopened arriving : unopened (switched_on arriving).
Proof. split; [by split_and!|]. by intros [|]. Qed.
Lemma brought_up_balanced arriving : balanced 0 0 (brought_up arriving).
Proof. exact (Initialize_balanced sock_data sock_close nobody_udp (switched_on arriving) (switched_on_unopened arriving)). Qed.
Lemma air_attentive : attentive 0 air_sent.
Proof. split; by_vm. Qed.

Lemma request_over_air780e_witness :
  last_switch (log air_sent) = Some true ∧
  (Execute Size32 (lit "GET") (lit "https://a.example/x") air_request).2 =
    Ok (Some (MkHttpResponse 200 (header_map (r_headers sample_response ++ [content_length_header 5])) (lit "hello"))).
Proof.
  destruct (request_over_air780e sa_held Size32 air_request (lit "GET") (lit "https://a.example/x") air_url
    air_made air_connected air_sent (Z.of_nat (length air_text))
    (MkSample ([hello; []; []; []; []; []]) (sa_lines (link air_sent).1) 2 true [])
    (MkInvocation 1 (lit "+CIPRXGET") (lit "1,0")) sample_response (lit "hello")) as (_ & _ & Hm & Hr).
  - apply sample_keeps.
  - apply sample_silent.
  - by split_and!.
  - vm_compute. reflexivity.
  - vm_compute. reflexivity.
  - vm_compute. reflexivity.
  - vm_compute. reflexivity.
  - apply brought_up_balanced.
  - unfold air_made. apply (op_result (make_transport _ _)). vm_compute. reflexivity.
  - unfold air_connected. apply triple_result; vm_compute; reflexivity.
  - unfold air_sent, air_text. apply triple_result; vm_compute; reflexivity.
  - assert (connect_id (tcp air_connected) = 0) as -> by (vm_compute; reflexivity). apply air_attentive.
  - assert (connect_id (tcp air_connected) = 0) as -> by (vm_compute; reflexivity).
    split; [|reflexivity]. eexists _, _. vm_compute. reflexivity.
  - vm_compute. reflexivity.
  - vm_compute. reflexivity.
  - apply Nat.ltb_lt. vm_compute. reflexivity.
  - apply sample_response_ok.
  - vm_compute. reflexivity.
  - split; [exact Hm|exact Hr].
Defined.
