(* ===== verification/WsFrame.v ===== *)
(** WebSocket frames (src/src/protocol/websocket/ws_frame.{h,cpp}): encoding,
    masking, and taking frames off the inbound stream; the second half is the codec's
    correctness. *)
From stdpp Require Import base decidable list strings gmap.
From Stdlib Require Import ZArith Ascii Lia.
From S2P Require Import Prelude Errors.

(** * Data *)

(** [enum class WsOpcode : uint8_t] *)
Inductive WsOpcode := kContinuation | kText | kBinary | kClose | kPing | kPong.

#[export] Instance WsOpcode_eq_dec : EqDecision WsOpcode.
Proof. solve_decision. Defined.

Definition opcode_value (o : WsOpcode) : Z :=
  match o with
  | kContinuation => 0 | kText => 1 | kBinary => 2 | kClose => 8 | kPing => 9 | kPong => 10
  end.

Record WsFrame := MkWsFrame { f_fin : bool; f_opcode : WsOpcode; f_payload : bytes }.

(** [WsFrameRead]: the status with what goes with it. A ready frame comes with
    what is left of the buffer; in the other cases the buffer is untouched. *)
Inductive WsFrameRead :=
  | kIncomplete
  | kReady (frame : WsFrame) (rest : bytes)
  | kInvalid (reason : bytes).

Definition kMaxControlPayload : Z := 125.
Definition kMaskBit : Z := 128.
Definition kFinBit : Z := 128.
Definition kRsvBits : Z := 112.
Definition kOpcodeMask : Z := 15.
Definition kLengthIs16Bit : Z := 126.
Definition kLengthIs64Bit : Z := 127.

Definition OpcodeFromRaw (raw : Z) : option WsOpcode :=
  match raw with
  | 0 => Some kContinuation
  | 1 => Some kText
  | 2 => Some kBinary
  | 8 => Some kClose
  | 9 => Some kPing
  | 10 => Some kPong
  | _ => None
  end.

Definition IsControlOpcode (o : WsOpcode) : bool :=
  bool_decide (o = kClose) || bool_decide (o = kPing) || bool_decide (o = kPong).

Definition Invalid (reason : string) : WsFrameRead := kInvalid (lit reason).

(** * Masking *)

(** One octet of the key, most significant first; [j] is taken modulo 4. *)
Definition mask_octet (key : Z) (j : nat) : Z :=
  Z.land (Z.shiftr key (24 - 8 * Z.of_nat (j mod 4))) 255.

(** The loop of [AppendMasked] from index [i] on. *)
Fixpoint masked_from (i : nat) (key : Z) (payload : bytes) : bytes :=
  match payload with
  | [] => []
  | c :: s => z2b (Z.lxor (b2z c) (mask_octet key i)) :: masked_from (S i) key s
  end.

Definition AppendMasked (out payload : bytes) (key : Z) : bytes := out ++ masked_from 0 key payload.

(** * Encoding *)

(** [for (int shift = 8 * (n - 1); shift >= 0; shift -= 8)]: [n] octets of [v]. *)
Fixpoint big_endian (n : nat) (v : Z) : bytes :=
  match n with
  | O => []
  | S k => z2b (Z.land (Z.shiftr v (8 * Z.of_nat k)) 255) :: big_endian k v
  end.

Definition EncodeFrame (opcode : WsOpcode) (payload : bytes) (fin : bool) (mask_key : option Z)
  : Result bytes :=
  let length := Z.of_nat (length payload) in
  if IsControlOpcode opcode && negb fin then
    Err (net_error kInvalidArgument "a control frame cannot be fragmented")
  else if IsControlOpcode opcode && (length >? kMaxControlPayload) then
    Err (net_error kInvalidArgument "a control frame cannot carry more than 125 bytes")
  else
    let out := [z2b (Z.lor (opcode_value opcode) (if fin then kFinBit else 0))] in
    let mask_bit := match mask_key with Some _ => kMaskBit | None => 0 end in
    let out := if length <? kLengthIs16Bit then out ++ [z2b (Z.lor mask_bit length)]
               else if length <=? 65535 then
                 out ++ [z2b (Z.lor mask_bit kLengthIs16Bit)] ++ big_endian 2 length
               else out ++ [z2b (Z.lor mask_bit kLengthIs64Bit)] ++ big_endian 8 length in
    Ok (match mask_key with
        | Some key => AppendMasked (out ++ big_endian 4 key) payload key
        | None => out ++ payload
        end).

(** * Decoding *)

(** [length = (length << 8) | byte] over a run of bytes. *)
Definition read_big_endian (s : bytes) : Z :=
  fold_left (λ acc c, Z.lor (Z.shiftl acc 8) (b2z c)) s 0.

(** The length field: [None] while it is not all there, or the length and the
    offset of the payload. *)
Definition frame_length (buffer : bytes) (second : Z) : option (Z * nat) :=
  let length := Z.land second 127 in
  if length =? kLengthIs16Bit then
    if (List.length buffer <? 2 + 2)%nat then None
    else Some (read_big_endian (take 2 (drop 2 buffer)), 4%nat)
  else if length =? kLengthIs64Bit then
    if (List.length buffer <? 2 + 8)%nat then None
    else Some (read_big_endian (take 8 (drop 2 buffer)), 10%nat)
  else Some (length, 2%nat).

Definition TakeFrame (buffer : bytes) : WsFrameRead :=
  match buffer with
  | b0 :: b1 :: _ =>
      let first := b2z b0 in
      let second := b2z b1 in
      if negb (Z.land first kRsvBits =? 0) then Invalid "a reserved bit is set in the frame header"
      else match OpcodeFromRaw (Z.land first kOpcodeMask) with
      | None => Invalid "the frame header carries a reserved opcode"
      | Some opcode =>
          if negb (Z.land second kMaskBit =? 0) then Invalid "a frame from the server is masked"
          else match frame_length buffer second with
          | None => kIncomplete
          | Some (length, offset) =>
              if negb (Z.land length (2 ^ 63) =? 0)
              then Invalid "the frame length has its leading bit set"
              else if IsControlOpcode opcode && (Z.land first kFinBit =? 0)
              then Invalid "a control frame arrived fragmented"
              else if IsControlOpcode opcode && (length >? kMaxControlPayload)
              then Invalid "a control frame carries more than 125 bytes"
              else if Z.of_nat (List.length buffer) <? Z.of_nat offset + length then kIncomplete
              else
                let n := Z.to_nat length in
                kReady (MkWsFrame (negb (Z.land first kFinBit =? 0)) opcode
                          (take n (drop offset buffer)))
                  (drop (offset + n) buffer)
          end
      end
  | _ => kIncomplete
  end.

(** * The frame codec's correctness: big-endian fields, masking, [TakeFrame] as the
    inverse of [EncodeFrame] for what a server sends, the same for what a client
    sends against the specification's reader, and its behaviour on a stream. *)

(** ** Lemmas: big-endian fields *)

Lemma big_endian_length n v : length (big_endian n v) = n.
Proof. induction n as [|n IH]; simpl; by rewrite ?IH. Qed.

Lemma big_endian_fold n v acc : 0 <= v → 0 <= acc →
  fold_left (λ a c, Z.lor (Z.shiftl a 8) (b2z c)) (big_endian n v) acc =
  acc * 256 ^ Z.of_nat n + v mod 256 ^ Z.of_nat n.
Proof.
  intros Hv. revert acc; induction n as [|n IH]; intros acc Ha.
  { simpl. rewrite Z.mod_1_r. lia. }
  cbn [big_endian fold_left]. change 255 with (Z.ones 8).
  rewrite Z.land_ones, Z.shiftr_div_pow2 by lia. change (2 ^ 8) with 256.
  rewrite b2z_z2b, Z.mod_mod by lia.
  set (d := (v / 2 ^ (8 * Z.of_nat n)) mod 256).
  assert (0 <= d < 256) by (apply Z.mod_pos_bound; lia).
  rewrite shiftl_lor by lia. change (2 ^ 8) with 256. rewrite IH by lia.
  rewrite Nat2Z.inj_succ, Z.pow_succ_r by lia.
  assert (2 ^ (8 * Z.of_nat n) = 256 ^ Z.of_nat n) as Hpow by (rewrite Z.pow_mul_r by lia; done).
  pose proof (Z.pow_pos_nonneg 256 (Z.of_nat n) ltac:(lia) ltac:(lia)) as Hp.
  rewrite (Z.mul_comm 256), Z.rem_mul_r by lia. unfold d. rewrite Hpow. lia.
Qed.

Lemma read_big_endian_value n v : 0 <= v < 256 ^ Z.of_nat n →
  read_big_endian (big_endian n v) = v.
Proof.
  intros Hv. unfold read_big_endian. rewrite big_endian_fold by lia. rewrite Z.mod_small by lia. lia.
Qed.

Lemma read_big_endian_bound s : 0 <= read_big_endian s < 256 ^ Z.of_nat (length s).
Proof.
  induction s as [|c s IH] using rev_ind; [done|].
  unfold read_big_endian in *. rewrite fold_left_app. simpl.
  pose proof (b2z_range c). rewrite shiftl_lor by lia. change (2 ^ 8) with 256.
  rewrite length_app, Nat2Z.inj_add, Z.pow_add_r by lia. simpl (256 ^ Z.of_nat (length [c])).
  change (256 ^ Z.of_nat (length [c])) with 256. nia.
Qed.

(** ** Lemmas: masking *)

Lemma masked_from_length i key s : length (masked_from i key s) = length s.
Proof. revert i; induction s as [|c s IH]; intros i; simpl; by rewrite ?IH. Qed.

Lemma mask_octet_range key j : 0 <= mask_octet key j < 256.
Proof.
  unfold mask_octet. change 255 with (Z.ones 8). rewrite Z.land_ones by lia.
  apply Z.mod_pos_bound. lia.
Qed.

Lemma lxor_byte a b : 0 <= a < 256 → 0 <= b < 256 → 0 <= Z.lxor a b < 256.
Proof.
  intros Ha Hb. split; [apply Z.lxor_nonneg; lia|].
  destruct (Z.eq_dec (Z.lxor a b) 0) as [->|Hn]; [lia|].
  assert (0 <= Z.lxor a b) by (apply Z.lxor_nonneg; lia).
  change 256 with (2 ^ 8). apply Z.log2_lt_pow2; [lia|].
  eapply Z.le_lt_trans; [by apply Z.log2_lxor; lia|].
  apply Z.max_lub_lt.
  - destruct (Z.eq_dec a 0) as [->|]; [simpl; lia|]. apply Z.log2_lt_pow2; lia.
  - destruct (Z.eq_dec b 0) as [->|]; [simpl; lia|]. apply Z.log2_lt_pow2; lia.
Qed.

(** Masking twice with one key gives the payload back. *)
Lemma masked_from_involutive i key s : masked_from i key (masked_from i key s) = s.
Proof.
  revert i; induction s as [|c s IH]; intros i; simpl; [done|].
  rewrite IH. f_equal. pose proof (b2z_range c). pose proof (mask_octet_range key i).
  rewrite b2z_z2b_small by (by apply lxor_byte).
  rewrite Z.lxor_assoc, Z.lxor_nilpotent, Z.lxor_0_r. apply z2b_b2z.
Qed.

(** ** Specification: a reader of what a client sends (section 5.2) *)

(** The unmasked frame at the front of [s], for a masked frame all there. *)
Definition server_take (s : bytes) : option (WsFrame * bytes) :=
  match s with
  | b0 :: b1 :: _ =>
      match OpcodeFromRaw (Z.land (b2z b0) 15), frame_length s (b2z b1) with
      | Some opcode, Some (n, offset) =>
          if (Z.land (b2z b1) 128 =? 0) || (Z.of_nat (length s) <? Z.of_nat offset + 4 + n) then None
          else
            let key := read_big_endian (take 4 (drop offset s)) in
            let after := drop (offset + 4) s in
            Some (MkWsFrame (negb (Z.land (b2z b0) 128 =? 0)) opcode
                    (masked_from 0 key (take (Z.to_nat n) after)), drop (Z.to_nat n) after)
      | _, _ => None
      end
  | _ => None
  end.

(** ** Lemmas: headers *)

Definition first_byte (opcode : WsOpcode) (fin : bool) : ascii :=
  z2b (Z.lor (opcode_value opcode) (if fin then kFinBit else 0)).

Lemma first_byte_read opcode fin :
  let f := b2z (first_byte opcode fin) in
  Z.land f kRsvBits = 0 ∧ OpcodeFromRaw (Z.land f kOpcodeMask) = Some opcode ∧
  negb (Z.land f kFinBit =? 0) = fin.
Proof. destruct opcode, fin; by vm_compute. Qed.

(** The length field of a frame, after the first byte. *)
Definition length_field (mask_bit : Z) (n : Z) : bytes :=
  if n <? kLengthIs16Bit then [z2b (Z.lor mask_bit n)]
  else if n <=? 65535 then z2b (Z.lor mask_bit kLengthIs16Bit) :: big_endian 2 n
  else z2b (Z.lor mask_bit kLengthIs64Bit) :: big_endian 8 n.

Lemma length_byte_read (m : bool) n : 0 <= n < 128 →
  let s := b2z (z2b (Z.lor (if m then 128 else 0) n)) in
  Z.land s 127 = n ∧ (Z.land s 128 =? 0) = negb m.
Proof.
  intros H. assert (0 <= n < 256) as Hn by lia. revert n Hn H.
  apply (byte_ind (λ n, _ → _)). intros c. destruct m; byte_cases c; intros [? ?];
    first [discriminate | by split].
Qed.

Lemma frame_length_field b0 (m : bool) n rest : 0 <= n < 2 ^ 63 →
  match length_field (if m then 128 else 0) n with
  | [] => False
  | b1 :: more =>
      frame_length (b0 :: b1 :: more ++ rest) (b2z b1) = Some (n, (2 + length more)%nat) ∧
      (Z.land (b2z b1) kMaskBit =? 0) = negb m
  end.
Proof.
  intros Hn. unfold length_field.
  destruct (Z.ltb_spec n kLengthIs16Bit) as [Hs|Hs]; unfold kLengthIs16Bit in Hs.
  - destruct (length_byte_read m n ltac:(lia)) as [E1 E2]. cbn [app length].
    unfold frame_length. rewrite E1. split; [|done].
    unfold kLengthIs16Bit, kLengthIs64Bit. by rewrite !(proj2 (Z.eqb_neq _ _)) by lia.
  - destruct (Z.leb_spec n 65535) as [Hm|Hm].
    + destruct (length_byte_read m kLengthIs16Bit ltac:(unfold kLengthIs16Bit; lia)) as [E1 E2].
      split; [|done]. unfold frame_length. rewrite E1. rewrite Z.eqb_refl.
      cbn [length app]. rewrite (proj2 (Nat.ltb_ge _ _)) by (simpl; lia).
      change (drop 2 (b0 :: ?b :: ?l)) with l. rewrite take_app_length' by done.
      by rewrite read_big_endian_value by (change (256 ^ Z.of_nat 2) with 65536; lia).
    + destruct (length_byte_read m kLengthIs64Bit ltac:(unfold kLengthIs64Bit; lia)) as [E1 E2].
      split; [|done]. unfold frame_length. rewrite E1.
      change (kLengthIs64Bit =? kLengthIs16Bit) with false. rewrite Z.eqb_refl.
      rewrite (proj2 (Nat.ltb_ge _ _)) by (simpl; lia).
      change (drop 2 (b0 :: ?b :: ?l)) with l. rewrite take_app_length' by done.
      by rewrite read_big_endian_value by (change (256 ^ Z.of_nat 8) with (2 ^ 64); lia).
Qed.

Lemma EncodeFrame_layout opcode payload fin mask_key s :
  EncodeFrame opcode payload fin mask_key = Ok s →
  s = first_byte opcode fin
      :: length_field (match mask_key with Some _ => 128 | None => 0 end) (Z.of_nat (length payload))
      ++ match mask_key with
         | Some key => big_endian 4 key ++ masked_from 0 key payload
         | None => payload
         end ∧
  (IsControlOpcode opcode = true → fin = true ∧ Z.of_nat (length payload) <= 125).
Proof.
  unfold EncodeFrame. cbv zeta. intros H. case_match eqn:E1; [done|].
  case_match eqn:E2; [done|]. injection H as <-. split.
  - unfold length_field, AppendMasked, first_byte, kMaskBit.
    destruct mask_key; repeat case_match; simpl; by rewrite <- ?app_assoc.
  - intros Hc. rewrite Hc in *. simpl in *. apply negb_false_iff in E1.
    unfold kMaxControlPayload in E2. rewrite Z.gtb_ltb in E2. apply Z.ltb_ge in E2. done.
Qed.

Lemma land_small n : 0 <= n < 2 ^ 63 → Z.land n (2 ^ 63) = 0.
Proof.
  intros Hn. apply Z.bits_inj'. intros i Hi. rewrite Z.land_spec, Z.bits_0, Z.pow2_bits_eqb by lia.
  destruct (Z.eqb_spec 63 i) as [<-|]; [|by rewrite andb_false_r]. rewrite andb_true_r.
  destruct (Z.eq_dec n 0) as [->|]; [apply Z.bits_0|].
  apply Z.bits_above_log2; [lia|]. apply Z.log2_lt_pow2; lia.
Qed.

Lemma drop_header {A} (a b : A) more rest : drop (2 + length more) (a :: b :: more ++ rest) = rest.
Proof. change (drop (2 + length more) (a :: b :: more ++ rest)) with (drop (length more) (more ++ rest)). apply drop_app_length. Qed.

(** ** Lemmas: the stream *)

Lemma frame_length_app buf x b1 n off : frame_length buf b1 = Some (n, off) →
  frame_length (buf ++ x) b1 = Some (n, off).
Proof.
  unfold frame_length. repeat case_match; intros H'; simplify_eq; try done;
    repeat match goal with
    | K : (_ <? _)%nat = false |- _ => apply Nat.ltb_ge in K
    | K : (_ <? _)%nat = true |- _ => apply Nat.ltb_lt in K; rewrite length_app in K; lia
    end.
  all: f_equal; f_equal; f_equal; rewrite drop_app_le by lia; rewrite take_app_le; [done|];
    rewrite length_drop; lia.
Qed.

Lemma frame_length_bound buf b1 n off : (2 <= length buf)%nat →
  frame_length buf b1 = Some (n, off) → 0 <= n ∧ (2 <= off <= 10)%nat ∧ (off <= length buf)%nat.
Proof.
  intros Hb. unfold frame_length. repeat case_match; intros H'; simplify_eq; try done;
    repeat match goal with K : (_ <? _)%nat = false |- _ => apply Nat.ltb_ge in K end;
    (split_and!; [first [apply read_big_endian_bound | apply Z.land_nonneg; lia]|lia..]).
Qed.

(** Bytes that arrive later do not change a frame that is ready or a stream that
    is broken. *)
Lemma TakeFrame_app buf x :
  TakeFrame (buf ++ x) = match TakeFrame buf with
                         | kIncomplete => TakeFrame (buf ++ x)
                         | kReady f rest => kReady f (rest ++ x)
                         | kInvalid r => kInvalid r
                         end.
Proof.
  destruct buf as [|b0 [|b1 buf]]; [done|done|]. cbn [app TakeFrame].
  destruct (negb (Z.land (b2z b0) kRsvBits =? 0)); [done|].
  destruct (OpcodeFromRaw _) as [opcode|]; [|done].
  destruct (negb (Z.land (b2z b1) kMaskBit =? 0)); [done|].
  destruct (frame_length (b0 :: b1 :: buf) _) as [[n off]|] eqn:E; [|done].
  destruct (frame_length_bound (b0 :: b1 :: buf) (b2z b1) n off ltac:(simpl; lia) E) as (Hn & Ho & Hob).
  change (b0 :: b1 :: buf ++ x) with ((b0 :: b1 :: buf) ++ x).
  rewrite (frame_length_app _ x _ _ _ E). set (full := b0 :: b1 :: buf) in *.
  destruct (negb (Z.land n (2 ^ 63) =? 0)); [done|].
  destruct (IsControlOpcode opcode && (Z.land (b2z b0) kFinBit =? 0)); [done|].
  destruct (IsControlOpcode opcode && (n >? kMaxControlPayload)); [done|].
  destruct (Z.ltb_spec (Z.of_nat (length full)) (Z.of_nat off + n)); [done|].
  rewrite (proj2 (Z.ltb_ge _ _)) by (rewrite length_app; lia).
  rewrite !drop_app_le by lia. rewrite take_app_le by (rewrite length_drop; lia). done.
Qed.

(** Taking an unmasked frame off the stream is the inverse of encoding it. *)
Lemma TakeFrame_EncodeFrame_rest opcode payload fin s rest :
  Z.of_nat (length payload) < 2 ^ 63 → EncodeFrame opcode payload fin None = Ok s →
  TakeFrame (s ++ rest) = kReady (MkWsFrame fin opcode payload) rest.
Proof.
  intros Hl H. apply EncodeFrame_layout in H as [-> Hc].
  destruct (first_byte_read opcode fin) as (F1 & F2 & F3). cbn [app]. rewrite <- app_assoc.
  pose proof (frame_length_field (first_byte opcode fin) false (Z.of_nat (length payload))
                (payload ++ rest) ltac:(lia)) as HF. cbn iota in HF.
  destruct (length_field 0 _) as [|b1 more]; [done|]. destruct HF as [HF Hm]. cbn [app TakeFrame].
  rewrite F1, F2, HF, Hm, land_small by lia. cbn [negb Z.eqb].
  assert (IsControlOpcode opcode && (Z.land (b2z (first_byte opcode fin)) kFinBit =? 0) = false) as ->.
  { destruct (IsControlOpcode opcode); [|done]. destruct Hc as [-> _]; [done|].
    apply negb_true_iff in F3. by rewrite F3. }
  assert (IsControlOpcode opcode && (Z.of_nat (length payload) >? kMaxControlPayload) = false) as ->.
  { destruct (IsControlOpcode opcode); [|done]. destruct Hc as [_ Hc]; [done|].
    unfold kMaxControlPayload. rewrite Z.gtb_ltb. apply Z.ltb_ge. lia. }
  rewrite F3, Nat2Z.id. rewrite (proj2 (Z.ltb_ge _ _)) by (cbn [length]; rewrite !length_app; lia).
  by rewrite <- (drop_drop _ (length payload) (2 + length more)), drop_header, take_app_length, drop_app_length.
Qed.

Lemma TakeFrame_strict_prefix (opcode : WsOpcode) (payload : bytes) (fin : bool) (s a b : bytes) :
  Z.of_nat (length payload) < 2 ^ 63 → EncodeFrame opcode payload fin None = Ok s →
  s = a ++ b → b ≠ [] → TakeFrame a = kIncomplete.
Proof.
  intros Hl H Hs Hb. pose proof (TakeFrame_EncodeFrame_rest opcode payload fin s [] Hl H) as HT.
  rewrite app_nil_r, Hs, TakeFrame_app in HT. destruct (TakeFrame a) as [|f rest|r]; [done|..].
  - injection HT as _ HT. by apply app_eq_nil in HT as [_ ->].
  - done.
Qed.

(** ** Properties *)

(** [TakeFrame] inverts [EncodeFrame] for the frames a server may send:
    unmasked, any opcode and fin the encoder accepts, any payload length. The
    frame comes back whole with exactly the bytes that followed it. *)
Theorem TakeFrame_EncodeFrame (opcode : WsOpcode) (payload : bytes) (fin : bool) (s rest : bytes) :
  Z.of_nat (length payload) < 2 ^ 63 → EncodeFrame opcode payload fin None = Ok s →
  TakeFrame (s ++ rest) = kReady (MkWsFrame fin opcode payload) rest.
Proof. apply TakeFrame_EncodeFrame_rest. Qed.

Lemma TakeFrame_EncodeFrame_witness :
  TakeFrame (match EncodeFrame kText (lit "Hello") true None with Ok s => s | Err _ => [] end ++ lit "next")
  = kReady (MkWsFrame true kText (lit "Hello")) (lit "next").
Proof. apply (TakeFrame_EncodeFrame kText (lit "Hello") true); vm_compute; reflexivity. Defined.

(** what the client sends is what the server reads. A frame encoded with a
    masking key, read and unmasked as the specification lays it out, gives back
    its fin flag, opcode and payload; and the client's own reader refuses it, as
    a masked frame may not come from a server. *)
Theorem masked_frame_roundtrip (opcode : WsOpcode) (payload : bytes) (fin : bool) (key : Z) (s rest : bytes) :
  0 <= key < 2 ^ 32 → Z.of_nat (length payload) < 2 ^ 63 →
  EncodeFrame opcode payload fin (Some key) = Ok s →
  server_take (s ++ rest) = Some (MkWsFrame fin opcode payload, rest) ∧
  TakeFrame (s ++ rest) = Invalid "a frame from the server is masked".
Proof.
  intros Hk Hl H. apply EncodeFrame_layout in H as [-> Hc].
  destruct (first_byte_read opcode fin) as (F1 & F2 & F3). cbn [app]. rewrite <- !app_assoc.
  pose proof (frame_length_field (first_byte opcode fin) true (Z.of_nat (length payload))
    (big_endian 4 key ++ masked_from 0 key payload ++ rest) ltac:(lia)) as HF. cbn iota in HF.
  destruct (length_field 128 _) as [|b1 more]; [done|]. destruct HF as [HF Hm].
  cbn [app TakeFrame server_take].
  change 15 with kOpcodeMask. rewrite F1, F2, HF. split.
  - change (Z.land (b2z b1) 128 =? 0) with (Z.land (b2z b1) kMaskBit =? 0). rewrite Hm.
    cbn [negb orb].
    rewrite (proj2 (Z.ltb_ge _ _))
      by (cbn [length]; rewrite !length_app, big_endian_length, masked_from_length; lia).
    rewrite <- (drop_drop _ 4 (2 + length more)), drop_header.
    rewrite (take_app_length' (big_endian 4 key)), (drop_app_length' (big_endian 4 key))
      by (by rewrite big_endian_length).
    rewrite read_big_endian_value by (change (256 ^ Z.of_nat 4) with (2 ^ 32); lia).
    rewrite Nat2Z.id, take_app_length', drop_app_length' by (by rewrite masked_from_length).
    rewrite masked_from_involutive. change 128 with kFinBit. by rewrite F3.
  - by rewrite Hm.
Qed.

Lemma masked_frame_roundtrip_witness :
  let s := match EncodeFrame kText (lit "Hello") true (Some 939139389) with Ok s => s | Err _ => [] end in
  server_take (s ++ lit "x") = Some (MkWsFrame true kText (lit "Hello"), lit "x") ∧
  TakeFrame (s ++ lit "x") = Invalid "a frame from the server is masked".
Proof.
  apply (masked_frame_roundtrip kText (lit "Hello") true 939139389);
    vm_compute; try split; discriminate || reflexivity.
Defined.

(** a frame split across reads waits for its last byte. Every strict prefix
    of an encoded server frame is incomplete - never ready and never invalid - so
    the stream can be cut anywhere. *)
Theorem TakeFrame_prefix_incomplete (opcode : WsOpcode) (payload : bytes) (fin : bool) (s a b : bytes) :
  Z.of_nat (length payload) < 2 ^ 63 → EncodeFrame opcode payload fin None = Ok s →
  s = a ++ b → b ≠ [] → TakeFrame a = kIncomplete.
Proof. apply TakeFrame_strict_prefix. Qed.

Lemma TakeFrame_prefix_incomplete_witness :
  TakeFrame (take 4 (match EncodeFrame kText (lit "Hello") true None with Ok s => s | Err _ => [] end)) = kIncomplete.
Proof.
  apply (TakeFrame_prefix_incomplete kText (lit "Hello") true
    (match EncodeFrame kText (lit "Hello") true None with Ok s => s | Err _ => [] end)
    (take 4 (match EncodeFrame kText (lit "Hello") true None with Ok s => s | Err _ => [] end))
    (lit "llo")); [reflexivity|reflexivity|vm_compute; reflexivity|discriminate].
Defined.

(** every frame taken off the stream is one the specification allows and
    accounts for its bytes: what was consumed is a header of two to ten bytes and
    the payload, the rest is left, and a control frame is unfragmented with at
    most 125 bytes. *)
Theorem TakeFrame_ready (buf rest : bytes) (f : WsFrame) :
  TakeFrame buf = kReady f rest →
  (∃ hd, buf = hd ++ f_payload f ++ rest ∧ (2 <= length hd <= 10)%nat) ∧
  (IsControlOpcode (f_opcode f) = true → f_fin f = true ∧ Z.of_nat (length (f_payload f)) <= 125).
Proof.
  destruct buf as [|b0 [|b1 buf]]; [done|done|]. intros H. unfold TakeFrame, Invalid in H.
  destruct (negb (Z.land (b2z b0) kRsvBits =? 0)); [done|].
  destruct (OpcodeFromRaw _) as [opcode|]; [|done]. case_match; [done|].
  destruct (frame_length _ _) as [[n off]|] eqn:E; [|done].
  destruct (frame_length_bound (b0 :: b1 :: buf) (b2z b1) n off ltac:(simpl; lia) E) as (Hn & Ho & Hob).
  case_match; [done|]. case_match eqn:E1; [done|]. case_match eqn:E2; [done|].
  case_match eqn:El; [done|]. apply Z.ltb_ge in El. injection H as <- <-. cbn [f_payload f_opcode f_fin].
  split.
  - exists (take off (b0 :: b1 :: buf)). rewrite <- drop_drop, !take_drop, length_take. split; [done|lia].
  - intros Hc. rewrite Hc in E1, E2. simpl in E1, E2. unfold kMaxControlPayload in E2.
    rewrite Z.gtb_ltb in E2. apply Z.ltb_ge in E2. rewrite E1, length_take. split; [done|lia].
Qed.

Lemma TakeFrame_ready_witness :
  (∃ hd, [z2b 137; z2b 1; "p"%char; "x"%char] = hd ++ lit "p" ++ lit "x" ∧ (2 <= length hd <= 10)%nat) ∧
  (IsControlOpcode kPing = true → true = true ∧ Z.of_nat (length (lit "p")) <= 125).
Proof.
  apply (TakeFrame_ready [z2b 137; z2b 1; "p"%char; "x"%char] (lit "x") (MkWsFrame true kPing (lit "p"))).
  vm_compute. reflexivity.
Defined.
