(* ===== verification/WsHandshake.v ===== *)
(** The WebSocket opening handshake (src/src/protocol/websocket/ws_handshake.cpp):
    base64, SHA-1, the accept value, the upgrade request and its response. *)
From stdpp Require Import base decidable list strings gmap.
From Stdlib Require Import ZArith Ascii Lia.
From S2P Require Import Prelude Errors HttpParser HttpParserFacts HttpResponses HttpRequest HttpOrigin.

(** * Base64 *)

Definition kBase64Alphabet : bytes :=
  lit "ABCDEFGHIJKLMNOPQRSTUVWXYZabcdefghijklmnopqrstuvwxyz0123456789+/".

Definition base64_char (group shift : Z) : ascii :=
  nth (Z.to_nat (Z.land (Z.shiftr group shift) 63)) kBase64Alphabet "="%char.

Fixpoint Base64Encode (data : bytes) : bytes :=
  match data with
  | a :: b :: c :: data =>
      let group := Z.lor (Z.lor (Z.shiftl (b2z a) 16) (Z.shiftl (b2z b) 8)) (b2z c) in
      base64_char group 18 :: base64_char group 12 :: base64_char group 6 :: base64_char group 0
      :: Base64Encode data
  | [a; b] =>
      let group := Z.lor (Z.shiftl (b2z a) 16) (Z.shiftl (b2z b) 8) in
      [base64_char group 18; base64_char group 12; base64_char group 6; "="%char]
  | [a] =>
      let group := Z.shiftl (b2z a) 16 in
      [base64_char group 18; base64_char group 12; "="%char; "="%char]
  | [] => []
  end.

(** * SHA-1 *)

Definition RotateLeft (value bits : Z) : Z :=
  u32 (Z.lor (Z.shiftl value bits) (Z.shiftr value (32 - bits))).

(** The message with its one bit, zeroes to 56 modulo 64, and bit length. *)
Definition sha1_pad (data : bytes) : list Z :=
  let bit_length := u64 (Z.of_nat (length data) * 8) in
  let message := (b2z <$> data) ++ [128] in
  let zeroes := Z.to_nat ((56 - Z.of_nat (length message)) mod 64) in
  message ++ replicate zeroes 0
  ++ ((λ shift, Z.land (Z.shiftr bit_length shift) 255) <$> [56; 48; 40; 32; 24; 16; 8; 0]).

(** Big-endian words of a block. *)
Fixpoint words_of (message : list Z) : list Z :=
  match message with
  | a :: b :: c :: d :: message =>
      Z.lor (Z.lor (Z.lor (Z.shiftl a 24) (Z.shiftl b 16)) (Z.shiftl c 8)) d :: words_of message
  | _ => []
  end.

(** [n] more schedule words after those of [words], which holds at least 16. *)
Fixpoint schedule (n : nat) (words : list Z) : list Z :=
  match n with
  | O => words
  | S k =>
      let i := length words in
      let w j := nth (i - j) words 0 in
      schedule k (words ++ [RotateLeft (Z.lxor (Z.lxor (Z.lxor (w 3%nat) (w 8%nat)) (w 14%nat)) (w 16%nat)) 1])
  end.

Record digest := MkDigest { dg_a : Z; dg_b : Z; dg_c : Z; dg_d : Z; dg_e : Z }.

Definition sha1_init : digest :=
  MkDigest 0x67452301 0xEFCDAB89 0x98BADCFE 0x10325476 0xC3D2E1F0.

Definition not32 (v : Z) : Z := Z.lxor v 0xFFFFFFFF.

Definition sha1_round (i : nat) (word : Z) (s : digest) : digest :=
  let '(MkDigest a b c d e) := s in
  let '(f, k) :=
    if (i <? 20)%nat then (Z.lor (Z.land b c) (Z.land (not32 b) d), 0x5A827999)
    else if (i <? 40)%nat then (Z.lxor (Z.lxor b c) d, 0x6ED9EBA1)
    else if (i <? 60)%nat then (Z.lor (Z.lor (Z.land b c) (Z.land b d)) (Z.land c d), 0x8F1BBCDC)
    else (Z.lxor (Z.lxor b c) d, 0xCA62C1D6) in
  let temp := u32 (RotateLeft a 5 + f + e + k + word) in
  MkDigest temp a (RotateLeft b 30) c d.

Fixpoint sha1_rounds (i : nat) (words : list Z) (s : digest) : digest :=
  match words with
  | [] => s
  | w :: words => sha1_rounds (S i) words (sha1_round i w s)
  end.

Definition sha1_block (s : digest) (block : list Z) : digest :=
  let words := schedule 64 (words_of block) in
  let r := sha1_rounds 0 words s in
  MkDigest (u32 (dg_a s + dg_a r)) (u32 (dg_b s + dg_b r)) (u32 (dg_c s + dg_c r))
    (u32 (dg_d s + dg_d r)) (u32 (dg_e s + dg_e r)).

(** The block loop; [length message / 64] blocks. *)
Fixpoint sha1_blocks (n : nat) (message : list Z) (s : digest) : digest :=
  match n with
  | O => s
  | S k => sha1_blocks k (drop 64 message) (sha1_block s (take 64 message))
  end.

Definition word_bytes (w : Z) : bytes :=
  (λ j, z2b (Z.land (Z.shiftr w (24 - 8 * j)) 255)) <$> [0; 1; 2; 3].

Definition Sha1 (data : bytes) : bytes :=
  let message := sha1_pad data in
  let s := sha1_blocks (length message / 64) message sha1_init in
  word_bytes (dg_a s) ++ word_bytes (dg_b s) ++ word_bytes (dg_c s) ++ word_bytes (dg_d s)
  ++ word_bytes (dg_e s).

(** * The handshake *)

Definition kWebSocketGuid : bytes := lit "258EAFA5-E914-47DA-95CA-C5AB0DC85B11".

Definition ComputeSecWebSocketAccept (key : bytes) : bytes :=
  Base64Encode (Sha1 (key ++ kWebSocketGuid)).

(** [random_words] are the four words [platform::RandomUint32] returned. *)
Definition MakeSecWebSocketKey (random_words : list Z) : bytes :=
  Base64Encode (take 4 random_words ≫= λ w,
    (λ shift, z2b (Z.land (Z.shiftr w shift) 255)) <$> [24; 16; 8; 0]).

Record WsHandshakeResponse := MkHandshakeResponse { hr_status : Z; hr_accept : bytes }.

Definition ParseHandshakeResponse (sm : size_model) (head : bytes) : Result WsHandshakeResponse :=
  match Feed sm (new_parser false) head with
  | (_, Err e) => Err e
  | (parser, Ok _) =>
      if status_code parser =? 0
      then Err (net_error kProtocolError "the response has no status line")
      else Ok (MkHandshakeResponse (status_code parser) (GetHeader parser (lit "Sec-WebSocket-Accept")))
  end.

Definition handshake_headers (u : ParsedUrl) (key : bytes) (headers : list header) : list header :=
  fold_left (λ hs h, set_header hs h.1 h.2) headers
    [(lit "Host", host_header u); (lit "Upgrade", lit "websocket"); (lit "Connection", lit "Upgrade");
     (lit "Sec-WebSocket-Key", key); (lit "Sec-WebSocket-Version", lit "13")].

Definition BuildHandshakeRequest (u : ParsedUrl) (key : bytes) (headers : list header) : bytes :=
  lit "GET " ++ (if decide (u_path u = []) then lit "/" else u_path u) ++ lit " HTTP/1.1" ++ CRLF
  ++ render_headers (handshake_headers u key headers) ++ CRLF.

(** * Specification: base64 read back (RFC 4648) *)

Definition base64_value (c : ascii) : option Z := Z.of_nat <$> find_byte c kBase64Alphabet.

Fixpoint base64_decode (s : bytes) : option bytes :=
  match s with
  | [] => Some []
  | a :: b :: c :: d :: s =>
      va ← base64_value a; vb ← base64_value b;
      if decide (c = "="%char) then
        if decide (d = "="%char ∧ s = []) then Some [z2b ((va * 64 + vb) / 16)] else None
      else
        vc ← base64_value c;
        if decide (d = "="%char) then
          if decide (s = []) then
            let g := (va * 64 + vb) * 64 + vc in Some [z2b (g / 1024); z2b (g / 4)]
          else None
        else
          vd ← base64_value d;
          let g := ((va * 64 + vb) * 64 + vc) * 64 + vd in
          r ← base64_decode s;
          Some (z2b (g / 65536) :: z2b (g / 256) :: z2b g :: r)
  | _ => None
  end.

(** * Lemmas *)

Lemma base64_char_value g sh : 0 <= g → 0 <= sh →
  base64_value (base64_char g sh) = Some ((g / 2 ^ sh) mod 64) ∧ base64_char g sh ≠ "="%char.
Proof.
  intros Hg Hs. unfold base64_char. change 63 with (Z.ones 6).
  rewrite Z.land_ones, Z.shiftr_div_pow2 by lia. change (2 ^ 6) with 64.
  set (v := (g / 2 ^ sh) mod 64). assert (0 <= v < 64) as Hv by (apply Z.mod_pos_bound; lia).
  clearbody v. revert v Hv. clear.
  assert (∀ k, (k < 64)%nat → base64_value (nth k kBase64Alphabet "="%char) = Some (Z.of_nat k) ∧
               nth k kBase64Alphabet "="%char ≠ "="%char) as H.
  { intros k Hk. do 64 (destruct k as [|k]; [by split|]). lia. }
  intros v Hv. destruct (H (Z.to_nat v) ltac:(lia)) as [H1 H2]. split; [|done].
  by rewrite H1, Z2Nat.id by lia.
Qed.

Lemma lor_fields a b c : 0 <= a < 256 → 0 <= b < 256 → 0 <= c < 256 →
  Z.lor (Z.lor (Z.shiftl a 16) (Z.shiftl b 8)) c = a * 65536 + b * 256 + c.
Proof.
  intros Ha Hb Hc. assert (Z.shiftl a 16 = Z.shiftl (Z.shiftl a 8) 8) as -> by (by rewrite Z.shiftl_shiftl).
  rewrite <- Z.shiftl_lor.
  rewrite !shiftl_lor by lia. change (2 ^ 8) with 256. lia.
Qed.

Lemma base64_group g : 0 <= g < 16777216 →
  (g / 2 ^ 18) mod 64 * 4096 * 64 + (g / 2 ^ 12) mod 64 * 4096 + (g / 2 ^ 6) mod 64 * 64 + (g / 2 ^ 0) mod 64 = g.
Proof.
  intros Hg. change (2 ^ 18) with 262144. change (2 ^ 12) with 4096. change (2 ^ 6) with 64.
  change (2 ^ 0) with 1. rewrite Z.div_1_r.
  pose proof (Z.div_mod g 64 ltac:(lia)). pose proof (Z.div_mod (g / 64) 64 ltac:(lia)).
  pose proof (Z.div_mod (g / 64 / 64) 64 ltac:(lia)).
  rewrite (Z.mod_small (g / 262144)) by (split; [apply Z.div_pos|apply Z.div_lt_upper_bound]; lia).
  change 4096 with (64 * 64) in *. change 262144 with (64 * (64 * 64)).
  rewrite <- !Z.div_div by lia. lia.
Qed.

Lemma z2b_group g b : 0 <= b < 256 → g mod 256 = b → z2b g = z2b b.
Proof. intros Hb E. apply b2z_inj. rewrite !b2z_z2b, E. by rewrite Z.mod_small. Qed.

(** The octets of a group of three. *)
Lemma group_bytes a b c : let g := b2z a * 65536 + b2z b * 256 + b2z c in
  z2b (g / 65536) = a ∧ z2b (g / 256) = b ∧ z2b g = c.
Proof.
  cbn zeta. pose proof (b2z_range a). pose proof (b2z_range b). pose proof (b2z_range c).
  set (g := _ + _ + _).
  assert (g / 65536 = b2z a) as E1 by (symmetry; apply (Z.div_unique_pos _ _ _ (b2z b * 256 + b2z c)); lia).
  assert (g / 256 = b2z a * 256 + b2z b) as E2 by (symmetry; apply (Z.div_unique_pos _ _ _ (b2z c)); lia).
  rewrite E1, E2. split_and!.
  - apply z2b_b2z.
  - rewrite (z2b_group _ (b2z b)); [apply z2b_b2z|lia|].
    by rewrite Z.add_comm, Z.mod_add, Z.mod_small by lia.
  - rewrite (z2b_group _ (b2z c)); [apply z2b_b2z|lia|]. unfold g.
    replace (b2z a * 65536 + b2z b * 256 + b2z c) with (b2z c + (b2z a * 256 + b2z b) * 256) by lia.
    by rewrite Z.mod_add, Z.mod_small by lia.
Qed.

Lemma base64_decode_encode n s : (length s <= n)%nat → base64_decode (Base64Encode s) = Some s.
Proof.
  revert s; induction n as [|n IH]; intros s Hn; [by destruct s; [|simpl in Hn; lia]|].
  assert (∀ x y z, 0 <= b2z x * 65536 + b2z y * 256 + b2z z < 16777216) as Hg.
  { intros x y z. pose proof (b2z_range x). pose proof (b2z_range y). pose proof (b2z_range z). lia. }
  destruct s as [|a [|b [|c s]]]; [done|..]; cbn [Base64Encode].
  - set (g := Z.shiftl (b2z a) 16).
    assert (g = b2z a * 65536 + b2z "000" * 256 + b2z "000") as E
      by (unfold g; rewrite Z.shiftl_mul_pow2 by lia; change (b2z "000") with 0; lia).
    destruct (group_bytes a "000" "000") as (G1 & _ & _). pose proof (Hg a "000"%char "000"%char) as Hr.
    rewrite <- E in G1, Hr. clearbody g.
    destruct (base64_char_value g 18 ltac:(lia) ltac:(lia)) as [V1 _].
    destruct (base64_char_value g 12 ltac:(lia) ltac:(lia)) as [V2 _].
    cbn [base64_decode]. rewrite V1, V2. cbn [mbind option_bind]. rewrite decide_True by done.
    rewrite decide_True by done. f_equal. f_equal. rewrite <- G1. f_equal.
    change (2 ^ 18) with (4096 * 64). change (2 ^ 12) with 4096. rewrite <- Z.div_div by lia.
    rewrite (Z.mod_small (g / 4096 / 64)) by
      (rewrite Z.div_div by lia; split; [apply Z.div_pos|apply Z.div_lt_upper_bound]; lia).
    rewrite Z.mul_comm, <- Z.div_mod, Z.div_div by lia. done.
  - set (g := Z.lor _ _).
    assert (g = b2z a * 65536 + b2z b * 256 + b2z "000") as E.
    { unfold g. pose proof (b2z_range a). pose proof (b2z_range b).
      rewrite <- (lor_fields (b2z a) (b2z b) (b2z "000")) by (done || lia).
      by rewrite Z.lor_0_r. }
    destruct (group_bytes a b "000") as (G1 & G2 & _). pose proof (Hg a b "000"%char) as Hr.
    pose proof (base64_group g) as HG. rewrite <- E in G1, G2, Hr. specialize (HG Hr).
    assert (g mod 64 = 0) as E0.
    { rewrite E. change (b2z "000") with 0.
      replace (b2z a * 65536 + b2z b * 256 + 0) with ((b2z a * 1024 + b2z b * 4) * 64) by lia.
      by apply Z.mod_mul. }
    change (2 ^ 0) with 1 in HG. rewrite Z.div_1_r, E0 in HG. clearbody g.
    destruct (base64_char_value g 18 ltac:(lia) ltac:(lia)) as [V1 _].
    destruct (base64_char_value g 12 ltac:(lia) ltac:(lia)) as [V2 _].
    destruct (base64_char_value g 6 ltac:(lia) ltac:(lia)) as [V3 N3].
    cbn [base64_decode]. rewrite V1, V2, V3. cbn [mbind option_bind]. rewrite decide_False by done.
    rewrite decide_True by done. rewrite decide_True by done.
    set (h := (_ * 64 + _) * 64 + _).
    assert (g = h * 64) as Hh by (unfold h; lia).
    rewrite <- G1, <- G2, Hh. change 65536 with (64 * 1024). change 256 with (64 * 4).
    by rewrite !(Z.mul_comm h 64), !Z.div_mul_cancel_l by lia.
  - set (g := Z.lor _ _).
    assert (g = b2z a * 65536 + b2z b * 256 + b2z c) as E
      by (unfold g; apply lor_fields; apply b2z_range).
    destruct (group_bytes a b c) as (G1 & G2 & G3). pose proof (Hg a b c) as Hr.
    pose proof (base64_group g) as HG. rewrite <- E in G1, G2, G3, Hr. specialize (HG Hr). clearbody g.
    destruct (base64_char_value g 18 ltac:(lia) ltac:(lia)) as [V1 _].
    destruct (base64_char_value g 12 ltac:(lia) ltac:(lia)) as [V2 _].
    destruct (base64_char_value g 6 ltac:(lia) ltac:(lia)) as [V3 N3].
    destruct (base64_char_value g 0 ltac:(lia) ltac:(lia)) as [V4 N4].
    cbn [base64_decode]. rewrite V1, V2, V3, V4. cbn [mbind option_bind].
    rewrite decide_False by done. cbn [mbind option_bind]. rewrite decide_False by done.
    cbn [mbind option_bind]. rewrite IH by (simpl in Hn; lia). cbn [mbind option_bind].
    set (h := ((_ * 64 + _) * 64 + _) * 64 + _).
    assert (h = g) as -> by (unfold h; lia). by rewrite G1, G2, G3.
Qed.

(** A response head naming an accept value, and the parser that has read it. *)
Definition accept_header (v : bytes) : bytes * bytes := (lit "Sec-WebSocket-Accept", v).

Lemma plain_extra_head sm cb r extra : response_ok r → plain_header extra →
  let q := set_body_remaining (set_state (set_headers (head_read cb r)
             (header_map (r_headers r ++ [extra]))) kBody) 0 in
  Feed sm (new_parser cb) (render_head r extra) = (q, Ok (length (render_head r extra))).
Proof.
  intros Hok (H1 & H2 & H3 & H4 & H5 & H6) q.
  destruct (head_advance sm (new_parser cb) r extra [] (new_parser_wf sm cb) eq_refl Hok H1 H2 H3 H4)
    as (_ & Hrun & _); [done|].
  rewrite app_nil_r, runs_nil in Hrun.
  assert (after_head sm (new_parser cb) r extra = q) as E.
  { unfold after_head, apply_header. rewrite !decide_False by done.
    unfold q. rewrite header_map_snoc. reflexivity. }
  rewrite E in Hrun.
  pose proof (Feed_runs sm (new_parser cb) (render_head r extra) (new_parser_wf sm cb) eq_refl) as HF.
  change (buffer (new_parser cb) ++ render_head r extra) with (render_head r extra) in HF.
  rewrite Hrun in HF. destruct HF as (c & HF & Hd & Hc). rewrite HF.
  change (ended q) with false. change (set_buffer q []) with q.
  set (s := render_head r extra) in *. clearbody s.
  change (buffer (new_parser cb) ++ s) with s in *.
  apply (f_equal length) in Hd. rewrite length_drop in Hd. cbn [length] in Hd.
  change (length (buffer (new_parser cb))) with 0%nat. f_equal. f_equal. lia.
Qed.

(** * Properties *)

(** base64 loses nothing. Decoding as RFC 4648 lays it out gives back any
    byte string [Base64Encode] was given, padding included. *)
Theorem Base64Encode_roundtrip (s : bytes) : base64_decode (Base64Encode s) = Some s.
Proof. by apply (base64_decode_encode (length s)). Qed.

(** the accept value is the one RFC 6455 gives for its sample key, and the
    digest under it is SHA-1 on the FIPS 180 vectors for one and two blocks. *)
Theorem accept_reference_vectors :
  ComputeSecWebSocketAccept (lit "dGhlIHNhbXBsZSBub25jZQ==") = lit "s3pPLMBiTxaQ9kYGzzhZRbK+xOo=" ∧
  b2z <$> Sha1 (lit "abc") =
    [0xa9; 0x99; 0x3e; 0x36; 0x47; 0x06; 0x81; 0x6a; 0xba; 0x3e; 0x25; 0x71; 0x78; 0x50; 0xc2; 0x6c;
     0x9c; 0xd0; 0xd8; 0x9d] ∧
  b2z <$> Sha1 (lit "abcdbcdecdefdefgefghfghighijhijkijkljklmklmnlmnomnopnopq") =
    [0x84; 0x98; 0x3e; 0x44; 0x1c; 0x3b; 0xd2; 0x6e; 0xba; 0xae; 0x4a; 0xa1; 0xf9; 0x51; 0x29; 0xe5;
     0xe5; 0x46; 0x70; 0xf1].
Proof. vm_compute. by split_and!. Qed.

(** the accept value in a response head is the one reported. For any
    well-formed head with a status other than zero and an accept header among
    the others, the handshake reader gives the status and exactly that value. *)
Theorem handshake_response_read sm (r : response) (v : bytes) :
  response_ok r → r_code r ≠ 0 → trimmed v →
  ParseHandshakeResponse sm (render_head r (accept_header v)) = Ok (MkHandshakeResponse (r_code r) v).
Proof.
  intros Hok Hc Hv.
  assert (plain_header (accept_header v)) as Hp.
  { repeat split; try done; try decide_now; by destruct Hv. }
  unfold ParseHandshakeResponse. rewrite (plain_extra_head sm false r _ Hok Hp).
  cbn [status_code set_body_remaining set_state set_headers head_read set_status].
  rewrite (proj2 (Z.eqb_neq _ 0)) by done. f_equal. f_equal.
  unfold GetHeader. cbn [headers set_body_remaining set_state set_headers].
  rewrite header_map_snoc.
  change (to_lower (Trim (lit "Sec-WebSocket-Accept"))) with (to_lower (accept_header v).1).
  by rewrite lookup_insert_eq.
Qed.

Lemma handshake_response_read_witness :
  ParseHandshakeResponse Size32
    (render_head (MkResponse 1 1 101 (lit "Switching Protocols") [(lit "Upgrade", lit "websocket")])
       (accept_header (lit "s3pPLMBiTxaQ9kYGzzhZRbK+xOo="))) =
  Ok (MkHandshakeResponse 101 (lit "s3pPLMBiTxaQ9kYGzzhZRbK+xOo=")).
Proof.
  apply (handshake_response_read Size32
           (MkResponse 1 1 101 (lit "Switching Protocols") [(lit "Upgrade", lit "websocket")])).
  - constructor; try decide_now; by split.
  - discriminate.
  - decide_now.
Defined.
