(* ===== verification/Doubles.v ===== *)
(** Arithmetic in [double], for code that computes with it: the conversions and the
    comparisons the clients use, on the Standard Library's executable specification of
    IEEE 754, and what its rounding keeps of the order.

    The facts are about numbers between one and the largest double, where no mantissa
    is short; zero and infinity are handled by the functions themselves. *)
From stdpp Require Import base decidable numbers.
From Stdlib Require Import ZArith Lia SpecFloat.
From S2P Require Import Prelude.

(** * Operations *)

Definition double_prec : Z := 53.
Definition double_emax : Z := 1024.
Definition float_prec : Z := 24.
Definition float_emax : Z := 128.

(** [static_cast<double>] of an integer and of a [float]. *)
Definition double_of_Z (n : Z) : spec_float := binary_normalize double_prec double_emax n 0 false.
Definition double_of_float (f : spec_float) : spec_float :=
  match f with S754_finite s m e => binary_round double_prec double_emax s m e | _ => f end.
Definition float_of_Z (n : Z) : spec_float := binary_normalize float_prec float_emax n 0 false.

Definition double_mul : spec_float → spec_float → spec_float := SFmul double_prec double_emax.

(** [static_cast<long long>]: the value without its fraction, where it fits; there is
    no value otherwise. *)
Definition truncated (x : spec_float) : option Z :=
  let fits (n : Z) : option Z := if (- 2 ^ 63 <=? n) && (n <? 2 ^ 63) then Some n else None in
  match x with
  | S754_zero _ => Some 0
  | S754_finite s m e => let n := Z.shiftl (Z.pos m) e in fits (if s then - n else n)
  | _ => None
  end.

(** [std::clamp] *)
Definition clamp (v lo hi : spec_float) : spec_float := if SFltb v lo then lo else if SFltb hi v then hi else v.

(** * The size of a mantissa *)

Lemma digits_size p : 2 ^ (Z.pos (digits2_pos p) - 1) <= Z.pos p < 2 ^ Z.pos (digits2_pos p).
Proof.
  induction p as [p IH|p IH|]; cbn [digits2_pos]; [| |by vm_compute].
  all: rewrite Pos2Z.inj_succ; set (d := Z.pos (digits2_pos p)) in *; assert (0 < d) by (unfold d; lia).
  all: replace (Z.succ d - 1) with (Z.succ (d - 1)) by lia; rewrite !Z.pow_succ_r by lia; lia.
Qed.

Lemma digits_unique p d : 0 < d → 2 ^ (d - 1) <= Z.pos p < 2 ^ d → Z.pos (digits2_pos p) = d.
Proof.
  intros Hd Hp. pose proof (digits_size p) as Hs. set (k := Z.pos (digits2_pos p)) in *. assert (0 < k) by (unfold k; lia).
  assert (d - 1 < k) by (apply (Z.pow_lt_mono_r_iff 2); lia). assert (k - 1 < d) by (apply (Z.pow_lt_mono_r_iff 2); lia). lia.
Qed.

(** * Shifting and rounding *)

Lemma iter_nat {A} (f : A → A) p x : iter_pos f p x = Nat.iter (Pos.to_nat p) f x.
Proof.
  revert x; induction p as [p IH|p IH|]; intros x; cbn [iter_pos]; [| |done].
  - rewrite !IH, <- Nat.iter_add, <- Nat.iter_succ_r. f_equal. lia.
  - rewrite !IH, <- Nat.iter_add. f_equal. lia.
Qed.

(** What is left after [k] shifts: the quotient, and whether anything was shifted out. *)
Definition shifted (m : Z) (k : Z) (r : shr_record) : Prop :=
  shr_m r = m / 2 ^ k ∧ (m mod 2 ^ k = 0 → shr_r r = false ∧ shr_s r = false).

Lemma shift_one m k r : 0 <= m → 0 <= k → shifted m k r → shifted m (k + 1) (shr_1 r).
Proof.
  intros Hm Hk [Hq Hr]. destruct r as [q b s]. cbn [shr_m shr_r shr_s] in *.
  assert (0 <= q) by (subst q; apply Z.div_pos; lia).
  assert (m / 2 ^ (k + 1) = q / 2) as Hd by (rewrite Z.pow_add_r, <- Z.div_div by lia; by subst q).
  assert (m mod 2 ^ (k + 1) = 0 → q mod 2 = 0 ∧ m mod 2 ^ k = 0) as Hz.
  { intros Hm0. rewrite Z.pow_add_r, Z.rem_mul_r, <- Hq in Hm0 by lia. change (2 ^ 1) with 2 in Hm0.
    pose proof (Z.mod_pos_bound m (2 ^ k)). pose proof (Z.mod_pos_bound q 2). assert (0 < 2 ^ k) by lia. nia. }
  split.
  - rewrite Hd, <- Z.div2_div. by destruct q as [|[p|p|]|p].
  - intros [Hq2 Hr0]%Hz. destruct (Hr Hr0) as [-> ->]. rewrite Zmod_odd in Hq2. by destruct q as [|[p|p|]|p].
Qed.

Lemma shift_many m n : 0 <= m → shifted m (Z.of_nat n) (Nat.iter n shr_1 (Build_shr_record m false false)).
Proof.
  intros Hm. induction n as [|n IH]; [split; [by rewrite Z.div_1_r|done]|].
  rewrite Nat2Z.inj_succ, <- Z.add_1_r. cbn [Nat.iter nat_rect]. apply shift_one; [done|lia|exact IH].
Qed.

Lemma shr_shifted m e n : 0 <= m → 0 <= n → ∃ r, shr (Build_shr_record m false false) e n = (r, e + n) ∧ shifted m n r.
Proof.
  intros Hm Hn. destruct n as [|p|]; [|cbn [shr]|lia].
  - exists (Build_shr_record m false false). split; [by rewrite Z.add_0_r|]. split; [by rewrite Z.div_1_r|done].
  - eexists. split; [reflexivity|]. rewrite iter_nat, <- (positive_nat_Z p). by apply shift_many.
Qed.

(** Rounding takes the quotient or its successor, the quotient when nothing was lost. *)
Lemma rounded_up m k r : shifted m k r →
  let q := round_nearest_even (shr_m r) (loc_of_shr_record r) in
  (q = m / 2 ^ k ∨ q = m / 2 ^ k + 1) ∧ (m mod 2 ^ k = 0 → q = m / 2 ^ k).
Proof.
  intros [Hq Hr]. destruct r as [q b s]. cbn [shr_m shr_r shr_s] in *. subst q. split.
  - destruct b, s; cbn; try case_match; lia.
  - intros [-> ->]%Hr. done.
Qed.

(** * Numbers with a whole mantissa *)

(** A positive double that is not among the least ones. *)
Definition whole (m : positive) (e : Z) : Prop := 2 ^ 52 <= Z.pos m < 2 ^ 53 ∧ -1000 <= e <= 971.

(** Values are compared as multiples of the least power of two among them. *)
Definition scaled (m : positive) (e : Z) : Z := Z.pos m * 2 ^ (e + 1000).

Local Abbreviation round := (binary_round_aux double_prec double_emax false).

Lemma fexp_whole d e : 53 <= d → -1000 <= e → fexp double_prec double_emax (d + e) - e = d - 53.
Proof. unfold fexp, emin, double_prec, double_emax. lia. Qed.

Lemma shr_fexp_whole (p : positive) e : 53 <= Z.pos (digits2_pos p) → -1000 <= e →
  ∃ r, shr_fexp double_prec double_emax (Z.pos p) e loc_Exact = (r, e + (Z.pos (digits2_pos p) - 53)) ∧
       shifted (Z.pos p) (Z.pos (digits2_pos p) - 53) r.
Proof.
  intros Hd He. unfold shr_fexp, shr_record_of_loc. cbn [Zdigits2]. rewrite fexp_whole by done. apply shr_shifted; lia.
Qed.

(** Rounding gives such a number, not below the value cut off after its 53 leading
    bits and the value itself where that has no more; or infinity, for the largest. *)
Lemma round_whole (p : positive) e : 53 <= Z.pos (digits2_pos p) → -1000 <= e →
  let n := Z.pos (digits2_pos p) - 53 in
  (round (Z.pos p) e loc_Exact = S754_infinity false ∧ 1023 < e + Z.pos (digits2_pos p)) ∨
  ∃ m' e', round (Z.pos p) e loc_Exact = S754_finite false m' e' ∧ whole m' e' ∧ e + n <= e' ∧
    Z.pos p / 2 ^ n * 2 ^ (e + n + 1000) <= scaled m' e' ∧
    (Z.pos p mod 2 ^ n = 0 → scaled m' e' = Z.pos p * 2 ^ (e + 1000)).
Proof.
  intros Hd He n. unfold binary_round_aux. destruct (shr_fexp_whole p e Hd He) as (r & -> & Hr). fold n in Hr |- *.
  pose proof (digits_size p) as Hp. assert (Z.pos (digits2_pos p) = 53 + n) as Ed by (unfold n; lia). rewrite Ed in Hp.
  assert (0 <= n) by (unfold n; lia). set (q := Z.pos p / 2 ^ n) in *.
  assert (2 ^ 52 <= q < 2 ^ 53) as Hq.
  { replace (53 + n - 1) with (52 + n) in Hp by lia. rewrite !Z.pow_add_r in Hp by lia. assert (0 < 2 ^ n) by lia.
    split; [apply Z.div_le_lower_bound; lia|apply Z.div_lt_upper_bound; lia]. }
  assert (Z.pos p mod 2 ^ n = 0 → q * 2 ^ (e + n + 1000) = Z.pos p * 2 ^ (e + 1000)) as Hex.
  { intros Hm. rewrite (Z.div_mod (Z.pos p) (2 ^ n)), Hm by lia. fold q. replace (e + n + 1000) with (n + (e + 1000)) by lia.
    rewrite (Z.pow_add_r 2 n) by lia. ring. }
  destruct (rounded_up _ _ _ Hr) as [Hv Hv0]. fold q in Hv, Hv0. set (v := round_nearest_even _ _) in *. clearbody v.
  assert (2 ^ 52 <= v <= 2 ^ 53) as Hvb by lia. destruct v as [|v|v]; [lia| |lia].
  destruct (decide (Z.pos v = 2 ^ 53)) as [E|Hne].
  - assert (Z.pos (digits2_pos v) = 54) as Ev by (apply digits_unique; lia).
    destruct (shr_fexp_whole v (e + n)) as (r2 & -> & [Hr2 _]); [lia..|]. rewrite Ev, E in Hr2.
    change (shr_m r2 = 2 ^ 52) in Hr2. rewrite Hr2, Ev. change (2 ^ 52) with (Z.pos 4503599627370496).
    change (double_emax - double_prec) with 971; cbv beta iota; destruct (Z.leb_spec (e + n + (54 - 53)) 971) as [El|El]; [|left; split; [done|lia]].
    right. do 2 eexists. split; [done|]. split; [unfold whole; lia|]. split; [lia|]. unfold scaled.
    replace (e + n + (54 - 53) + 1000) with ((e + n + 1000) + 1) by lia. rewrite (Z.pow_add_r 2 (e + n + 1000) 1) by lia.
    split; [assert (0 < 2 ^ (e + n + 1000)) by lia; nia|]. intros Hm. specialize (Hv0 Hm). lia.
  - assert (Z.pos (digits2_pos v) = 53) as Ev by (apply digits_unique; lia).
    destruct (shr_fexp_whole v (e + n)) as (r2 & -> & [Hr2 _]); [lia..|]. rewrite Ev in Hr2.
    change (2 ^ (53 - 53)) with 1 in Hr2. rewrite Z.div_1_r in Hr2. rewrite Hr2, Ev, Z.add_0_r.
    change (double_emax - double_prec) with 971; cbv beta iota; destruct (Z.leb_spec (e + n) 971) as [El|El]; [|left; split; [done|lia]].
    right. do 2 eexists. split; [done|]. split; [unfold whole; lia|]. split; [lia|]. unfold scaled.
    split; [apply Z.mul_le_mono_nonneg_r; lia|]. intros Hm. by rewrite (Hv0 Hm), Hex.
Qed.

(** * Amounts *)

(** A finite double that is zero or at least one, and its value in units of [2 ^ -1000]. *)
Inductive worth : spec_float → Z → Prop :=
| worth_zero : worth (S754_zero false) 0
| worth_whole m e : whole m e → -52 <= e → worth (S754_finite false m e) (scaled m e).

Lemma scaled_pos m e : whole m e → 0 < scaled m e.
Proof. unfold whole, scaled. intros [Hm He]. assert (0 < 2 ^ (e + 1000)) by lia. nia. Qed.

Lemma scaled_exponents m1 e1 m2 e2 : whole m1 e1 → whole m2 e2 → e1 < e2 → scaled m1 e1 < scaled m2 e2.
Proof.
  unfold whole, scaled. intros [Hm1 He1] [Hm2 He2] He. replace (e2 + 1000) with (Z.succ (e2 - e1 - 1) + (e1 + 1000)) by lia.
  rewrite (Z.pow_add_r 2 (Z.succ _)), Z.pow_succ_r, Z.mul_assoc by lia. apply Z.mul_lt_mono_pos_r; [lia|].
  assert (1 <= 2 ^ (e2 - e1 - 1)) by lia. nia.
Qed.

Lemma compare_whole m1 e1 m2 e2 : whole m1 e1 → whole m2 e2 →
  SFcompare (S754_finite false m1 e1) (S754_finite false m2 e2) = Some (scaled m1 e1 ?= scaled m2 e2).
Proof.
  intros H1 H2. cbn [SFcompare]. f_equal. destruct (Z.compare_spec e1 e2) as [->|Hlt|Hgt]; symmetry.
  - symmetry. change (Pos.compare_cont Eq m1 m2) with (Z.pos m1 ?= Z.pos m2). unfold scaled. destruct H1 as [_ He].
    rewrite !(Z.mul_comm _ (2 ^ (e2 + 1000))). apply Zmult_compare_compat_l. lia.
  - by apply Z.compare_lt_iff, scaled_exponents.
  - apply Z.compare_gt_iff. by apply scaled_exponents.
Qed.

Lemma ltb_worth x a y b : worth x a → worth y b → SFltb x y = (a <? b).
Proof.
  intros [|m e Hm He] [|m' e' Hm' He']; unfold SFltb; [done| | |].
  - pose proof (scaled_pos _ _ Hm'). cbn. symmetry. by apply Z.ltb_lt.
  - pose proof (scaled_pos _ _ Hm). cbn. symmetry. apply Z.ltb_ge. lia.
  - rewrite compare_whole by done. by unfold Z.ltb.
Qed.

Lemma worth_nonneg x a : worth x a → 0 <= a.
Proof. intros [|m e Hm _]; [done|]. apply Z.lt_le_incl. by apply scaled_pos. Qed.

(** ** Conversion *)

Lemma round_sign s m e l : binary_round_aux double_prec double_emax s m e l =
  match binary_round_aux double_prec double_emax false m e l with
  | S754_finite _ m e => S754_finite s m e | S754_infinity _ => S754_infinity s | S754_zero _ => S754_zero s | S754_nan => S754_nan
  end.
Proof.
  unfold binary_round_aux. destruct (shr_fexp _ _ m e l) as [r e']. destruct (shr_fexp _ _ _ e' _) as [r' e''].
  destruct (shr_m r'); [done| |done]. by destruct (_ <=? _).
Qed.

Lemma iter_xO p n : Z.pos (Pos.iter xO p n) = Z.pos p * 2 ^ Z.pos n.
Proof.
  revert p; induction n as [|n IH] using Pos.peano_ind; intros p; [cbn; lia|].
  rewrite Pos.iter_succ, Pos2Z.inj_xO, IH, Pos2Z.inj_succ, Z.pow_succ_r by lia. lia.
Qed.

(** A counter as it is rounded. *)
Lemma round_count p : Z.pos p <= 2 ^ 63 → ∃ m e,
  binary_round double_prec double_emax false p 0 = S754_finite false m e ∧ whole m e ∧ -52 <= e ∧
  (Z.pos p <= 2 ^ 53 → scaled m e = Z.pos p * 2 ^ 1000).
Proof.
  intros Hp. pose proof (digits_size p) as Hd. remember (Z.pos (digits2_pos p)) as d eqn:Ed0. assert (0 < d) by lia.
  assert (d <= 64) as H64 by (assert (d - 1 < 64); [apply (Z.pow_lt_mono_r_iff 2); lia|lia]).
  unfold binary_round, shl_align. assert (fexp double_prec double_emax (d + 0) = d - 53) as Ef
    by (unfold fexp, emin, double_prec, double_emax; lia). rewrite <- Ed0, Ef, Z.sub_0_r.
  destruct (d - 53) as [|k|k] eqn:Ek.
  1-2: destruct (round_whole p 0) as [[_ ?]|(m & e & E & Hw & He & _ & Hs)]; [lia..|];
    exists m, e; (split; [exact E|]); (split; [done|]); (split; [lia|]); intros H53; apply Hs; rewrite <- Ed0, Ek.
  - by rewrite Z.mod_1_r.
  - assert (2 ^ 53 <= 2 ^ (d - 1)) by (apply Z.pow_le_mono_r; lia).
    assert (Z.pos p = 2 ^ 53) as Ep by lia. assert (d = 54) as E54 by (rewrite Ed0; apply digits_unique; lia).
    assert (k = 1%positive) as -> by lia. by rewrite Ep.
  - set (p' := Pos.iter xO p k). assert (Z.pos p' = Z.pos p * 2 ^ Z.pos k) as Ep by apply iter_xO.
    assert (Z.pos (digits2_pos p') = 53) as Ed.
    { apply digits_unique; [lia|]. rewrite Ep. replace (53 - 1) with (d - 1 + Z.pos k) by lia. replace 53 with (d + Z.pos k) by lia.
      rewrite !(Z.pow_add_r 2 _ (Z.pos k)) by lia. assert (0 < 2 ^ Z.pos k) by lia. nia. }
    destruct (round_whole p' (Z.neg k)) as [[_ ?]|(m & e & E & Hw & He & _ & Hs)]; [lia..|]. rewrite Ed in *.
    exists m, e. split; [replace (d - 53) with (Z.neg k) in * by lia; exact E|]. split; [done|]. split; [lia|]. intros _.
    rewrite Hs by apply Z.mod_1_r. rewrite Ep, <- Z.mul_assoc, <- Z.pow_add_r by lia. do 2 f_equal. lia.
Qed.

Lemma worth_count n : 0 <= n <= 2 ^ 63 → ∃ a, worth (double_of_Z n) a ∧ (n <= 2 ^ 53 → a = n * 2 ^ 1000).
Proof.
  intros Hn. destruct n as [|p|p]; [exists 0; by split; [constructor|]| |lia].
  destruct (round_count p) as (m & e & E & Hw & He & Hs); [lia|]. exists (scaled m e).
  unfold double_of_Z, binary_normalize. rewrite E. split; [by constructor|done].
Qed.

Lemma negative_count n : - 2 ^ 63 <= n < 0 → SFltb (double_of_Z n) (S754_zero false) = true.
Proof.
  intros Hn. destruct n as [|p|p]; [lia..|]. destruct (round_count p) as (m & e & E & _); [lia|].
  unfold double_of_Z, binary_normalize, binary_round in *. destruct (shl_align _ _ _) as [mz ez]. by rewrite round_sign, E.
Qed.

(** A count brought between zero and a cap. *)
Lemma worth_clamp n cap c : - 2 ^ 63 <= n <= 2 ^ 63 → worth cap c → ∃ a,
  worth (clamp (double_of_Z n) (S754_zero false) cap) a ∧ 0 <= a <= c ∧ (n <= 2 ^ 53 → a = Z.min (Z.max n 0 * 2 ^ 1000) c).
Proof.
  intros Hn Hc. pose proof (worth_nonneg _ _ Hc). unfold clamp. destruct (decide (n < 0)) as [Hneg|Hpos].
  - rewrite negative_count by lia. exists 0. split; [constructor|]. split; [lia|]. intros _. rewrite Z.max_r by lia. lia.
  - destruct (worth_count n) as (a & Ha & Hx); [lia|]. pose proof (worth_nonneg _ _ Ha).
    rewrite (ltb_worth _ _ _ _ Ha worth_zero), (ltb_worth _ _ _ _ Hc Ha). rewrite (proj2 (Z.ltb_ge a 0)) by done.
    destruct (Z.ltb_spec c a).
    + exists c. split_and!; [done|lia|lia|]. intros H53. rewrite Z.max_l, <- Hx by lia. lia.
    + exists a. split_and!; [done|lia|lia|]. intros H53. rewrite Z.max_l, <- Hx by lia. lia.
Qed.

(** ** Multiplication and truncation *)

(** A factor of at least one does not make an amount less. *)
Lemma worth_mul x a m e : worth x a → 0 < a → whole m e → -52 <= e →
  double_mul x (S754_finite false m e) = S754_infinity false ∨
  ∃ b, worth (double_mul x (S754_finite false m e)) b ∧ a <= b.
Proof.
  intros [|mx ex [Hmx Hex] He] Ha [Hm Hme] He'; [done|]. cbn [double_mul SFmul xorb]. set (p := (mx * m)%positive).
  assert (Z.pos p = Z.pos mx * Z.pos m) as Ep by apply Pos2Z.inj_mul.
  pose proof (digits_size p) as Hp. remember (Z.pos (digits2_pos p)) as d eqn:Ed. assert (0 < d) by lia.
  assert (2 ^ 104 <= Z.pos p) by (rewrite Ep; change (2 ^ 104) with (2 ^ 52 * 2 ^ 52); nia).
  assert (105 <= d) as Hd by (assert (104 < d); [apply (Z.pow_lt_mono_r_iff 2); lia|lia]).
  unfold double_mul, SFmul. cbn [xorb]. fold p.
  destruct (round_whole p (ex + e)) as [[E _]|(m' & e' & -> & Hw & He2 & Hcut & _)]; [lia|lia|by left|]. rewrite <- Ed in *.
  right. exists (scaled m' e'). split; [constructor; [done|lia]|]. etrans; [|exact Hcut].
  set (q := Z.pos p / 2 ^ (d - 53)) in *. unfold scaled. replace (ex + e + (d - 53) + 1000) with ((e + (d - 53)) + (ex + 1000)) by lia.
  rewrite (Z.pow_add_r 2 (e + (d - 53))), Z.mul_assoc by lia. apply Z.mul_le_mono_nonneg_r; [lia|].
  assert (2 ^ 52 <= q) as Hq.
  { apply Z.div_le_lower_bound; [lia|]. rewrite <- Z.pow_add_r by lia. replace (d - 53 + 52) with (d - 1) by lia. lia. }
  destruct (decide (e + (d - 53) = 0)) as [Ez|Hnz].
  - rewrite Ez, Z.mul_1_r. apply Z.div_le_lower_bound; [lia|]. assert (d - 53 = 52) as -> by lia. rewrite Ep. nia.
  - assert (2 <= 2 ^ (e + (d - 53))) by (replace (e + (d - 53)) with (Z.succ (e + (d - 53) - 1)) by lia; rewrite Z.pow_succ_r by lia; lia).
    nia.
Qed.

Lemma worth_truncated x a : worth x a → a < 2 ^ 1063 → truncated x = Some (a / 2 ^ 1000).
Proof.
  intros [|m e [Hm He] He'] Ha; [done|]. cbn [truncated].
  assert (Z.shiftl (Z.pos m) e = scaled m e / 2 ^ 1000) as ->.
  { unfold scaled. destruct (decide (0 <= e)).
    - rewrite Z.shiftl_mul_pow2, Z.pow_add_r, Z.mul_assoc, Z.div_mul by lia. done.
    - replace e with (- - e) at 1 by lia. rewrite Z.shiftl_opp_r, Z.shiftr_div_pow2 by lia.
      replace (2 ^ 1000) with (2 ^ (- e) * 2 ^ (e + 1000)) by (rewrite <- Z.pow_add_r by lia; f_equal; lia).
      by rewrite Z.div_mul_cancel_r by lia. }
  assert (0 <= scaled m e) by (apply Z.lt_le_incl, scaled_pos; done).
  assert (0 <= scaled m e / 2 ^ 1000 < 2 ^ 63) as [H1 H2].
  { split; [apply Z.div_pos; lia|]. apply Z.div_lt_upper_bound; [lia|]. rewrite <- Z.pow_add_r by lia. exact Ha. }
  rewrite (proj2 (Z.leb_le _ _)), (proj2 (Z.ltb_lt _ _)) by lia. done.
Qed.
