(* ===== verification/WsBackoff.v ===== *)
(** The delays between the WebSocket client's attempts to reconnect
    (src/src/protocol/websocket/software_ws_client.cpp, [BackoffFor]): a geometric
    schedule computed in [double], and that it is one: it never leaves the range of the
    integer it is cast to, never shrinks, and stays under the cap. *)
From stdpp Require Import base decidable numbers list.
From Stdlib Require Import ZArith Lia SpecFloat.
From S2P Require Import Prelude Doubles.

Record ReconnectConfig := MkReconnect {
  rc_enabled : bool;
  rc_max_retries : Z;
  rc_initial_delay : Z;
  rc_backoff_factor : spec_float;
  rc_max_delay : Z;
}.

Definition zero_point_zero : spec_float := S754_zero false.
(** [std::numeric_limits<long long>::max() / 2], as a [double] *)
Definition kMaxDelayMs : spec_float := double_of_Z ((2 ^ 63 - 1) / 2).

Fixpoint grow (attempt : nat) (factor cap delay : spec_float) : spec_float :=
  match attempt with
  | O => delay
  | S k => if SFltb delay cap then grow k factor cap (double_mul delay factor) else delay
  end.

(** [None] is a cast that has no value. *)
Definition BackoffFor (config : ReconnectConfig) (attempt : Z) : option Z :=
  let cap := clamp (double_of_Z (rc_max_delay config)) zero_point_zero kMaxDelayMs in
  let delay := clamp (double_of_Z (rc_initial_delay config)) zero_point_zero cap in
  let factor := if SFltb (float_of_Z 1) (rc_backoff_factor config)
                then double_of_float (rc_backoff_factor config) else double_of_Z 1 in
  let delay := if SFltb (double_of_Z 1) factor && SFltb zero_point_zero delay
               then grow (Z.to_nat attempt) factor cap delay else delay in
  let delay := if SFltb cap delay then cap else delay in
  truncated delay.

(** * Lemmas *)

Definition milliseconds (n : Z) : Prop := - 2 ^ 63 <= n < 2 ^ 63.

Lemma worth_kMaxDelayMs : worth kMaxDelayMs (2 ^ 1062).
Proof.
  assert (kMaxDelayMs = S754_finite false 4503599627370496 10) as -> by by_vm.
  replace (2 ^ 1062) with (scaled 4503599627370496 10) by by_vm. constructor; [split|]; lia.
Qed.

(** A [float] above one, as a [double]. *)
Definition at_least_one (f : spec_float) : Prop :=
  f = S754_infinity false ∨ ∃ m e, f = S754_finite false m e ∧ whole m e ∧ -52 <= e.

Lemma float_above_one f : valid_binary float_prec float_emax f = true → SFltb (float_of_Z 1) f = true → at_least_one (double_of_float f).
Proof.
  assert (float_of_Z 1 = S754_finite false 8388608 (-23)) as -> by by_vm.
  destruct f as [s|[]| |[] m e]; try done; [by left|]. intros Hv Hlt. right. cbn [valid_binary] in Hv.
  apply andb_prop in Hv as [Hc%Z.eqb_eq He%Z.leb_le]. unfold fexp, emin, float_prec, float_emax in *.
  unfold SFltb, SFcompare in Hlt. assert (-23 <= e) by (destruct (Z.compare_spec (-23) e); [lia|lia|done]).
  assert (Z.pos (digits2_pos m) = 24) as Hd by lia. cbn [double_of_float]. unfold binary_round, shl_align.
  rewrite Hd. assert (fexp double_prec double_emax (24 + e) - e = Z.neg 29) as ->
    by (unfold fexp, emin, double_prec, double_emax; lia).
  set (p := Pos.iter xO m 29). assert (Z.pos p = Z.pos m * 2 ^ 29) as Ep by apply (iter_xO m 29).
  pose proof (digits_size m) as Hs. rewrite Hd in Hs. cbn in Hs.
  assert (Z.pos (digits2_pos p) = 53) as Ed by (apply digits_unique; lia).
  assert (fexp double_prec double_emax (24 + e) = e - 29) as -> by (unfold fexp, emin, double_prec, double_emax; lia).
  destruct (round_whole p (e - 29)) as [[_ ?]|(m' & e' & -> & Hw & He' & _)]; [lia..|].
  exists m', e'. split_and!; [done|done|lia].
Qed.

Lemma grow_snoc n factor cap delay : grow (S n) factor cap delay =
  let x := grow n factor cap delay in if SFltb x cap then double_mul x factor else x.
Proof.
  revert delay; induction n as [|n IH]; intros delay; [done|]. cbn [grow] in *. destruct (SFltb delay cap) eqn:E; [apply IH|].
  by rewrite E.
Qed.

Lemma grow_stays n k factor cap delay : SFltb (grow n factor cap delay) cap = false →
  grow (n + k) factor cap delay = grow n factor cap delay.
Proof.
  intros E. induction k as [|k IH]; [by rewrite Nat.add_0_r|]. rewrite Nat.add_succ_r, grow_snoc, IH. cbv zeta. by rewrite E.
Qed.

(** ** The values the schedule goes through *)

(** A positive amount, or one that has outgrown the doubles ([None]). *)
Inductive amounts : spec_float → option Z → Prop :=
| amounts_infinite : amounts (S754_infinity false) None
| amounts_worth x b : worth x b → 0 < b → amounts x (Some b).

Definition at_most (c : Z) (o : option Z) : Z := match o with Some b => Z.min b c | None => c end.

Lemma amounts_capped x o cap c : amounts x o → worth cap c → worth (if SFltb cap x then cap else x) (at_most c o).
Proof.
  intros [|y b Hy Hb] Hc.
  - by destruct Hc; constructor.
  - cbn [at_most]. rewrite (ltb_worth _ _ _ _ Hc Hy). destruct (Z.ltb_spec c b); [by rewrite Z.min_r by lia|by rewrite Z.min_l by lia].
Qed.

Lemma amounts_step x o cap c factor : amounts x o → worth cap c → at_least_one factor →
  ∃ o', amounts (if SFltb x cap then double_mul x factor else x) o' ∧ at_most c o <= at_most c o'.
Proof.
  intros Hx Hc Hf. destruct Hx as [|y b Hy Hb].
  { exists None. assert (SFltb (S754_infinity false) cap = false) as -> by (by destruct Hc). split; [constructor|done]. }
  rewrite (ltb_worth _ _ _ _ Hy Hc). destruct (Z.ltb_spec b c); [|exists (Some b); by split; [constructor|]].
  destruct Hf as [->|(m & e & -> & Hw & He)].
  { exists None. split; [|cbn; lia]. destruct Hy; [done|constructor]. }
  destruct (worth_mul y b m e Hy Hb Hw He) as [->|(b' & Hb' & Hle)].
  - exists None. split; [constructor|cbn; lia].
  - exists (Some b'). split; [constructor; [done|lia]|cbn; lia].
Qed.

Definition amount_of (x : spec_float) : option Z := match x with S754_finite false m e => Some (scaled m e) | _ => None end.

Lemma amounts_is x o : amounts x o → amount_of x = o.
Proof. by intros [|y b [|m e] Hb]. Qed.

Lemma grow_amounts n delay o cap c factor : amounts delay o → worth cap c → at_least_one factor →
  amounts (grow n factor cap delay) (amount_of (grow n factor cap delay)).
Proof.
  intros Hd Hc Hf. assert (∃ v, amounts (grow n factor cap delay) v) as [v Hv]; [|by rewrite (amounts_is _ _ Hv)].
  induction n as [|n [v Hv]]; [by exists o|]. rewrite grow_snoc. cbv zeta.
  destruct (amounts_step _ _ cap c factor Hv Hc Hf) as (v' & Hv' & _). by exists v'.
Qed.

Lemma grow_monotone n delay o cap c factor : amounts delay o → worth cap c → at_least_one factor →
  at_most c (amount_of (grow n factor cap delay)) <= at_most c (amount_of (grow (S n) factor cap delay)).
Proof.
  intros Hd Hc Hf. pose proof (grow_amounts n _ _ _ _ _ Hd Hc Hf) as Hv. rewrite grow_snoc. cbv zeta.
  destruct (amounts_step _ _ cap c factor Hv Hc Hf) as (v2 & Hv2 & Hle). by rewrite (amounts_is _ _ Hv2).
Qed.

(** ** The schedule *)

Section Schedule.
Context (config : ReconnectConfig).
Context (Hinit : milliseconds (rc_initial_delay config)) (Hmax : milliseconds (rc_max_delay config)).
Context (Hfactor : valid_binary float_prec float_emax (rc_backoff_factor config) = true).

(** The amount the schedule has after [n] failures. *)
Lemma schedule_amounts : ∃ (c a : Z) (v : nat → Z),
  (∀ n, BackoffFor config n = Some (v (Z.to_nat n) / 2 ^ 1000)) ∧
  0 <= c <= 2 ^ 1062 ∧ (∀ n, 0 <= v n <= c) ∧ (∀ n, v n <= v (S n)) ∧ v O = a ∧
  (rc_max_delay config <= 2 ^ 53 → c = Z.max (rc_max_delay config) 0 * 2 ^ 1000) ∧
  (rc_initial_delay config <= 2 ^ 53 → a = Z.min (Z.max (rc_initial_delay config) 0 * 2 ^ 1000) c).
Proof.
  destruct (worth_clamp (rc_max_delay config) kMaxDelayMs (2 ^ 1062)) as (c & Hc & Hcb & Hcx); [unfold milliseconds in *; lia|apply worth_kMaxDelayMs|].
  set (cap := clamp _ _ _) in Hc.
  destruct (worth_clamp (rc_initial_delay config) cap c) as (a & Ha & Hab & Hax); [unfold milliseconds in *; lia|done|].
  set (delay := clamp _ _ cap) in Ha. exists c, a.
  assert (rc_max_delay config <= 2 ^ 53 → c = Z.max (rc_max_delay config) 0 * 2 ^ 1000) as Hcx'.
  { intros H53. rewrite Hcx by done. apply Z.min_l. change (2 ^ 1062) with (2 ^ 62 * 2 ^ 1000). apply Z.mul_le_mono_nonneg_r; lia. }
  clear Hcx. set (factor := if SFltb (float_of_Z 1) (rc_backoff_factor config) then double_of_float (rc_backoff_factor config) else double_of_Z 1).
  assert (∀ n, BackoffFor config n = truncated (let d := if SFltb (double_of_Z 1) factor && SFltb zero_point_zero delay
    then grow (Z.to_nat n) factor cap delay else delay in if SFltb cap d then cap else d)) as EB by done.
  assert (∀ x b, worth x b → b <= c → truncated x = Some (b / 2 ^ 1000)) as Ht.
  { intros x b Hx Hb. apply worth_truncated; [done|]. assert (2 ^ 1062 < 2 ^ 1063) by (apply Z.pow_lt_mono_r; lia). lia. }
  destruct (SFltb (double_of_Z 1) factor && SFltb zero_point_zero delay) eqn:Eg; cycle 1.
  { exists (λ _, a). split_and!; try done; try lia. intros n. rewrite EB. cbv zeta. rewrite (ltb_worth _ _ _ _ Hc Ha).
    rewrite (proj2 (Z.ltb_ge _ _)) by lia. apply Ht; [done|lia]. }
  apply andb_prop in Eg as [Ef Ed]. unfold zero_point_zero in Ed. rewrite (ltb_worth _ _ _ _ worth_zero Ha) in Ed. apply Z.ltb_lt in Ed.
  assert (at_least_one factor) as Hf.
  { unfold factor in *. destruct (SFltb (float_of_Z 1) _) eqn:E1; [by apply float_above_one|]. by vm_compute in Ef. }
  assert (amounts delay (Some a)) as Hd by by constructor.
  exists (λ n, at_most c (amount_of (grow n factor cap delay))).
  assert (∀ n, amounts (grow n factor cap delay) (amount_of (grow n factor cap delay))) as Ho by (intros n; by eapply grow_amounts).
  split_and!; try done; try lia.
  - intros n. rewrite EB. cbv zeta. apply Ht; [by apply amounts_capped|]. unfold at_most. case_match; lia.
  - intros n. specialize (Ho n). unfold at_most. destruct Ho; lia.
  - intros n. by eapply grow_monotone.
  - cbn [grow]. rewrite (amounts_is _ _ Hd). cbn. lia.
Qed.
End Schedule.

(** C18: the delays are a schedule. For any configuration of 64-bit counts of
    milliseconds and any [float] factor - infinite and NaN ones, and ones below one,
    included - the cast from [double] has a value after every number of failures, which
    is never negative and at most half the range of the integer; it does not shrink from
    one failure to the next; and, for counts a [double] holds exactly, it starts at the
    initial delay, cut at the cap, and never exceeds the cap. *)
Theorem backoff_schedule config :
  milliseconds (rc_initial_delay config) → milliseconds (rc_max_delay config) →
  valid_binary float_prec float_emax (rc_backoff_factor config) = true →
  ∃ v : Z → Z, (∀ attempt, BackoffFor config attempt = Some (v attempt)) ∧
    (∀ attempt, 0 <= v attempt <= 2 ^ 62) ∧
    (∀ attempt later, attempt <= later → v attempt <= v later) ∧
    (rc_max_delay config <= 2 ^ 53 → ∀ attempt, v attempt <= Z.max (rc_max_delay config) 0) ∧
    (rc_max_delay config <= 2 ^ 53 → rc_initial_delay config <= 2 ^ 53 → ∀ attempt, attempt <= 0 →
     v attempt = Z.min (Z.max (rc_initial_delay config) 0) (Z.max (rc_max_delay config) 0)).
Proof.
  intros Hinit Hmax Hf. destruct (schedule_amounts config Hinit Hmax Hf) as (c & a & v & EB & Hc & Hv & Hmono & Ha & Hcx & Hax).
  assert (0 < 2 ^ 1000) as Hpos by lia. exists (λ n, v (Z.to_nat n) / 2 ^ 1000). split_and!.
  - exact EB.
  - intros n. specialize (Hv (Z.to_nat n)). split; [apply Z.div_pos; lia|].
    apply Z.div_le_upper_bound; [done|]. change (2 ^ 1000 * 2 ^ 62) with (2 ^ 1062). lia.
  - intros n m Hle. apply Z.div_le_mono; [done|].
    assert (∀ i k, v i <= v (i + k)%nat) as Hk.
    { intros i k. induction k as [|k IH]; [by rewrite Nat.add_0_r|]. rewrite Nat.add_succ_r. etrans; [exact IH|apply Hmono]. }
    replace (Z.to_nat m) with (Z.to_nat n + (Z.to_nat m - Z.to_nat n))%nat by lia. apply Hk.
  - intros H53 n. apply Z.div_le_upper_bound; [done|]. specialize (Hv (Z.to_nat n)). rewrite (Hcx H53) in Hv. lia.
  - intros H53 Hi53 n Hn. rewrite Z2Nat.nonpos, Ha, Hax, Hcx by done. rewrite Z.mul_min_distr_nonneg_r by lia.
    apply Z.div_mul. lia.
Qed.

(** The configuration a client has when it is told nothing else. *)
Definition default_reconnect : ReconnectConfig := MkReconnect false (-1) 1000 (float_of_Z 2) 30000.

Lemma backoff_schedule_witness : ∃ v : Z → Z, BackoffFor default_reconnect 3 = Some (v 3) ∧ v 3 = 8000 ∧ v 2 <= v 3 ∧ v 1000 <= 30000.
Proof.
  destruct (backoff_schedule default_reconnect) as (v & Hv & _ & Hm & Hc & _); [unfold milliseconds; cbn; lia..|vm_compute; reflexivity|].
  exists v. split; [apply Hv|]. split; [|split; [apply Hm; lia|apply (Hc ltac:(cbn; lia))]].
  pose proof (Hv 3) as E. vm_compute in E. congruence.
Defined.

(** By default: a second, doubled at each failure, half a minute at most. *)
Lemma default_schedule attempt : 0 <= attempt → BackoffFor default_reconnect attempt = Some (Z.min (1000 * 2 ^ attempt) 30000).
Proof.
  intros H0. destruct (decide (attempt <= 5)) as [H5|H5].
  - assert (attempt = 0 ∨ attempt = 1 ∨ attempt = 2 ∨ attempt = 3 ∨ attempt = 4 ∨ attempt = 5) as Hs by lia.
    repeat destruct Hs as [->|Hs]; try subst attempt; by_vm.
  - rewrite Z.min_r; cycle 1. { assert (2 ^ 6 <= 2 ^ attempt) by (apply Z.pow_le_mono_r; lia). lia. }
    unfold BackoffFor. replace (Z.to_nat attempt) with (5 + (Z.to_nat attempt - 5))%nat by lia.
    cbn [rc_max_delay rc_initial_delay rc_backoff_factor default_reconnect]. rewrite grow_stays by by_vm. by_vm.
Qed.
