(* ===== verification/WsClient.v ===== *)
(** The WebSocket client engine
    (src/src/protocol/websocket/software_ws_client.{h,cpp}): opening and closing
    handshakes, messages and fragments, heartbeat and reconnection.

    The client is a record of the source's members. The calls of the user's
    callbacks are [told]; what a callback does when it calls back in is a further
    operation. [draining] is the source's [draining_client]: the receive thread is
    inside [DrainFrames], and what a transport delivers from inside [Send] is then
    only queued. [inbound], every byte delivered so far, is there for specifications
    only: no operation reads it.

    Deliveries inside a send may send again, so the receive path is bounded by
    fuel: [fuel] nested deliveries, and a frame loop of one iteration per buffered
    byte and [fuel] more. An operation that runs out of it stops with [OutOfFuel];
    with a transport that delivers nothing from inside [Send] one is enough. *)
From stdpp Require Import base decidable list strings gmap.
From Stdlib Require Import ZArith Ascii Lia.
From S2P Require Import Prelude Errors CommonTypes StateResult TcpTransport Platform HttpRequest WsFrame WsHandshake.
From S2P Require Import WsBackoff.

Open Scope Z_scope.

Definition kMaintainTick : Z := 200.
Definition kMaxMessageBytes : nat := Z.to_nat (64 * 1024).
Definition kCloseWait : Z := 2000.
Definition kMaxCloseReason : nat := Z.to_nat (kMaxControlPayload - 2).

(** [enum class WebSocketCloseCode : uint16_t], the codes the engine itself uses. *)
Definition kNormal : Z := 1000.
Definition kCloseProtocolError : Z := 1002.
Definition kNoStatus : Z := 1005.
Definition kAbnormalClosure : Z := 1006.
Definition kMessageTooBig : Z := 1009.

Record HeartbeatConfig := MkHeartbeat { hb_interval : Z; hb_timeout : Z; hb_enabled : bool }.
(** [SetHeader] of the code: one entry per name. *)
Definition HeaderValue (headers : list header) (name : bytes) : bytes :=
  match filter (λ h : header, to_lower h.1 = to_lower name) headers with
  | h :: _ => h.2
  | [] => []
  end.

(** The end [FitReason] backs off to: never inside a UTF-8 character. *)
Fixpoint fit_end (reason : bytes) (end_ : nat) : nat :=
  match end_ with
  | O => O
  | S k => if Z.land (b2z (nth end_ reason "000"%char)) 0xC0 =? 0x80 then fit_end reason k else end_
  end.
Definition FitReason (reason : bytes) : bytes :=
  if (length reason <=? kMaxCloseReason)%nat then reason else take (fit_end reason kMaxCloseReason) reason.

Definition ClosePayload (code : Z) (reason : bytes) : bytes :=
  if code =? kNoStatus then []
  else [z2b (Z.land (Z.shiftr code 8) 255); z2b (Z.land code 255)] ++ FitReason reason.

Definition ParseWebSocketUrl (url : bytes) : Result ParsedUrl :=
  if starts_with (lit "ws://") url then ParseUrl (lit "http://" ++ drop 5 url)
  else if starts_with (lit "wss://") url then ParseUrl (lit "https://" ++ drop 6 url)
  else Err (net_error kInvalidArgument "URL must start with ws:// or wss://").

(** * State *)

Inductive ws_state := kDisconnected | kHandshaking | kOpen.

#[export] Instance ws_state_eq_dec : EqDecision ws_state.
Proof. solve_decision. Defined.

(** The calls of [on_connected_] and the others. *)
Inductive notice :=
| NConnected
| NDisconnected (code : Z) (reason : bytes)
| NMessage (data : bytes) (binary : bool)
| NError (e : NetworkError)
| NPong (payload : bytes).

Section State.
Context {W : Type}.

Record SoftwareWsClient := MkWsClient {
  handshake_timeout_ : Z;
  state_ : ws_state;
  transport_ : bool;
  rx_buffer_ : bytes;
  headers_ : list header;
  tls_config_ : TlsConfig;
  url_ : bytes;
  user_closed_ : bool;
  heartbeat_ : HeartbeatConfig;
  reconnect_ : ReconnectConfig;
  reconnect_attempt_ : Z;
  reconnect_exhausted_ : bool;
  handshake_key_ : bytes;
  handshake_done_ : bool;
  handshake_error_ : option NetworkError;
  fragment_open_ : bool;
  fragment_binary_ : bool;
  fragment_payload_ : bytes;
  send_fragment_open_ : bool;
  close_sent_ : bool;
  maintain_running_ : bool;
  last_sent_ms_ : Z;
  ping_sent_ms_ : Z;
  connected_ : bool;
  draining : bool;
  inbound : bytes;
  told : list notice;
  world_ : W;
}.

Definition set_state (c : SoftwareWsClient) (s : ws_state) : SoftwareWsClient :=
  MkWsClient (handshake_timeout_ c) s (transport_ c) (rx_buffer_ c) (headers_ c)
    (tls_config_ c) (url_ c) (user_closed_ c) (heartbeat_ c) (reconnect_ c)
    (reconnect_attempt_ c) (reconnect_exhausted_ c) (handshake_key_ c) (handshake_done_ c)
    (handshake_error_ c) (fragment_open_ c) (fragment_binary_ c) (fragment_payload_ c)
    (send_fragment_open_ c) (close_sent_ c) (maintain_running_ c) (last_sent_ms_ c)
    (ping_sent_ms_ c) (connected_ c) (draining c) (inbound c) (told c) (world_ c).
Definition set_transport (c : SoftwareWsClient) (b : bool) : SoftwareWsClient :=
  MkWsClient (handshake_timeout_ c) (state_ c) b (rx_buffer_ c) (headers_ c) (tls_config_ c)
    (url_ c) (user_closed_ c) (heartbeat_ c) (reconnect_ c) (reconnect_attempt_ c)
    (reconnect_exhausted_ c) (handshake_key_ c) (handshake_done_ c) (handshake_error_ c)
    (fragment_open_ c) (fragment_binary_ c) (fragment_payload_ c) (send_fragment_open_ c)
    (close_sent_ c) (maintain_running_ c) (last_sent_ms_ c) (ping_sent_ms_ c) (connected_ c)
    (draining c) (inbound c) (told c) (world_ c).
Definition set_rx (c : SoftwareWsClient) (rx : bytes) : SoftwareWsClient :=
  MkWsClient (handshake_timeout_ c) (state_ c) (transport_ c) rx (headers_ c) (tls_config_
    c) (url_ c) (user_closed_ c) (heartbeat_ c) (reconnect_ c) (reconnect_attempt_ c)
    (reconnect_exhausted_ c) (handshake_key_ c) (handshake_done_ c) (handshake_error_ c)
    (fragment_open_ c) (fragment_binary_ c) (fragment_payload_ c) (send_fragment_open_ c)
    (close_sent_ c) (maintain_running_ c) (last_sent_ms_ c) (ping_sent_ms_ c) (connected_ c)
    (draining c) (inbound c) (told c) (world_ c).
Definition set_headers (c : SoftwareWsClient) (hs : list header) : SoftwareWsClient :=
  MkWsClient (handshake_timeout_ c) (state_ c) (transport_ c) (rx_buffer_ c) hs (tls_config_
    c) (url_ c) (user_closed_ c) (heartbeat_ c) (reconnect_ c) (reconnect_attempt_ c)
    (reconnect_exhausted_ c) (handshake_key_ c) (handshake_done_ c) (handshake_error_ c)
    (fragment_open_ c) (fragment_binary_ c) (fragment_payload_ c) (send_fragment_open_ c)
    (close_sent_ c) (maintain_running_ c) (last_sent_ms_ c) (ping_sent_ms_ c) (connected_ c)
    (draining c) (inbound c) (told c) (world_ c).
Definition SetTlsConfig (c : SoftwareWsClient) (config : TlsConfig) : SoftwareWsClient :=
  MkWsClient (handshake_timeout_ c) (state_ c) (transport_ c) (rx_buffer_ c) (headers_ c)
    config (url_ c) (user_closed_ c) (heartbeat_ c) (reconnect_ c) (reconnect_attempt_ c)
    (reconnect_exhausted_ c) (handshake_key_ c) (handshake_done_ c) (handshake_error_ c)
    (fragment_open_ c) (fragment_binary_ c) (fragment_payload_ c) (send_fragment_open_ c)
    (close_sent_ c) (maintain_running_ c) (last_sent_ms_ c) (ping_sent_ms_ c) (connected_ c)
    (draining c) (inbound c) (told c) (world_ c).
Definition set_url (c : SoftwareWsClient) (url : bytes) (closed : bool) : SoftwareWsClient :=
  MkWsClient (handshake_timeout_ c) (state_ c) (transport_ c) (rx_buffer_ c) (headers_ c)
    (tls_config_ c) url closed (heartbeat_ c) (reconnect_ c) (reconnect_attempt_ c)
    (reconnect_exhausted_ c) (handshake_key_ c) (handshake_done_ c) (handshake_error_ c)
    (fragment_open_ c) (fragment_binary_ c) (fragment_payload_ c) (send_fragment_open_ c)
    (close_sent_ c) (maintain_running_ c) (last_sent_ms_ c) (ping_sent_ms_ c) (connected_ c)
    (draining c) (inbound c) (told c) (world_ c).
Definition SetHeartbeat (c : SoftwareWsClient) (config : HeartbeatConfig) : SoftwareWsClient :=
  MkWsClient (handshake_timeout_ c) (state_ c) (transport_ c) (rx_buffer_ c) (headers_ c)
    (tls_config_ c) (url_ c) (user_closed_ c) config (reconnect_ c) (reconnect_attempt_ c)
    (reconnect_exhausted_ c) (handshake_key_ c) (handshake_done_ c) (handshake_error_ c)
    (fragment_open_ c) (fragment_binary_ c) (fragment_payload_ c) (send_fragment_open_ c)
    (close_sent_ c) (maintain_running_ c) (last_sent_ms_ c) (ping_sent_ms_ c) (connected_ c)
    (draining c) (inbound c) (told c) (world_ c).
Definition set_reconnect (c : SoftwareWsClient) (config : ReconnectConfig) : SoftwareWsClient :=
  MkWsClient (handshake_timeout_ c) (state_ c) (transport_ c) (rx_buffer_ c) (headers_ c)
    (tls_config_ c) (url_ c) (user_closed_ c) (heartbeat_ c) config (reconnect_attempt_ c)
    (reconnect_exhausted_ c) (handshake_key_ c) (handshake_done_ c) (handshake_error_ c)
    (fragment_open_ c) (fragment_binary_ c) (fragment_payload_ c) (send_fragment_open_ c)
    (close_sent_ c) (maintain_running_ c) (last_sent_ms_ c) (ping_sent_ms_ c) (connected_ c)
    (draining c) (inbound c) (told c) (world_ c).
Definition set_attempt (c : SoftwareWsClient) (n : Z) : SoftwareWsClient :=
  MkWsClient (handshake_timeout_ c) (state_ c) (transport_ c) (rx_buffer_ c) (headers_ c)
    (tls_config_ c) (url_ c) (user_closed_ c) (heartbeat_ c) (reconnect_ c) n
    (reconnect_exhausted_ c) (handshake_key_ c) (handshake_done_ c) (handshake_error_ c)
    (fragment_open_ c) (fragment_binary_ c) (fragment_payload_ c) (send_fragment_open_ c)
    (close_sent_ c) (maintain_running_ c) (last_sent_ms_ c) (ping_sent_ms_ c) (connected_ c)
    (draining c) (inbound c) (told c) (world_ c).
Definition set_exhausted (c : SoftwareWsClient) (b : bool) : SoftwareWsClient :=
  MkWsClient (handshake_timeout_ c) (state_ c) (transport_ c) (rx_buffer_ c) (headers_ c)
    (tls_config_ c) (url_ c) (user_closed_ c) (heartbeat_ c) (reconnect_ c)
    (reconnect_attempt_ c) b (handshake_key_ c) (handshake_done_ c) (handshake_error_ c)
    (fragment_open_ c) (fragment_binary_ c) (fragment_payload_ c) (send_fragment_open_ c)
    (close_sent_ c) (maintain_running_ c) (last_sent_ms_ c) (ping_sent_ms_ c) (connected_ c)
    (draining c) (inbound c) (told c) (world_ c).
Definition set_handshake (c : SoftwareWsClient) (key : bytes) (done : bool) (e : option NetworkError) : SoftwareWsClient :=
  MkWsClient (handshake_timeout_ c) (state_ c) (transport_ c) (rx_buffer_ c) (headers_ c)
    (tls_config_ c) (url_ c) (user_closed_ c) (heartbeat_ c) (reconnect_ c)
    (reconnect_attempt_ c) (reconnect_exhausted_ c) key done e (fragment_open_ c)
    (fragment_binary_ c) (fragment_payload_ c) (send_fragment_open_ c) (close_sent_ c)
    (maintain_running_ c) (last_sent_ms_ c) (ping_sent_ms_ c) (connected_ c) (draining c)
    (inbound c) (told c) (world_ c).
Definition set_fragment (c : SoftwareWsClient) (open : bool) (binary : bool) (payload : bytes) : SoftwareWsClient :=
  MkWsClient (handshake_timeout_ c) (state_ c) (transport_ c) (rx_buffer_ c) (headers_ c)
    (tls_config_ c) (url_ c) (user_closed_ c) (heartbeat_ c) (reconnect_ c)
    (reconnect_attempt_ c) (reconnect_exhausted_ c) (handshake_key_ c) (handshake_done_ c)
    (handshake_error_ c) open binary payload (send_fragment_open_ c) (close_sent_ c)
    (maintain_running_ c) (last_sent_ms_ c) (ping_sent_ms_ c) (connected_ c) (draining c)
    (inbound c) (told c) (world_ c).
Definition set_send_fragment (c : SoftwareWsClient) (b : bool) : SoftwareWsClient :=
  MkWsClient (handshake_timeout_ c) (state_ c) (transport_ c) (rx_buffer_ c) (headers_ c)
    (tls_config_ c) (url_ c) (user_closed_ c) (heartbeat_ c) (reconnect_ c)
    (reconnect_attempt_ c) (reconnect_exhausted_ c) (handshake_key_ c) (handshake_done_ c)
    (handshake_error_ c) (fragment_open_ c) (fragment_binary_ c) (fragment_payload_ c) b
    (close_sent_ c) (maintain_running_ c) (last_sent_ms_ c) (ping_sent_ms_ c) (connected_ c)
    (draining c) (inbound c) (told c) (world_ c).
Definition set_close_sent (c : SoftwareWsClient) (b : bool) : SoftwareWsClient :=
  MkWsClient (handshake_timeout_ c) (state_ c) (transport_ c) (rx_buffer_ c) (headers_ c)
    (tls_config_ c) (url_ c) (user_closed_ c) (heartbeat_ c) (reconnect_ c)
    (reconnect_attempt_ c) (reconnect_exhausted_ c) (handshake_key_ c) (handshake_done_ c)
    (handshake_error_ c) (fragment_open_ c) (fragment_binary_ c) (fragment_payload_ c)
    (send_fragment_open_ c) b (maintain_running_ c) (last_sent_ms_ c) (ping_sent_ms_ c)
    (connected_ c) (draining c) (inbound c) (told c) (world_ c).
Definition set_running (c : SoftwareWsClient) (b : bool) : SoftwareWsClient :=
  MkWsClient (handshake_timeout_ c) (state_ c) (transport_ c) (rx_buffer_ c) (headers_ c)
    (tls_config_ c) (url_ c) (user_closed_ c) (heartbeat_ c) (reconnect_ c)
    (reconnect_attempt_ c) (reconnect_exhausted_ c) (handshake_key_ c) (handshake_done_ c)
    (handshake_error_ c) (fragment_open_ c) (fragment_binary_ c) (fragment_payload_ c)
    (send_fragment_open_ c) (close_sent_ c) b (last_sent_ms_ c) (ping_sent_ms_ c)
    (connected_ c) (draining c) (inbound c) (told c) (world_ c).
Definition set_last_sent (c : SoftwareWsClient) (t : Z) : SoftwareWsClient :=
  MkWsClient (handshake_timeout_ c) (state_ c) (transport_ c) (rx_buffer_ c) (headers_ c)
    (tls_config_ c) (url_ c) (user_closed_ c) (heartbeat_ c) (reconnect_ c)
    (reconnect_attempt_ c) (reconnect_exhausted_ c) (handshake_key_ c) (handshake_done_ c)
    (handshake_error_ c) (fragment_open_ c) (fragment_binary_ c) (fragment_payload_ c)
    (send_fragment_open_ c) (close_sent_ c) (maintain_running_ c) t (ping_sent_ms_ c)
    (connected_ c) (draining c) (inbound c) (told c) (world_ c).
Definition set_ping_sent (c : SoftwareWsClient) (t : Z) : SoftwareWsClient :=
  MkWsClient (handshake_timeout_ c) (state_ c) (transport_ c) (rx_buffer_ c) (headers_ c)
    (tls_config_ c) (url_ c) (user_closed_ c) (heartbeat_ c) (reconnect_ c)
    (reconnect_attempt_ c) (reconnect_exhausted_ c) (handshake_key_ c) (handshake_done_ c)
    (handshake_error_ c) (fragment_open_ c) (fragment_binary_ c) (fragment_payload_ c)
    (send_fragment_open_ c) (close_sent_ c) (maintain_running_ c) (last_sent_ms_ c) t
    (connected_ c) (draining c) (inbound c) (told c) (world_ c).
Definition set_connected (c : SoftwareWsClient) (b : bool) : SoftwareWsClient :=
  MkWsClient (handshake_timeout_ c) (state_ c) (transport_ c) (rx_buffer_ c) (headers_ c)
    (tls_config_ c) (url_ c) (user_closed_ c) (heartbeat_ c) (reconnect_ c)
    (reconnect_attempt_ c) (reconnect_exhausted_ c) (handshake_key_ c) (handshake_done_ c)
    (handshake_error_ c) (fragment_open_ c) (fragment_binary_ c) (fragment_payload_ c)
    (send_fragment_open_ c) (close_sent_ c) (maintain_running_ c) (last_sent_ms_ c)
    (ping_sent_ms_ c) b (draining c) (inbound c) (told c) (world_ c).
Definition set_draining (c : SoftwareWsClient) (b : bool) : SoftwareWsClient :=
  MkWsClient (handshake_timeout_ c) (state_ c) (transport_ c) (rx_buffer_ c) (headers_ c)
    (tls_config_ c) (url_ c) (user_closed_ c) (heartbeat_ c) (reconnect_ c)
    (reconnect_attempt_ c) (reconnect_exhausted_ c) (handshake_key_ c) (handshake_done_ c)
    (handshake_error_ c) (fragment_open_ c) (fragment_binary_ c) (fragment_payload_ c)
    (send_fragment_open_ c) (close_sent_ c) (maintain_running_ c) (last_sent_ms_ c)
    (ping_sent_ms_ c) (connected_ c) b (inbound c) (told c) (world_ c).
Definition set_inbound (c : SoftwareWsClient) (bs : bytes) : SoftwareWsClient :=
  MkWsClient (handshake_timeout_ c) (state_ c) (transport_ c) (rx_buffer_ c) (headers_ c)
    (tls_config_ c) (url_ c) (user_closed_ c) (heartbeat_ c) (reconnect_ c)
    (reconnect_attempt_ c) (reconnect_exhausted_ c) (handshake_key_ c) (handshake_done_ c)
    (handshake_error_ c) (fragment_open_ c) (fragment_binary_ c) (fragment_payload_ c)
    (send_fragment_open_ c) (close_sent_ c) (maintain_running_ c) (last_sent_ms_ c)
    (ping_sent_ms_ c) (connected_ c) (draining c) bs (told c) (world_ c).
Definition set_told (c : SoftwareWsClient) (ns : list notice) : SoftwareWsClient :=
  MkWsClient (handshake_timeout_ c) (state_ c) (transport_ c) (rx_buffer_ c) (headers_ c)
    (tls_config_ c) (url_ c) (user_closed_ c) (heartbeat_ c) (reconnect_ c)
    (reconnect_attempt_ c) (reconnect_exhausted_ c) (handshake_key_ c) (handshake_done_ c)
    (handshake_error_ c) (fragment_open_ c) (fragment_binary_ c) (fragment_payload_ c)
    (send_fragment_open_ c) (close_sent_ c) (maintain_running_ c) (last_sent_ms_ c)
    (ping_sent_ms_ c) (connected_ c) (draining c) (inbound c) ns (world_ c).
Definition set_world (c : SoftwareWsClient) (w : W) : SoftwareWsClient :=
  MkWsClient (handshake_timeout_ c) (state_ c) (transport_ c) (rx_buffer_ c) (headers_ c)
    (tls_config_ c) (url_ c) (user_closed_ c) (heartbeat_ c) (reconnect_ c)
    (reconnect_attempt_ c) (reconnect_exhausted_ c) (handshake_key_ c) (handshake_done_ c)
    (handshake_error_ c) (fragment_open_ c) (fragment_binary_ c) (fragment_payload_ c)
    (send_fragment_open_ c) (close_sent_ c) (maintain_running_ c) (last_sent_ms_ c)
    (ping_sent_ms_ c) (connected_ c) (draining c) (inbound c) (told c) w.


Definition new_ws_client (handshake_timeout : Z) (w : W) : SoftwareWsClient :=
  MkWsClient handshake_timeout kDisconnected false [] [] default_tls [] false (MkHeartbeat 0 0 false)
    default_reconnect 0 false [] false None false false [] false false false 0 0 false false [] [] w.

Definition SetHeader (c : SoftwareWsClient) (key value : bytes) : SoftwareWsClient :=
  set_headers c (set_header (headers_ c) key value).

Definition SetAutoReconnect (c : SoftwareWsClient) (config : ReconnectConfig) : SoftwareWsClient :=
  set_exhausted (set_attempt (set_reconnect c config) 0) false.

Definition tell (n : notice) (c : SoftwareWsClient) : SoftwareWsClient := set_told c (told c ++ [n]).
End State.
Arguments SoftwareWsClient : clear implicits.

Inductive halted := OutOfFuel.

Section Client.
Context {W : Type} `{ITransport W} `{IPlatform W} (sm : size_model).
Local Abbreviation client := (SoftwareWsClient W).
Local Abbreviation act := (op client halted).

Definition ReportError (e : NetworkError) : act unit := modify (tell (NError e)).

(** [platform::Now] and [platform::RandomUint32]. *)
Definition now : act Z := gets (λ c, now_ms (world_ c)).
Definition random : act Z := λ c, let '(w, v) := random32 (world_ c) in (set_world c w, Ok v).
Definition sleep (ms : Z) : act unit := modify (λ c, set_world c (sleep_ms ms (world_ c))).
Definition stamp_sent : act unit := let! t := now in modify (λ c, set_last_sent c t).

Definition reset_connection (c : client) : client :=
  let c := set_state c kDisconnected in
  let c := set_transport c false in
  let c := set_rx c [] in
  let c := set_fragment c false false [] in
  let c := set_send_fragment c false in
  let c := set_close_sent c false in
  set_ping_sent c 0.

Definition Teardown (code : Z) (reason : bytes) : act unit :=
  let! c := gets id in
  let was_open := bool_decide (state_ c = kOpen) && transport_ c in
  modify reset_connection ;;;
  (if transport_ c then modify (λ c, set_world c (tcp_disconnect (world_ c))) else ret ()) ;;;
  if was_open then modify (λ c, tell (NDisconnected code reason) (set_connected c false)) else ret ().

(** * The receive path *)

Section Receive.
(** How what arrives inside a send is delivered. *)
Context (deliver : list tcp_event → act unit) (extra : nat).

Definition transport_send (data : bytes) : act (Result Z) := λ c,
  let '(w, evs, r) := tcp_send data (world_ c) in (deliver evs ;;; ret r) (set_world c w).

Definition SendFrame (opcode : WsOpcode) (payload : bytes) (fin : bool) : act (Result unit) :=
  let! key := random in
  match EncodeFrame opcode payload fin (Some key) with
  | Err e => ret (Err e)
  | Ok encoded =>
      let! c := gets id in
      if negb (transport_ c) then ret (Err (net_error kNotConnected "not connected")) else
      let! result := transport_send encoded in
      match result with
      | Err e => ret (Err e)
      | Ok _ => stamp_sent ;;; ret (Ok ())
      end
  end.

Definition SendPing (payload : bytes) : act (Result unit) :=
  let! sent := SendFrame kPing payload true in
  match sent with
  | Err e => ret (Err e)
  | Ok _ => let! t := now in modify (λ c, set_ping_sent c t) ;;; ret (Ok ())
  end.

Definition SendCloseFrame (code : Z) (reason : bytes) : act bool :=
  let! c := gets id in
  if negb (bool_decide (state_ c = kOpen)) then ret false else
  modify (λ c, set_close_sent c true) ;;;
  if negb (transport_ c) then ret false else
  let! key := random in
  match EncodeFrame kClose (ClosePayload code reason) true (Some key) with
  | Ok encoded => transport_send encoded ;;; stamp_sent ;;; ret true
  | Err _ => ret true
  end.

Definition Fail (error : NetworkError) (close_code : Z) (reason : bytes) : act unit :=
  ReportError error ;;;
  SendCloseFrame close_code reason ;;;
  Teardown close_code reason.

(** What a data frame comes to. *)
Inductive data_outcome :=
| DNothing
| DViolation (violation : bytes) (too_big : bool)
| DDeliver (message : bytes) (binary : bool).

Definition take_data_frame (c : client) (frame : WsFrame) : client * data_outcome :=
  let continuation := bool_decide (f_opcode frame = kContinuation) in
  if continuation && negb (fragment_open_ c) then
    (c, DViolation (lit "a continuation frame arrived with no message to continue") false)
  else if negb continuation && fragment_open_ c then
    (c, DViolation (lit "a new message started before the last one finished") false)
  else if continuation then
    let payload := fragment_payload_ c ++ f_payload frame in
    if (kMaxMessageBytes <? length payload)%nat then
      (set_fragment c true (fragment_binary_ c) payload,
       DViolation (lit "a fragmented message exceeds the size limit") true)
    else if f_fin frame then
      (set_fragment c false (fragment_binary_ c) [], DDeliver payload (fragment_binary_ c))
    else (set_fragment c true (fragment_binary_ c) payload, DNothing)
  else if f_fin frame then (c, DDeliver (f_payload frame) (bool_decide (f_opcode frame = kBinary)))
  else (set_fragment c true (bool_decide (f_opcode frame = kBinary)) (f_payload frame), DNothing).

Definition HandleDataFrame (frame : WsFrame) : act unit :=
  let! c := gets id in
  let '(c, outcome) := take_data_frame c frame in
  modify (λ _, c) ;;;
  match outcome with
  | DNothing => ret ()
  | DViolation violation too_big =>
      Fail (MkNetworkError (if too_big then kBufferOverflow else kProtocolError) 0 violation)
        (if too_big then kMessageTooBig else kCloseProtocolError)
        (if too_big then lit "message too big" else violation)
  | DDeliver message binary => modify (tell (NMessage message binary))
  end.

Definition HandleCloseFrame (payload : bytes) : act unit :=
  match payload with
  | [_] =>
      Fail (net_error kProtocolError "a close frame carries a single byte, which cannot be a status code")
        kCloseProtocolError (lit "malformed close frame")
  | _ =>
      let '(code, reason) := match payload with
                             | a :: b :: reason => (Z.lor (Z.shiftl (b2z a) 8) (b2z b), reason)
                             | _ => (kNoStatus, [])
                             end in
      let! already_sent := gets close_sent_ in
      modify (λ c, set_close_sent c true) ;;;
      (if already_sent then ret () else SendFrame kClose payload true ;;; ret ()) ;;;
      Teardown code reason
  end.

Definition HandleControlFrame (frame : WsFrame) : act unit :=
  match f_opcode frame with
  | kPing => SendFrame kPong (f_payload frame) true ;;; ret ()
  | kPong => modify (λ c, tell (NPong (f_payload frame)) (set_ping_sent c 0))
  | kClose => HandleCloseFrame (f_payload frame)
  | _ => ret ()
  end.

Definition HandleFrame (frame : WsFrame) : act unit :=
  if IsControlOpcode (f_opcode frame) then HandleControlFrame frame else HandleDataFrame frame.

Fixpoint drain_loop (n : nat) : act unit :=
  match n with
  | O => fail OutOfFuel
  | S k =>
      let! c := gets id in
      if negb (handshake_done_ c) then ret () else
      match TakeFrame (rx_buffer_ c) with
      | kIncomplete => ret ()
      | kInvalid violation => Fail (MkNetworkError kProtocolError 0 violation) kCloseProtocolError violation
      | kReady frame rest => modify (λ c, set_rx c rest) ;;; HandleFrame frame ;;; drain_loop k
      end
  end.

Definition DrainFrames : act unit :=
  let! c := gets id in drain_loop (S (length (rx_buffer_ c)) + extra).

Definition handshake_outcome (key head : bytes) : option NetworkError :=
  match ParseHandshakeResponse sm head with
  | Err e => Some e
  | Ok parsed =>
      if negb (hr_status parsed =? 101) then
        Some (MkNetworkError kWsHandshakeFailed (hr_status parsed)
                (lit "the server answered the upgrade with " ++ to_string (hr_status parsed)))
      else if decide (hr_accept parsed ≠ ComputeSecWebSocketAccept key) then
        Some (net_error kWsHandshakeFailed "the server's Sec-WebSocket-Accept does not match the key that was sent")
      else None
  end.

Definition ConsumeHandshakeLocked (c : client) : client :=
  match find_sub (CRLF ++ CRLF) (rx_buffer_ c) with
  | None => c
  | Some end_ =>
      let head := take (end_ + 4) (rx_buffer_ c) in
      let c := set_rx c (drop (end_ + 4) (rx_buffer_ c)) in
      set_handshake c (handshake_key_ c) true
        (match handshake_outcome (handshake_key_ c) head with
         | Some e => Some e
         | None => handshake_error_ c
         end)
  end.

Definition QueueInbound (data : bytes) : act bool :=
  modify (λ c, set_inbound (set_rx c (rx_buffer_ c ++ data)) (inbound c ++ data)) ;;;
  let! c := gets id in
  if (kMaxMessageBytes <? length (rx_buffer_ c))%nat then
    modify (λ c, set_rx c []) ;;;
    Fail (net_error kBufferOverflow "the inbound stream exceeds the buffer limit") kMessageTooBig
      (lit "message too big") ;;;
    ret false
  else
    (if handshake_done_ c then ret () else modify ConsumeHandshakeLocked) ;;;
    ret true.

Definition OnTransportData (data : bytes) : act unit :=
  let! queued := QueueInbound data in
  let! c := gets id in
  if negb queued || draining c then ret () else
  modify (λ c, set_draining c true) ;;;
  DrainFrames ;;;
  modify (λ c, set_draining c false).

Definition OnTransportClosed : act unit := Teardown kAbnormalClosure [].

(** No [OnError] callback is set. *)
Definition on_event (e : tcp_event) : act unit :=
  match e with
  | EvData data => OnTransportData data
  | EvDisconnected => OnTransportClosed
  | EvError _ => ret ()
  end.
End Receive.

Fixpoint run_all {A} (f : A → act unit) (l : list A) : act unit :=
  match l with
  | [] => ret ()
  | x :: l => f x ;;; run_all f l
  end.

Fixpoint deliver (fuel : nat) (evs : list tcp_event) : act unit :=
  match evs with
  | [] => ret ()
  | _ => match fuel with
         | O => fail OutOfFuel
         | S k => run_all (on_event (deliver k) k) evs
         end
  end.

(** * The public operations *)

Section Operations.
Context (fuel : nat).
Local Abbreviation deliver := (deliver fuel).

Definition wait_for (timeout : Z) (pred : client → bool) : act unit := λ c,
  if pred c then (c, Ok ()) else
  let '(w, evs) := await timeout (world_ c) in deliver evs (set_world c w).

Definition begin_handshake (key : bytes) (c : client) : client :=
  let c := set_handshake c key false None in
  let c := set_rx c [] in
  let c := set_fragment c false false [] in
  let c := set_send_fragment c false in
  let c := set_close_sent c false in
  set_state c kHandshaking.

(** Four words, for [MakeSecWebSocketKey]. *)
Definition random_words : act (list Z) :=
  let! a := random in let! b := random in let! c := random in let! d := random in ret [a; b; c; d].

Definition already_connected : NetworkError := net_error kAlreadyConnected "already connected".

Definition Establish (url : bytes) : act (Result unit) :=
  match ParseWebSocketUrl url with
  | Err e => ret (Err e)
  | Ok parsed =>
      let! c := gets id in
      if negb (bool_decide (state_ c = kDisconnected)) then ret (Err already_connected) else
      let headers := headers_ c in
      let tls_config := tls_config_ c in
      let given := HeaderValue headers (lit "Sec-WebSocket-Key") in
      let! words := if decide (given = []) then random_words else ret [] in
      let key := if decide (given = []) then MakeSecWebSocketKey words else given in
      modify (begin_handshake key) ;;;
      let! created := (λ c, let '(w, r) := make_transport (u_tls parsed)
                              (if u_tls parsed then tls_config else default_tls) (world_ c) in
                            (set_world c w, Ok r)) in
      match created with
      | Err e => modify (λ c, set_state c kDisconnected) ;;; ret (Err e)
      | Ok _ =>
          let! opened := (λ c, let '(w, evs, r) := tcp_connect (u_host parsed) (u_port parsed) (world_ c) in
                               (deliver evs ;;; ret r) (set_world c w)) in
          match opened with
          | Err e => modify (λ c, set_state c kDisconnected) ;;; ret (Err e)
          | Ok _ =>
              modify (λ c, set_transport c true) ;;;
              let! sent := transport_send deliver (BuildHandshakeRequest parsed key headers) in
              match sent with
              | Err e => Teardown kAbnormalClosure [] ;;; ret (Err e)
              | Ok _ =>
                  wait_for (handshake_timeout_ c) handshake_done_ ;;;
                  let! c := gets id in
                  if negb (handshake_done_ c) then
                    Teardown kAbnormalClosure [] ;;;
                    ret (Err (Timeout "the server did not answer the upgrade"))
                  else match handshake_error_ c with
                  | Some error => Teardown kAbnormalClosure [] ;;; ret (Err error)
                  | None =>
                      modify (λ c, set_connected (set_state c kOpen) true) ;;;
                      stamp_sent ;;;
                      ret (Ok ())
                  end
              end
          end
      end
  end.

(** The task itself is [MaintainTick], run while [maintain_running_]. *)
Definition StartMaintain : act unit := modify (λ c, set_running c true).
Definition StopMaintain : act unit := modify (λ c, set_running c false).

Definition Connect (url : bytes) : act (Result unit) :=
  let! c := gets id in
  if negb (bool_decide (state_ c = kDisconnected)) then ret (Err already_connected) else
  modify (λ c, set_exhausted (set_attempt (set_url c url false) 0) false) ;;;
  let! established := Establish url in
  match established with
  | Err e => ret (Err e)
  | Ok _ => StartMaintain ;;; modify (tell NConnected) ;;; ret (Ok ())
  end.

Definition Close (close_code : Z) (reason : bytes) : act unit :=
  modify (λ c, set_url c (url_ c) true) ;;;
  StopMaintain ;;;
  if close_code =? kAbnormalClosure then
    ReportError (MkNetworkError kInvalidArgument 1006 (lit "1006 describes how a connection ended and cannot be requested")) ;;;
    Teardown close_code reason
  else
  let! closing := SendCloseFrame deliver close_code reason in
  if negb closing then ret () else
  wait_for kCloseWait (λ c, negb (bool_decide (state_ c = kOpen))) ;;;
  Teardown close_code reason.

(** The buffer is [None] for a null pointer. *)
Definition SendFragment (data : option bytes) (len : Z) (binary fin : bool) : act (Result unit) :=
  if bool_decide (data = None) && negb (len =? 0) then ret (Err (net_error kInvalidArgument "no data to send")) else
  let! c := gets id in
  if negb (bool_decide (state_ c = kOpen)) then ret (Err (net_error kNotConnected "not connected")) else
  let opcode := if send_fragment_open_ c then kContinuation else if binary then kBinary else kText in
  modify (λ c, set_send_fragment c (negb fin)) ;;;
  SendFrame deliver opcode (take (Z.to_nat len) (default [] data)) fin.

Definition Send (data : bytes) (binary : bool) : act (Result unit) :=
  SendFragment (Some data) (Z.of_nat (length data)) binary true.

Definition Ping (payload : bytes) : act unit :=
  if Z.of_nat (length payload) >? kMaxControlPayload then
    ReportError (net_error kInvalidArgument "a ping payload cannot exceed 125 bytes")
  else
  let! sent := SendPing deliver payload in
  match sent with Err e => ReportError e | Ok _ => ret () end.

(** The destructor. *)
Definition destroy : act unit :=
  modify (λ c, set_url c (url_ c) true) ;;;
  StopMaintain ;;;
  SendCloseFrame deliver kNormal [] ;;;
  Teardown kAbnormalClosure [].

(** The loop of [WaitInterruptible], for so many turns at most; a wait takes as many as
    [kMaintainTick] goes into it. *)
Fixpoint wait_loop (turns : nat) (waited total : Z) : act unit :=
  let! running := gets maintain_running_ in
  match turns with
  | S k => if (waited <? total) && running then sleep kMaintainTick ;;; wait_loop k (waited + kMaintainTick) total else ret ()
  | O => ret ()
  end.
Definition wait_turns (total : Z) : nat := Z.to_nat ((total + kMaintainTick - 1) / kMaintainTick).
Definition WaitInterruptible (total : Z) : act unit := wait_loop (wait_turns total) 0 total.

(** One turn of [MaintainLoop]. *)
Definition MaintainTick : act unit :=
  let! running := gets maintain_running_ in
  if negb running then ret () else
  sleep kMaintainTick ;;;
  let! c := gets id in
  if negb (maintain_running_ c) then ret ()
  else if bool_decide (state_ c = kOpen) then
    modify (λ c, set_attempt c 0) ;;;
    let interval := hb_interval (heartbeat_ c) in
    let timeout := hb_timeout (heartbeat_ c) in
    if negb (hb_enabled (heartbeat_ c)) || (interval <=? 0) then ret () else
    let! now := now in
    if negb (ping_sent_ms_ c =? 0) then
      let deadline := (if timeout >? 0 then timeout else interval) * 1000 in
      if now - ping_sent_ms_ c >=? deadline then
        ReportError (net_error kTimeout "the peer did not answer a ping") ;;;
        Teardown kAbnormalClosure (lit "no pong from the peer")
      else ret ()
    else if now - last_sent_ms_ c >=? interval * 1000 then
      let! sent := SendPing deliver [] in
      match sent with Err e => ReportError e | Ok _ => ret () end
    else ret ()
  else if negb (bool_decide (state_ c = kDisconnected)) || negb (rc_enabled (reconnect_ c)) || user_closed_ c then ret ()
  else
    let attempt := reconnect_attempt_ c in
    if (rc_max_retries (reconnect_ c) >=? 0) && (attempt >=? rc_max_retries (reconnect_ c)) then
      if reconnect_exhausted_ c then ret () else
      modify (λ c, set_exhausted c true) ;;;
      ReportError (MkNetworkError kConnectFailed attempt
        (lit "giving up after " ++ to_string attempt ++ lit " reconnection attempts"))
    else
      from_option WaitInterruptible (ret ()) (BackoffFor (reconnect_ c) attempt) ;;;
      let! running := gets maintain_running_ in
      if negb running then ret () else
      let! established := Establish (url_ c) in
      match established with
      | Err e => modify (λ c, set_attempt c (attempt + 1)) ;;; ReportError e
      | Ok _ =>
          modify (λ c, set_exhausted (set_attempt c 0) false) ;;;
          modify (tell NConnected)
      end.
End Operations.
End Client.
