(* ===== verification/WsClientFacts.v ===== *)
(** What the WebSocket client's receive path preserves, whatever arrives and
    whatever its transport answers from inside a send. *)
From stdpp Require Import base decidable list strings gmap.
From Stdlib Require Import ZArith Ascii Lia.
From S2P Require Import Prelude Errors CommonTypes StateResult TcpTransport Platform HttpRequest WsFrame WsHandshake.
From S2P Require Import WsClient.

Section Facts.
Context {W : Type} `{ITransport W} `{IPlatform W} (sm : size_model).
Local Abbreviation client := (SoftwareWsClient W).
Local Abbreviation act := (op client halted).

(** A relation on worlds that holds across each thing the receive path does to its
    world: every world may change into every other, or a record only grow. *)
Context (R : W → W → Prop).
Record steps : Prop := {
  sp_send : ∀ data w, R w (tcp_send data w).1.1;
  sp_random : ∀ w, R w (random32 w).1;
  sp_disconnect : ∀ w, R w (tcp_disconnect w);
  sp_await : ∀ timeout w, R w (await timeout w).1;
}.

(** A property of clients kept by each of the changes the receive path makes. *)
Record stable (P : client → Prop) : Prop := {
  st_told : ∀ n c, P c → P (tell n c);
  st_world : ∀ w c, P c → R (world_ c) w → P (set_world c w);
  st_last_sent : ∀ t c, P c → P (set_last_sent c t);
  st_ping_sent : ∀ t c, P c → P (set_ping_sent c t);
  st_close_sent : ∀ b c, P c → P (set_close_sent c b);
  st_draining : ∀ b c, P c → P (set_draining c b);
  st_disconnected : ∀ c, P c → P (set_connected c false);
  st_reset : ∀ c, P c → P (reset_connection c);
  st_fragment : ∀ f c, P c → P (take_data_frame c f).1;
  st_overflow : ∀ c, P c → P (set_rx c []);
  st_frame : ∀ f rest c, P c → handshake_done_ c = true → TakeFrame (rx_buffer_ c) = kReady f rest → P (set_rx c rest);
  st_arrival : ∀ data c, P c → P (set_inbound (set_rx c (rx_buffer_ c ++ data)) (inbound c ++ data));
  st_handshake : ∀ c, P c → handshake_done_ c = false → P (ConsumeHandshakeLocked sm c);
}.

Section Keeps.
Context (P : client → Prop) (HP : stable P) (HR : steps).

Let p_told := st_told P HP.
Let p_world := st_world P HP.
Let p_last_sent := st_last_sent P HP.
Let p_ping_sent := st_ping_sent P HP.
Let p_close_sent := st_close_sent P HP.
Let p_draining := st_draining P HP.
Let p_disconnected := st_disconnected P HP.
Let p_reset := st_reset P HP.
Let p_fragment := st_fragment P HP.
Let p_overflow := st_overflow P HP.
Let p_arrival := st_arrival P HP.
Let p_handshake := st_handshake P HP.
Hint Resolve p_told p_world p_last_sent p_ping_sent p_close_sent p_draining p_disconnected p_reset p_fragment p_overflow p_arrival p_handshake : core.

Ltac prim := intros; first
  [ apply keeps_ret | apply keeps_fail | apply keeps_gets | apply keeps_of_result
  | apply keeps_modify; intros; eauto 3 ].

Lemma keeps_now : keeps P now.
Proof. apply keeps_gets. Qed.

Lemma keeps_random : keeps P random.
Proof.
  intros c Hc. pose proof (sp_random HR (world_ c)) as Hr. unfold random.
  destruct (random32 (world_ c)). exact (p_world _ _ Hc Hr).
Qed.

Lemma keeps_stamp_sent : keeps P stamp_sent.
Proof. apply keeps_bind; [apply keeps_now|]. intros t. prim. Qed.

Lemma keeps_ReportError e : keeps P (ReportError e).
Proof. prim. Qed.

Lemma keeps_Teardown code reason : keeps P (Teardown code reason).
Proof.
  unfold Teardown. apply keeps_bind; [prim|]. intros c. apply keeps_bind; [prim|]. intros _.
  pose proof (sp_disconnect HR). apply keeps_bind; [destruct (transport_ c); prim|]. intros _.
  destruct (_ && _); [|prim]. prim.
Qed.

Section Handlers.
Context (dl : list tcp_event → act unit) (extra : nat) (Hdl : ∀ evs, keeps P (dl evs)).

Lemma keeps_transport_send data : keeps P (transport_send dl data).
Proof.
  intros c Hc. unfold transport_send. pose proof (sp_send HR data (world_ c)) as Hr.
  destruct (tcp_send data (world_ c)) as [[w evs] r]. apply (keeps_bind P (dl evs)); [done|prim|auto].
Qed.

Lemma keeps_SendFrame opcode payload fin : keeps P (SendFrame dl opcode payload fin).
Proof.
  apply keeps_bind; [apply keeps_random|]. intros key. destruct (EncodeFrame _ _ _ _); [|prim].
  apply keeps_bind; [prim|]. intros c. destruct (negb _); [prim|].
  apply keeps_bind; [apply keeps_transport_send|]. intros [n|e]; [|prim].
  apply keeps_bind; [apply keeps_stamp_sent|prim].
Qed.

Lemma keeps_SendPing payload : keeps P (SendPing dl payload).
Proof.
  apply keeps_bind; [apply keeps_SendFrame|]. intros [[]|e]; [|prim].
  apply keeps_bind; [apply keeps_now|]. intros t. apply keeps_bind; prim.
Qed.

Lemma keeps_SendCloseFrame code reason : keeps P (SendCloseFrame dl code reason).
Proof.
  apply keeps_bind; [prim|]. intros c. destruct (negb _); [prim|]. apply keeps_bind; [prim|]. intros _.
  destruct (negb _); [prim|]. apply keeps_bind; [apply keeps_random|]. intros key.
  destruct (EncodeFrame _ _ _ _); [|prim].
  apply keeps_bind; [apply keeps_transport_send|]. intros _. apply keeps_bind; [apply keeps_stamp_sent|prim].
Qed.

Lemma keeps_Fail e code reason : keeps P (Fail dl e code reason).
Proof.
  apply keeps_bind; [apply keeps_ReportError|]. intros _.
  apply keeps_bind; [apply keeps_SendCloseFrame|]. intros _. apply keeps_Teardown.
Qed.

Lemma keeps_HandleDataFrame frame : keeps P (HandleDataFrame dl frame).
Proof.
  intros c Hc. unfold HandleDataFrame, bind, gets. cbn. pose proof (st_fragment P HP frame c Hc) as Hf.
  destruct (take_data_frame c frame) as [c' o]. cbn in *.
  destruct o as [|v b|m b]; [done|by apply keeps_Fail|exact (p_told _ _ Hf)].
Qed.

Lemma keeps_HandleCloseFrame payload : keeps P (HandleCloseFrame dl payload).
Proof.
  unfold HandleCloseFrame.
  assert (∀ code reason, keeps P (let! already_sent := gets close_sent_ in
      modify (λ c, set_close_sent c true) ;;;
      (if already_sent then ret () else SendFrame dl kClose payload true ;;; ret ()) ;;;
      Teardown code reason)) as Hr.
  { intros code reason. apply keeps_bind; [prim|]. intros b. apply keeps_bind; [prim|]. intros _.
    apply keeps_bind; [|intros _; apply keeps_Teardown].
    destruct b; [prim|]. apply keeps_bind; [apply keeps_SendFrame|prim]. }
  destruct payload as [|a [|b s]]; [apply Hr|apply keeps_Fail|apply Hr].
Qed.

Lemma keeps_HandleFrame frame : keeps P (HandleFrame dl frame).
Proof.
  unfold HandleFrame. destruct (IsControlOpcode _); [|apply keeps_HandleDataFrame].
  unfold HandleControlFrame. destruct (f_opcode frame); try prim.
  - apply keeps_HandleCloseFrame.
  - apply keeps_bind; [apply keeps_SendFrame|prim].
Qed.

Lemma keeps_drain_loop n : keeps P (drain_loop dl n).
Proof.
  induction n as [|k IH]; [apply keeps_fail|]. apply keeps_by_wp. intros c Hc. cbn [drain_loop]. wp_run.
  change (id c) with c. destruct (handshake_done_ c) eqn:Ed; cbn [negb]; [|by wp_run].
  destruct (TakeFrame (rx_buffer_ c)) as [|frame rest|v] eqn:Et; [by wp_run| |by apply wp_keeps; [apply keeps_Fail|]].
  wp_run. pose proof (st_frame P HP _ _ c Hc Ed Et) as Hc1.
  eapply wp_mono; [apply wp_keeps; [apply keeps_HandleFrame|exact Hc1]|]. intros [[]|] c2 H2; [|done].
  by apply wp_keeps.
Qed.

Lemma keeps_QueueInbound data : keeps P (QueueInbound sm dl data).
Proof.
  apply keeps_by_wp. intros c Hc. unfold QueueInbound. wp_run. apply (p_arrival data) in Hc.
  set (c1 := set_inbound _ _) in *. change (id c1) with c1. clearbody c1. destruct (_ <? _)%nat.
  - wp_run. eapply wp_mono; [apply wp_keeps; [apply keeps_Fail|by apply p_overflow]|].
    intros [[]|] c2 H2; by wp_run.
  - wp_run. destruct (handshake_done_ c1) eqn:Ed; wp_run; [done|]. by apply p_handshake.
Qed.

Lemma keeps_OnTransportData data : keeps P (OnTransportData sm dl extra data).
Proof.
  apply keeps_bind; [apply keeps_QueueInbound|]. intros b. apply keeps_bind; [prim|]. intros c.
  destruct (_ || _); [prim|]. apply keeps_bind; [prim|]. intros _.
  apply keeps_bind; [|prim]. apply keeps_bind; [prim|]. intros c'. apply keeps_drain_loop.
Qed.

Lemma keeps_on_event e : keeps P (on_event sm dl extra e).
Proof. destruct e; [apply keeps_OnTransportData|apply keeps_Teardown|apply keeps_ret]. Qed.
End Handlers.

Lemma keeps_run_all {A} (f : A → act unit) l : (∀ x, keeps P (f x)) → keeps P (run_all f l).
Proof. intros Hf. induction l as [|x l IH]; [apply keeps_ret|]. by apply keeps_bind. Qed.

Lemma keeps_deliver fuel evs : keeps P (deliver sm fuel evs).
Proof.
  revert evs; induction fuel as [|k IH]; intros [|e evs]; try apply keeps_ret; [apply keeps_fail|].
  cbn [deliver]. apply keeps_run_all. intros e'. by apply keeps_on_event.
Qed.

Lemma keeps_wait_for fuel timeout pred : keeps P (wait_for sm fuel timeout pred).
Proof.
  intros c Hc. unfold wait_for. destruct (pred c); [done|]. pose proof (sp_await HR timeout (world_ c)) as Hr.
  destruct (await timeout (world_ c)) as [w evs].
  apply keeps_deliver; auto.
Qed.
End Keeps.
End Facts.
