(* ===== verification/WsConnect.v ===== *)
(** The opening handshake: a connection is reported open only after the server
    has proved, in bytes that arrived after the request, that it read the key. *)
From stdpp Require Import base decidable list strings gmap.
From Stdlib Require Import ZArith Ascii Lia.
From S2P Require Import Prelude Errors CommonTypes StateResult TcpTransport Platform HttpParser HttpRequest WsFrame.
From S2P Require Import WsHandshake WsClient WsClientFacts.

Section Connect.
Context {W0 : Type} `{ITransport W0} `{IPlatform W0} (sm : size_model).
Local Abbreviation W := (W0 * list action)%type.
Local Abbreviation client := (SoftwareWsClient W).
Implicit Types c : client.

(** * Specification vocabulary *)

Definition log c : list action := (world_ c).2.

(** Somewhere in the stream is a response head that accepts the upgrade under
    this key. *)
Definition verified (key stream : bytes) : Prop :=
  ∃ a head b, stream = a ++ head ++ b ∧
    ParseHandshakeResponse sm head = Ok (MkHandshakeResponse 101 (ComputeSecWebSocketAccept key)).

(** A handshake under way or over, [base] having arrived before it began. *)
Definition shaking (base key : bytes) c : Prop :=
  handshake_key_ c = key ∧ ∃ s, inbound c = base ++ s ∧
    if handshake_done_ c then handshake_error_ c = None → verified key s
    else handshake_error_ c = None ∧ ∃ a, s = a ++ rx_buffer_ c.

Definition grows (w w' : W) : Prop := w.2 `prefix_of` w'.2.

(** * Lemmas *)

Lemma recorded_steps : steps grows.
Proof.
  split.
  - intros data [w l]. cbn. destruct (tcp_send data w) as [[w1 evs] r]. by eexists.
  - intros [w l]. exists []. cbn. rewrite app_nil_r. by destruct (random32 w).
  - intros [w l]. by eexists.
  - intros timeout [w l]. cbn. destruct (await timeout w) as [w1 evs]. by eexists.
Qed.

Lemma handshake_outcome_None key head : handshake_outcome sm key head = None →
  ParseHandshakeResponse sm head = Ok (MkHandshakeResponse 101 (ComputeSecWebSocketAccept key)).
Proof.
  unfold handshake_outcome. destruct (ParseHandshakeResponse sm head) as [[status accept]|e]; [|done].
  cbn [hr_status hr_accept]. destruct (Z.eqb_spec status 101) as [->|]; [|done]. cbn [negb].
  case_decide; [done|]. by simplify_eq.
Qed.

Lemma shaking_stable base key L :
  stable sm grows (λ c, shaking base key c ∧ L `prefix_of` log c).
Proof.
  assert (∀ c c', shaking base key c ∧ L `prefix_of` log c → handshake_key_ c' = handshake_key_ c →
    inbound c' = inbound c → handshake_done_ c' = handshake_done_ c → handshake_error_ c' = handshake_error_ c →
    (rx_buffer_ c' = rx_buffer_ c ∨ rx_buffer_ c' = []) → log c `prefix_of` log c' →
    shaking base key c' ∧ L `prefix_of` log c') as Hsame.
  { intros c c' [[Hk (s & Hs & Hh)] HL] E1 E2 E3 E4 E5 E6. split; [|by etrans].
    split; [congruence|]. exists s. rewrite E2, E3, E4. split; [done|].
    destruct (handshake_done_ c); [done|]. destruct Hh as [He [a Ha]]. split; [done|].
    destruct E5 as [->| ->]; [by exists a|]. exists s. by rewrite app_nil_r. }
  split; try (intros; eapply Hsame; first [done|eassumption|by left|by right]).
  - intros f c Hc. unfold take_data_frame. repeat case_match; cbn [fst]; (eapply Hsame; [exact Hc|done..|by left|done]).
  - intros f rest c [[Hk (s & Hs & Hh)] HL] Hd _. split; [|done]. split; [done|]. exists s.
    split; [done|]. cbn. by rewrite Hd in *.
  - intros data c [[Hk (s & Hs & Hh)] HL]. split; [|done]. split; [done|]. exists (s ++ data).
    cbn. rewrite Hs, <- app_assoc. split; [done|]. destruct (handshake_done_ c).
    + intros He. destruct (Hh He) as (a & head & b & -> & Hp). exists a, head, (b ++ data).
      by rewrite <- !app_assoc.
    + destruct Hh as [He [a ->]]. split; [done|]. exists a. by rewrite <- app_assoc.
  - intros c [[Hk (s & Hs & Hh)] HL] Hd. unfold ConsumeHandshakeLocked. destruct (find_sub _ _) as [i|]; [|by split; [split; [|exists s]|]].
    split; [|done]. rewrite Hd in Hh. destruct Hh as [He [a Ha]]. split; [done|]. exists s.
    split; [done|]. cbn. rewrite Hk, He.
    destruct (handshake_outcome sm key _) eqn:Eo; [done|]. intros _. apply handshake_outcome_None in Eo.
    eexists a, _, _. split; [|exact Eo]. by rewrite Ha, take_drop.
Qed.

Lemma random_words_spec c : wp random_words (λ r c', ∃ ws w, r = Ok ws ∧ c' = set_world c w ∧ w.2 = log c) c.
Proof.
  unfold random_words.
  assert (∀ c, ∃ v w, random c = (set_world c w, Ok v) ∧ w.2 = log c) as Hr.
  { intros c'. unfold random. cbn. destruct (random32 (world_ c').1) as [w v]. by exists v, (w, log c'). }
  unfold wp, bind. destruct (Hr c) as (v1 & w1 & -> & E1). destruct (Hr (set_world c w1)) as (v2 & w2 & -> & E2).
  destruct (Hr (set_world (set_world c w1) w2)) as (v3 & w3 & -> & E3).
  destruct (Hr (set_world (set_world (set_world c w1) w2) w3)) as (v4 & w4 & -> & E4).
  exists [v1; v2; v3; v4], w4. split_and!; [done|done|]. rewrite E4. change (w3.2 = log c). rewrite E3. change (w2.2 = log c). by rewrite E2.
Qed.

Lemma deliver_shaking base key L fuel evs {A} (x : A) c c' r :
  shaking base key c → L `prefix_of` log c → (deliver sm fuel evs ;;; ret x) c = (c', r) →
  shaking base key c' ∧ L `prefix_of` log c'.
Proof.
  intros Hs HL E.
  assert (keeps (λ c, shaking base key c ∧ L `prefix_of` log c) (deliver sm fuel evs ;;; ret x)) as Hk.
  { apply keeps_bind; [|intros; apply keeps_ret].
    apply (keeps_deliver sm grows _ (shaking_stable base key L) recorded_steps). }
  pose proof (Hk c (conj Hs HL)) as Hc. by rewrite E in Hc.
Qed.

(** What [Establish] answers with success. *)
Definition established c c' (url : bytes) : Prop :=
  ∃ u key s pre post, ParseWebSocketUrl url = Ok u ∧
    log c' = log c ++ pre ++ ASend (BuildHandshakeRequest u key (headers_ c)) :: post ∧
    inbound c' = inbound c ++ s ∧ verified key s.

Lemma Establish_established fuel url c :
  wp (Establish sm fuel url) (λ r c', r = Ok (Ok ()) → established c c' url ∧ state_ c' = kOpen) c.
Proof.
  unfold Establish. destruct (ParseWebSocketUrl url) as [u|e] eqn:Eu; [|by wp_run]. wp_run. change (id c) with c.
  destruct (negb _); [by wp_run|]. wp_run. set (given := HeaderValue _ _).
  assert (wp (if decide (given = []) then random_words else ret [])
            (λ r c', ∃ ws w, r = Ok ws ∧ c' = set_world c w ∧ w.2 = log c) c) as Hw.
  { destruct (decide _); [apply random_words_spec|]. wp_run. exists [], (world_ c). by destruct c. }
  eapply wp_mono; [exact Hw|]. intros r c1 (ws & w1 & -> & -> & Ew1). clear Hw. wp_run.
  set (key := if decide (given = []) then _ else _). clearbody key. clear given.
  set (c2 := begin_handshake key (set_world c w1)).
  assert (shaking (inbound c) key c2 ∧ log c2 = log c) as [Hs2 El2].
  { split; [|exact Ew1]. split; [done|]. exists []. rewrite app_nil_r. split; [done|]. split; [done|]. by exists []. }
  clearbody c2. clear Ew1.
  apply wp_intro. intros c3 r E3. cbn [make_transport recorded] in E3.
  destruct (make_transport _ _ _) as [w3 r3]. injection E3 as <- <-. set (c3 := set_world c2 _).
  assert (shaking (inbound c) key c3 ∧ log c `prefix_of` log c3) as H3.
  { split; [exact Hs2|]. unfold c3, log at 2. cbn. rewrite <- El2. by eexists. }
  clearbody c3. clear El2 Hs2. destruct r3 as [[]|e]; [|by wp_run]. wp_run.
  apply wp_intro. intros c4 r E4. cbn [tcp_connect recorded] in E4.
  destruct (tcp_connect _ _ _) as [[w4 evs] r4].
  assert (shaking (inbound c) key c4 ∧ log c `prefix_of` log c4) as H4.
  { eapply deliver_shaking; [| |exact E4]; [apply H3|]. etrans; [apply H3|by eexists]. }
  clear E4 H3. destruct r as [[[]|e]|h]; [|by wp_run|done]. wp_run.
  set (req := BuildHandshakeRequest _ _ _). apply wp_intro. intros c5 r E5.
  unfold transport_send in E5. cbn [tcp_send recorded] in E5. destruct (tcp_send _ _) as [[w5 evs5] r5].
  set (L := log c4 ++ [ASend req]).
  assert (shaking (inbound c) key c5 ∧ L `prefix_of` log c5) as H5.
  { eapply deliver_shaking; [| |exact E5]; [apply H4|]. exists [AHeard evs5]. unfold L. by rewrite <- app_assoc. }
  clear E5. destruct r as [[n|e]|h]; [| |done]; wp_run.
  2: { apply wp_intro. intros c6 [[]|h] _; [by wp_run|done]. }
  eapply wp_mono.
  { apply (wp_keeps (λ d : client, shaking (inbound c) key d ∧ L `prefix_of` log d)); [|exact H5].
    apply (keeps_wait_for sm grows _ (shaking_stable (inbound c) key L) recorded_steps). }
  intros [[]|h] c6 [H6 HL6]; [|done]. wp_run. change (id c6) with c6.
  destruct (handshake_done_ c6) eqn:Ed; cbn [negb].
  2: { wp_run. apply wp_intro. intros c7 [[]|h] _; [by wp_run|done]. }
  destruct (handshake_error_ c6) eqn:Ee.
  { wp_run. apply wp_intro. intros c7 [[]|h] _; [by wp_run|done]. }
  wp_run. unfold stamp_sent, now. wp_run. intros _. split; [|done].
  destruct H6 as [_ (s & Hs & Hv)]. rewrite Ed in Hv. specialize (Hv Ee).
  destruct HL6 as [post HL6]. destruct H4 as [_ [pre Hpre]]. exists u, key, s, pre, post.
  split_and!; [done| |done|done]. change (log c6 = log c ++ pre ++ ASend req :: post).
  rewrite HL6. unfold L. by rewrite Hpre, <- !app_assoc.
Qed.

(** * Properties *)

(** C6: a WebSocket is reported open only to a server that proved it read the
    key. Whatever arrives and in whatever pieces, when [Connect] succeeds the
    upgrade request went out with a key of this connection, and the bytes that
    arrived since contain a response head of status 101 whose accept value is the
    one computed from that key. *)
Theorem Connect_verified fuel url c c' : Connect sm fuel url c = (c', Ok (Ok ())) → established c c' url.
Proof.
  intros E. refine (wp_elim _ (λ r c', r = Ok (Ok ()) → established c c' url) c c' _ _ E eq_refl). unfold Connect. wp_run.
  change (id c) with c. destruct (negb _); [by wp_run|]. wp_run.
  set (c1 := set_exhausted _ _). eapply wp_mono; [apply Establish_established|].
  intros [[[]|e]|h] c2 H2; [|by wp_run|done]. destruct (H2 eq_refl) as [He _].
  unfold StartMaintain. wp_run. intros _. exact He.
Qed.
End Connect.

(** * Witness, and a connection that ends as it opens *)

Definition sample_key : bytes := lit "dGhlIHNhbXBsZSBub25jZQ==".
Definition switching : bytes :=
  lit "HTTP/1.1 101 Switching Protocols" ++ CRLF ++ lit "Sec-WebSocket-Accept: s3pPLMBiTxaQ9kYGzzhZRbK+xOo="
  ++ CRLF ++ CRLF.

(** A client whose server answers the upgrade with these deliveries. *)
Definition sample_ws (answer : list tcp_event) : SoftwareWsClient (timed * list action) :=
  SetHeader (new_ws_client 10000 (MkTimed 1 (MkScript [Ok ()] [([], Ok ())] [([], Ok 1); ([], Ok 1)] [answer]), []))
    (lit "Sec-WebSocket-Key") sample_key.

Lemma Connect_verified_witness :
  let c := sample_ws [EvData (take 30 switching); EvData (drop 30 switching)] in
  established Size32 c (Connect Size32 1 (lit "ws://a.example/chat") c).1 (lit "ws://a.example/chat").
Proof.
  cbv zeta.
  apply (Connect_verified Size32 1 (lit "ws://a.example/chat")
    (sample_ws [EvData (take 30 switching); EvData (drop 30 switching)])).
  apply op_result. vm_compute. reflexivity.
Defined.

(** The upgrade is accepted and the connection closed in one burst. The receive
    thread has torn the connection down before the thread in [Connect] looks, which
    then marks it open: [Connect] succeeds on a client that has no transport,
    nothing is reported, a send fails, [Close] finds nothing to close, and no
    later [Connect] is possible. *)
Lemma opened_after_close :
  let m := Connect Size32 1 (lit "ws://a.example/chat") in
  let '(c1, r1) := m (sample_ws [EvData switching; EvDisconnected]) in
  let '(c2, r2) := Send Size32 1 (lit "hello") false c1 in
  let '(c3, _) := Close Size32 1 kNormal [] c2 in
  r1 = Ok (Ok ()) ∧ state_ c1 = kOpen ∧ transport_ c1 = false ∧ connected_ c1 = true ∧
  r2 = Ok (Err (net_error kNotConnected "not connected")) ∧
  state_ c3 = kOpen ∧ told c3 = [NConnected] ∧
  (m c3).2 = Ok (Err already_connected).
Proof. vm_compute. by split_and!. Qed.
