(* ===== verification/WsReceive.v ===== *)
(** What arrives over an open WebSocket: frames are handled whole and in order
    however the stream was cut, fragments are put back together, and pings are
    answered. *)
From stdpp Require Import base decidable list strings gmap.
From Stdlib Require Import ZArith Ascii Lia.
From S2P Require Import Prelude Errors CommonTypes StateResult TcpTransport Platform HttpRequest WsFrame WsHandshake.
From S2P Require Import WsClient.

(** * Specification: what a sequence of frames means (RFC 6455, 5.4 and 5.5) *)

(** A message under way: its kind and what has come of it. *)
Definition partial := option (bool * bytes).

(** One frame: the message then under way, and what the application hears. A
    frame out of place, a message over the limit and a close have no meaning
    here. *)
Definition mean_frame (under_way : partial) (f : WsFrame) : option (partial * list notice) :=
  match f_opcode f, under_way with
  | kPing, _ => Some (under_way, [])
  | kPong, _ => Some (under_way, [NPong (f_payload f)])
  | kClose, _ => None
  | kContinuation, None => None
  | kContinuation, Some (binary, sofar) =>
      let message := sofar ++ f_payload f in
      if (length message <=? kMaxMessageBytes)%nat then
        if f_fin f then Some (None, [NMessage message binary]) else Some (Some (binary, message), [])
      else None
  | _, Some _ => None
  | opcode, None =>
      let binary := bool_decide (opcode = kBinary) in
      if f_fin f then Some (None, [NMessage (f_payload f) binary])
      else Some (Some (binary, f_payload f), [])
  end.

Fixpoint mean (under_way : partial) (frames : list WsFrame) : option (partial * list notice) :=
  match frames with
  | [] => Some (under_way, [])
  | f :: frames =>
      '(under_way, ns) ← mean_frame under_way f;
      '(under_way, ms) ← mean under_way frames;
      Some (under_way, ns ++ ms)
  end.

Definition pings (frames : list WsFrame) : list bytes :=
  f_payload <$> filter (λ f, f_opcode f = kPing) frames.

(** [d] is a pong with that payload, masked with some key. *)
Definition pong_frame (payload d : bytes) : Prop := ∃ key, EncodeFrame kPong payload true (Some key) = Ok d.

(** [s] is [f] as a server sends it. *)
Definition server_sends (f : WsFrame) (s : bytes) : Prop :=
  Z.of_nat (length (f_payload f)) < 2 ^ 63 ∧ EncodeFrame (f_opcode f) (f_payload f) (f_fin f) None = Ok s.

(** * Lemmas: cutting the stream *)

Lemma server_sends_long f s : server_sends f s → (2 <= length s)%nat.
Proof.
  intros [_ H]. apply EncodeFrame_layout in H as [-> _]. unfold length_field.
  cbn [length app]. rewrite length_app. repeat case_match; simpl; rewrite ?length_app; simpl; lia.
Qed.

Lemma server_take f s rest : server_sends f s → TakeFrame (s ++ rest) = kReady f rest.
Proof. intros [Hl H]. destruct f. by apply TakeFrame_EncodeFrame_rest. Qed.

Lemma server_control f s : server_sends f s → IsControlOpcode (f_opcode f) = true →
  Z.of_nat (length (f_payload f)) <= 125.
Proof. intros [_ H] Hc. apply EncodeFrame_layout in H as [_ Hf]. by apply Hf. Qed.

(** A prefix of a stream of frames is some frames and less than the next one. *)
Lemma cut_frames fs ss x y : Forall2 server_sends fs ss → x ++ y = concat ss →
  ∃ fs1 fs2 ss1 ss2 rest, fs = fs1 ++ fs2 ∧ ss = ss1 ++ ss2 ∧ Forall2 server_sends fs1 ss1 ∧
    Forall2 server_sends fs2 ss2 ∧ x = concat ss1 ++ rest ∧ rest ++ y = concat ss2 ∧
    TakeFrame rest = kIncomplete ∧ (rest = [] ∨ ∃ s, s ∈ ss2 ∧ (length rest < length s)%nat).
Proof.
  intros HF. revert x; induction HF as [|f s fs ss Hs HF IH]; intros x Hx.
  { apply app_eq_nil in Hx as [-> ->]. exists [], [], [], [], []. split_and!; (done || by left). }
  cbn [concat] in Hx. destruct (decide (length s <= length x)%nat) as [Hl|Hl].
  - assert (x = s ++ drop (length s) x) as Ex.
    { rewrite <- (take_drop (length s) x) at 1. f_equal.
      apply (f_equal (take (length s))) in Hx. rewrite take_app_le, take_app_length in Hx by lia. done. }
    rewrite Ex, <- app_assoc in Hx. apply app_inv_head in Hx.
    destruct (IH _ Hx) as (fs1 & fs2 & ss1 & ss2 & rest & -> & -> & H1 & H2 & Ex' & Hr & Ht & Hd).
    exists (f :: fs1), fs2, (s :: ss1), ss2, rest. cbn [concat]. rewrite Ex, Ex', <- app_assoc.
    split_and!; try done. by constructor.
  - exists [], (f :: fs), [], (s :: ss), x. split_and!; try done.
    + by constructor.
    + destruct Hs as [Hp He]. eapply (TakeFrame_strict_prefix _ _ _ s x (drop (length x) s)); [done|done| |].
      * rewrite <- (take_drop (length x) s) at 1. f_equal.
        apply (f_equal (take (length x))) in Hx. rewrite take_app_length, take_app_le in Hx by lia. done.
      * intros E. apply (f_equal length) in E. rewrite length_drop in E. simpl in E. lia.
    + right. exists s. split; [apply elem_of_cons; by left|lia].
Qed.

Section Receive.
Context {W0 : Type} `{ITransport W0} `{IPlatform W0} (sm : size_model).
Local Abbreviation W := (W0 * list action)%type.
Local Abbreviation client := (SoftwareWsClient W).
Local Abbreviation act := (op client halted).
Implicit Types c : client.

(** A transport that delivers nothing from inside [Send]. *)
Definition quiet : Prop := ∀ data (w : W0), (tcp_send data w).1.2 = [].

(** An open connection with this message under way. *)
Definition receiving c (under_way : partial) : Prop :=
  state_ c = kOpen ∧ transport_ c = true ∧ handshake_done_ c = true ∧
  match under_way with
  | None => fragment_open_ c = false
  | Some (binary, sofar) =>
      fragment_open_ c = true ∧ fragment_binary_ c = binary ∧ fragment_payload_ c = sofar
  end.

(** [c'] has since told the application [ns] and sent pongs for [ps]; whether a close
    has been sent is as it was. *)
Definition answered c c' (ns : list notice) (ps : list bytes) : Prop :=
  told c' = told c ++ ns ∧ close_sent_ c' = close_sent_ c ∧
  ∃ l, (world_ c').2 = (world_ c).2 ++ l ∧ Forall2 pong_frame ps (sends l).

Lemma answered_refl c c' : told c' = told c → close_sent_ c' = close_sent_ c → (world_ c').2 = (world_ c).2 → answered c c' [] [].
Proof. intros E1 E2 E3. split; [by rewrite app_nil_r|]. split; [done|]. exists []. rewrite app_nil_r. by split. Qed.

Lemma answered_trans c c1 c2 ns1 ns2 ps1 ps2 : answered c c1 ns1 ps1 → answered c1 c2 ns2 ps2 →
  answered c c2 (ns1 ++ ns2) (ps1 ++ ps2).
Proof.
  intros (E1 & C1 & l1 & L1 & P1) (E2 & C2 & l2 & L2 & P2). split; [by rewrite E2, E1, app_assoc|]. split; [congruence|].
  exists (l1 ++ l2). rewrite L2, L1, app_assoc, sends_app. split; [done|by apply Forall2_app].
Qed.

(** * Lemmas: one frame *)

Section Handlers.
Context (Hquiet : quiet) (dl : list tcp_event → act unit) (Hdl : dl [] = ret ()).

Lemma pong_sent payload c : Z.of_nat (length payload) <= 125 → transport_ c = true →
  wp (SendFrame dl kPong payload true) (λ r c', ∃ v, r = Ok v ∧ answered c c' [] [payload] ∧
    state_ c' = state_ c ∧ transport_ c' = transport_ c ∧ handshake_done_ c' = handshake_done_ c ∧
    fragment_open_ c' = fragment_open_ c ∧ fragment_binary_ c' = fragment_binary_ c ∧
    fragment_payload_ c' = fragment_payload_ c ∧ rx_buffer_ c' = rx_buffer_ c ∧ draining c' = draining c) c.
Proof.
  intros Hp Ht. unfold SendFrame. wp_run. apply wp_intro. intros c1 r E. unfold random in E. cbn in E.
  destruct (random32 (world_ c).1) as [w1 key]. injection E as <- <-.
  assert (∃ d, EncodeFrame kPong payload true (Some key) = Ok d) as [d Hd].
  { unfold EncodeFrame. change (IsControlOpcode kPong) with true. cbn [negb andb].
    rewrite Z.gtb_ltb, (proj2 (Z.ltb_ge _ _)) by (unfold kMaxControlPayload; lia). by eexists. }
  rewrite Hd. wp_run.
  change (transport_ (id (set_world c (w1, (world_ c).2)))) with (transport_ c). rewrite Ht. cbn [negb]. wp_run.
  apply wp_intro. intros c2 r E. unfold transport_send in E. cbn [tcp_send recorded] in E.
  change (world_ (set_world c (w1, (world_ c).2))) with (w1, (world_ c).2) in E. cbn [fst snd] in E.
  pose proof (Hquiet d w1) as Hq.
  destruct (tcp_send d w1) as [[w2 evs] r2]. cbn in Hq. subst evs. rewrite Hdl in E. unfold bind, ret in E. injection E as <- <-.
  assert (answered c (set_world (set_world c (w1, (world_ c).2)) (w2, (world_ c).2 ++ [ASend d; AHeard []])) [] [payload]) as Ha.
  { split; [cbn; by rewrite app_nil_r|]. split; [done|]. exists [ASend d; AHeard []]. split; [done|]. constructor; [by exists key|constructor]. }
  destruct r2 as [n|e]; wp_run; unfold stamp_sent, now; wp_run; eexists; (split; [done|]); (split; [exact Ha|done]).
Qed.

Ltac frame_done :=
  split; [reflexivity|]; split; [unfold receiving; by split_and!|]; split; [|by split];
  first [by apply answered_refl | split; [done|]; split; [done|]; exists []; rewrite app_nil_r; by split].

Lemma HandleFrame_means f s under_way next ns c : server_sends f s → receiving c under_way →
  mean_frame under_way f = Some (next, ns) →
  wp (HandleFrame dl f) (λ r c', r = Ok () ∧ receiving c' next ∧ answered c c' ns (pings [f]) ∧
    rx_buffer_ c' = rx_buffer_ c ∧ draining c' = draining c) c.
Proof.
  intros Hs (R1 & R2 & R3 & R4) Hm. unfold HandleFrame, mean_frame in *. destruct f as [fin opcode payload].
  pose proof (server_control _ _ Hs) as Hctl. cbn [f_opcode f_payload f_fin] in *.
  destruct (decide (opcode = kPing)) as [->|Hping].
  { cbn [IsControlOpcode]. simplify_eq. unfold HandleControlFrame. cbn [f_opcode f_payload].
    change (IsControlOpcode kPing) with true in *. wp_run. eapply wp_mono; [apply pong_sent; [by apply Hctl|done]|].
    intros r c' (v & -> & Ha & E1 & E2 & E3 & E4 & E5 & E6 & E7 & E8). wp_run. split_and!; try done.
    - unfold receiving. rewrite E1, E2, E3, E4, E5, E6. by split_and!. }
  assert (pings [MkWsFrame fin opcode payload] = []) as Hnp.
  { unfold pings. rewrite filter_cons_False by done. done. }
  rewrite Hnp.
  destruct opcode; try done; cbn [IsControlOpcode bool_decide]; simplify_eq.
  - (* continuation *)
    change (IsControlOpcode kContinuation) with false. cbn iota. destruct under_way as [[binary sofar]|]; [|done].
    destruct R4 as (F1 & F2 & F3). unfold HandleDataFrame. wp_run. change (id c) with c.
    unfold take_data_frame. cbn [f_opcode f_payload f_fin]. rewrite F1, F2, F3.
    change (bool_decide (kContinuation = kContinuation)) with true. cbn [andb negb].
    destruct (Nat.leb_spec (length (sofar ++ payload)) kMaxMessageBytes) as [Hle|]; [|done].
    rewrite (proj2 (Nat.ltb_ge _ _)) by done. destruct fin; simplify_eq; wp_run; frame_done.
  - (* text *)
    change (IsControlOpcode kText) with false. cbn iota. destruct under_way as [[binary sofar]|]; [done|].
    unfold HandleDataFrame. wp_run. change (id c) with c. unfold take_data_frame. cbn [f_opcode f_payload f_fin].
    rewrite R4. change (bool_decide (kText = kContinuation)) with false. cbn [andb negb].
    destruct fin; simplify_eq; wp_run; frame_done.
  - (* binary *)
    change (IsControlOpcode kBinary) with false. cbn iota. destruct under_way as [[binary sofar]|]; [done|].
    unfold HandleDataFrame. wp_run. change (id c) with c. unfold take_data_frame. cbn [f_opcode f_payload f_fin].
    rewrite R4. change (bool_decide (kBinary = kContinuation)) with false. cbn [andb negb].
    destruct fin; simplify_eq; wp_run; frame_done.
  - (* pong *)
    change (IsControlOpcode kPong) with true. unfold HandleControlFrame. cbn [f_opcode f_payload]. wp_run.
    frame_done.
Qed.

Lemma drain_means fs ss rest under_way next ns c n : Forall2 server_sends fs ss → receiving c under_way →
  mean under_way fs = Some (next, ns) → TakeFrame rest = kIncomplete → rx_buffer_ c = concat ss ++ rest →
  (length fs < n)%nat →
  wp (drain_loop dl n) (λ r c', r = Ok () ∧ receiving c' next ∧ answered c c' ns (pings fs) ∧
    rx_buffer_ c' = rest ∧ draining c' = draining c) c.
Proof.
  intros HF. revert under_way ns c n; induction HF as [|f s fs ss Hs HF IH]; intros under_way ns c n Hr Hm Ht Hrx Hn;
    (destruct n as [|n]; [simpl in Hn; lia|]); cbn [drain_loop]; wp_run; change (id c) with c;
    rewrite (proj1 (proj2 (proj2 Hr))); cbn [negb]; rewrite Hrx; cbn [concat app].
  - rewrite Ht. cbn [mean] in Hm. simplify_eq. wp_run. split_and!; [done|done|by apply answered_refl|done|done].
  - rewrite <- app_assoc, (server_take f s) by done. wp_run. set (c1 := set_rx c _).
    cbn [mean] in Hm. destruct (mean_frame under_way f) as [[mid ns1]|] eqn:Em; [|done]. cbn [mbind option_bind] in Hm.
    destruct (mean mid fs) as [[next' ns2]|] eqn:Em2; [|done]. cbn [mbind option_bind] in Hm. simplify_eq.
    eapply wp_mono; [by apply (HandleFrame_means f s under_way mid ns1 c1)|].
    intros r c2 (-> & Hr2 & Ha2 & Hrx2 & Hd2). eapply wp_mono; [apply (IH mid ns2 c2 n); try done|].
    { simpl in Hn. lia. }
    intros r c3 (-> & Hr3 & Ha3 & Hrx3 & Hd3). split_and!; [done|done| |done|].
    + change (f :: fs) with ([f] ++ fs). unfold pings in *. rewrite filter_app, fmap_app.
      eapply answered_trans; [exact Ha2|exact Ha3].
    + by rewrite Hd3, Hd2.
Qed.

Lemma read_means data fs ss rest under_way next ns c extra : Forall2 server_sends fs ss → receiving c under_way →
  mean under_way fs = Some (next, ns) → TakeFrame rest = kIncomplete → rx_buffer_ c ++ data = concat ss ++ rest →
  (length (rx_buffer_ c ++ data) <= kMaxMessageBytes)%nat → draining c = false →
  wp (OnTransportData sm dl extra data) (λ r c', r = Ok () ∧ receiving c' next ∧ answered c c' ns (pings fs) ∧
    rx_buffer_ c' = rest ∧ draining c' = false) c.
Proof.
  intros HF Hr Hm Ht Hrx Hlen Hd. unfold OnTransportData, QueueInbound. wp_run.
  set (c1 := set_inbound _ _). change (id c1) with c1.
  change (rx_buffer_ c1) with (rx_buffer_ c ++ data). rewrite (proj2 (Nat.ltb_ge _ _)) by done. wp_run.
  change (handshake_done_ c1) with (handshake_done_ c). rewrite (proj1 (proj2 (proj2 Hr))). wp_run.
  change (id c1) with c1. change (draining c1) with (draining c). rewrite Hd. cbn [negb orb]. wp_run.
  unfold DrainFrames. wp_run. set (c2 := set_draining c1 true). change (id c2) with c2.
  eapply wp_mono; [apply (drain_means fs ss rest under_way next ns c2); try done|].
  - change (rx_buffer_ c2) with (rx_buffer_ c ++ data). rewrite Hrx, length_app.
    assert (length fs <= length (concat ss))%nat; [|lia].
    clear -HF. induction HF as [|f s fs ss Hs HF IH]; [done|]. cbn [concat length]. rewrite length_app.
    pose proof (server_sends_long f s Hs). lia.
  - intros r c3 (-> & Hr3 & Ha3 & Hrx3 & Hd3). wp_run. split_and!; try done.
Qed.
End Handlers.

Lemma mean_app under_way fs gs next ns : mean under_way (fs ++ gs) = Some (next, ns) →
  ∃ mid ns1 ns2, mean under_way fs = Some (mid, ns1) ∧ mean mid gs = Some (next, ns2) ∧ ns = ns1 ++ ns2.
Proof.
  revert under_way ns; induction fs as [|f fs IH]; intros under_way ns Hm; [by exists under_way, [], ns|].
  cbn [app mean] in *. destruct (mean_frame under_way f) as [[mid ns1]|]; [|done]. cbn [mbind option_bind] in *.
  destruct (mean mid (fs ++ gs)) as [[next' ns2]|] eqn:E; [|done]. cbn [mbind option_bind] in Hm. simplify_eq.
  destruct (IH _ _ E) as (mid' & ns3 & ns4 & -> & E2 & ->). cbn [mbind option_bind].
  eexists mid', _, ns4. split_and!; [done|done|by rewrite app_assoc].
Qed.

Lemma deliver_none k : deliver sm k [] = (ret () : act unit).
Proof. by destruct k. Qed.

Lemma reads_mean (Hquiet : quiet) k reads fs ss under_way next ns c : Forall2 server_sends fs ss →
  receiving c under_way → mean under_way fs = Some (next, ns) → rx_buffer_ c ++ concat reads = concat ss →
  TakeFrame (rx_buffer_ c) = kIncomplete → (rx_buffer_ c = [] ∨ ∃ s, s ∈ ss ∧ (length (rx_buffer_ c) < length s)%nat) →
  Forall (λ s, Forall (λ r, (length s + length r <= kMaxMessageBytes)%nat) reads) ([] :: ss) → draining c = false →
  wp (run_all (on_event sm (deliver sm k) k) (EvData <$> reads)) (λ r c', r = Ok () ∧ receiving c' next ∧
    answered c c' ns (pings fs) ∧ rx_buffer_ c' = [] ∧ draining c' = false) c.
Proof.
  revert fs ss under_way ns c; induction reads as [|d reads IH]; intros fs ss under_way ns c HF Hr Hm Hrx Ht Hrest Hlen Hd;
    cbn [fmap list_fmap run_all]; wp_run.
  - cbn [concat] in Hrx. rewrite app_nil_r in Hrx.
    assert (fs = [] ∧ rx_buffer_ c = []) as [-> Hnil].
    { destruct HF as [|f s fs ss Hs HF]; [done|]. cbn [concat] in Hrx.
      rewrite Hrx, (server_take f s) in Ht by done. done. }
    cbn [mean] in Hm. simplify_eq. split_and!; [done|done|by apply answered_refl|done|done].
  - cbn [concat] in Hrx. rewrite app_assoc in Hrx.
    destruct (cut_frames fs ss (rx_buffer_ c ++ d) (concat reads) HF Hrx)
      as (fs1 & fs2 & ss1 & ss2 & rest & -> & -> & HF1 & HF2 & Ex & Ey & Htr & Hrr).
    destruct (mean_app _ _ _ _ _ Hm) as (mid & ns1 & ns2 & Hm1 & Hm2 & ->).
    eapply wp_mono; [apply (read_means Hquiet (deliver sm k) (deliver_none k) d fs1 ss1 rest under_way mid ns1 c k); try done|].
    + rewrite length_app. apply Forall_cons in Hlen as [Hl0 Hlen]. destruct Hrest as [->|(s & Hs & Hls)].
      * apply Forall_cons in Hl0 as [Hl0 _]. simpl in *. lia.
      * pose proof (proj1 (Forall_forall _ _) Hlen s Hs) as Hl. apply Forall_cons in Hl as [Hl _]. lia.
    + intros r c1 (-> & Hr1 & Ha1 & Hrx1 & Hd1). eapply wp_mono; [apply (IH fs2 ss2 mid ns2 c1); rewrite ?Hrx1; try done|].
      * apply Forall_cons in Hlen as [Hl0 Hlen]. apply Forall_app in Hlen as [_ Hlen].
        constructor; [by apply Forall_cons in Hl0 as [_ Hl0]|]. eapply Forall_impl; [exact Hlen|].
        intros s Hl. by apply Forall_cons in Hl as [_ Hl].
      * intros r c2 (-> & Hr2 & Ha2 & Hrx2 & Hd2). split_and!; try done.
        unfold pings in *. rewrite filter_app, fmap_app. by eapply answered_trans.
Qed.

(** * Properties *)

(** C10: an open WebSocket hears exactly what the server sent. For any sequence of
    server frames that has a meaning - messages whole or in fragments, with pings
    and pongs between them - and any way its bytes are cut into deliveries, the
    application is told the messages and pongs it means, in order and each once;
    every ping has been answered with a masked pong of the same payload, in order,
    and nothing else was sent; and the connection is open with nothing left over.
    (A delivery and an undelivered frame together must fit the receive buffer; the
    transport is one that delivers nothing from inside [Send].) *)
Theorem frames_heard c frames ss reads under_way next ns fuel :
  quiet → Forall2 server_sends frames ss → receiving c under_way → mean under_way frames = Some (next, ns) →
  rx_buffer_ c = [] → draining c = false → concat reads = concat ss →
  Forall (λ s, Forall (λ r, (length s + length r <= kMaxMessageBytes)%nat) reads) ([] :: ss) →
  ∃ c', deliver sm (S fuel) (EvData <$> reads) c = (c', Ok ()) ∧
    receiving c' next ∧ answered c c' ns (pings frames) ∧ rx_buffer_ c' = [].
Proof.
  intros Hq HF Hr Hm Hrx Hd Hreads Hlen.
  assert (wp (deliver sm (S fuel) (EvData <$> reads)) (λ r c', r = Ok () ∧ receiving c' next ∧
    answered c c' ns (pings frames) ∧ rx_buffer_ c' = [] ∧ draining c' = false) c) as Hwp.
  { assert (rx_buffer_ c ++ concat reads = concat ss) as Hs by (by rewrite Hrx).
    assert (TakeFrame (rx_buffer_ c) = kIncomplete) as Ht by (by rewrite Hrx).
    pose proof (reads_mean Hq fuel reads frames ss under_way next ns c HF Hr Hm Hs Ht (or_introl Hrx) Hlen Hd) as Hp.
    by destruct reads. }
  unfold wp in Hwp. destruct (deliver sm (S fuel) _ c) as [c' r]. cbn in Hwp. destruct Hwp as (-> & H1 & H2 & H3 & _).
  by exists c'.
Qed.
End Receive.

(** A message sent in fragments means that message. *)
Lemma fragments_mean (binary : bool) (first : bytes) (rest : list bytes) (last : bytes) :
  (length (first ++ concat rest ++ last) <= kMaxMessageBytes)%nat →
  mean None (MkWsFrame false (if binary then kBinary else kText) first
             :: (MkWsFrame false kContinuation <$> rest) ++ [MkWsFrame true kContinuation last]) =
  Some (None, [NMessage (first ++ concat rest ++ last) binary]).
Proof.
  intros Hl. cbn [mean mean_frame f_opcode f_fin f_payload].
  assert (mean_frame None (MkWsFrame false (if binary then kBinary else kText) first) = Some (Some (binary, first), [])) as ->
    by (by destruct binary).
  cbn [mbind option_bind]. revert first Hl; induction rest as [|d rest IH]; intros first Hl.
  - cbn in *. rewrite (proj2 (Nat.leb_le _ _)) by done. done.
  - cbn [concat fmap list_fmap app] in *. rewrite <- (app_assoc d) in Hl. rewrite (app_assoc first) in Hl.
    cbn [mean mean_frame f_opcode f_fin f_payload].
    rewrite (proj2 (Nat.leb_le _ _)) by (rewrite length_app in Hl; lia). cbn [mbind option_bind].
    specialize (IH (first ++ d) Hl). destruct (mean (Some (binary, first ++ d)) _) as [[nx ms]|]; [|done].
    cbn [mbind option_bind] in *. rewrite <- (app_assoc d), (app_assoc first). done.
Qed.

(** A connection that has just been opened, on a transport that takes every send. *)
Definition open_ws : SoftwareWsClient (calm * list action) :=
  let c := new_ws_client 10000 (Calm, []) in
  set_state (set_transport (set_handshake c [] true None) true) kOpen.

(** A message in two fragments with a ping between them, a pong, a message. *)
Definition sample_frames : list WsFrame :=
  [MkWsFrame false kText (lit "hel"); MkWsFrame true kPing (lit "?"); MkWsFrame true kContinuation (lit "lo");
   MkWsFrame true kPong []; MkWsFrame true kBinary [zero]].

Definition as_sent (f : WsFrame) : bytes :=
  match EncodeFrame (f_opcode f) (f_payload f) (f_fin f) None with Ok s => s | Err _ => [] end.

Definition sample_stream : bytes := concat (as_sent <$> sample_frames).

Lemma frames_heard_witness :
  ∃ c', deliver Size32 1 (EvData <$> [take 1 sample_stream; take 9 (drop 1 sample_stream); drop 10 sample_stream]) open_ws
      = (c', Ok ()) ∧ receiving c' None ∧
    answered open_ws c' [NMessage (lit "hello") false; NPong []; NMessage [zero] true] [lit "?"] ∧ rx_buffer_ c' = [].
Proof.
  apply (frames_heard Size32 open_ws sample_frames (as_sent <$> sample_frames) _ None None).
  - by intros data w.
  - repeat constructor; vm_compute; reflexivity.
  - by split_and!.
  - unfold mean, sample_frames, mean_frame. reflexivity.
  - reflexivity.
  - reflexivity.
  - vm_compute. reflexivity.
  - assert (100 <= kMaxMessageBytes)%nat as Hk by (apply Nat.leb_le; reflexivity).
    repeat (apply Forall_cons_2 || apply Forall_nil_2); (etrans; [|exact Hk]); apply Nat.leb_le; vm_compute; reflexivity.
Defined.

(** [SendPing] notes the ping after the frame went out. A pong handled in between
    is heard and forgotten: the note stays, no further pong is due, and the
    heartbeat gives up a connection whose every ping was answered. *)
Lemma pong_before_mark_lost :
  let pong := as_sent (MkWsFrame true kPong (lit "?")) in
  let c := SetHeartbeat (new_ws_client 10000 (MkTimed 1000 (MkScript [] [] [([EvData pong], Ok 7)] []), []))
             (MkHeartbeat 30 10 true) in
  let c := set_running (set_state (set_transport (set_handshake c [] true None) true) kOpen) true in
  let '(c1, r1) := Ping Size32 1 (lit "?") c in
  let later := set_world c1 (MkTimed 11000 (MkScript [] [] [] []), (world_ c1).2) in
  let '(c2, r2) := MaintainTick Size32 1 later in
  r1 = Ok () ∧ told c1 = [NPong (lit "?")] ∧ state_ c1 = kOpen ∧ ping_sent_ms_ c1 = 1000 ∧
  r2 = Ok () ∧ state_ c2 = kDisconnected ∧
  told c2 = [NPong (lit "?"); NError (net_error kTimeout "the peer did not answer a ping");
             NDisconnected kAbnormalClosure (lit "no pong from the peer")].
Proof. vm_compute. by split_and!. Qed.
