(* ===== verification/WsClosing.v ===== *)
(** Closing a WebSocket: one close frame, the peer's answer heard and not answered, and
    the application told once how the connection ended. *)
From stdpp Require Import base decidable list strings gmap.
From Stdlib Require Import ZArith Ascii Lia.
From S2P Require Import Prelude Errors CommonTypes StateResult TcpTransport Platform HttpRequest WsFrame WsHandshake.
From S2P Require Import WsClient WsClientFacts WsReceive.

(** * Specification *)

(** [d] is the close frame for that code and reason, masked with some key. *)
Definition close_frame (code : Z) (reason d : bytes) : Prop :=
  ∃ key, EncodeFrame kClose (ClosePayload code reason) true (Some key) = Ok d.

(** What a close frame's payload says (RFC 6455, 5.5.1); one byte says nothing. *)
Definition farewell (payload : bytes) : option notice :=
  match payload with
  | [] => Some (NDisconnected kNoStatus [])
  | [_] => None
  | a :: b :: reason => Some (NDisconnected (Z.lor (Z.shiftl (b2z a) 8) (b2z b)) reason)
  end.

(** * Lemmas *)

Lemma fit_end_le reason n : (fit_end reason n <= n)%nat.
Proof. induction n as [|n IH]; [done|]. cbn [fit_end]. destruct (_ =? _); lia. Qed.

Lemma ClosePayload_fits code reason : Z.of_nat (length (ClosePayload code reason)) <= kMaxControlPayload.
Proof.
  assert (length (FitReason reason) <= kMaxCloseReason)%nat as Hf.
  { unfold FitReason. destruct (Nat.leb_spec (length reason) kMaxCloseReason); [done|]. rewrite length_take.
    pose proof (fit_end_le reason kMaxCloseReason). lia. }
  unfold ClosePayload. destruct (_ =? _); [done|]. rewrite length_app. cbn [length]. unfold kMaxCloseReason, kMaxControlPayload in *. lia.
Qed.

Lemma close_frame_made code reason key : ∃ d, EncodeFrame kClose (ClosePayload code reason) true (Some key) = Ok d.
Proof.
  pose proof (ClosePayload_fits code reason). unfold EncodeFrame. change (IsControlOpcode kClose) with true. cbn [negb andb].
  rewrite Z.gtb_ltb, (proj2 (Z.ltb_ge _ _)) by lia. by eexists.
Qed.

Section Closing.
Context {W0 : Type} `{ITransport W0} `{IPlatform W0} (sm : size_model).
Local Abbreviation W := (W0 * list action)%type.
Local Abbreviation client := (SoftwareWsClient W).
Local Abbreviation act := (op client halted).
Implicit Types c : client.

(** A client that is not connected, and has been told [ns] and sent [ds] since [c]. *)
Definition ended c c' (ns : list notice) (ds : list bytes) : Prop :=
  state_ c' = kDisconnected ∧ transport_ c' = false ∧ told c' = told c ++ ns ∧
  ∃ l, (world_ c').2 = (world_ c).2 ++ l ∧ sends l = ds.

Section Handlers.
Context (Hquiet : quiet (W0 := W0)) (dl : list tcp_event → act unit) (Hdl : dl [] = ret ()).

Lemma SendCloseFrame_sends code reason under_way c : receiving c under_way →
  wp (SendCloseFrame dl code reason) (λ r c', r = Ok true ∧ receiving c' under_way ∧ close_sent_ c' = true ∧
    rx_buffer_ c' = rx_buffer_ c ∧ draining c' = draining c ∧ maintain_running_ c' = maintain_running_ c ∧
    user_closed_ c' = user_closed_ c ∧ told c' = told c ∧
    ∃ d e, close_frame code reason d ∧ (world_ c').2 = (world_ c).2 ++ [ASend d; AHeard e]) c.
Proof.
  intros (R1 & R2 & R3 & R4). unfold SendCloseFrame. wp_run. change (id c) with c. rewrite R1, bool_decide_true by done.
  cbn [negb]. wp_run. rewrite R2. cbn [negb]. wp_run. apply wp_intro. intros c1 r E. unfold random in E. cbn in E.
  destruct (random32 (world_ c).1) as [w1 key]. injection E as <- <-.
  destruct (close_frame_made code reason key) as [d Hd]. rewrite Hd. wp_run. apply wp_intro. intros c2 r E.
  unfold transport_send in E. cbn [tcp_send recorded world_ set_world fst snd] in E.
  pose proof (Hquiet d w1) as Hq. destruct (tcp_send d w1) as [[w2 evs] r2]. cbn in Hq. subst evs.
  rewrite Hdl in E. unfold bind, ret in E. injection E as <- <-. wp_run. unfold stamp_sent, now. wp_run.
  split; [done|]. split; [by split_and!|]. split_and!; try done. exists d, []. split; [by exists key|done].
Qed.

Lemma Teardown_open code reason under_way c : receiving c under_way →
  wp (Teardown code reason : act unit) (λ r c', r = Ok () ∧ ended c c' [NDisconnected code reason] [] ∧
    handshake_done_ c' = true ∧ rx_buffer_ c' = [] ∧ draining c' = draining c ∧ maintain_running_ c' = maintain_running_ c ∧
    user_closed_ c' = user_closed_ c) c.
Proof.
  intros (R1 & R2 & R3 & R4). unfold Teardown. wp_run. change (id c) with c. rewrite R1, R2, bool_decide_true by done.
  cbn [andb]. wp_run. split; [done|]. split; [|by split_and!]. split_and!; try done. exists [ADisconnect]. done.
Qed.

Lemma Teardown_ended code reason c : state_ c = kDisconnected → transport_ c = false →
  wp (Teardown code reason : act unit) (λ r c', r = Ok () ∧ ended c c' [] [] ∧ maintain_running_ c' = maintain_running_ c ∧
    user_closed_ c' = user_closed_ c) c.
Proof.
  intros Hs Ht. unfold Teardown. wp_run. change (id c) with c. rewrite Hs, Ht, bool_decide_false by done. cbn [andb]. wp_run.
  split; [done|]. split; [|done]. split_and!; try done; [by rewrite app_nil_r|]. exists []. by rewrite app_nil_r.
Qed.
(** The peer's close, once ours has been sent. *)
Lemma HandleCloseFrame_ends payload n under_way c : receiving c under_way → close_sent_ c = true → farewell payload = Some n →
  wp (HandleCloseFrame dl payload) (λ r c', r = Ok () ∧ ended c c' [n] [] ∧
    handshake_done_ c' = true ∧ rx_buffer_ c' = [] ∧ draining c' = draining c ∧ maintain_running_ c' = maintain_running_ c ∧
    user_closed_ c' = user_closed_ c) c.
Proof.
  intros Hr Hs Hn. unfold HandleCloseFrame.
  destruct payload as [|a [|b reason]]; [|done|]; injection Hn as <-; wp_run; rewrite Hs; wp_run;
    by apply (Teardown_open _ _ under_way (set_close_sent c true)).
Qed.

Lemma close_heard extra payload s n under_way c : server_sends (MkWsFrame true kClose payload) s →
  (length s <= kMaxMessageBytes)%nat → receiving c under_way → close_sent_ c = true → farewell payload = Some n →
  rx_buffer_ c = [] → draining c = false →
  wp (on_event sm dl extra (EvData s)) (λ r c', r = Ok () ∧ ended c c' [n] [] ∧ maintain_running_ c' = maintain_running_ c ∧
    user_closed_ c' = user_closed_ c) c.
Proof.
  intros Hss Hl Hr Hs Hn Hrx Hd. cbn [on_event]. unfold OnTransportData, QueueInbound. wp_run. set (c1 := set_inbound _ _).
  change (id c1) with c1. assert (rx_buffer_ c1 = s) as Hrx1 by (cbn; by rewrite Hrx).
  assert (receiving c1 under_way) as Hr1 by exact Hr. assert (handshake_done_ c1 = true) as Hh1 by apply Hr.
  rewrite Hrx1, (proj2 (Nat.ltb_ge _ _)) by done. wp_run. rewrite Hh1. wp_run. change (id c1) with c1.
  change (draining c1) with (draining c). rewrite Hd. cbn [negb orb]. wp_run. unfold DrainFrames. wp_run.
  change (rx_buffer_ (id (set_draining c1 true))) with (rx_buffer_ c1). rewrite Hrx1. cbn [Nat.add drain_loop]. wp_run.
  change (handshake_done_ (id (set_draining c1 true))) with (handshake_done_ c1). rewrite Hh1. cbn [negb].
  change (rx_buffer_ (id (set_draining c1 true))) with (rx_buffer_ c1). rewrite Hrx1.
  rewrite <- (app_nil_r s), (server_take _ s []) by done. wp_run. set (c2 := set_rx _ _).
  unfold HandleFrame. cbn [f_opcode f_payload]. change (IsControlOpcode kClose) with true. cbn [HandleControlFrame f_opcode f_payload].
  eapply wp_mono; [by apply (HandleCloseFrame_ends payload n under_way c2)|]. cbv beta.
  intros r c3 (-> & (E1 & E2 & E3 & l & E4 & E5) & E6 & E7 & E8 & E9 & E10).
  pose proof (server_sends_long _ _ Hss). destruct s as [|x s]; [cbn in *; lia|]. cbn [app length Nat.add drain_loop]. wp_run.
  change (id c3) with c3. rewrite E6, E7. cbn [negb]. change (TakeFrame []) with kIncomplete. wp_run.
  split; [done|]. split; [|done]. split_and!; [done..|]. by exists l.
Qed.
End Handlers.

Lemma run_all_app {A} (f : A → act unit) l1 l2 Q c :
  wp (run_all f l1) (λ r c', match r with Ok _ => wp (run_all f l2) Q c' | Err e => Q (Err e) c' end) c →
  wp (run_all f (l1 ++ l2)) Q c.
Proof.
  revert c; induction l1 as [|x l1 IH]; intros c Hw; cbn [app run_all] in *; [exact Hw|]. apply wp_bind.
  unfold wp, bind in *. destruct (f x c) as [c1 [[]|e]]; [by apply IH|done].
Qed.

(** What arrives during a close: frames in some deliveries, and the peer's close in the
    next one, if it answers. *)
Definition heard (reads : list bytes) (reply : option bytes) : list tcp_event :=
  (EvData <$> reads) ++ match reply with Some s => [EvData s] | None => [] end.

(** The reply, what it means. *)
Definition reply_means (reply : option bytes) (unanswered n : notice) : Prop :=
  match reply with
  | Some s => ∃ payload, server_sends (MkWsFrame true kClose payload) s ∧ (length s <= kMaxMessageBytes)%nat ∧ farewell payload = Some n
  | None => n = unanswered
  end.

(** The maintenance task stays stopped whatever arrives. *)
Definition resting c : Prop := maintain_running_ c = false ∧ user_closed_ c = true.

Lemma resting_stable : stable sm (λ _ _ : W, True) resting.
Proof.
  split; try done.
  - intros f c Hc. unfold take_data_frame. by repeat case_match.
  - intros c Hc _. unfold ConsumeHandshakeLocked. by case_match.
Qed.

Lemma any_steps : steps (λ _ _ : W, True).
Proof. by split. Qed.

(** The wait for the peer's half. *)
Lemma wait_hears fuel ms frames ss reads reply under_way next ns code reason n c :
  quiet (W0 := W0) → Forall2 server_sends frames ss → receiving c under_way → mean under_way frames = Some (next, ns) →
  rx_buffer_ c = [] → draining c = false → close_sent_ c = true → concat reads = concat ss →
  Forall (λ s, Forall (λ r, (length s + length r <= kMaxMessageBytes)%nat) reads) ([] :: ss) →
  (∀ w : W0, (await ms w).2 = heard reads reply) → reply_means reply (NDisconnected code reason) n →
  wp (wait_for sm (S fuel) ms (λ c, negb (bool_decide (state_ c = kOpen))) ;;; Teardown code reason : act unit) (λ r c',
    r = Ok () ∧ state_ c' = kDisconnected ∧ transport_ c' = false ∧ told c' = told c ++ ns ++ [n] ∧
    ∃ l, (world_ c').2 = (world_ c).2 ++ l ∧ Forall2 pong_frame (pings frames) (sends l)) c.
Proof.
  intros Hq HF Hr Hm Hrx Hd Hs Hreads Hlen Hev Hn. apply wp_bind. unfold wp at 1, wait_for.
  rewrite (proj1 Hr), bool_decide_true by done. cbn [negb await recorded]. specialize (Hev (world_ c).1).
  destruct (await ms (world_ c).1) as [w1 evs]. cbn [snd] in Hev. subst evs.
  set (c1 := set_world c (w1, (world_ c).2 ++ [AHeard (heard reads reply)])).
  assert (wp (deliver sm (S fuel) (heard reads reply) ;;; Teardown code reason : act unit) (λ r c',
    r = Ok () ∧ state_ c' = kDisconnected ∧ transport_ c' = false ∧ told c' = told c ++ ns ++ [n] ∧
    ∃ l, (world_ c').2 = (world_ c).2 ++ l ∧ Forall2 pong_frame (pings frames) (sends l)) c1) as Hw.
  2: { unfold wp, bind in *. destruct (deliver sm (S fuel) _ c1) as [c2 [[]|e]]; exact Hw. }
  apply wp_bind. assert ((deliver sm (S fuel) (heard reads reply) : act unit) = run_all (on_event sm (deliver sm fuel) fuel) (heard reads reply)) as ->.
  { by destruct (heard reads reply). }
  apply run_all_app. eapply wp_mono.
  { assert (rx_buffer_ c1 = []) as Hrx1 by exact Hrx.
    by apply (reads_mean sm Hq fuel reads frames ss under_way next ns c1); rewrite ?Hrx1; try done; left. }
  cbv beta. intros r c2 (-> & Hr2 & (E1 & E2 & l & E3 & E4) & E5 & E6).
  assert (∀ c3 c4, ended c2 c3 [n] [] → ended c3 c4 [] [] → Ok (E := halted) () = Ok () ∧ state_ c4 = kDisconnected ∧ transport_ c4 = false ∧
    told c4 = told c ++ ns ++ [n] ∧ ∃ l, (world_ c4).2 = (world_ c).2 ++ l ∧ Forall2 pong_frame (pings frames) (sends l)) as Hend.
  { intros c3 c4 (F1 & F2 & F3 & l3 & F4 & F5) (G1 & G2 & G3 & l4 & G4 & G5). split_and!; [done..| |].
    - rewrite G3, F3, E1, app_nil_r, <- app_assoc. done.
    - exists ([AHeard (heard reads reply)] ++ l ++ l3 ++ l4). rewrite G4, F4, E3. split.
      { change ((world_ c1).2) with ((world_ c).2 ++ [AHeard (heard reads reply)]). by rewrite <- !app_assoc. }
      rewrite !sends_app, F5, G5, !app_nil_r. exact E4. }
  destruct reply as [s|]; cbn [run_all reply_means] in *.
  - destruct Hn as (payload & Hs1 & Hs2 & Hs3). apply wp_bind. eapply wp_mono.
    { apply (close_heard (deliver sm fuel) fuel payload s n next c2); try done. by rewrite E2. }
    cbv beta. intros r c3 (-> & He & _). wp_run. eapply wp_mono; [apply Teardown_ended; apply He|]. cbv beta.
    intros r c4 (-> & He4 & _). by apply (Hend c3).
  - subst n. wp_run. eapply wp_mono; [by apply (Teardown_open code reason next c2)|]. cbv beta.
    intros r c3 (-> & He & _). apply (Hend c3 c3); [done|]. destruct He as (? & ? & ? & ? & ? & ?). split_and!; [done..|by rewrite app_nil_r|].
    exists []. by rewrite app_nil_r.
Qed.
Lemma keeps_closing fuel ms code reason : keeps resting (wait_for sm fuel ms (λ c, negb (bool_decide (state_ c = kOpen))) ;;;
  Teardown code reason : act unit).
Proof.
  apply keeps_bind; [apply (keeps_wait_for sm _ resting resting_stable any_steps)|]. intros _.
  apply (keeps_Teardown sm _ resting resting_stable any_steps).
Qed.

(** C15: [Close] of an open connection is one closing handshake. With the peer's frames
    still coming in, in any pieces, before its own close or instead of it: one close
    frame goes out, first, with the code and the reason that fits; messages and pongs
    that were under way are still heard and pings answered; the peer's close is not
    answered with a second one; the application is told once how the connection ended,
    in the peer's words if it answered within the wait and in its own otherwise; and the
    client is disconnected, without a transport, and no turn of the maintenance task
    does anything from then on. *)
Theorem Close_handshake fuel turn_fuel frames ss reads reply under_way next ns code reason n c :
  quiet (W0 := W0) → Forall2 server_sends frames ss → receiving c under_way → mean under_way frames = Some (next, ns) →
  rx_buffer_ c = [] → draining c = false → code ≠ kAbnormalClosure → concat reads = concat ss →
  Forall (λ s, Forall (λ r, (length s + length r <= kMaxMessageBytes)%nat) reads) ([] :: ss) →
  (∀ w : W0, (await kCloseWait w).2 = heard reads reply) → reply_means reply (NDisconnected code reason) n →
  ∃ c' d l, Close sm (S fuel) code reason c = (c', Ok ()) ∧ state_ c' = kDisconnected ∧ transport_ c' = false ∧
    told c' = told c ++ ns ++ [n] ∧ (world_ c').2 = (world_ c).2 ++ ASend d :: l ∧ close_frame code reason d ∧
    Forall2 pong_frame (pings frames) (sends l) ∧ MaintainTick sm turn_fuel c' = (c', Ok ()).
Proof.
  intros Hq HF Hr Hm Hrx Hd Hcode Hreads Hlen Hev Hn.
  cut (wp (Close sm (S fuel) code reason : act unit) (λ r c', r = Ok () ∧ state_ c' = kDisconnected ∧ transport_ c' = false ∧
    told c' = told c ++ ns ++ [n] ∧ resting c' ∧ ∃ d l, (world_ c').2 = (world_ c).2 ++ ASend d :: l ∧ close_frame code reason d ∧
    Forall2 pong_frame (pings frames) (sends l)) c).
  { unfold wp. destruct (Close sm (S fuel) code reason c) as [c' r]. cbn [fst snd].
    intros (-> & H1 & H2 & H3 & [H4 _] & d & l & H5 & H6 & H7). exists c', d, l. split_and!; try done.
    unfold MaintainTick, bind, gets. change (id c') with c'. by rewrite H4. }
  unfold Close. apply wp_bind, wp_modify. apply wp_bind. unfold StopMaintain. apply wp_modify. rewrite (proj2 (Z.eqb_neq _ _)) by done.
  set (c1 := set_running _ false). apply wp_bind. eapply wp_mono.
  { apply (SendCloseFrame_sends Hq (deliver sm (S fuel))) with (c := c1); [done|exact Hr]. }
  cbv beta. intros r c2 (-> & Hr2 & Hs2 & E1 & E2 & E3 & E4 & E5 & d & e & Hdf & E6). cbn [negb].
  assert (resting c2) as Hrest by (by split; rewrite ?E3, ?E4).
  pose proof (keeps_closing (S fuel) kCloseWait code reason c2 Hrest) as Hk.
  eapply wp_intro. intros c3 r E. rewrite E in Hk. cbn [fst] in Hk.
  pose proof (wait_hears fuel kCloseWait frames ss reads reply under_way next ns code reason n c2) as Hw.
  unfold wp in Hw. rewrite E in Hw. cbn [fst snd] in Hw.
  assert (rx_buffer_ c2 = [] ∧ draining c2 = false) as [Hrx2 Hd2] by (by rewrite E1, E2).
  destruct Hw as (-> & F1 & F2 & F3 & l & F4 & F5); [done..|].
  split_and!; try done; [by rewrite F3, E5|]. exists d, (AHeard e :: l). split; [|done].
  rewrite F4, E6. by rewrite <- app_assoc.
Qed.
End Closing.

(** * Witness *)

(** A peer that pings, and then answers the close with one of its own. *)
Definition parting_ping : bytes := as_sent (MkWsFrame true kPing (lit "?")).
Definition parting_close : bytes := as_sent (MkWsFrame true kClose (ClosePayload kNormal (lit "bye"))).
Inductive parting := Parting.
#[export] Instance parting_transport : ITransport parting := {|
  make_transport _ _ w := (w, Ok ());
  tcp_connect _ _ w := (w, [], Ok ());
  tcp_send data w := (w, [], Ok (Z.of_nat (length data)));
  tcp_disconnect w := w;
  await _ w := (w, heard [take 1 parting_ping; drop 1 parting_ping] (Some parting_close));
|}.
#[export] Instance parting_platform : IPlatform parting := {| now_ms _ := 0; random32 w := (w, 0); sleep_ms _ w := w; |}.

Definition parting_ws : SoftwareWsClient (parting * list action) :=
  set_state (set_transport (set_handshake (new_ws_client 10000 (Parting, [])) [] true None) true) kOpen.

Lemma Close_handshake_witness : ∃ c' d l, Close Size32 1 1001 (lit "leaving") parting_ws = (c', Ok ()) ∧
  state_ c' = kDisconnected ∧ transport_ c' = false ∧
  told c' = [] ++ [] ++ [NDisconnected 1000 (lit "bye")] ∧ (world_ c').2 = [] ++ ASend d :: l ∧ close_frame 1001 (lit "leaving") d ∧
  Forall2 pong_frame [lit "?"] (sends l) ∧ MaintainTick Size32 1 c' = (c', Ok ()).
Proof.
  apply (Close_handshake Size32 0 1 [MkWsFrame true kPing (lit "?")] [parting_ping] [take 1 parting_ping; drop 1 parting_ping]
    (Some parting_close) None None []).
  - by intros data w.
  - repeat constructor; vm_compute; reflexivity.
  - by split_and!.
  - reflexivity.
  - reflexivity.
  - reflexivity.
  - discriminate.
  - vm_compute. reflexivity.
  - assert (100 <= kMaxMessageBytes)%nat as Hk by (apply Nat.leb_le; reflexivity).
    repeat (apply Forall_cons_2 || apply Forall_nil_2); (etrans; [|exact Hk]); apply Nat.leb_le; vm_compute; reflexivity.
  - by intros [].
  - exists (ClosePayload kNormal (lit "bye")). split_and!; [split; vm_compute; reflexivity| |vm_compute; reflexivity].
    apply Nat.leb_le. vm_compute. reflexivity.
Defined.

(** * What the code does not mean to do *)

Definition opcode_of (d : bytes) : option WsOpcode :=
  match d with a :: _ => (if Z.land (b2z a) 15 =? 8 then Some kClose else if Z.land (b2z a) 15 =? 1 then Some kText else None) | [] => None end.

(** A peer whose answer to the close is malformed gets a second close frame: [Fail]
    sends one whether or not one has been sent. *)
Lemma malformed_reply_answered :
  let bad := as_sent (MkWsFrame true kClose [zero]) in
  let c := set_state (set_transport (set_handshake (new_ws_client 10000
    (MkTimed 0 (MkScript [] [] [([], Ok 8); ([], Ok 8)] [[EvData bad]]), [])) [] true None) true) kOpen in
  let '(c', r) := Close Size32 1 1000 [] c in
  r = Ok () ∧ opcode_of <$> sends (world_ c').2 = [Some kClose; Some kClose].
Proof. vm_compute. by split. Qed.

(** While [Close] waits for the peer the client still sends what it is given, after
    its close frame. *)
Lemma data_after_close :
  let c := set_state (set_transport (set_handshake (new_ws_client 10000 (Calm, [])) [] true None) true) kOpen in
  let '(c1, r1) := SendCloseFrame (deliver Size32 1) 1000 [] c in
  let '(c2, r2) := Send Size32 1 (lit "late") false c1 in
  r1 = Ok true ∧ r2 = Ok (Ok ()) ∧ opcode_of <$> sends (world_ c2).2 = [Some kClose; Some kText].
Proof. vm_compute. by split_and!. Qed.
