(* ===== verification/WsBounds.v ===== *)
(** How much the WebSocket client holds on to: whatever the peer sends, and whatever its
    transport answers from inside a send, the stream it has not read and the message it
    is putting together stay within their limits. *)
From stdpp Require Import base decidable list strings gmap.
From Stdlib Require Import ZArith Ascii Lia.
From S2P Require Import Prelude Errors CommonTypes StateResult TcpTransport Platform HttpRequest WsFrame WsHandshake.
From S2P Require Import WsBackoff WsClient.

Section Bounds.
Context {W : Type} `{ITransport W} `{IPlatform W} (sm : size_model).
Local Abbreviation client := (SoftwareWsClient W).
Local Abbreviation act := (op client halted).
Implicit Types c : client.

(** The message put together is within its limit. *)
Definition small c : Prop := (length (fragment_payload_ c) <= kMaxMessageBytes)%nat.

(** The stream is within its limit, and the message too - unless frames are being
    handled, and the one that broke the limit is being answered. *)
Definition within c : Prop :=
  (length (rx_buffer_ c) <= kMaxMessageBytes)%nat ∧
  (length (fragment_payload_ c) <= 2 * kMaxMessageBytes)%nat ∧
  (¬ small c → draining c = true).

(** An operation that stays within, from the inside of a drain or from outside; if it
    comes to its end it leaves the drain as it found it, and a message small. *)
Definition bounded_post {A} c (r : result halted A) c' : Prop :=
  within c' ∧ (draining c = true → draining c' = true) ∧
  match r with Ok _ => draining c' = draining c ∧ (small c → small c') | Err _ => True end.
Definition good {A} (m : act A) : Prop := ∀ c, within c → wp m (bounded_post c) c.

Lemma good_ret {A} (a : A) : good (ret a).
Proof. intros c Hc. by apply wp_ret. Qed.
Lemma good_fail {A} e : good (fail (A := A) e).
Proof. intros c Hc. by apply wp_fail. Qed.
Lemma good_gets {A} (f : client → A) : good (gets f).
Proof. intros c Hc. by apply wp_gets. Qed.
Lemma good_after {A B} (m : act B) (a : A) c c1 : good m → bounded_post c (Ok a) c1 → wp m (bounded_post c) c1.
Proof.
  intros Hm (H1 & H2 & Hd & Hs). eapply wp_mono; [by apply Hm|]. intros r c2 (H4 & H5 & H6). split; [done|]. split; [auto|].
  destruct r; [|done]. destruct H6 as [-> ?]. auto.
Qed.
Lemma good_bind {A B} (m : act A) (k : A → act B) : good m → (∀ a, good (k a)) → good (bind m k).
Proof.
  intros Hm Hk c Hc. apply wp_bind. eapply wp_mono; [by apply Hm|]. intros [a|e] c1 H1; [|done].
  by apply (good_after _ a).
Qed.

(** A change of other fields, or that empties a buffer. *)
Definition lighter (f : client → client) : Prop := ∀ c,
  (rx_buffer_ (f c) = rx_buffer_ c ∨ rx_buffer_ (f c) = []) ∧
  (fragment_payload_ (f c) = fragment_payload_ c ∨ fragment_payload_ (f c) = []) ∧ draining (f c) = draining c.

Lemma lighter_post {A} (f : client → client) c (r : result halted A) : lighter f → within c → bounded_post c r (f c).
Proof.
  intros Hf (H1 & H2 & H3). destruct (Hf c) as (Er & Ef & Ed).
  assert (small c → small (f c)) as Hs by (unfold small; destruct Ef as [-> | ->]; [done|cbn; lia]).
  split; [|split; [by rewrite Ed|by destruct r]]. split_and!.
  - destruct Er as [-> | ->]; [done|cbn; lia].
  - destruct Ef as [-> | ->]; [done|cbn; lia].
  - rewrite Ed. intros Hn. apply H3. intros ?. by apply Hn, Hs.
Qed.
Lemma good_modify f : lighter f → good (modify f).
Proof. intros Hf c Hc. apply wp_modify. by apply lighter_post. Qed.
Lemma good_world {A} (m : client → W * A) : good (λ c, let '(w, a) := m c in (set_world c w, Ok a)).
Proof.
  intros c Hc. unfold wp. destruct (m c) as [w a]. cbn [fst snd].
  apply (lighter_post (λ c, set_world c w)); [|done]. intros c0. auto.
Qed.

Lemma lighter_reset : lighter reset_connection.
Proof. intros c. cbn. auto. Qed.

Ltac light := intros ?; cbn; auto.
Ltac prim := intros; first [apply good_ret | apply good_fail | apply good_gets | apply good_modify; light].

Lemma good_random : good random.
Proof. apply (good_world (λ c, random32 (world_ c))). Qed.
Lemma good_stamp_sent : good stamp_sent.
Proof. apply good_bind; [prim|]. intros t. prim. Qed.
Lemma good_ReportError e : good (ReportError e).
Proof. prim. Qed.

Lemma good_Teardown code reason : good (Teardown code reason).
Proof.
  apply good_bind; [prim|]. intros c. apply good_bind; [apply good_modify, lighter_reset|]. intros _.
  apply good_bind; [destruct (transport_ c); prim|]. intros _. destruct (_ && _); prim.
Qed.

(** A teardown leaves no message. *)
Lemma Teardown_small code reason c : small (Teardown code reason c).1.
Proof.
  unfold small. enough (fragment_payload_ (Teardown code reason c).1 = []) as -> by (cbn; lia).
  unfold Teardown, bind, gets, modify. cbn. destruct (transport_ c), (bool_decide _); reflexivity.
Qed.

Section Handlers.
Context (dl : list tcp_event → act unit) (extra : nat) (Hdl : ∀ evs, good (dl evs)).

Lemma good_transport_send data : good (transport_send dl data).
Proof.
  intros c Hc. unfold transport_send, wp. destruct (tcp_send data (world_ c)) as [[w evs] r].
  assert (within (set_world c w)) as Hw by exact Hc.
  apply (good_bind (dl evs) (λ _, ret r) (Hdl evs) (λ _, good_ret r) _ Hw).
Qed.

Lemma good_SendFrame opcode payload fin : good (SendFrame dl opcode payload fin).
Proof.
  apply good_bind; [apply good_random|]. intros key. destruct (EncodeFrame _ _ _ _); [|prim].
  apply good_bind; [prim|]. intros c. destruct (negb _); [prim|].
  apply good_bind; [apply good_transport_send|]. intros [n|e]; [|prim].
  apply good_bind; [apply good_stamp_sent|prim].
Qed.

Lemma good_SendPing payload : good (SendPing dl payload).
Proof.
  apply good_bind; [apply good_SendFrame|]. intros [[]|e]; [|prim].
  apply good_bind; [apply good_gets|]. intros t. apply good_bind; prim.
Qed.

Lemma good_SendCloseFrame code reason : good (SendCloseFrame dl code reason).
Proof.
  apply good_bind; [prim|]. intros c. destruct (negb _); [prim|]. apply good_bind; [prim|]. intros _.
  destruct (negb _); [prim|]. apply good_bind; [apply good_random|]. intros key.
  destruct (EncodeFrame _ _ _ _); [|prim].
  apply good_bind; [apply good_transport_send|]. intros _. apply good_bind; [apply good_stamp_sent|prim].
Qed.

(** Failing the connection ends with nothing held, whatever was held before. *)
Lemma Fail_empties e code reason c : within c →
  wp (Fail dl e code reason) (λ r c', bounded_post c r c' ∧ (r = Ok () → small c')) c.
Proof.
  intros Hc. unfold Fail. pose proof (good_bind _ _ (good_ReportError e) (λ _, good_bind _ _ (good_SendCloseFrame code reason)
    (λ _, good_Teardown code reason)) c Hc) as Hg.
  unfold wp in *. split; [exact Hg|]. intros Er.
  destruct (bind_Ok _ _ _ _ _ (op_result _ _ _ Er)) as (c1 & [] & _ & E1).
  destruct (bind_Ok _ _ _ _ _ E1) as (c2 & b & _ & E2).
  pose proof (Teardown_small code reason c2) as Hs. rewrite E2 in Hs. exact Hs.
Qed.
Lemma good_Fail e code reason : good (Fail dl e code reason).
Proof. intros c Hc. eapply wp_mono; [by apply Fail_empties|]. by intros r c' [? _]. Qed.

Lemma good_HandleCloseFrame payload : good (HandleCloseFrame dl payload).
Proof.
  assert (∀ code reason, good (let! already_sent := gets close_sent_ in
      modify (λ c, set_close_sent c true) ;;;
      (if already_sent then ret () else SendFrame dl kClose payload true ;;; ret ()) ;;;
      Teardown code reason)) as Hr.
  { intros code reason. apply good_bind; [prim|]. intros b. apply good_bind; [prim|]. intros _.
    apply good_bind; [|intros _; apply good_Teardown].
    destruct b; [prim|]. apply good_bind; [apply good_SendFrame|prim]. }
  destruct payload as [|a [|b s]]; [apply Hr|apply good_Fail|apply Hr].
Qed.

Lemma good_HandleControlFrame frame : good (HandleControlFrame dl frame).
Proof.
  unfold HandleControlFrame. destruct (f_opcode frame); try prim.
  - apply good_HandleCloseFrame.
  - apply good_bind; [apply good_SendFrame|prim].
Qed.

(** * Handling the frames of a stream *)

(** In a drain, between frames. *)
Definition draining_post (r : result halted unit) c' : Prop := within c' ∧ draining c' = true ∧ (r = Ok () → small c').

Lemma good_draining (m : act unit) c : good m → within c → small c → draining c = true → wp m draining_post c.
Proof.
  intros Hm Hc Hs Hd. eapply wp_mono; [by apply Hm|]. intros r c' (H1 & H2 & H3). split; [done|]. split; [auto|].
  intros ->. destruct H3 as [_ H3]. auto.
Qed.

Lemma Fail_draining e code reason c : within c → draining c = true → wp (Fail dl e code reason) draining_post c.
Proof.
  intros Hc Hd. eapply wp_mono; [by apply Fail_empties|]. intros r c' [(H1 & H2 & _) H3]. split; [done|]. split; [auto|done].
Qed.

(** A data frame no longer than the stream may make the message too long; then it is
    answered at once. *)
Lemma HandleDataFrame_draining frame c : within c → small c → draining c = true →
  (length (f_payload frame) <= kMaxMessageBytes)%nat → wp (HandleDataFrame dl frame) draining_post c.
Proof.
  intros Hc Hs Hd Hf. destruct Hc as (H1 & H2 & H3). unfold HandleDataFrame. wp_run. change (id c) with c.
  assert (length (fragment_payload_ c ++ f_payload frame) <= 2 * kMaxMessageBytes)%nat as Hlen
    by (rewrite length_app; unfold small in Hs; lia).
  unfold take_data_frame. cbv zeta.
  destruct (bool_decide _ && negb _); [by apply Fail_draining|]. destruct (negb _ && _); [by apply Fail_draining|].
  destruct (bool_decide (f_opcode frame = kContinuation)).
  - destruct (Nat.ltb_spec kMaxMessageBytes (length (fragment_payload_ c ++ f_payload frame))); [by apply Fail_draining|].
    destruct (f_fin frame); wp_run; (split; [split; [done|split; [cbn; lia|done]]|split; [done|]]); intros _; unfold small; cbn; lia.
  - destruct (f_fin frame); wp_run; (split; [split; [done|split; [cbn; lia|done]]|split; [done|]]); intros _; [done|unfold small; cbn; lia].
Qed.

Lemma drain_loop_draining n c : within c → small c → draining c = true → wp (drain_loop dl n) draining_post c.
Proof.
  revert c; induction n as [|k IH]; intros c Hc Hs Hd; [by apply wp_fail|]. cbn [drain_loop]. wp_run. change (id c) with c.
  destruct (negb _); [by wp_run|].
  destruct (TakeFrame (rx_buffer_ c)) as [|frame rest|v] eqn:Et; [by wp_run| |by apply Fail_draining].
  apply wp_bind. wp_run. set (c1 := set_rx c rest).
  assert ((length rest <= kMaxMessageBytes)%nat ∧ (length (f_payload frame) <= kMaxMessageBytes)%nat) as [Hrest Hp].
  { destruct (TakeFrame_ready _ _ _ Et) as [(hd & E & _) _]. destruct Hc as [Hl _]. rewrite E, !length_app in Hl. lia. }
  assert (within c1) as Hc1 by (destruct Hc as (? & ? & ?); by split).
  assert (wp (HandleFrame dl frame) draining_post c1) as Hh.
  { unfold HandleFrame. destruct (IsControlOpcode _); [|by apply HandleDataFrame_draining].
    apply good_draining; [apply good_HandleControlFrame|done..]. }
  eapply wp_mono; [exact Hh|]. intros [[]|e] c2 (H1 & H2 & H3); [apply IH; auto|]. split; [done|]. split; [done|].
  discriminate.
Qed.

(** * What arrives *)

Lemma shorter_post {A} c (r : result halted A) c' : within c →
  (length (rx_buffer_ c') <= kMaxMessageBytes)%nat → fragment_payload_ c' = fragment_payload_ c → draining c' = draining c →
  bounded_post c r c'.
Proof.
  intros (H1 & H2 & H3) Hr Hf Hd. unfold bounded_post, within, small. rewrite Hf, Hd. split_and!; try done. by destruct r.
Qed.

Lemma good_QueueInbound data : good (QueueInbound sm dl data).
Proof.
  intros c Hc. unfold QueueInbound. wp_run. set (c1 := set_inbound _ _). change (id c1) with c1.
  destruct (Nat.ltb_spec kMaxMessageBytes (length (rx_buffer_ c1))) as [Hl|Hl]; wp_run.
  - eapply wp_mono; [apply (good_after (Fail dl _ _ _) () c); [apply good_Fail|apply shorter_post; [done|cbn; lia|done|done]]|].
    intros [[]|e] c2 Hb; [by apply wp_ret|done].
  - destruct (handshake_done_ c1); wp_run; [by apply shorter_post|].
    unfold ConsumeHandshakeLocked. destruct (find_sub _ _); [|by apply shorter_post].
    apply shorter_post; [done| |done|done]. cbn in *. rewrite length_drop. lia.
Qed.

Lemma good_OnTransportData data : good (OnTransportData sm dl extra data).
Proof.
  apply good_bind; [apply good_QueueInbound|]. intros b c Hc. wp_run. change (id c) with c.
  destruct (_ || _) eqn:Eb; wp_run; [by split_and!|]. apply orb_false_iff in Eb as [_ Ed].
  assert (small c) as Hs by (destruct Hc as (_ & _ & H3); destruct (decide (small c)); [done|rewrite H3 in Ed by done; done]).
  set (c1 := set_draining c true). unfold DrainFrames. wp_run.
  eapply wp_mono; [apply (drain_loop_draining _ c1); [by destruct Hc as (? & ? & _); split_and!|done|done]|].
  intros [[]|e] c2 (H1 & H2 & H3); wp_run.
  - specialize (H3 eq_refl). destruct H1 as (Hr & Hf & _).
    split; [by split|]. split; [by rewrite Ed|]. split; [by rewrite Ed|done].
  - split; [done|]. by rewrite Ed.
Qed.

Lemma good_on_event e : good (on_event sm dl extra e).
Proof. destruct e; [apply good_OnTransportData|apply good_Teardown|apply good_ret]. Qed.
End Handlers.

Lemma good_run_all {A} (f : A → act unit) l : (∀ x, good (f x)) → good (run_all f l).
Proof. intros Hf. induction l as [|x l IH]; [apply good_ret|]. by apply good_bind. Qed.

Lemma good_deliver fuel evs : good (deliver sm fuel evs).
Proof.
  revert evs; induction fuel as [|k IH]; intros [|e evs]; try apply good_ret; [apply good_fail|].
  cbn [deliver]. apply good_run_all. intros e'. by apply good_on_event.
Qed.

(** * The operations *)

Section Operations.
Context (fuel : nat).

Lemma good_delivering {B} (m : client → W * list tcp_event * B) :
  good (λ c, let '(w, evs, r) := m c in (deliver sm fuel evs ;;; ret r) (set_world c w)).
Proof.
  intros c Hc. unfold wp. destruct (m c) as [[w evs] r].
  assert (within (set_world c w)) as Hw by exact Hc.
  apply (good_bind (deliver sm fuel evs) (λ _, ret r) (good_deliver fuel evs) (λ _, good_ret r) _ Hw).
Qed.

Lemma good_wait_for timeout pred : good (wait_for sm fuel timeout pred).
Proof.
  intros c Hc. unfold wait_for, wp. destruct (pred c); [by apply good_ret|]. destruct (await timeout (world_ c)) as [w evs].
  assert (within (set_world c w)) as Hw by exact Hc. apply (good_deliver fuel evs _ Hw).
Qed.

Lemma good_Establish url : good (Establish sm fuel url).
Proof.
  unfold Establish. destruct (ParseWebSocketUrl url) as [parsed|]; [|prim].
  apply good_bind; [prim|]. intros c. destruct (negb _); [prim|].
  apply good_bind. { destruct (decide _); [|prim]. repeat (apply good_bind; [apply good_random|intros ?]). prim. }
  intros words. apply good_bind; [prim|]. intros _.
  apply good_bind; [apply (good_world (λ c, make_transport (u_tls parsed) _ (world_ c)))|]. intros [[]|e]; [|apply good_bind; prim].
  apply good_bind; [apply (good_delivering (λ c, tcp_connect (u_host parsed) (u_port parsed) (world_ c)))|].
  intros [[]|e]; [|apply good_bind; prim]. apply good_bind; [prim|]. intros _.
  apply good_bind; [apply good_transport_send, good_deliver|]. intros [n|e]; [|apply good_bind; [apply good_Teardown|prim]].
  apply good_bind; [apply good_wait_for|]. intros _. apply good_bind; [prim|]. intros c'.
  destruct (negb _); [apply good_bind; [apply good_Teardown|prim]|].
  destruct (handshake_error_ c'); [apply good_bind; [apply good_Teardown|prim]|].
  apply good_bind; [prim|]. intros _. apply good_bind; [apply good_stamp_sent|prim].
Qed.

Lemma good_Connect url : good (Connect sm fuel url).
Proof.
  apply good_bind; [prim|]. intros c. destruct (negb _); [prim|]. apply good_bind; [prim|]. intros _.
  apply good_bind; [apply good_Establish|]. intros [[]|e]; [|prim]. apply good_bind; [prim|]. intros _. apply good_bind; prim.
Qed.

Lemma good_Close code reason : good (Close sm fuel code reason).
Proof.
  apply good_bind; [prim|]. intros _. apply good_bind; [prim|]. intros _. destruct (_ =? _).
  - apply good_bind; [prim|]. intros _. apply good_Teardown.
  - apply good_bind; [apply good_SendCloseFrame, good_deliver|]. intros b. destruct (negb b); [prim|].
    apply good_bind; [apply good_wait_for|]. intros _. apply good_Teardown.
Qed.

Lemma good_SendFragment data len binary fin : good (SendFragment sm fuel data len binary fin).
Proof.
  unfold SendFragment. destruct (_ && _); [prim|]. apply good_bind; [prim|]. intros c. destruct (negb _); [prim|].
  cbv zeta. apply good_bind; [prim|]. intros _. apply good_SendFrame, good_deliver.
Qed.

Lemma good_ping_reported payload : good (let! sent := SendPing (deliver sm fuel) payload in
  match sent with Err e => ReportError e | Ok _ => ret () end).
Proof. apply good_bind; [apply good_SendPing, good_deliver|]. intros [[]|e]; prim. Qed.

Lemma good_Ping payload : good (Ping sm fuel payload).
Proof. unfold Ping. destruct (_ >? _); [prim|apply good_ping_reported]. Qed.

Lemma good_destroy : good (destroy sm fuel).
Proof.
  apply good_bind; [prim|]. intros _. apply good_bind; [prim|]. intros _.
  apply good_bind; [apply good_SendCloseFrame, good_deliver|]. intros b. apply good_Teardown.
Qed.

Lemma good_wait_loop n waited total : good (wait_loop n waited total : act unit).
Proof.
  revert waited; induction n as [|n IH]; intros waited; (apply good_bind; [prim|]); intros running; [prim|].
  destruct (_ && _); [|prim]. apply good_bind; [prim|]. intros _. apply IH.
Qed.

Lemma good_MaintainTick : good (MaintainTick sm fuel).
Proof.
  apply good_bind; [prim|]. intros running. destruct (negb _); [prim|]. apply good_bind; [prim|]. intros _.
  apply good_bind; [prim|]. intros c. destruct (negb _); [prim|]. destruct (bool_decide (state_ c = kOpen)).
  { apply good_bind; [prim|]. intros _. cbv zeta. destruct (_ || _); [prim|]. apply good_bind; [apply good_gets|]. intros t.
    destruct (negb _).
    - destruct (_ >=? _); [|prim]. apply good_bind; [prim|]. intros _. apply good_Teardown.
    - destruct (_ >=? _); [apply good_ping_reported|prim]. }
  destruct (_ || _); [prim|]. cbv zeta. destruct (_ && _).
  { destruct (reconnect_exhausted_ c); [prim|]. apply good_bind; prim. }
  apply good_bind. { destruct (BackoffFor _ _); [apply good_wait_loop|prim]. }
  intros _. apply good_bind; [prim|]. intros again. destruct (negb again); [prim|].
  apply good_bind; [apply good_Establish|]. intros [[]|e]; apply good_bind; prim.
Qed.
End Operations.

(** * Every state the client can come to *)

(** What the application, the transport and the maintenance task do to the client. *)
Inductive operation :=
| OConnect (url : bytes) | OClose (code : Z) (reason : bytes)
| OSendFragment (data : option bytes) (len : Z) (binary fin : bool) | OPing (payload : bytes)
| OMaintain | OArrive (evs : list tcp_event) | ODestroy.
Definition operate (fuel : nat) (o : operation) : act unit :=
  match o with
  | OConnect url => Connect sm fuel url ;;; ret ()
  | OClose code reason => Close sm fuel code reason
  | OSendFragment data len binary fin => SendFragment sm fuel data len binary fin ;;; ret ()
  | OPing payload => Ping sm fuel payload
  | OMaintain => MaintainTick sm fuel
  | OArrive evs => deliver sm fuel evs
  | ODestroy => destroy sm fuel
  end.

(** Between operations the world goes on, and the application sets what it likes. *)
Inductive ws_reachable : client → Prop :=
| wr_new timeout w : ws_reachable (new_ws_client timeout w)
| wr_world c w : ws_reachable c → ws_reachable (set_world c w)
| wr_header c key value : ws_reachable c → ws_reachable (SetHeader c key value)
| wr_tls c config : ws_reachable c → ws_reachable (SetTlsConfig c config)
| wr_heartbeat c config : ws_reachable c → ws_reachable (SetHeartbeat c config)
| wr_reconnect c config : ws_reachable c → ws_reachable (SetAutoReconnect c config)
| wr_operate c fuel o : ws_reachable c → ws_reachable (operate fuel o c).1.

Lemma good_operate fuel o : good (operate fuel o).
Proof.
  destruct o; cbn [operate].
  - apply good_bind; [apply good_Connect|prim].
  - apply good_Close.
  - apply good_bind; [apply good_SendFragment|prim].
  - apply good_Ping.
  - apply good_MaintainTick.
  - apply good_deliver.
  - apply good_destroy.
Qed.

(** C14: what the client holds on to is bounded, whatever the peer sends - a message it
    never ends, frames of any size, anything at all in place of frames - in whatever
    pieces it arrives, from inside a send or not, and whatever the application calls:
    in every state it can come to, the unread stream is at most 64 KiB and the
    message being put together at most 128 KiB, and 64 KiB once the frame that
    broke the limit has been answered. *)
Theorem memory_bounded c : ws_reachable c →
  (length (rx_buffer_ c) <= kMaxMessageBytes)%nat ∧
  (length (fragment_payload_ c) <= 2 * kMaxMessageBytes)%nat ∧
  (draining c = false → (length (fragment_payload_ c) <= kMaxMessageBytes)%nat).
Proof.
  intros Hc. assert (within c) as (H1 & H2 & H3).
  { induction Hc; try done.
    - split_and!; cbn; try lia. unfold small. cbn. lia.
    - by apply good_operate. }
  split_and!; [done|done|]. intros Hd. destruct (decide (length (fragment_payload_ c) <= kMaxMessageBytes)%nat) as [|Hn]; [done|].
  rewrite H3 in Hd; done.
Qed.
End Bounds.

(** * Witness *)

(** Bytes that come before the upgrade's answer is complete are held. *)
Definition holding : SoftwareWsClient calm :=
  (operate Size32 2 (OArrive [EvData (lit "HTTP/1.1 101"); EvData (lit " Switching")]) (new_ws_client 5000 Calm)).1.

Lemma memory_bounded_witness :
  rx_buffer_ holding = lit "HTTP/1.1 101 Switching" ∧ (length (rx_buffer_ holding) <= kMaxMessageBytes)%nat.
Proof.
  split; [by vm_compute|]. apply (memory_bounded Size32 holding). apply wr_operate, wr_new.
Defined.
