(* ===== verification/WsReconnect.v ===== *)
(** Reconnection of the WebSocket client: how often it tries a server that cannot be
    reached, how long it waits in between, what it says of it, and that it ends. *)
From stdpp Require Import base decidable list strings gmap.
From Stdlib Require Import ZArith Ascii Lia.
From S2P Require Import Prelude Errors CommonTypes StateResult TcpTransport Platform HttpRequest WsFrame WsHandshake Doubles.
From S2P Require Import WsBackoff WsClient.

Open Scope Z_scope.

(** The transports asked for. *)
Definition made (l : list action) : nat := length (omap (λ a, match a with AMake tls _ => Some tls | _ => None end) l).

Lemma made_app l l' : made (l ++ l') = (made l + made l')%nat.
Proof. unfold made. by rewrite omap_app, length_app. Qed.

(** The time slept. *)
Definition slept (l : list action) : Z := foldr (λ a t, match a with ASleep ms => ms + t | _ => t end) 0 l.

Lemma slept_app l l' : slept (l ++ l') = slept l + slept l'.
Proof. unfold slept. induction l as [|[] l IH]; cbn in *; lia. Qed.

Lemma slept_ticks n : slept (replicate n (ASleep kMaintainTick)) = Z.of_nat n * kMaintainTick.
Proof. induction n as [|n IH]; cbn [replicate slept foldr] in *; unfold slept in *; lia. Qed.

Lemma made_ticks n : made (replicate n (ASleep kMaintainTick)) = O.
Proof. by induction n. Qed.

Section Reconnect.
Context {W0 : Type} `{ITransport W0} `{IPlatform W0} (sm : size_model) (fuel : nat).
Local Abbreviation client := (SoftwareWsClient (W0 * list action)).
Local Abbreviation act := (op client halted).
Implicit Types c : client.

(** * Specification *)

(** No transport is to be had, or it does not connect, and nothing arrives. *)
Definition unreachable : Prop := ∀ tls config host port (w : W0),
  let '(w1, r) := make_transport tls config w in
  match r with Err _ => True | Ok _ => ∃ w2 e, tcp_connect host port w1 = (w2, [], Err e) end.

(** The maintenance task runs over a client that lost its connection and wants it back. *)
Record down c : Prop := {
  dn_state : state_ c = kDisconnected;
  dn_running : maintain_running_ c = true;
  dn_enabled : rc_enabled (reconnect_ c) = true;
  dn_wanted : user_closed_ c = false;
}.

(** How many of [n] turns may try: all of them without a limit. *)
Definition tries (n : nat) c : nat :=
  if rc_max_retries (reconnect_ c) <? 0 then n
  else Nat.min n (Z.to_nat (rc_max_retries (reconnect_ c) - reconnect_attempt_ c)).

Definition gave_up (attempts : Z) : NetworkError :=
  MkNetworkError kConnectFailed attempts (lit "giving up after " ++ to_string attempts ++ lit " reconnection attempts").

(** The wait before an attempt: its delay in whole ticks. *)
Definition wait_time (config : ReconnectConfig) (attempt : Z) : Z :=
  Z.of_nat (wait_turns (default 0 (BackoffFor config attempt))) * kMaintainTick.
Fixpoint waiting (config : ReconnectConfig) (attempt : Z) (n : nat) : Z :=
  match n with O => 0 | S k => wait_time config attempt + waiting config (attempt + 1) k end.

Fixpoint turns (n : nat) c : client :=
  match n with O => c | S k => turns k (MaintainTick sm fuel c).1 end.

(** * Lemmas *)

(** [c'] is [c] but for the handshake under way, the buffers and the world. *)
Record alike c c' : Prop := {
  al_state : state_ c' = state_ c;
  al_running : maintain_running_ c' = maintain_running_ c;
  al_reconnect : reconnect_ c' = reconnect_ c;
  al_wanted : user_closed_ c' = user_closed_ c;
  al_url : url_ c' = url_ c;
  al_attempt : reconnect_attempt_ c' = reconnect_attempt_ c;
  al_exhausted : reconnect_exhausted_ c' = reconnect_exhausted_ c;
  al_told : told c' = told c;
}.

Definition log c : list action := (world_ c).2.
Definition parses (url : bytes) : bool := match ParseWebSocketUrl url with Ok _ => true | Err _ => false end.

(** A wait is as long as it is to be, and less than a tick longer. *)
Lemma wait_time_bounds config attempt total : BackoffFor config attempt = Some total → 0 <= total →
  total <= wait_time config attempt < total + kMaintainTick.
Proof.
  intros E Ht. unfold wait_time, wait_turns, kMaintainTick. rewrite E. change (default 0 (Some total)) with total.
  pose proof (Z.div_mod (total + 200 - 1) 200). pose proof (Z.mod_pos_bound (total + 200 - 1) 200).
  rewrite Z2Nat.id by (apply Z.div_pos; lia). lia.
Qed.

(** A wait that nothing interrupts only passes the time. *)
Definition slept_ticks_from (n : nat) c c' : Prop :=
  ∃ w, c' = set_world c w ∧ w.2 = log c ++ replicate n (ASleep kMaintainTick).

Lemma wait_loop_effect n waited total c : maintain_running_ c = true → (n = O ∨ waited + (Z.of_nat n - 1) * kMaintainTick < total) →
  wp (wait_loop n waited total : act unit) (λ r c', r = Ok () ∧ slept_ticks_from n c c') c.
Proof.
  revert waited c; induction n as [|n IH]; intros waited c Hr Hn; cbn [wait_loop].
  - wp_run. split; [done|]. exists (world_ c). split; [by destruct c|by rewrite app_nil_r].
  - destruct Hn as [|Hn]; [done|]. unfold kMaintainTick in *. wp_run. rewrite Hr.
    rewrite (proj2 (Z.ltb_lt waited total)) by lia. cbn [andb]. unfold sleep. wp_run.
    eapply wp_mono; [apply IH; [done|destruct n; [by left|right; lia]]|]. cbv beta. intros r c' (-> & w & -> & E).
    split; [done|]. exists w. split; [done|]. rewrite E. unfold log. cbn [world_ set_world snd sleep_ms recorded_platform].
    by rewrite <- app_assoc.
Qed.

Lemma wait_effect total c : maintain_running_ c = true →
  wp (WaitInterruptible total : act unit) (λ r c', r = Ok () ∧ slept_ticks_from (wait_turns total) c c') c.
Proof.
  intros Hr. apply wait_loop_effect; [done|]. destruct (wait_turns total) as [|n] eqn:E; [by left|right].
  unfold wait_turns, kMaintainTick in *. pose proof (Z.div_mod (total + 200 - 1) 200).
  pose proof (Z.mod_pos_bound (total + 200 - 1) 200). lia.
Qed.

Lemma deliver_nothing : deliver sm fuel [] = (ret () : act unit).
Proof. by destruct fuel. Qed.

(** The key's random words come from the world only. *)
Lemma random_effect c : wp (random : act Z) (λ r c', (∃ v, r = Ok v) ∧ ∃ w, c' = set_world c w ∧ w.2 = log c) c.
Proof.
  unfold wp, random. cbn [random32 recorded_platform]. destruct (random32 (world_ c).1) as [w v]. cbn.
  split; [by exists v|]. by exists (w, log c).
Qed.

Lemma key_effect (given : bytes) c : wp (if decide (given = []) then random_words else ret [] : act (list Z)) (λ r c',
  (∃ ws, r = Ok ws) ∧ ∃ w, c' = set_world c w ∧ w.2 = log c) c.
Proof.
  case_decide; [|wp_run; split; [by eexists|]; exists (world_ c); by destruct c].
  unfold random_words. do 4 (apply wp_bind; eapply wp_mono; [apply random_effect|]; cbv beta;
    intros ? ? ((? & ->) & ? & -> & ?)). wp_run. split; [by eexists|]. eexists. split; [done|].
  unfold log in *. cbn in *. congruence.
Qed.
Lemma Establish_gone (Hgone : unreachable) url c : state_ c = kDisconnected →
  wp (Establish sm fuel url : act _) (λ r c', (∃ e, r = Ok (Err e)) ∧ alike c c' ∧
    made (log c') = (made (log c) + if parses url then 1 else 0)%nat ∧ slept (log c') = slept (log c)) c.
Proof.
  intros Hs. unfold Establish, parses. destruct (ParseWebSocketUrl url) as [u|e].
  2: { wp_run. split; [by eexists|]. split; [by constructor|by rewrite Nat.add_0_r]. }
  wp_run. change (id c) with c. rewrite Hs, bool_decide_true by done. cbn [negb]. apply wp_bind.
  eapply wp_mono; [apply key_effect|]. cbv beta.
  intros r c1 ((ws & ->) & w & -> & Hw). wp_run. set (c2 := begin_handshake _ _).
  assert (alike c (set_state c2 kDisconnected) ∧ log c2 = log c) as [Ha Hl] by (by split; [constructor|]).
  clearbody c2. set (config := if u_tls u then _ else _).
  apply wp_intro. intros c3 r E3. cbn [make_transport recorded] in E3.
  pose proof (Hgone (u_tls u) config (u_host u) (u_port u) (world_ c2).1) as Hg.
  destruct (make_transport (u_tls u) config (world_ c2).1) as [w1 r1]. injection E3 as <- <-.
  assert (made (log c2 ++ [AMake (u_tls u) config]) = (made (log c) + 1)%nat ∧ slept (log c2 ++ [AMake (u_tls u) config]) = slept (log c)) as [Hm Hsl]
    by (by rewrite made_app, slept_app, Hl, Z.add_0_r).
  destruct r1 as [[]|e].
  2: { wp_run. split; [by eexists|]. split; [destruct Ha; by constructor|by split]. }
  destruct Hg as (w2 & e & Hc). wp_run. apply wp_intro. intros c4 r E4. cbn [tcp_connect recorded] in E4.
  cbn [set_world world_ fst snd] in E4. rewrite Hc, deliver_nothing in E4. cbn in E4. injection E4 as <- <-.
  wp_run. split; [by eexists|]. split; [destruct Ha; by constructor|]. unfold log in *. cbn [world_ set_world set_state snd].
  rewrite made_app, slept_app, Hm, Hsl. cbn. lia.
Qed.

(** ** One turn *)

(** What a turn leaves that ran with the client down. *)
Record stepped (attempt : Z) (exhausted : bool) (said : list notice) (opened : nat) (time : Z) c c' : Prop := {
  st_down : down c';
  st_reconnect : reconnect_ c' = reconnect_ c;
  st_url : url_ c' = url_ c;
  st_attempt : reconnect_attempt_ c' = attempt;
  st_exhausted : reconnect_exhausted_ c' = exhausted;
  st_told : told c' = told c ++ said;
  st_made : made (log c') = (made (log c) + opened)%nat;
  st_slept : slept (log c') = slept (log c) + time;
}.

Definition spent c : bool := (rc_max_retries (reconnect_ c) >=? 0) && (reconnect_attempt_ c >=? rc_max_retries (reconnect_ c)).

(** The wait before an attempt, whatever the schedule says. *)
Lemma backoff_effect c : maintain_running_ c = true →
  wp (from_option WaitInterruptible (ret ()) (BackoffFor (reconnect_ c) (reconnect_attempt_ c)) : act unit)
    (λ r c', r = Ok () ∧ ∃ w, c' = set_world c w ∧ made w.2 = made (log c) ∧
      slept w.2 = slept (log c) + wait_time (reconnect_ c) (reconnect_attempt_ c)) c.
Proof.
  intros Hr. unfold wait_time. destruct (BackoffFor _ _) as [total|]; cbn [from_option].
  - eapply wp_mono; [by apply wait_effect|]. cbv beta. intros r c' (-> & w & -> & E). split; [done|]. exists w. split; [done|].
    by rewrite E, made_app, slept_app, made_ticks, slept_ticks, Nat.add_0_r.
  - wp_run. split; [done|]. exists (world_ c). change (wait_turns (id 0)) with O. split_and!; [by destruct c|done|].
    unfold log. by rewrite Z.add_0_r.
Qed.

Lemma turn_tries (Hgone : unreachable) c : down c → spent c = false → ∃ e,
  stepped (reconnect_attempt_ c + 1) (reconnect_exhausted_ c) [NError e] (if parses (url_ c) then 1 else 0)
    (kMaintainTick + wait_time (reconnect_ c) (reconnect_attempt_ c)) c (MaintainTick sm fuel c).1.
Proof.
  intros [E1 E2 E3 E4] Hsp. unfold spent in Hsp.
  cut (wp (MaintainTick sm fuel : act unit) (λ _ c', ∃ e, stepped (reconnect_attempt_ c + 1) (reconnect_exhausted_ c) [NError e]
    (if parses (url_ c) then 1 else 0) (kMaintainTick + wait_time (reconnect_ c) (reconnect_attempt_ c)) c c') c); [done|].
  unfold MaintainTick, sleep. wp_run. rewrite E2. cbn [negb]. wp_run. set (c0 := set_world c _). change (id c0) with c0.
  change (maintain_running_ c0) with (maintain_running_ c). change (state_ c0) with (state_ c).
  change (reconnect_ c0) with (reconnect_ c). change (user_closed_ c0) with (user_closed_ c).
  change (reconnect_attempt_ c0) with (reconnect_attempt_ c). change (url_ c0) with (url_ c).
  rewrite E2, E1, E3, E4. cbn [negb orb]. rewrite bool_decide_false by done.
  rewrite bool_decide_true by done. cbn [negb orb]. rewrite Hsp. apply wp_bind.
  eapply wp_mono; [by apply (backoff_effect c0)|]. cbv beta. intros r c1 (-> & w & -> & Hm0 & Hs0). wp_run.
  change (maintain_running_ (set_world c0 w)) with (maintain_running_ c). rewrite E2. cbn [negb]. apply wp_bind.
  eapply wp_mono; [by apply Establish_gone|]. cbv beta. intros r c1 ((e & ->) & Ha & Hm & Hs). wp_run. exists e.
  assert (alike c c1) as [] by (destruct Ha; by constructor).
  change (log (set_world c0 w)) with w.2 in *. assert (made (log c0) = made (log c) ∧ slept (log c0) = slept (log c) + kMaintainTick) as [Hm1 Hs1].
  { unfold log, c0. cbn [world_ set_world sleep_ms recorded_platform snd]. rewrite made_app, slept_app. split; [cbn; lia|done]. }
  constructor; try (cbn; congruence); [constructor; cbn; congruence| |].
  - change (made (log c1) = (made (log c) + (if parses (url_ c) then 1 else 0))%nat). rewrite Hm, Hm0. lia.
  - change (slept (log c1) = slept (log c) + (kMaintainTick + wait_time (reconnect_ c) (reconnect_attempt_ c))).
    rewrite Hs, Hs0, Hs1. change (reconnect_ c0) with (reconnect_ c). change (reconnect_attempt_ c0) with (reconnect_attempt_ c). lia.
Qed.

Lemma turn_spent c : down c → spent c = true →
  stepped (reconnect_attempt_ c) true (if reconnect_exhausted_ c then [] else [NError (gave_up (reconnect_attempt_ c))]) 0 kMaintainTick c
    (MaintainTick sm fuel c).1.
Proof.
  intros [E1 E2 E3 E4] Hsp. unfold spent in Hsp. unfold MaintainTick, sleep, bind, gets, modify. rewrite E2. cbn [negb].
  set (c0 := set_world c _). change (id c0) with c0.
  change (maintain_running_ c0) with (maintain_running_ c). change (state_ c0) with (state_ c).
  change (reconnect_ c0) with (reconnect_ c). change (user_closed_ c0) with (user_closed_ c).
  change (reconnect_attempt_ c0) with (reconnect_attempt_ c). change (reconnect_exhausted_ c0) with (reconnect_exhausted_ c).
  rewrite E2, E1, E3, E4. cbn [negb orb]. rewrite bool_decide_false by done. rewrite bool_decide_true by done. cbn [negb orb].
  rewrite Hsp. assert (made (log c0) = made (log c) ∧ slept (log c0) = slept (log c) + kMaintainTick) as [Hm1 Hs1].
  { unfold log, c0. cbn [world_ set_world sleep_ms recorded_platform snd]. rewrite made_app, slept_app. split; [cbn; lia|done]. }
  destruct (reconnect_exhausted_ c) eqn:E5; (constructor; [by constructor|done|done|done|done|by rewrite ?app_nil_r| |]);
    cbn [fst ret ReportError modify]; try (by rewrite Nat.add_0_r); done.
Qed.
(** ** Turn after turn *)

Lemma turns_rest n c : down c → spent c = true → reconnect_exhausted_ c = true →
  down (turns n c) ∧ told (turns n c) = told c ∧ made (log (turns n c)) = made (log c) ∧
  slept (log (turns n c)) = slept (log c) + Z.of_nat n * kMaintainTick.
Proof.
  revert c; induction n as [|n IH]; intros c Hd Hs He; [by rewrite Z.add_0_r|]. cbn [turns].
  destruct (turn_spent c Hd Hs) as [F1 F2 F3 F4 F5 F6 F7 F8]. rewrite He, app_nil_r in F6.
  destruct (IH _ F1) as (G1 & G2 & G3 & G4); [unfold spent in *; by rewrite F2, F4|done|]. split_and!; [done|congruence|lia|lia].
Qed.

Lemma tries_spent n c : spent c = true → tries n c = O.
Proof.
  unfold spent, tries. intros (H1 & H2)%andb_true_iff. rewrite Z.geb_leb, Z.leb_le in H1, H2.
  rewrite (proj2 (Z.ltb_ge _ _)) by lia. lia.
Qed.

Lemma tries_more n c c' : spent c = false → reconnect_ c' = reconnect_ c → reconnect_attempt_ c' = reconnect_attempt_ c + 1 →
  tries (S n) c = S (tries n c').
Proof.
  unfold spent, tries. rewrite andb_false_iff, !Z.geb_leb, !Z.leb_gt. intros Hs -> ->. case_match; [done|].
  rewrite Z.ltb_ge in *. lia.
Qed.

(** C17: A server that is gone is tried as often as the configuration allows, and no
    more.  While no transport connects, each turn of the maintenance task asks for a
    transport to the same URL once and reports that attempt's error, until the retries
    are used up; then giving up is reported, once, with the number of attempts; and
    from then on no turn asks for a transport or says anything. A negative limit means
    every turn tries. All the while the task sleeps, a tick a turn and before each
    attempt the delay the schedule has for it, in whole ticks. *)
Theorem reconnection_ends (Hgone : unreachable) n c : down c → reconnect_exhausted_ c = false →
  0 <= reconnect_attempt_ c → (0 <= rc_max_retries (reconnect_ c) → reconnect_attempt_ c <= rc_max_retries (reconnect_ c)) →
  ∃ es, length es = tries n c ∧ down (turns n c) ∧
    told (turns n c) = told c ++ (NError <$> es) ++
      (if (tries n c <? n)%nat then [NError (gave_up (rc_max_retries (reconnect_ c)))] else []) ∧
    made (log (turns n c)) = (made (log c) + if parses (url_ c) then tries n c else 0)%nat ∧
    slept (log (turns n c)) = slept (log c) + Z.of_nat n * kMaintainTick + waiting (reconnect_ c) (reconnect_attempt_ c) (tries n c).
Proof.
  revert c; induction n as [|n IH]; intros c Hd He Hpos Hmax.
  { assert (tries 0 c = O) as -> by (unfold tries; by destruct (_ <? 0)). exists []. rewrite app_nil_r.
    split_and!; [done|done|done|by destruct (parses _)|by rewrite !Z.add_0_r]. }
  destruct (spent c) eqn:Hs; cbn [turns].
  - destruct (turn_spent c Hd Hs) as [F1 F2 F3 F4 F5 F6 F7 F8]. rewrite He in F6.
    destruct (turns_rest n _ F1) as (G1 & G2 & G3 & G4); [unfold spent in *; by rewrite F2, F4|done|].
    exists []. rewrite (tries_spent _ _ Hs). split_and!; [done|done| |by rewrite G3, F7; destruct (parses _)|cbn [waiting]; lia].
    rewrite G2, F6. cbn. do 3 f_equal. f_equal. unfold spent in Hs. apply andb_true_iff in Hs as (H1 & H2).
    rewrite Z.geb_leb, Z.leb_le in H1, H2. specialize (Hmax H1). lia.
  - destruct (turn_tries Hgone c Hd Hs) as (e & [F1 F2 F3 F4 F5 F6 F7 F8]). set (c1 := (MaintainTick sm fuel c).1) in *.
    destruct (IH c1) as (es & G1 & G2 & G3 & G4 & G5); [done|congruence|lia| |].
    { rewrite F2, F4. intros Hm. unfold spent in Hs. apply andb_false_iff in Hs. rewrite !Z.geb_leb, !Z.leb_gt in Hs. lia. }
    exists (e :: es). rewrite (tries_more n c c1) by done. split_and!; [by cbn; rewrite G1|done| | |].
    + rewrite G3, F6, F2, <- app_assoc. cbn. do 2 f_equal.
    + rewrite G4, F7, F3. destruct (parses _); lia.
    + rewrite G5, F8, F2, F4. cbn [waiting]. lia.
Qed.
End Reconnect.

(** * Witness *)

(** A network on which nothing connects. *)
Inductive nowhere := Nowhere.
#[export] Instance nowhere_transport : ITransport nowhere := {|
  make_transport _ _ w := (w, Ok ());
  tcp_connect _ _ w := (w, [], Err (net_error kConnectFailed "no route to host"));
  tcp_send _ w := (w, [], Err exhausted);
  tcp_disconnect w := w;
  await _ w := (w, []);
|}.
#[export] Instance nowhere_platform : IPlatform nowhere := {| now_ms _ := 0; random32 w := (w, 0); sleep_ms _ w := w; |}.

Definition lost_client : SoftwareWsClient (nowhere * list action) :=
  set_running (set_url (SetAutoReconnect (new_ws_client 10000 (Nowhere, [])) (MkReconnect true 2 1000 (float_of_Z 2) 30000))
    (lit "ws://h.example/") false) true.

Lemma reconnection_ends_witness : ∃ es, length es = 2%nat ∧ down (turns Size32 1 5 lost_client) ∧
  told (turns Size32 1 5 lost_client) = [] ++ (NError <$> es) ++ [NError (gave_up 2)] ∧
  made (log (turns Size32 1 5 lost_client)) = 2%nat ∧ slept (log (turns Size32 1 5 lost_client)) = 0 + 1000 + (1000 + (2000 + 0)).
Proof.
  apply (reconnection_ends Size32 1) with (n := 5%nat) (c := lost_client); [|by constructor|done|cbn; lia..].
  intros tls config host port []. by do 2 eexists.
Defined.
