(* ===== verification/ToolIo.v ===== *)
(** What the command-line probes under src/tools share: a serial port they write to
    and poll, a console, and the clock that bounds how long they watch.

    What the port answers to each [Receive], and how long it took, is a list of the
    model; once the list is used up nothing more arrives and a [Receive] times out.
    What a probe did is a list of events, in order. The second half is the other end
    of the line: how a module that takes data after [AT+CIPSEND] cuts what it hears. *)
From stdpp Require Import base decidable list strings gmap.
From Stdlib Require Import ZArith Ascii Lia.
From S2P Require Import Prelude.

Inductive tool_event := Printed (text : bytes) | Sent (data : bytes).

(** One answer to [Receive]: the milliseconds it took, and the bytes (none when it
    returned zero or less). *)
Record answer := MkAnswer { took : nat; came : bytes }.

Record desk := MkDesk { answers : list answer; clock_ms : Z; events : list tool_event }.

(** A step of a tool. [a >> b] is one after the other. *)
Abbreviation act := (desk → desk).
Definition seq_act (a b : act) : act := λ d, b (a d).
Declare Scope tool_scope.
Delimit Scope tool_scope with tool.
Notation "a >> b" := (seq_act a b) (at level 60, right associativity) : tool_scope.
Open Scope tool_scope.

Definition skip : act := λ d, d.
Definition put_event (e : tool_event) : act := λ d, MkDesk (answers d) (clock_ms d) (events d ++ [e]).
(** [std::printf], flushed; what [IUart::Send] returns is not looked at. *)
Definition printf (text : bytes) : act := put_event (Printed text).
Definition port_send (data : bytes) : act := put_event (Sent data).
(** [for (auto x : xs)] *)
Fixpoint for_each {A} (f : A → act) (xs : list A) : act :=
  match xs with [] => skip | x :: xs => f x >> for_each f xs end.

(** [uart.Receive(buffer, len, timeout)]: no more than was asked for. *)
Definition Receive (len : nat) (timeout : Z) (d : desk) : desk * bytes :=
  match answers d with
  | [] => (MkDesk [] (clock_ms d + timeout) (events d), [])
  | r :: rest => (MkDesk rest (clock_ms d + Z.of_nat (took r)) (events d), take len (came r))
  end.

(** [while (now() < deadline) body]; the body says whether it breaks out. *)
Fixpoint while_before {A} (fuel : nat) (deadline : Z) (body : desk * A → desk * A * bool) (s : desk * A) : desk * A :=
  match fuel with
  | O => s
  | S k =>
      if negb (clock_ms s.1 <? deadline) then s else
      let '(s, break) := body s in
      if break : bool then s else while_before k deadline body s
  end.
(** Every round takes an answer or a timeout, which is at least a millisecond. *)
Definition rounds (window : Z) (d : desk) : nat := S (length (answers d) + Z.to_nat window).

(** ** Text *)

(** [%6lld] and the like *)
Definition pad_left (n : nat) (s : bytes) : bytes := repeat " "%char (n - length s) ++ s.
Definition pad_right (n : nat) (s : bytes) : bytes := s ++ repeat " "%char (n - length s).

Definition upper_digit (n : Z) : ascii := nth (Z.to_nat n) (lit "0123456789ABCDEF") "0"%char.
(** [\x%02X] *)
Definition escaped (c : ascii) : bytes := lit "\x" ++ [upper_digit (Z.shiftr (b2z c) 4); upper_digit (Z.land (b2z c) 15)].
Definition printable (c : ascii) : bool := in_range 32 126 (b2z c).

(** [std::atoi]: white space, a sign, digits; the value of a run too long for an
    [int] is not defined, and not used here. *)
Definition atoi (s : bytes) : Z :=
  let s := drop_while isspace s in
  match s with
  | c :: s' =>
      if decide (c = "-"%char) then - digits_value 10 (digit_val <$> take_while isdigit s')
      else if decide (c = "+"%char) then digits_value 10 (digit_val <$> take_while isdigit s')
      else digits_value 10 (digit_val <$> take_while isdigit s)
  | [] => 0
  end.

(** ** What was sent *)

Definition sent_of (e : tool_event) : option bytes := match e with Sent b => Some b | Printed _ => None end.
Definition sent (d : desk) : list bytes := omap sent_of (events d).
Definition blank : desk := MkDesk [] 0 [].
(** What an action sends, when that does not depend on what arrives. *)
Definition script (a : act) : list bytes := sent (a blank).
Definition scripted (a : act) : Prop := ∀ d, sent (a d) = sent d ++ script a.

(** ** The other end of the line *)

(** What the module is taking: a line, or so many more bytes of data. *)
Inductive mode := InLine (acc : bytes) | InData (left : nat) (acc : bytes).

(** [AT+CIPSEND=<id>,<n>], as it goes over the line: the [n]. *)
Definition announces (line : bytes) : option nat :=
  if starts_with (lit "AT+CIPSEND=") line && ends_with CRLF line then
    let args := take (length line - 13) (drop 11 line) in
    match find_byte ","%char args with
    | Some i =>
        let n := drop (S i) args in
        if forallb isdigit n && bool_decide (n ≠ []) then Some (Z.to_nat (digits_value 10 (digit_val <$> n))) else None
    | None => None
    end
  else None.

(** A module that prompts for what is announced, one byte at a time: what it is
    taking, and the lines and the data it took, each in one piece. *)
Definition hear (s : mode * list bytes) (c : ascii) : mode * list bytes :=
  let '(m, ps) := s in
  match m with
  | InLine acc =>
      let acc := acc ++ [c] in
      if decide (c = LF) then
        (match announces acc with Some (S n) => InData (S n) [] | _ => InLine [] end, ps ++ [acc])
      else (InLine acc, ps)
  | InData (S (S n)) acc => (InData (S n) (acc ++ [c]), ps)
  | InData _ acc => (InLine [], ps ++ [acc ++ [c]])
  end.

Definition hears (s : bytes) : mode * list bytes := fold_left hear s (InLine [], []).

(** The module takes what was sent the way it was sent: one line or one payload for
    each [Send], and nothing left over. *)
Definition in_step (ws : list bytes) : Prop := hears (concat ws) = (InLine [], ws).
#[export] Instance mode_eq_dec : EqDecision mode.
Proof. solve_decision. Defined.
#[export] Instance in_step_dec ws : Decision (in_step ws) := decide (_ = _).

(** A tool that keeps in step, whatever arrives. *)
Definition talks (a : act) : Prop := scripted a ∧ in_step (script a).

(** ** Lemmas: sending *)

Lemma sent_printf t d : sent (printf t d) = sent d.
Proof. unfold sent, printf, put_event. cbn. by rewrite omap_app, app_nil_r. Qed.
Lemma sent_port_send b d : sent (port_send b d) = sent d ++ [b].
Proof. unfold sent, port_send, put_event. cbn. by rewrite omap_app. Qed.
Lemma sent_Receive len t d : sent (Receive len t d).1 = sent d.
Proof. unfold Receive. by destruct (answers d). Qed.
Lemma answers_printf t d : answers (printf t d) = answers d.
Proof. done. Qed.

(** What holds of the tool before a loop and is kept by its body holds after it. *)
Lemma while_before_keeps {A} (P : desk * A → Prop) deadline body fuel s :
  (∀ s, P s → P (body s).1) → P s → P (while_before fuel deadline body s).
Proof.
  intros Hb. revert s. induction fuel as [|k IH]; intros s Hs; [done|]. cbn.
  destruct (negb _); [done|]. specialize (Hb s Hs). destruct (body s) as [s' []]; [done|]. by apply IH.
Qed.

(** What is left of the time, and of the answers. *)
Definition remaining (deadline : Z) (d : desk) : nat := length (answers d) + Z.to_nat (deadline - clock_ms d).

(** A loop whose body makes progress ends: it broke out, or its time was up. *)
Lemma while_before_ends {A} deadline (body : desk * A → desk * A * bool) fuel s :
  (∀ s, clock_ms s.1 < deadline → (remaining deadline (body s).1.1 < remaining deadline s.1)%nat) →
  (remaining deadline s.1 < fuel)%nat →
  deadline <= clock_ms (while_before fuel deadline body s).1 ∨
  ∃ s0, (body s0).2 = true ∧ while_before fuel deadline body s = (body s0).1.
Proof.
  intros Hb. revert s. induction fuel as [|k IH]; intros s Hf; [lia|]. cbn.
  destruct (Z.ltb_spec (clock_ms s.1) deadline) as [Hc|Hc]; cbn [negb]; [|by left].
  specialize (Hb s Hc). destruct (body s) as [s' b] eqn:E; cbn in Hb. destruct b.
  - right. exists s. by rewrite E.
  - apply IH. lia.
Qed.

Lemma remaining_Receive deadline len timeout d : 0 < timeout → clock_ms d < deadline →
  (remaining deadline (Receive len timeout d).1 < remaining deadline d)%nat.
Proof. unfold remaining, Receive. intros. destruct (answers d) as [|r rest]; cbn; lia. Qed.

Lemma rounds_enough window d : (remaining (clock_ms d + window) d < rounds window d)%nat.
Proof. unfold remaining, rounds. replace (clock_ms d + window - clock_ms d) with window by lia. lia. Qed.

Lemma scripted_sent a d : scripted a → sent (a d) = sent d ++ script a.
Proof. intros H. apply H. Qed.

Lemma scripted_intro a ws : (∀ d, sent (a d) = sent d ++ ws) → scripted a ∧ script a = ws.
Proof.
  intros H. assert (script a = ws) as E by (unfold script; by rewrite H). split; [|done].
  intros d. by rewrite H, E.
Qed.
Lemma scripted_skip : scripted skip.
Proof. intros d. unfold script. cbn. by rewrite app_nil_r. Qed.
Lemma scripted_printf t : scripted (printf t).
Proof. apply (scripted_intro _ []). intros d. by rewrite sent_printf, app_nil_r. Qed.
Lemma scripted_port_send b : scripted (port_send b).
Proof. apply (scripted_intro _ [b]). apply sent_port_send. Qed.
Lemma seq_script a b : scripted a → scripted b → scripted (a >> b) ∧ script (a >> b) = script a ++ script b.
Proof. intros Ha Hb. apply scripted_intro. intros d. unfold seq_act. by rewrite Hb, Ha, app_assoc. Qed.
Lemma scripted_seq a b : scripted a → scripted b → scripted (a >> b).
Proof. intros. by apply seq_script. Qed.
Lemma script_seq a b : scripted a → scripted b → script (a >> b) = script a ++ script b.
Proof. intros. by apply seq_script. Qed.
Lemma scripted_for_each {A} (f : A → act) xs : (∀ x, scripted (f x)) → scripted (for_each f xs).
Proof. intros H. induction xs as [|x xs IH]; [apply scripted_skip|]. by apply scripted_seq. Qed.
Lemma scripted_if (b : bool) x y : scripted x → scripted y → scripted (if b then x else y).
Proof. by destruct b. Qed.

(** ** Lemmas: hearing *)

Lemma hear_pieces s m ps : fold_left hear s (m, ps) =
  ((fold_left hear s (m, [])).1, ps ++ (fold_left hear s (m, [])).2).
Proof.
  revert m ps. induction s as [|c s IH]; intros m ps; cbn [fold_left]; [by rewrite app_nil_r|].
  assert (hear (m, ps) c = ((hear (m, []) c).1, ps ++ (hear (m, []) c).2)) as E.
  { destruct m as [acc|[|[|n]] acc]; cbn; [case_decide| | |]; cbn; by rewrite ?app_nil_r. }
  rewrite E. destruct (hear (m, []) c) as [m' qs]; cbn. rewrite IH, (IH m' qs). cbn. by rewrite app_assoc.
Qed.

Lemma hears_app s t ws : hears s = (InLine [], ws) → hears (s ++ t) = ((hears t).1, ws ++ (hears t).2).
Proof. unfold hears. intros H. rewrite fold_left_app, H. apply hear_pieces. Qed.

Lemma in_step_nil : in_step [].
Proof. done. Qed.
Lemma in_step_app ws vs : in_step ws → in_step vs → in_step (ws ++ vs).
Proof. unfold in_step. intros Hw Hv. by rewrite concat_app, (hears_app _ _ _ Hw), Hv. Qed.

Lemma hear_in_line l acc ps : LF ∉ l → fold_left hear l (InLine acc, ps) = (InLine (acc ++ l), ps).
Proof.
  revert acc. induction l as [|c l IH]; intros acc H; cbn [fold_left]; [by rewrite app_nil_r|].
  cbn [hear]. rewrite decide_False by (intros ->; apply H; left). rewrite IH by (intros ?; apply H; by right).
  by rewrite <- app_assoc.
Qed.
Lemma hears_line l : LF ∉ l → hears (l ++ CRLF) =
  (match announces (l ++ CRLF) with Some (S n) => InData (S n) [] | _ => InLine [] end, [l ++ CRLF]).
Proof.
  intros H. unfold hears, CRLF. change [CR; LF] with ([CR] ++ [LF]). rewrite app_assoc, fold_left_app, hear_in_line.
  - cbn [fold_left hear app]. rewrite decide_True by done. done.
  - intros [?|[?|[]%elem_of_nil]%elem_of_cons]%elem_of_app; done.
Qed.
Lemma hear_data d acc ps : d ≠ [] → fold_left hear d (InData (length d) acc, ps) = (InLine [], ps ++ [acc ++ d]).
Proof.
  revert acc. induction d as [|c d IH]; intros acc H; [done|]. destruct d as [|c' d]; [done|].
  change (fold_left hear (c :: c' :: d) (InData (length (c :: c' :: d)) acc, ps)) with
    (fold_left hear (c' :: d) (InData (length (c' :: d)) (acc ++ [c]), ps)).
  rewrite IH by done. by rewrite <- app_assoc.
Qed.

Lemma in_step_line l : LF ∉ l → announces (l ++ CRLF) = None → in_step [l ++ CRLF].
Proof. intros H E. unfold in_step. cbn [concat]. by rewrite app_nil_r, hears_line, E. Qed.
Lemma in_step_data l d : LF ∉ l → d ≠ [] → announces (l ++ CRLF) = Some (length d) → in_step [l ++ CRLF; d].
Proof.
  intros H Hd E. unfold in_step. cbn [concat]. rewrite app_nil_r. pose proof (hears_line l H) as Hl. rewrite E in Hl.
  unfold hears in *. rewrite fold_left_app, Hl. destruct d as [|c d]; [done|].
  change (match length (c :: d) with O => InLine [] | S n => InData (S n) [] end) with (InData (length (c :: d)) []).
  by rewrite hear_data.
Qed.

(** The number announced is the one written. *)
Lemma announces_send id n : ","%char ∉ id → announces (lit "AT+CIPSEND=" ++ id ++ lit "," ++ to_string (Z.of_nat n) ++ CRLF) = Some n.
Proof.
  intros Hid. unfold announces. destruct (to_string_nonneg (Z.of_nat n)) as (H1 & H2 & H3); [lia|].
  set (ds := to_string (Z.of_nat n)) in *. rewrite starts_with_app. cbn [andb].
  assert (ends_with CRLF (lit "AT+CIPSEND=" ++ id ++ lit "," ++ ds ++ CRLF) = true) as ->.
  { unfold ends_with. rewrite !rev_app_distr, <- !app_assoc. apply starts_with_app. }
  replace (length (lit "AT+CIPSEND=" ++ id ++ lit "," ++ ds ++ CRLF) - 13)%nat with (length (id ++ lit "," ++ ds))
    by (rewrite !length_app; change (length (lit "AT+CIPSEND=")) with 11%nat; change (length CRLF) with 2%nat; lia).
  rewrite (drop_app_length' (lit "AT+CIPSEND=")) by done. rewrite !(app_assoc _ _ CRLF), take_app_length.
  change (lit "," ++ ds) with (","%char :: ds). rewrite find_byte_app by done.
  replace (S (length id)) with (length id + 1)%nat by lia. rewrite drop_app_S, H2, bool_decide_true by done. cbn [andb].
  by rewrite H3, Nat2Z.id.
Qed.

Lemma announces_other l : starts_with (lit "AT+CIPSEND=") l = false → announces l = None.
Proof. unfold announces. by intros ->. Qed.

(** ** Tools that keep in step *)

Lemma talks_skip : talks skip.
Proof. split; [apply scripted_skip|done]. Qed.
Lemma talks_printf t : talks (printf t).
Proof. split; [apply scripted_printf|]. done. Qed.
Lemma talks_silent a : (∀ d, sent (a d) = sent d) → talks a.
Proof. intros H. destruct (scripted_intro a []) as [Hs E]; [intros d; by rewrite H, app_nil_r|]. split; [done|by rewrite E]. Qed.
Lemma talks_seq a b : talks a → talks b → talks (a >> b).
Proof. intros [Ha Wa] [Hb Wb]. split; [by apply scripted_seq|]. rewrite script_seq by done. by apply in_step_app. Qed.
Lemma talks_for_each {A} (f : A → act) xs : (∀ x, talks (f x)) → talks (for_each f xs).
Proof. intros H. induction xs as [|x xs IH]; [apply talks_skip|]. by apply talks_seq. Qed.

(** No decimal number holds a line feed or a comma. *)
Lemma to_string_no c n : isdigit c = false → c ≠ "-"%char → c ∉ to_string n.
Proof.
  intros Hc Hm. assert (∀ n, 0 <= n → c ∉ to_string n) as Hpos.
  { intros k Hk Hin. destruct (to_string_nonneg k Hk) as (_ & Hd & _).
    apply list_elem_of_In in Hin. rewrite (proj1 (forallb_forall _ _) Hd c Hin) in Hc. done. }
  destruct (Z.lt_ge_cases n 0) as [Hn|Hn]; [|by apply Hpos].
  rewrite to_string_neg by done. apply not_elem_of_cons. split; [done|]. apply Hpos. lia.
Qed.

Lemma escaped_printable c : forallb printable (escaped c) = true.
Proof. byte_cases c. Qed.
