(* ===== verification/AirProbe.v ===== *)
(** The raw bring-up probe of the AIR780E (src/tools/air780e_probe.cpp): the class
    [Probe], its scenarios and [main]. The string literals are the source's.

    [start_] is the clock when the probe was made, against which arrivals are
    stamped. The labels and the watching windows are part of each step; what a step
    hears back is printed and, but for one question of the [recycle] scenario, not
    looked at. *)
From stdpp Require Import base decidable list strings gmap.
From Stdlib Require Import ZArith Ascii Lia.
From S2P Require Import Prelude AtParser ModemLink ToolIo.

Definition kReadChunk : Z := 512.

Definition visible (c : ascii) : bytes :=
  if decide (c = CR) then lit "\r"
  else if decide (c = LF) then lit "\n"
  else if decide (c = TAB) then lit "\t"
  else if printable c then [c]
  else escaped c.
Definition ToVisible (data : bytes) : bytes := data ≫= visible.

(** ** [class Probe] *)

Definition arrival_line (elapsed : Z) (data : bytes) : bytes :=
  lit "  [" ++ pad_left 6 (to_string elapsed) ++ lit " ms] " ++ ToVisible data ++ [LF].

(** One round of [Drain]'s loop; the flag is [saw_anything]. *)
Definition drain_round (start_ : Z) (s : desk * bool) : desk * bool * bool :=
  let '(d, saw_anything) := s in
  let '(d, data) := Receive 1024 50 d in
  if bool_decide (data = []) then (d, saw_anything, false)
  else (printf (arrival_line (clock_ms d - start_) data) d, true, false).

Definition drain_for (start_ window_ms : Z) (d : desk) : desk * bool :=
  while_before (rounds window_ms d) (clock_ms d + window_ms) (drain_round start_) (d, false).

Definition Drain (start_ window_ms : Z) (why : option bytes) (d : desk) : desk * bool :=
  let d := match why with
           | Some why => printf (lit "  ... watching " ++ to_string window_ms ++ lit " ms for " ++ why ++ [LF]) d
           | None => d
           end in
  drain_for start_ window_ms d.

(** [probe.Drain(...)] with its result dropped *)
Definition Drained (start_ window_ms : Z) (why : option bytes) : act := λ d, (Drain start_ window_ms why d).1.

Definition Step (start_ : Z) (label line : bytes) (window_ms : Z) : act :=
  printf ([LF] ++ lit ">>> " ++ label ++ lit ": " ++ line ++ [LF]) >>
  port_send (line ++ CRLF) >>
  Drained start_ window_ms None.

Definition Payload (start_ : Z) (label data : bytes) (window_ms : Z) : act :=
  printf ([LF] ++ lit ">>> " ++ label ++ lit " (" ++ to_string (Z.of_nat (length data)) ++ lit " bytes): " ++ ToVisible data ++ [LF]) >>
  port_send data >>
  Drained start_ window_ms None.

Definition Section_ (title : bytes) : act := printf ([LF] ++ lit "=== " ++ title ++ lit " ===" ++ [LF]).

Definition CleanSlate (start_ : Z) : act :=
  Section_ (lit "clean slate") >>
  Step start_ (lit "echo off") (lit "ATE0") 400 >>
  Step start_ (lit "reset the ip stack") (lit "AT+CIPSHUT") 4000.

Definition EnterDataModes (start_ : Z) (report_every_arrival : bool) : act :=
  Section_ (lit "data modes") >>
  Step start_ (lit "multi-socket") (lit "AT+CIPMUX=1") 400 >>
  Step start_ (lit "read back the mux") (lit "AT+CIPMUX?") 400 >>
  Step start_ (if report_every_arrival then lit "manual receive, report on every arrival" else lit "manual receive, quiet")
    (if report_every_arrival then lit "AT+CIPRXGET=5" else lit "AT+CIPRXGET=1") 400 >>
  Step start_ (lit "read back the receive mode") (lit "AT+CIPRXGET?") 400 >>
  Step start_ (lit "the receive form's range") (lit "AT+CIPRXGET=?") 800.

Definition ReadRounds (start_ id : Z) (rounds : nat) : act :=
  for_each (λ i,
    printf ([LF] ++ lit "--- read round " ++ to_string (Z.of_nat i + 1) ++ lit " of " ++ to_string (Z.of_nat rounds) ++ lit " ---" ++ [LF]) >>
    Step start_ (lit "unread count") (lit "AT+CIPRXGET=4," ++ to_string id) 800 >>
    Step start_ (lit "read " ++ to_string kReadChunk ++ lit " as hex")
      (lit "AT+CIPRXGET=3," ++ to_string id ++ lit "," ++ to_string kReadChunk) 2500) (seq 0 rounds).

Definition Close (start_ id : Z) : act := Step start_ (lit "close") (lit "AT+CIPCLOSE=" ++ to_string id) 1500.

Definition Restore (start_ : Z) : act :=
  Section_ (lit "restore defaults") >>
  Step start_ (lit "reset the ip stack") (lit "AT+CIPSHUT") 3000 >>
  Step start_ (lit "read back the mux") (lit "AT+CIPMUX?") 600 >>
  Step start_ (lit "single-socket mode") (lit "AT+CIPMUX=0") 800 >>
  Step start_ (lit "read back the mux") (lit "AT+CIPMUX?") 600 >>
  Step start_ (lit "hand data over on arrival") (lit "AT+CIPRXGET=0") 400 >>
  Step start_ (lit "no per-socket TLS") (lit "AT+CIPSSL=0") 400 >>
  Step start_ (lit "no source address prefix") (lit "AT+CIPSRIP=0") 400.

(** ** The scenarios *)

Definition kDnsQuery : bytes :=
  (z2b <$> [0x12; 0x34; 0x01; 0x00; 0x00; 0x01; 0x00; 0x00; 0x00; 0x00; 0x00; 0x00]) ++
  [z2b 3] ++ lit "www" ++ [z2b 5] ++ lit "baidu" ++ [z2b 3] ++ lit "com" ++
  (z2b <$> [0x00; 0x00; 0x01; 0x00; 0x01]).

Definition Http10Request (host : bytes) : bytes :=
  lit "GET / HTTP/1.0" ++ CRLF ++ lit "Host: " ++ host ++ CRLF ++ CRLF.

Definition ScenarioReset (start_ : Z) : act :=
  Section_ (lit "what is the module holding before anything is asked of it") >>
  Step start_ (lit "echo off") (lit "ATE0") 400 >>
  Step start_ (lit "status") (lit "AT+CIPSTATUS") 1500 >>
  Step start_ (lit "read back the mux") (lit "AT+CIPMUX?") 600 >>
  Section_ (lit "can a whole-stack reset clear it") >>
  Step start_ (lit "reset the ip stack") (lit "AT+CIPSHUT") 5000 >>
  Step start_ (lit "status") (lit "AT+CIPSTATUS") 1500 >>
  Step start_ (lit "read back the mux") (lit "AT+CIPMUX?") 600 >>
  Section_ (lit "now that the stack is clean, does the mux move") >>
  Step start_ (lit "multi-socket") (lit "AT+CIPMUX=1") 1200 >>
  Step start_ (lit "read back the mux") (lit "AT+CIPMUX?") 600 >>
  Step start_ (lit "single-socket") (lit "AT+CIPMUX=0") 1200 >>
  Step start_ (lit "read back the mux") (lit "AT+CIPMUX?") 600 >>
  Step start_ (lit "multi-socket again") (lit "AT+CIPMUX=1") 1200 >>
  Step start_ (lit "read back the mux") (lit "AT+CIPMUX?") 600 >>
  Section_ (lit "does the reset survive an open socket") >>
  Step start_ (lit "connect") (lit "AT+CIPSTART=0," ++ quoted (lit "TCP") ++ lit "," ++ quoted (lit "www.baidu.com") ++ lit ",80") 5000 >>
  Step start_ (lit "reset while a socket is up") (lit "AT+CIPSHUT") 5000 >>
  Step start_ (lit "status") (lit "AT+CIPSTATUS") 1500.

Definition ScenarioTcp (start_ : Z) (host : bytes) (port : Z) : act :=
  CleanSlate start_ >>
  EnterDataModes start_ true >>
  Section_ (lit "open") >>
  Step start_ (lit "connect") (lit "AT+CIPSTART=0," ++ quoted (lit "TCP") ++ lit "," ++ quoted host ++ lit "," ++ to_string port) 4000 >>
  Section_ (lit "send: the prompt's framing is the point") >>
  let request := Http10Request host in
  Step start_ (lit "announce length") (lit "AT+CIPSEND=0," ++ to_string (Z.of_nat (length request))) 1200 >>
  Payload start_ (lit "payload") request 4000 >>
  Section_ (lit "read: is data pushed, and what does a pull return?") >>
  ReadRounds start_ 0 4 >>
  Section_ (lit "close") >>
  Close start_ 0.

Definition ScenarioState (start_ : Z) : act :=
  CleanSlate start_ >>
  EnterDataModes start_ true >>
  Section_ (lit "ask about a cid that was never opened") >>
  Step start_ (lit "unread count on a free cid") (lit "AT+CIPRXGET=4,3") 800 >>
  Step start_ (lit "read on a free cid") (lit "AT+CIPRXGET=3,3,64") 1500 >>
  Step start_ (lit "unread count on another free cid") (lit "AT+CIPRXGET=4,5") 800 >>
  Step start_ (lit "close a cid that was never opened") (lit "AT+CIPCLOSE=3") 1500 >>
  Section_ (lit "open, then ask again about the same cid") >>
  Step start_ (lit "connect") (lit "AT+CIPSTART=3," ++ quoted (lit "TCP") ++ lit "," ++ quoted (lit "www.baidu.com") ++ lit ",80") 4000 >>
  Step start_ (lit "unread count on a taken cid") (lit "AT+CIPRXGET=4,3") 800 >>
  Step start_ (lit "status while one link is up") (lit "AT+CIPSTATUS") 1500 >>
  Section_ (lit "open on a cid the module has already occupied") >>
  Step start_ (lit "connect again on the same cid") (lit "AT+CIPSTART=3," ++ quoted (lit "TCP") ++ lit "," ++ quoted (lit "www.baidu.com") ++ lit ",80") 4000 >>
  Section_ (lit "open where the peer cannot be reached") >>
  Step start_ (lit "connect to an unroutable address") (lit "AT+CIPSTART=4," ++ quoted (lit "TCP") ++ lit "," ++ quoted (lit "192.0.2.1") ++ lit ",80") 12000 >>
  Section_ (lit "open where the name does not resolve") >>
  Step start_ (lit "connect to a name that does not exist") (lit "AT+CIPSTART=5," ++ quoted (lit "TCP") ++ lit "," ++ quoted (lit "no-such-host.invalid") ++ lit ",80") 12000 >>
  Section_ (lit "clean up") >>
  Close start_ 3 >>
  Close start_ 4 >>
  Close start_ 5.

Definition ScenarioReadLen (start_ : Z) : act :=
  CleanSlate start_ >>
  EnterDataModes start_ true >>
  Step start_ (lit "connect") (lit "AT+CIPSTART=0," ++ quoted (lit "TCP") ++ lit "," ++ quoted (lit "www.baidu.com") ++ lit ",80") 6000 >>
  let request := Http10Request (lit "www.baidu.com") in
  Step start_ (lit "announce length") (lit "AT+CIPSEND=0," ++ to_string (Z.of_nat (length request))) 1200 >>
  Payload start_ (lit "payload") request 8000 >>
  Section_ (lit "how much will one read hand back") >>
  Step start_ (lit "unread count") (lit "AT+CIPRXGET=4,0") 800 >>
  for_each (λ len,
    Step start_ (lit "read " ++ to_string len) (lit "AT+CIPRXGET=3,0," ++ to_string len) 3000 >>
    Step start_ (lit "unread count") (lit "AT+CIPRXGET=4,0") 600) [767; 750; 720; 701] >>
  Section_ (lit "can a read be issued without asking how much is waiting?") >>
  Step start_ (lit "close") (lit "AT+CIPCLOSE=0") 2000 >>
  Step start_ (lit "connect a fresh socket") (lit "AT+CIPSTART=1," ++ quoted (lit "TCP") ++ lit "," ++ quoted (lit "www.baidu.com") ++ lit ",80") 6000 >>
  Step start_ (lit "read with nothing queued") (lit "AT+CIPRXGET=3,1,512") 2500 >>
  Step start_ (lit "count with nothing queued") (lit "AT+CIPRXGET=4,1") 800 >>
  Step start_ (lit "close") (lit "AT+CIPCLOSE=1") 2000.

Definition ScenarioRecycle (start_ : Z) : act :=
  CleanSlate start_ >>
  EnterDataModes start_ true >>
  Section_ (lit "a cid that closed cleanly, used again at once") >>
  Step start_ (lit "connect") (lit "AT+CIPSTART=0," ++ quoted (lit "TCP") ++ lit "," ++ quoted (lit "www.baidu.com") ++ lit ",80") 6000 >>
  Step start_ (lit "connect again while it is held") (lit "AT+CIPSTART=0," ++ quoted (lit "TCP") ++ lit "," ++ quoted (lit "www.baidu.com") ++ lit ",80") 3000 >>
  Step start_ (lit "close") (lit "AT+CIPCLOSE=0") 3000 >>
  Step start_ (lit "reopen immediately after the close") (lit "AT+CIPSTART=0," ++ quoted (lit "TCP") ++ lit "," ++ quoted (lit "www.baidu.com") ++ lit ",80") 6000 >>
  Step start_ (lit "status") (lit "AT+CIPSTATUS") 1500 >>
  Step start_ (lit "close") (lit "AT+CIPCLOSE=0") 3000 >>
  Section_ (lit "a cid whose connect failed, used again") >>
  Step start_ (lit "connect to a name that does not exist") (lit "AT+CIPSTART=1," ++ quoted (lit "TCP") ++ lit "," ++ quoted (lit "no-such-host.invalid") ++ lit ",80") 14000 >>
  Step start_ (lit "status after the failure") (lit "AT+CIPSTATUS") 1500 >>
  Step start_ (lit "reuse the failed cid") (lit "AT+CIPSTART=1," ++ quoted (lit "TCP") ++ lit "," ++ quoted (lit "www.baidu.com") ++ lit ",80") 6000 >>
  Step start_ (lit "close") (lit "AT+CIPCLOSE=1") 3000 >>
  Section_ (lit "a cid the peer closed, watched for a notification") >>
  Step start_ (lit "connect") (lit "AT+CIPSTART=2," ++ quoted (lit "TCP") ++ lit "," ++ quoted (lit "www.baidu.com") ++ lit ",80") 6000 >>
  let request := lit "HEAD / HTTP/1.0" ++ CRLF ++ lit "Host: www.baidu.com" ++ CRLF ++ CRLF in
  Step start_ (lit "announce length") (lit "AT+CIPSEND=2," ++ to_string (Z.of_nat (length request))) 1200 >>
  Payload start_ (lit "payload") request 4000 >>
  Section_ (lit "read the headers, then wait to be told the peer has gone") >>
  for_each (λ _ : nat,
    Step start_ (lit "unread count") (lit "AT+CIPRXGET=4,2") 600 >>
    Step start_ (lit "read") (lit "AT+CIPRXGET=3,2," ++ to_string kReadChunk) 2000) (seq 0 4) >>
  (λ d, let '(d, saw_close) := Drain start_ 20000 (Some (lit "a close notification after the body was drained")) d in
    if saw_close then d
    else printf (lit "  ... nothing arrived: a peer close may be reported only on the next" ++ [LF] ++
                 lit "      attempted operation, which the queries below test" ++ [LF]) d) >>
  Section_ (lit "what the module says now that the peer has gone") >>
  Step start_ (lit "unread count after the peer closed") (lit "AT+CIPRXGET=4,2") 1500 >>
  Step start_ (lit "read after the peer closed") (lit "AT+CIPRXGET=3,2,64") 2000 >>
  Step start_ (lit "status after the peer closed") (lit "AT+CIPSTATUS") 1500 >>
  Step start_ (lit "send after the peer closed") (lit "AT+CIPSEND=2,4") 1500 >>
  Payload start_ (lit "payload") (lit "ping") 2000 >>
  Section_ (lit "a cid the peer closed, used again") >>
  Step start_ (lit "close") (lit "AT+CIPCLOSE=2") 3000 >>
  Step start_ (lit "reopen") (lit "AT+CIPSTART=2," ++ quoted (lit "TCP") ++ lit "," ++ quoted (lit "www.baidu.com") ++ lit ",80") 6000 >>
  Step start_ (lit "close") (lit "AT+CIPCLOSE=2") 3000.

Definition ScenarioPush (start_ : Z) : act :=
  CleanSlate start_ >>
  EnterDataModes start_ false >>
  Section_ (lit "let the module hand data over on its own") >>
  Step start_ (lit "auto receive") (lit "AT+CIPRXGET=0") 400 >>
  Step start_ (lit "read back the receive mode") (lit "AT+CIPRXGET?") 400 >>
  Step start_ (lit "connect") (lit "AT+CIPSTART=0," ++ quoted (lit "TCP") ++ lit "," ++ quoted (lit "www.baidu.com") ++ lit ",80") 4000 >>
  let request := Http10Request (lit "www.baidu.com") in
  Step start_ (lit "announce length") (lit "AT+CIPSEND=0," ++ to_string (Z.of_nat (length request))) 1200 >>
  Payload start_ (lit "payload") request 3000 >>
  Section_ (lit "what the module pushed") >>
  Drained start_ 8000 (Some (lit "pushed data")) >>
  Step start_ (lit "status") (lit "AT+CIPSTATUS") 1500 >>
  Close start_ 0.

Definition ScenarioTls (start_ : Z) : act :=
  CleanSlate start_ >>
  EnterDataModes start_ true >>
  Section_ (lit "the configuration surface") >>
  Step start_ (lit "per-socket TLS switch") (lit "AT+CIPSSL?") 800 >>
  Step start_ (lit "per-socket TLS switch params") (lit "AT+CIPSSL=?") 800 >>
  Step start_ (lit "ssl configuration table") (lit "AT+SSLCFG?") 1500 >>
  Step start_ (lit "ssl configuration params") (lit "AT+SSLCFG=?") 800 >>
  Step start_ (lit "installed certificates") (lit "AT+CCERTLIST") 1500 >>
  Section_ (lit "can a switch be written, and does it stick?") >>
  Step start_ (lit "switch socket 0 to TLS") (lit "AT+CIPSSL=0,1") 1000 >>
  Step start_ (lit "per-socket TLS switch") (lit "AT+CIPSSL?") 800 >>
  Step start_ (lit "ssl configuration table") (lit "AT+SSLCFG?") 1500 >>
  Section_ (lit "open a TLS port with the switch set") >>
  Step start_ (lit "connect") (lit "AT+CIPSTART=0," ++ quoted (lit "TCP") ++ lit "," ++ quoted (lit "www.baidu.com") ++ lit ",443") 6000 >>
  Step start_ (lit "status") (lit "AT+CIPSTATUS") 1500 >>
  Section_ (lit "is the session actually encrypted?") >>
  let request := Http10Request (lit "www.baidu.com") in
  Step start_ (lit "announce length") (lit "AT+CIPSEND=0," ++ to_string (Z.of_nat (length request))) 1500 >>
  Payload start_ (lit "payload") request 4000 >>
  ReadRounds start_ 0 3 >>
  Close start_ 0 >>
  Step start_ (lit "switch socket 0 back to plain") (lit "AT+CIPSSL=0,0") 800.

Definition kQueries : list (bytes * bytes) :=
  [(lit "the plain switch, global form", lit "AT+CIPSSL=1");
   (lit "the plain switch", lit "AT+CIPSSL?");
   (lit "the reported switch range", lit "AT+CIPSSL=?");
   (lit "the ssl socket family, settings", lit "AT+CSSLCFG?");
   (lit "the ssl socket family, settings range", lit "AT+CSSLCFG=?");
   (lit "the ssl socket family, open", lit "AT+CCHOPEN=?");
   (lit "the ssl socket family, send", lit "AT+CCHSEND=?");
   (lit "the ssl socket family, close", lit "AT+CCHCLOSE=?");
   (lit "the ssl socket family, status", lit "AT+CCHSTATUS?");
   (lit "the certificate list", lit "AT+CCERTLIST?");
   (lit "the certificate count", lit "AT+CCERTCNT?");
   (lit "whether a certificate can be written", lit "AT+CCERTDOWN=?");
   (lit "the older ssl table", lit "AT+SSLCFG?");
   (lit "the older ssl table range", lit "AT+SSLCFG=?")].

Definition kWrites : list (bytes * bytes) :=
  [(lit "set the tls version", lit "AT+CSSLCFG=" ++ quoted (lit "sslversion") ++ lit ",0,4");
   (lit "set the auth level", lit "AT+CSSLCFG=" ++ quoted (lit "authmode") ++ lit ",0,0");
   (lit "set the tls version, older spelling", lit "AT+SSLCFG=" ++ quoted (lit "sslversion") ++ lit ",0,4")].

Definition ScenarioTlsApi (start_ : Z) : act :=
  CleanSlate start_ >>
  for_each (λ query, Step start_ query.1 query.2 900) kQueries >>
  Section_ (lit "write forms, so a table that is empty is not read as absent") >>
  for_each (λ write, Step start_ write.1 write.2 900) kWrites >>
  Step start_ (lit "the ssl socket family, settings") (lit "AT+CSSLCFG?") 1200 >>
  Step start_ (lit "the older ssl table") (lit "AT+SSLCFG?") 1200.

Definition ScenarioTlsUse (start_ : Z) (host : bytes) (port : Z) : act :=
  CleanSlate start_ >>
  EnterDataModes start_ true >>
  Section_ (lit "set the switch the way this firmware accepts it") >>
  Step start_ (lit "the tls version") (lit "AT+SSLCFG=" ++ quoted (lit "sslversion") ++ lit ",0,4") 900 >>
  Step start_ (lit "turn tls on") (lit "AT+CIPSSL=1") 900 >>
  Step start_ (lit "read it back") (lit "AT+CIPSSL?") 900 >>
  Section_ (lit "open an https port with the switch on") >>
  Step start_ (lit "connect") (lit "AT+CIPSTART=0," ++ quoted (lit "TCP") ++ lit "," ++ quoted host ++ lit "," ++ to_string port) 15000 >>
  Section_ (lit "send a plaintext request and see if it comes back readable") >>
  let request := Http10Request host in
  Step start_ (lit "announce length") (lit "AT+CIPSEND=0," ++ to_string (Z.of_nat (length request))) 1500 >>
  Payload start_ (lit "payload") request 6000 >>
  ReadRounds start_ 0 3 >>
  Step start_ (lit "close") (lit "AT+CIPCLOSE=0") 3000 >>
  Section_ (lit "is the switch per socket or for all of them") >>
  Step start_ (lit "connect a plain port with tls still on") (lit "AT+CIPSTART=1," ++ quoted (lit "TCP") ++ lit "," ++ quoted host ++ lit ",80") 6000 >>
  let plain := Http10Request host in
  Step start_ (lit "announce length") (lit "AT+CIPSEND=1," ++ to_string (Z.of_nat (length plain))) 1500 >>
  Payload start_ (lit "payload") plain 6000 >>
  Step start_ (lit "unread count") (lit "AT+CIPRXGET=4,1") 900 >>
  Step start_ (lit "read") (lit "AT+CIPRXGET=3,1," ++ to_string kReadChunk) 2500 >>
  Step start_ (lit "close") (lit "AT+CIPCLOSE=1") 3000 >>
  Step start_ (lit "turn tls off") (lit "AT+CIPSSL=0") 900 >>
  Step start_ (lit "read it back") (lit "AT+CIPSSL?") 900.

Definition ScenarioCloseDrain (start_ : Z) (host : bytes) (port : Z) : act :=
  CleanSlate start_ >>
  EnterDataModes start_ true >>
  Section_ (lit "open a plain socket") >>
  Step start_ (lit "connect") (lit "AT+CIPSTART=0," ++ quoted (lit "TCP") ++ lit "," ++ quoted host ++ lit "," ++ to_string port) 10000 >>
  Section_ (lit "ask for something bigger than one read") >>
  let request := Http10Request host in
  Step start_ (lit "announce length") (lit "AT+CIPSEND=0," ++ to_string (Z.of_nat (length request))) 1500 >>
  Payload start_ (lit "payload") request 4000 >>
  Section_ (lit "read once, leaving data behind") >>
  Step start_ (lit "wait for the arrival") (lit "AT+CIPRXGET=4,0") 4000 >>
  Step start_ (lit "read 512") (lit "AT+CIPRXGET=3,0,512") 3000 >>
  Section_ (lit "let the peer close while data is still buffered") >>
  Step start_ (lit "idle") (lit "AT") 4000 >>
  Step start_ (lit "idle") (lit "AT") 4000 >>
  Step start_ (lit "idle") (lit "AT") 4000 >>
  Section_ (lit "is anything still readable?") >>
  Step start_ (lit "unread count") (lit "AT+CIPRXGET=4,0") 1500 >>
  Step start_ (lit "read 512") (lit "AT+CIPRXGET=3,0,512") 3000 >>
  Step start_ (lit "unread count") (lit "AT+CIPRXGET=4,0") 1500 >>
  Step start_ (lit "read 512") (lit "AT+CIPRXGET=3,0,512") 3000 >>
  Section_ (lit "is a fresh connect on the same cid allowed?") >>
  Step start_ (lit "reconnect") (lit "AT+CIPSTART=0," ++ quoted (lit "TCP") ++ lit "," ++ quoted host ++ lit "," ++ to_string port) 10000 >>
  Restore start_.

Definition ScenarioTlsRead (start_ : Z) (host : bytes) (port : Z) (path : bytes) (count_each_round : bool) : act :=
  CleanSlate start_ >>
  EnterDataModes start_ true >>
  Section_ (lit "the switch this firmware accepts") >>
  Step start_ (lit "the tls version") (lit "AT+SSLCFG=" ++ quoted (lit "sslversion") ++ lit ",0,4") 900 >>
  Step start_ (lit "turn tls on") (lit "AT+CIPSSL=1") 900 >>
  Step start_ (lit "read it back") (lit "AT+CIPSSL?") 900 >>
  Section_ (lit "open the tls port") >>
  Step start_ (lit "connect") (lit "AT+CIPSTART=0," ++ quoted (lit "TCP") ++ lit "," ++ quoted host ++ lit "," ++ to_string port) 15000 >>
  Section_ (lit "ask for the page") >>
  let request := lit "GET " ++ path ++ lit " HTTP/1.0" ++ CRLF ++ lit "Host: " ++ host ++ CRLF ++ CRLF in
  Step start_ (lit "announce length") (lit "AT+CIPSEND=0," ++ to_string (Z.of_nat (length request))) 1500 >>
  Payload start_ (lit "payload") request 6000 >>
  Section_ (lit "read until the socket runs dry, watching the count as well") >>
  let chunk := to_string kReadChunk in
  for_each (λ round,
    printf ([LF] ++ lit "--- round " ++ to_string (Z.of_nat round + 1) ++ lit ", " ++
            to_string (Z.of_nat round * kReadChunk) ++ lit " byte(s) so far ---" ++ [LF]) >>
    (if count_each_round then Step start_ (lit "unread count") (lit "AT+CIPRXGET=4,0") 400 else skip) >>
    Step start_ (lit "read") (lit "AT+CIPRXGET=3,0," ++ chunk) 700) (seq 0 90) >>
  Section_ (lit "what is left afterwards") >>
  Step start_ (lit "unread count") (lit "AT+CIPRXGET=4,0") 900 >>
  Step start_ (lit "one more read") (lit "AT+CIPRXGET=3,0," ++ chunk) 1500 >>
  Step start_ (lit "unread count") (lit "AT+CIPRXGET=4,0") 900 >>
  Step start_ (lit "is the cid writable still") (lit "AT+CIPSEND=0,4") 1500 >>
  Restore start_.

Definition ScenarioUdp (start_ : Z) : act :=
  CleanSlate start_ >>
  EnterDataModes start_ true >>
  Section_ (lit "ask for the source address of each datagram") >>
  Step start_ (lit "report the source") (lit "AT+CIPSRIP=1") 600 >>
  Step start_ (lit "read it back") (lit "AT+CIPSRIP?") 600 >>
  Section_ (lit "open a UDP socket against a public resolver") >>
  Step start_ (lit "connect") (lit "AT+CIPSTART=0," ++ quoted (lit "UDP") ++ lit "," ++ quoted (lit "114.114.114.114") ++ lit ",53") 4000 >>
  Section_ (lit "send a DNS query") >>
  Step start_ (lit "announce length") (lit "AT+CIPSEND=0," ++ to_string (Z.of_nat (length kDnsQuery))) 1200 >>
  Payload start_ (lit "dns query") kDnsQuery 4000 >>
  Section_ (lit "read the answer") >>
  ReadRounds start_ 0 2 >>
  Section_ (lit "can the module name the peer without AT+CIPSRIP?") >>
  Step start_ (lit "report the source") (lit "AT+CIPSRIP=0") 600 >>
  Close start_ 0 >>
  Step start_ (lit "connect again") (lit "AT+CIPSTART=0," ++ quoted (lit "UDP") ++ lit "," ++ quoted (lit "114.114.114.114") ++ lit ",53") 4000 >>
  Step start_ (lit "announce length") (lit "AT+CIPSEND=0," ++ to_string (Z.of_nat (length kDnsQuery))) 1200 >>
  Payload start_ (lit "dns query") kDnsQuery 4000 >>
  ReadRounds start_ 0 2 >>
  Close start_ 0.

Definition ScenarioMisc (start_ : Z) : act :=
  CleanSlate start_ >>
  Section_ (lit "identity") >>
  Step start_ (lit "model") (lit "AT+CGMR") 800 >>
  Step start_ (lit "imei, quoted") (lit "AT+CGSN=1") 800 >>
  Step start_ (lit "imei, bare") (lit "AT+CGSN") 800 >>
  Step start_ (lit "iccid") (lit "AT+ICCID") 800 >>
  Step start_ (lit "sim") (lit "AT+CPIN?") 800 >>
  Section_ (lit "network") >>
  Step start_ (lit "signal") (lit "AT+CSQ") 800 >>
  Step start_ (lit "registration") (lit "AT+CEREG?") 800 >>
  Step start_ (lit "operator") (lit "AT+COPS?") 3000 >>
  Step start_ (lit "attached") (lit "AT+CGATT?") 1500 >>
  Section_ (lit "apn") >>
  Step start_ (lit "pdp contexts") (lit "AT+CGDCONT?") 1500 >>
  Step start_ (lit "activation state") (lit "AT+CGACT?") 1500 >>
  Step start_ (lit "the cstt form") (lit "AT+CSTT?") 800 >>
  Step start_ (lit "the cstt params") (lit "AT+CSTT=?") 800 >>
  Section_ (lit "power and rate") >>
  Step start_ (lit "functionality") (lit "AT+CFUN?") 1200 >>
  Step start_ (lit "sleep modes") (lit "AT+CSCLK=?") 800 >>
  Step start_ (lit "sleep mode now") (lit "AT+CSCLK?") 800 >>
  Step start_ (lit "rate now") (lit "AT+IPR?") 800 >>
  Step start_ (lit "rates supported") (lit "AT+IPR=?") 1500 >>
  Step start_ (lit "the cipsend ack mode") (lit "AT+CIPQSEND?") 800 >>
  Step start_ (lit "the receive mode") (lit "AT+CIPRXGET?") 800 >>
  Step start_ (lit "whether a header is added") (lit "AT+CIPHEAD?") 800 >>
  Step start_ (lit "the mux") (lit "AT+CIPMUX?") 800.

(** ** [main] *)

(** [argc > i ? argv[i] : dflt]; the arguments are numbered from the program's name. *)
Definition arg (args : list bytes) (i : nat) (dflt : bytes) : bytes := default dflt (args !! i).
Definition arg_int (args : list bytes) (i : nat) (dflt : Z) : Z := default dflt (atoi <$> args !! i).

(** The scenario a name asks for. *)
Definition run_scenario (start_ : Z) (scenario : bytes) (args : list bytes) : option act :=
  let host := arg args 4 (lit "www.baidu.com") in
  if decide (scenario = lit "tcp") then Some (ScenarioTcp start_ (lit "www.baidu.com") 80)
  else if decide (scenario = lit "state") then Some (ScenarioState start_)
  else if decide (scenario = lit "recycle") then Some (ScenarioRecycle start_)
  else if decide (scenario = lit "readlen") then Some (ScenarioReadLen start_)
  else if decide (scenario = lit "push") then Some (ScenarioPush start_)
  else if decide (scenario = lit "tls") then Some (ScenarioTls start_)
  else if decide (scenario = lit "tlsapi") then Some (ScenarioTlsApi start_)
  else if decide (scenario = lit "tlsuse") then Some (ScenarioTlsUse start_ host (arg_int args 5 443))
  else if decide (scenario = lit "closedrain") then Some (ScenarioCloseDrain start_ host (arg_int args 5 80))
  else if decide (scenario = lit "tlsread") then Some (ScenarioTlsRead start_ host (arg_int args 5 443) (arg args 6 (lit "/")) true)
  else if decide (scenario = lit "tlsfast") then Some (ScenarioTlsRead start_ host (arg_int args 5 443) (arg args 6 (lit "/")) false)
  else if decide (scenario = lit "udp") then Some (ScenarioUdp start_)
  else if decide (scenario = lit "reset") then Some (ScenarioReset start_)
  else if decide (scenario = lit "misc") then Some (ScenarioMisc start_)
  else None.

(** [opened] is whether the port could be opened; the result is the exit code. *)
Definition main (opened : bool) (args : list bytes) (d : desk) : desk * Z :=
  let port := arg args 1 (lit "COM4") in
  let scenario := arg args 2 (lit "tcp") in
  let baud := arg_int args 3 115200 in
  if negb opened then (printf (lit "Could not open " ++ port ++ [LF]) d, 1) else
  let start_ := clock_ms d in
  let d := printf (lit "Air780E probe on " ++ port ++ lit " at " ++ to_string baud ++ lit " baud, scenario '" ++ scenario ++ lit "'" ++ [LF]) d in
  match run_scenario start_ scenario args with
  | None => (printf (lit "Unknown scenario '" ++ scenario ++ lit "'" ++ [LF]) d, 2)
  | Some run => (Restore start_ (run d), 0)
  end.

(** ** Watching *)

(** What a watch shows of the answers it takes: those that carried bytes, with the
    time they came. *)
Fixpoint arrivals (now : Z) (taken : list answer) : list (Z * bytes) :=
  match taken with
  | [] => []
  | r :: taken =>
      let now := now + Z.of_nat (took r) in
      let data := take 1024 (came r) in
      (if bool_decide (data = []) then [] else [(now, data)]) ++ arrivals now taken
  end.

Lemma drain_for_ends start_ window d : window <= clock_ms (drain_for start_ window d).1 - clock_ms d.
Proof.
  unfold drain_for. destruct (while_before_ends (clock_ms d + window) (drain_round start_) (rounds window d) (d, false)) as [H|(s0 & H & _)].
  - intros [d' saw] Hc. unfold drain_round. pose proof (remaining_Receive _ 1024 50 d' ltac:(done) Hc) as Hr.
    destruct (Receive 1024 50 d') as [d1 data]; cbn in *. by case_bool_decide.
  - apply rounds_enough.
  - lia.
  - unfold drain_round in H. destruct s0 as [d' saw], (Receive 1024 50 d') as [d1 data]. by case_bool_decide.
Qed.

Lemma drain_loop_shows start_ deadline fuel d saw :
  let '(d', saw') := while_before fuel deadline (drain_round start_) (d, saw) in
  ∃ taken, answers d = taken ++ answers d' ∧
    events d' = events d ++ ((λ '(t, data), Printed (arrival_line (t - start_) data)) <$> arrivals (clock_ms d) taken) ∧
    saw' = saw || bool_decide (arrivals (clock_ms d) taken ≠ []).
Proof.
  revert d saw. induction fuel as [|k IH]; intros d saw; cbn [while_before fst].
  { exists []. cbn. by rewrite app_nil_r, orb_false_r. }
  destruct (negb _). { exists []. cbn. by rewrite app_nil_r, orb_false_r. }
  unfold drain_round at 1, Receive. destruct (answers d) as [|r rest] eqn:Ea.
  { specialize (IH (MkDesk [] (clock_ms d + 50) (events d)) saw). cbn [bool_decide decide_rel].
    rewrite bool_decide_true by done. cbn in IH |- *. destruct (while_before _ _ _ _) as [d' saw'].
    destruct IH as (taken & Hn & He & Hs). destruct taken as [|? taken]; [|done]. exists []. by cbn in *. }
  set (d1 := MkDesk rest (clock_ms d + Z.of_nat (took r)) (events d)).
  destruct (bool_decide (take 1024 (came r) = [])) eqn:Eb.
  - specialize (IH d1 saw). destruct (while_before _ _ _ _) as [d' saw']. destruct IH as (taken & Hn & He & Hs).
    exists (r :: taken). cbn in *. rewrite Eb. cbn. rewrite Hn. done.
  - specialize (IH (printf (arrival_line (clock_ms d1 - start_) (take 1024 (came r))) d1) true).
    destruct (while_before _ _ _ _) as [d' saw']. destruct IH as (taken & Hn & He & Hs).
    exists (r :: taken). cbn in *. rewrite Eb. cbn. rewrite Hn, He, <- app_assoc. split_and!; [done|done|].
    rewrite Hs. cbn. by rewrite orb_true_r.
Qed.

Lemma sent_drain_for start_ window d : sent (drain_for start_ window d).1 = sent d.
Proof.
  unfold drain_for. pose proof (drain_loop_shows start_ (clock_ms d + window) (rounds window d) d false) as H.
  destruct (while_before _ _ _ _) as [d' saw]. destruct H as (taken & _ & E & _). cbn. unfold sent. rewrite E, omap_app.
  assert (∀ l, omap sent_of ((λ '(t, data), Printed (arrival_line (t - start_) data)) <$> l) = []) as ->.
  { intros l. by induction l as [|[t data] l IH]. }
  apply app_nil_r.
Qed.

Lemma sent_Drain start_ window why d : sent (Drain start_ window why d).1 = sent d.
Proof. unfold Drain. rewrite sent_drain_for. destruct why; [apply sent_printf|done]. Qed.

(** ** Keeping in step *)

Lemma talks_Drained start_ window why : talks (Drained start_ window why).
Proof. apply talks_silent. intros d. apply sent_Drain. Qed.

Lemma sent_Step start_ label line window d : sent (Step start_ label line window d) = sent d ++ [line ++ CRLF].
Proof. unfold Step, seq_act, Drained. by rewrite sent_Drain, sent_port_send, sent_printf. Qed.
Lemma sent_Payload start_ label data window d : sent (Payload start_ label data window d) = sent d ++ [data].
Proof. unfold Payload, seq_act, Drained. by rewrite sent_Drain, sent_port_send, sent_printf. Qed.

Lemma talks_Step start_ label line window : LF ∉ line → announces (line ++ CRLF) = None → talks (Step start_ label line window).
Proof.
  intros Hl Ha. destruct (scripted_intro _ _ (sent_Step start_ label line window)) as [Hs E].
  split; [done|]. rewrite E. by apply in_step_line.
Qed.

(** An announcement and its payload are kept in step together. *)
Lemma talks_send start_ label1 label2 line data w1 w2 rest :
  LF ∉ line → data ≠ [] → announces (line ++ CRLF) = Some (length data) → talks rest →
  talks (Step start_ label1 line w1 >> Payload start_ label2 data w2 >> rest).
Proof.
  intros Hl Hd Ha Hr. assert (talks (Step start_ label1 line w1 >> Payload start_ label2 data w2)) as H.
  { destruct (scripted_intro (Step start_ label1 line w1 >> Payload start_ label2 data w2) [line ++ CRLF; data]) as [Hs E].
    { intros d. unfold seq_act. by rewrite sent_Payload, sent_Step, <- app_assoc. }
    split; [done|]. rewrite E. by apply in_step_data. }
  apply (talks_seq _ _ H Hr).
Qed.

Lemma quoted_no c s : c ≠ QUOTE → c ∉ s → c ∉ quoted s.
Proof. unfold quoted. intros H Hs. rewrite elem_of_cons, elem_of_app, list_elem_of_singleton. tauto. Qed.

(** No line feed in a line: each piece is a literal, a number, or an argument. *)
Ltac no_lf :=
  rewrite ?not_elem_of_app; repeat split;
  first [ assumption | apply to_string_no; done | apply quoted_no; [done|]; first [assumption | decide_now] | decide_now ].
(** A command other than an announcement is told by its first letters. *)
Ltac no_announcement := apply announces_other; reflexivity.
Ltac announced :=
  match goal with
  | |- announces ((?p ++ to_string (Z.of_nat ?n)) ++ CRLF) = _ =>
      rewrite <- app_assoc;
      match p with
      | lit "AT+CIPSEND=0," => apply (announces_send (lit "0") n)
      | lit "AT+CIPSEND=1," => apply (announces_send (lit "1") n)
      | lit "AT+CIPSEND=2," => apply (announces_send (lit "2") n)
      end; decide_now
  | |- announces _ = _ => by_vm
  end.
Create HintDb tool.
#[export] Hint Constants Opaque : tool.
(** Walks a scenario: an announcement with its payload, or one step. *)
Ltac talk :=
  cbv zeta;
  lazymatch goal with
  | |- talks (Step _ _ _ _ >> Payload _ _ _ _ >> _) =>
      apply talks_send; [no_lf | done | announced | talk]
  | |- talks (_ >> _) => apply talks_seq; talk
  | |- talks (Step _ _ _ _) => apply talks_Step; [no_lf | no_announcement]
  | |- talks skip => apply talks_skip
  | |- talks (printf _) => apply talks_printf
  | |- talks (Section_ _) => apply talks_printf
  | |- talks (Drained _ _ _) => apply talks_Drained
  | |- talks (for_each _ kQueries) => auto with nocore tool
  | |- talks (for_each _ kWrites) => auto with nocore tool
  | |- talks (for_each _ _) => apply talks_for_each; intros ?; talk
  | |- _ => auto with nocore tool
  end.

Lemma talks_CleanSlate start_ : talks (CleanSlate start_).
Proof. unfold CleanSlate. talk. Qed.
Lemma talks_EnterDataModes start_ every : talks (EnterDataModes start_ every).
Proof. unfold EnterDataModes. destruct every; talk. Qed.
Lemma talks_ReadRounds start_ id n : talks (ReadRounds start_ id n).
Proof. unfold ReadRounds. talk. Qed.
Lemma talks_Close start_ id : talks (Close start_ id).
Proof. unfold Close. talk. Qed.
Lemma talks_Restore start_ : talks (Restore start_).
Proof. unfold Restore. talk. Qed.
#[export] Hint Resolve talks_CleanSlate talks_EnterDataModes talks_ReadRounds talks_Close talks_Restore : tool.

Lemma talks_watch_close start_ window why text :
  talks (λ d, let '(d, saw_close) := Drain start_ window why d in if saw_close then d else printf text d).
Proof.
  apply talks_silent. intros d. pose proof (sent_Drain start_ window why d) as E.
  destruct (Drain start_ window why d) as [d' []]; [done|]. by rewrite sent_printf.
Qed.
#[export] Hint Resolve talks_watch_close : tool.

Lemma talks_for_list {A} (f : A → act) xs : Forall (λ x, talks (f x)) xs → talks (for_each f xs).
Proof. induction 1 as [|x xs Hx H IH]; [apply talks_skip|]. by apply talks_seq. Qed.
Lemma talks_queries start_ qs :
  forallb (λ q, bool_decide (LF ∉ q.2) && negb (starts_with (lit "AT+CIPSEND=") (q.2 ++ CRLF))) qs = true →
  talks (for_each (λ query, Step start_ query.1 query.2 900) qs).
Proof.
  intros H. apply talks_for_list, Forall_forall. intros q Hq. apply list_elem_of_In in Hq.
  specialize (proj1 (forallb_forall _ _) H q Hq) as [Hl%bool_decide_eq_true_1 Ha%negb_true_iff]%andb_true_iff.
  apply talks_Step; [done|by apply announces_other].
Qed.
Lemma talks_kQueries start_ : talks (for_each (λ query, Step start_ query.1 query.2 900) kQueries).
Proof. apply talks_queries. by_vm. Qed.
Lemma talks_kWrites start_ : talks (for_each (λ write, Step start_ write.1 write.2 900) kWrites).
Proof. apply talks_queries. by_vm. Qed.
#[export] Hint Resolve talks_kQueries talks_kWrites : tool.

(** ** The scenarios, one by one

    Each starts on a clean slate - but [reset], which asks first what the module is
    holding - and keeps in step. *)
Definition clean_then_talks (start_ : Z) (a : act) : Prop := ∃ rest, a = CleanSlate start_ >> rest ∧ talks rest.
Ltac scenario := eexists; split; [reflexivity|talk].

Lemma talks_Reset start_ : talks (ScenarioReset start_).
Proof. unfold ScenarioReset. talk. Qed.
Lemma clean_Tcp start_ host port : LF ∉ host → clean_then_talks start_ (ScenarioTcp start_ host port).
Proof. intros. scenario. Qed.
Lemma clean_State start_ : clean_then_talks start_ (ScenarioState start_).
Proof. scenario. Qed.
Lemma clean_ReadLen start_ : clean_then_talks start_ (ScenarioReadLen start_).
Proof. scenario. Qed.
Lemma clean_Recycle start_ : clean_then_talks start_ (ScenarioRecycle start_).
Proof. scenario. Qed.
Lemma clean_Push start_ : clean_then_talks start_ (ScenarioPush start_).
Proof. scenario. Qed.
Lemma clean_Tls start_ : clean_then_talks start_ (ScenarioTls start_).
Proof. scenario. Qed.
Lemma clean_TlsApi start_ : clean_then_talks start_ (ScenarioTlsApi start_).
Proof. scenario. Qed.
Lemma clean_TlsUse start_ host port : LF ∉ host → clean_then_talks start_ (ScenarioTlsUse start_ host port).
Proof. intros. scenario. Qed.
Lemma clean_CloseDrain start_ host port : LF ∉ host → clean_then_talks start_ (ScenarioCloseDrain start_ host port).
Proof. intros. scenario. Qed.
Lemma clean_Udp start_ : clean_then_talks start_ (ScenarioUdp start_).
Proof. scenario. Qed.
Lemma clean_Misc start_ : clean_then_talks start_ (ScenarioMisc start_).
Proof. scenario. Qed.

#[export] Hint Resolve clean_Tcp clean_State clean_ReadLen clean_Recycle clean_Push clean_Tls clean_TlsApi clean_TlsUse
  clean_CloseDrain clean_Udp clean_Misc : tool.

(** What a scenario sends does not depend on what arrives, also where it does not keep
    in step. *)
Lemma scripted_Step start_ label line window : scripted (Step start_ label line window).
Proof. by eapply scripted_intro, sent_Step. Qed.
Lemma scripted_Payload start_ label data window : scripted (Payload start_ label data window).
Proof. by eapply scripted_intro, sent_Payload. Qed.
Lemma talks_scripted a : talks a → scripted a.
Proof. by intros [? _]. Qed.
Ltac script_parts :=
  cbv zeta;
  lazymatch goal with
  | |- scripted (_ >> _) => apply scripted_seq; script_parts
  | |- scripted (Step _ _ _ _) => apply scripted_Step
  | |- scripted (Payload _ _ _ _) => apply scripted_Payload
  | |- scripted (for_each _ _) => apply scripted_for_each; intros ?; script_parts
  | |- scripted (if _ then _ else _) => apply scripted_if; script_parts
  | |- scripted _ => apply talks_scripted; talk
  end.

Lemma clean_TlsRead start_ host port path count_each_round : ∃ rest,
  ScenarioTlsRead start_ host port path count_each_round = CleanSlate start_ >> rest ∧ scripted rest.
Proof. eexists. split; [reflexivity|script_parts]. Qed.

Lemma clean_scripted start_ a : clean_then_talks start_ a → ∃ rest, a = CleanSlate start_ >> rest ∧ scripted rest.
Proof. intros (rest & -> & Hr). exists rest. split; [done|by apply talks_scripted]. Qed.
Lemma clean_talks start_ a : clean_then_talks start_ a → talks a.
Proof. intros (rest & -> & Hr). apply talks_seq; [apply talks_CleanSlate|done]. Qed.

Definition as_sent (lines : list string) : list bytes := (λ l, lit l ++ CRLF) <$> lines.
Definition cleaned : list bytes := as_sent ["ATE0"; "AT+CIPSHUT"]%string.
Definition restored : list bytes := as_sent
  ["AT+CIPSHUT"; "AT+CIPMUX?"; "AT+CIPMUX=0"; "AT+CIPMUX?"; "AT+CIPRXGET=0"; "AT+CIPSSL=0"; "AT+CIPSRIP=0"]%string.

Lemma sent_CleanSlate start_ d : sent (CleanSlate start_ d) = sent d ++ cleaned.
Proof. unfold CleanSlate, seq_act, Section_. rewrite !sent_Step, sent_printf, <- app_assoc. done. Qed.
Lemma sent_Restore start_ d : sent (Restore start_ d) = sent d ++ restored.
Proof. unfold Restore, seq_act, Section_. rewrite !sent_Step, sent_printf, <- !app_assoc. done. Qed.

(** The three kinds of scenario. *)
Lemma known_scenario start_ scenario args run :
  Forall (λ a, LF ∉ a) args → run_scenario start_ scenario args = Some run →
  (scenario = lit "reset" ∧ run = ScenarioReset start_) ∨
  (scenario ∈ [lit "tlsread"; lit "tlsfast"] ∧ ∃ host port path every, run = ScenarioTlsRead start_ host port path every) ∨
  clean_then_talks start_ run.
Proof.
  intros Ha. assert (LF ∉ arg args 4 (lit "www.baidu.com")) as Hhost.
  { unfold arg. destruct (args !! 4%nat) as [a|] eqn:E; [|decide_now]. exact (proj1 (Forall_lookup _ _) Ha _ _ E). }
  assert (LF ∉ lit "www.baidu.com") as Hdflt by decide_now.
  unfold run_scenario. repeat case_decide; intros [= <-]; subst;
    lazymatch goal with
    | |- _ ∨ _ ∨ clean_then_talks _ (ScenarioReset _) => by left
    | |- _ ∨ _ ∨ clean_then_talks _ (ScenarioTlsRead _ _ _ _ _) => right; left; split; [decide_now|eauto]
    | |- _ => right; right; auto with nocore tool
    end.
Qed.

(** C27: Whatever the module answers, a run of a known scenario (exit code 0) ends by
    sending the whole restore sequence, and one that could not open the port or does
    not know the scenario sends nothing. Every scenario but [reset] first puts the
    module on a clean slate. And if the module prompts for every payload announced to
    it - the probe does not wait to see whether it does - then in every scenario but
    the two that read a page over TLS it takes exactly the lines and payloads the
    probe sent, each in one piece, and is left waiting for a command. *)
Theorem probe_run opened args d d' code :
  Forall (λ a, LF ∉ a) args → sent d = [] → main opened args d = (d', code) →
  let scenario := arg args 2 (lit "tcp") in
  (code ≠ 0 → sent d' = []) ∧
  (code = 0 →
    (∃ ws, sent d' = ws ++ restored) ∧
    (scenario ≠ lit "reset" → ∃ ws, sent d' = cleaned ++ ws) ∧
    (scenario ∉ [lit "tlsread"; lit "tlsfast"] → in_step (sent d'))).
Proof.
  intros Ha Hd Hm scenario. unfold main in Hm. fold scenario in Hm. destruct opened; cbn [negb] in Hm; cycle 1.
  { injection Hm as <- <-. rewrite sent_printf. done. }
  destruct (run_scenario _ scenario args) as [run|] eqn:Er; injection Hm as <- <-; cycle 1.
  { rewrite !sent_printf. done. }
  split; [done|]. intros _. rewrite sent_Restore. set (d0 := printf _ d).
  assert (sent d0 = []) as Hd0 by (unfold d0; by rewrite sent_printf).
  split; [eauto|]. destruct (known_scenario _ _ _ _ Ha Er) as [[-> ->]|[(Hs & host & port & path & every & ->)|Hc]].
  - split; [done|]. intros _. destruct (talks_Reset (clock_ms d)) as [Hr Ht]. rewrite Hr, Hd0.
    apply in_step_app; [done|decide_now].
  - split; [|done]. intros _. destruct (clean_TlsRead (clock_ms d) host port path every) as (rest & -> & Hr).
    unfold seq_act. rewrite Hr, sent_CleanSlate, Hd0. cbn [app]. rewrite <- !app_assoc. eauto.
  - split; intros _.
    + destruct Hc as (rest & -> & Hr & _). unfold seq_act. rewrite Hr, sent_CleanSlate, Hd0. cbn [app].
      rewrite <- !app_assoc. eauto.
    + destruct (clean_talks _ _ Hc) as [Hr Ht]. rewrite Hr, Hd0. apply in_step_app; [done|decide_now].
Qed.

Lemma probe_run_witness :
  let args := [lit "probe"; lit "COM7"; lit "closedrain"; lit "115200"; lit "example.com"; lit "8080"] in
  let d := MkDesk [MkAnswer 30 (lit "OK")] 0 [] in
  in_step (sent (main true args d).1) ∧ length (sent (main true args d).1) = 34%nat.
Proof.
  intros args d. destruct (probe_run true args d (main true args d).1 0) as [_ H].
  - decide_now.
  - reflexivity.
  - vm_compute. reflexivity.
  - destruct (H eq_refl) as (_ & _ & Hs). split; [apply Hs; decide_now|vm_compute; reflexivity].
Defined.

(** A watch lasts for the whole of its window, prints each arrival in the order and at
    the time it came, and says whether there was one. *)
Lemma Drain_shows start_ window why d :
  let '(d', saw_anything) := Drain start_ window why d in
  window <= clock_ms d' - clock_ms d ∧ ∃ taken,
    answers d = taken ++ answers d' ∧
    events d' = events d ++ (match why with
                             | Some why => [Printed (lit "  ... watching " ++ to_string window ++ lit " ms for " ++ why ++ [LF])]
                             | None => []
                             end) ++ ((λ '(t, data), Printed (arrival_line (t - start_) data)) <$> arrivals (clock_ms d) taken) ∧
    saw_anything = bool_decide (arrivals (clock_ms d) taken ≠ []).
Proof.
  unfold Drain. set (d0 := match why with Some _ => _ | None => d end).
  assert (answers d0 = answers d ∧ clock_ms d0 = clock_ms d ∧ events d0 = events d ++ match why with
    | Some why => [Printed (lit "  ... watching " ++ to_string window ++ lit " ms for " ++ why ++ [LF])] | None => [] end)
    as (Ea & Ec & Ee) by (unfold d0; destruct why; by rewrite ?app_nil_r).
  pose proof (drain_for_ends start_ window d0) as Hw. unfold drain_for in *.
  pose proof (drain_loop_shows start_ (clock_ms d0 + window) (rounds window d0) d0 false) as H.
  destruct (while_before _ _ _ _) as [d' saw]. destruct H as (taken & Ht & He & Hs). rewrite Ea, Ec, Ee in *.
  split; [done|]. exists taken. split_and!; [done|by rewrite He, <- app_assoc|done].
Qed.

(** Whatever arrives is shown in printable characters. *)
Lemma ToVisible_printable data : forallb printable (ToVisible data) = true.
Proof.
  unfold ToVisible. induction data as [|c data IH]; [done|]. cbn [mbind list_bind]. rewrite forallb_app.
  apply andb_true_iff. split; [|apply IH]. unfold visible. repeat case_decide; try done.
  destruct (printable c) eqn:E; [by cbn; rewrite E|apply escaped_printable].
Qed.

(** ** Where the probe departs from what it says *)

(** [reset] asks for the status before anything is put right; the header says every
    scenario starts on a clean slate. *)
Example reset_starts_as_it_finds :
  take 3 (script (ScenarioReset 0)) = as_sent ["ATE0"; "AT+CIPSTATUS"; "AT+CIPMUX?"]%string.
Proof. by_vm. Qed.

(** The TLS version [tlsapi] and [tlsuse] write is not written back, nor is the echo
    they turn off turned on again: nothing in [restored] undoes either. *)
Example tls_version_stays :
  existsb (λ l, starts_with (lit "AT+SSLCFG=") l) (script (ScenarioTlsUse 0 (lit "www.baidu.com") 443)) = true ∧
  existsb (λ l, starts_with (lit "AT+SSLCFG=") l || starts_with (lit "ATE") l) restored = false.
Proof. split; by_vm. Qed.

(** [tlsread] ends by announcing four bytes it does not send. A module that prompts -
    the socket is writable, which is what the step asks - takes the next four bytes as
    the payload: the first letters of the reset, which is then not a command. *)
Example tlsread_sends_the_reset_as_data :
  let ws := script (ScenarioTlsRead 0 (lit "www.baidu.com") 443 (lit "/") false) in
  take 3 (drop 106 (hears (concat ws)).2) = [lit "AT+CIPSEND=0,4" ++ CRLF; lit "AT+C"; lit "IPSHUT" ++ CRLF].
Proof. intros ws; by_vm. Qed.

(** A module that answers one announcement with an error, and goes on with lines. *)
Definition hear_refusing (refused : bytes) (s : mode * list bytes) (c : ascii) : mode * list bytes :=
  match s with
  | (InLine acc, ps) => if decide (acc ++ [c] = refused) then (InLine [], ps ++ [refused]) else hear s c
  | _ => hear s c
  end.

(** [recycle] announces a payload for a socket the peer has closed, and sends it
    whatever the answer. If the module refuses, the payload, which has no end of line,
    becomes the beginning of the next command: the close it was to test is not one. *)
Example recycle_refused_payload_spoils_close :
  let ws := script (ScenarioRecycle 0) in
  let heard := (fold_left (hear_refusing (lit "AT+CIPSEND=2,4" ++ CRLF)) (concat ws) (InLine [], [])).2 in
  drop (length heard - 4) heard =
    [lit "AT+CIPSEND=2,4" ++ CRLF; lit "pingAT+CIPCLOSE=2" ++ CRLF;
     lit "AT+CIPSTART=2," ++ quoted (lit "TCP") ++ lit "," ++ quoted (lit "www.baidu.com") ++ lit ",80" ++ CRLF;
     lit "AT+CIPCLOSE=2" ++ CRLF].
Proof. intros ws heard; by_vm. Qed.
