(* ===== verification/SerialTools.v ===== *)
(** The tools that show what a module says over a serial line: which rate it answers
    at, one HTTP request written by hand, and commands run over the channel. *)
From stdpp Require Import base decidable list strings gmap.
From Stdlib Require Import ZArith Ascii Lia.
From S2P Require Import Prelude Errors AtParser ResponseParser UrcDispatcher AtUart AtCommands AtChannel ModemLink Ml307Hal.
From S2P Require Import Ml307Facts ToolIo.

(** * Which baud rate a module answers at (src/tools/serial_probe.cpp): the rates are
    tried in turn, each on a port opened anew, with up to three [AT]s. *)
Module SerialProbe.

Definition visible (c : ascii) : bytes :=
  if decide (c = CR) then lit "\r"
  else if decide (c = LF) then lit "\n" ++ [LF] ++ lit "      "
  else if printable c then [c]
  else escaped c.
Definition ToVisible (data : bytes) : bytes := data ≫= visible.

(** A port at one rate: whether it opens, whether each attempt's write succeeds, and
    what its reads return. *)
Record port_at := MkPort { opens : bool; writes : nat → bool; reads : list answer }.

Definition sleep_for (ms : Z) : act := λ d, MkDesk (answers d) (clock_ms d + ms) (events d).

(** The buffer holds 512 bytes, of which one is kept free. *)
Definition kRoom : nat := 511.

(** [while (true) { n = Receive(...); if (n <= 0) break; ...; if (got >= 511) break; }];
    every round but the last adds a byte. *)
Fixpoint noise_loop (fuel : nat) (got : bytes) (d : desk) : desk * bytes :=
  match fuel with
  | O => (d, got)
  | S k =>
      let '(d, data) := Receive (kRoom - length got) 200 d in
      if bool_decide (data = []) then (d, got)
      else let got := got ++ data in
           if bool_decide (kRoom <= length got)%nat then (d, got) else noise_loop k got d
  end.

Definition answered (got : bytes) : bool := match find_sub (lit "OK") got with Some _ => true | None => false end.

(** One round of an attempt's loop; an answer in what was got so far ends it. *)
Definition reply_round (s : desk * bytes) : desk * bytes * bool :=
  let '(d, got) := s in
  let '(d, data) := Receive (kRoom - length got) 200 d in
  let got := got ++ data in
  (d, got, answered got).
Definition reply (d : desk) : desk * bytes := while_before (rounds 1000 d) (clock_ms d + 1000) reply_round (d, []).

Definition row (baud : Z) (text : bytes) : act := printf (lit "  " ++ pad_left 6 (to_string baud) ++ text ++ [LF]).

(** Attempts [attempt], [attempt + 1], ...: [more] of them. *)
Fixpoint attempts (writes : nat → bool) (baud : Z) (attempt more : nat) (d : desk) : desk * bool :=
  match more with
  | O => (d, false)
  | S more =>
      let d := port_send (lit "AT" ++ CRLF) d in
      if negb (writes attempt) then (row baud (lit "  write failed") d, false) else
      let '(d, got) := reply d in
      let shown := lit "  attempt " ++ to_string (Z.of_nat attempt) ++ lit " -> " in
      if bool_decide (got = []) then
        attempts writes baud (S attempt) more (sleep_for 200 (row baud (shown ++ lit "(no response)") d))
      else
        let d := row baud (shown ++ ToVisible got) d in
        if answered got then (row baud (lit "  << module is alive at this baud rate") d, true)
        else attempts writes baud (S attempt) more (sleep_for 200 d)
  end.

Definition ProbeBaud (port : port_at) (baud : Z) (d : desk) : desk * bool :=
  if negb (opens port) then (row baud (lit "  could not open port") d, false) else
  let d := MkDesk (reads port) (clock_ms d) (events d) in
  let d := sleep_for 300 d in
  let '(d, noise) := noise_loop (S kRoom) [] d in
  let d := if bool_decide (noise = []) then d else row baud (lit "  boot noise: " ++ ToVisible noise) d in
  attempts (writes port) baud 1 3 d.

Definition usual_rates : list Z := [115200; 9600; 57600; 38400; 19200; 230400; 460800; 921600].

(** [main]'s loop: the rate that worked. *)
Fixpoint try_rates (ports : Z → port_at) (rates : list Z) (d : desk) : desk * option Z :=
  match rates with
  | [] => (d, None)
  | baud :: rates =>
      let '(d, alive) := ProbeBaud (ports baud) baud d in
      if alive : bool then (d, Some baud) else try_rates ports rates d
  end.

Definition advice : bytes :=
  [LF] ++ lit "No baud rate produced a response." ++ [LF] ++
  lit "Things to check:" ++ [LF] ++
  lit "  - Is another program holding the port open?" ++ [LF] ++
  lit "  - Is the module powered, and is the antenna attached?" ++ [LF] ++
  lit "  - Some boards need EN/RESET driven, or a USB-serial adapter with" ++ [LF] ++
  lit "    the right voltage (3.3 V, not 5 V)." ++ [LF].

(** The arguments are numbered from the program's name; the result is the exit code. *)
Definition main (ports : Z → port_at) (args : list bytes) (d : desk) : desk * Z :=
  let port := default (lit "COM8") (args !! 1%nat) in
  let rates := match args !! 2%nat with Some a => [atoi a] | None => usual_rates end in
  let d := printf (lit "Probing " ++ port ++ [LF]) d in
  match try_rates ports rates d with
  | (d, Some baud) => (printf ([LF] ++ lit "Working baud rate: " ++ to_string baud ++ [LF]) d, 0)
  | (d, None) => (printf advice d, 1)
  end.

(** ** Lemmas *)

(** A read takes the next answer, if there is one. *)
Lemma Receive_took len timeout d : ∃ taken,
  answers d = taken ++ answers (Receive len timeout d).1 ∧ events (Receive len timeout d).1 = events d ∧
  (Receive len timeout d).2 = take len (concat (came <$> taken)).
Proof.
  unfold Receive. destruct (answers d) as [|r rest] eqn:E; cbn; [by exists []; destruct len|].
  exists [r]. cbn. by rewrite app_nil_r.
Qed.

(** [noise_loop] runs dry or fills the buffer; it never runs out of fuel. *)
Lemma noise_loop_ends fuel got d : (kRoom < fuel + length got)%nat → (length got <= kRoom)%nat →
  let '(d', noise) := noise_loop fuel got d in
  (length noise <= kRoom)%nat ∧ events d' = events d ∧ (∃ taken, answers d = taken ++ answers d') ∧
  (length noise = kRoom ∨ ∃ d1 len, (Receive len 200 d1).2 = [] ∧ d' = (Receive len 200 d1).1).
Proof.
  revert got d. induction fuel as [|k IH]; intros got d Hf Hg; [lia|]. cbn [noise_loop].
  destruct (Receive_took (kRoom - length got) 200 d) as (taken & Ha & He & Hd).
  destruct (Receive (kRoom - length got) 200 d) as [d1 data] eqn:Er; cbn [fst snd] in *.
  case_bool_decide as Hn. { split_and!; [done|done|eauto|]. right. exists d, (kRoom - length got)%nat. by rewrite Er. }
  assert (length (got ++ data) <= kRoom)%nat as Hl by (rewrite length_app, Hd, length_take; lia).
  assert (0 < length data)%nat as Hp by (destruct data; [done|cbn; lia]).
  case_bool_decide as Hfull. { split_and!; [done|done|eauto|]. left. lia. }
  specialize (IH (got ++ data) d1). destruct (noise_loop k (got ++ data) d1) as [d' noise].
  destruct IH as (H1 & H2 & (taken2 & H3) & H4); [rewrite length_app; lia|done|].
  split_and!; [done|congruence| |done]. exists (taken ++ taken2). by rewrite Ha, H3, app_assoc.
Qed.

Lemma noise_ends d : let '(d', noise) := noise_loop (S kRoom) [] d in
  (length noise <= kRoom)%nat ∧ events d' = events d ∧ (∃ taken, answers d = taken ++ answers d') ∧
  (length noise = kRoom ∨ ∃ d1 len, (Receive len 200 d1).2 = [] ∧ d' = (Receive len 200 d1).1).
Proof. apply noise_loop_ends; change (length []) with 0%nat; unfold kRoom; lia. Qed.

(** An attempt listens for its second, or until it has heard an answer. *)
Lemma reply_ends d : let '(d', got) := reply d in answered got = true ∨ clock_ms d + 1000 <= clock_ms d'.
Proof.
  unfold reply. destruct (while_before_ends (clock_ms d + 1000) reply_round (rounds 1000 d) (d, [])) as [H|(s0 & H & E)].
  - intros [d' got] Hc. unfold reply_round. pose proof (remaining_Receive _ (kRoom - length got) 200 d' ltac:(done) Hc) as Hr.
    by destruct (Receive _ 200 d').
  - apply rounds_enough.
  - destruct (while_before _ _ _ _). by right.
  - rewrite E. clear E. unfold reply_round in *. destruct s0 as [d' got], (Receive _ 200 d') as [d1 data]. by left.
Qed.

(** What an attempt has got is what its reads returned, joined. *)
Lemma reply_got d : let '(d', got) := reply d in
  sent d' = sent d ∧ ∃ taken, answers d = taken ++ answers d' ∧
    ((length (concat (came <$> answers d)) <= kRoom)%nat → got = concat (came <$> taken)).
Proof.
  unfold reply. set (P := λ s : desk * bytes, sent s.1 = sent d ∧ ∃ taken, answers d = taken ++ answers s.1 ∧
    ((length (concat (came <$> answers d)) <= kRoom)%nat → s.2 = concat (came <$> taken))).
  enough (P (while_before (rounds 1000 d) (clock_ms d + 1000) reply_round (d, []))) as H by by destruct (while_before _ _ _ _).
  apply while_before_keeps; [|split; [done|by exists []]]. intros [d1 got] (Hs & taken & Ha & Hg); cbn in Hs, Ha, Hg.
  unfold reply_round. pose proof (sent_Receive (kRoom - length got) 200 d1) as Hs1.
  destruct (Receive_took (kRoom - length got) 200 d1) as (taken1 & Ha1 & _ & Hd1).
  destruct (Receive (kRoom - length got) 200 d1) as [d2 data]; cbn in *. split; [cbn; congruence|].
  exists (taken ++ taken1). cbn. split; [by rewrite Ha, Ha1, app_assoc|]. intros Hl.
  specialize (Hg Hl) as ->. rewrite fmap_app, concat_app, Hd1, take_ge; [done|].
  rewrite Ha, Ha1, !fmap_app, !concat_app, !length_app in Hl. unfold kRoom in Hl. lia.
Qed.

Lemma answered_spec got : answered got = true ↔ ∃ i, find_sub (lit "OK") got = Some i.
Proof. unfold answered. destruct (find_sub _ got) as [i|]; naive_solver. Qed.

Lemma answered_app_r l got : answered got = true → answered (l ++ got) = true.
Proof.
  rewrite !answered_spec. intros Hi. induction l as [|c l IH]; [done|]. destruct IH as (j & Ej).
  cbn [find_sub app]. destruct (starts_with _ _); [by exists 0%nat|]. rewrite Ej. by exists (S j).
Qed.
Lemma answered_app_l got r : answered got = true → answered (got ++ r) = true.
Proof. rewrite !answered_spec. intros (i & Hi). exists i. by apply find_sub_app_l. Qed.

(** What the attempts send, and what a live rate has been heard to say. *)
Lemma attempts_spec writes baud attempt more d : let '(d', alive) := attempts writes baud attempt more d in
  (∃ n, (n <= more)%nat ∧ (more ≠ 0%nat → n ≠ 0%nat) ∧ sent d' = sent d ++ repeat (lit "AT" ++ CRLF) n) ∧
  (alive = true → (length (concat (came <$> answers d)) <= kRoom)%nat → answered (concat (came <$> answers d)) = true).
Proof.
  revert attempt d. induction more as [|more IH]; intros attempt d; cbn [attempts].
  { split; [exists 0%nat; by rewrite app_nil_r|done]. }
  set (d1 := port_send _ d). assert (sent d1 = sent d ++ [lit "AT" ++ CRLF]) as Es by apply sent_port_send.
  destruct (negb (writes attempt)).
  { split; [exists 1%nat|done]. unfold row. rewrite sent_printf. split_and!; [lia|done|done]. }
  assert (∀ d' alive, sent d' = sent d1 → (∃ taken, answers d1 = taken ++ answers d') →
    attempts writes baud (S attempt) more d' = alive →
    (∃ n, (n <= S more)%nat ∧ (S more ≠ 0%nat → n ≠ 0%nat) ∧ sent alive.1 = sent d ++ repeat (lit "AT" ++ CRLF) n) ∧
    (alive.2 = true → (length (concat (came <$> answers d)) <= kRoom)%nat → answered (concat (came <$> answers d)) = true)) as Hnext.
  { intros d' [d2 alive] Es' [taken Ha] E. specialize (IH (S attempt) d'). rewrite E in IH.
    destruct IH as [(n & Hn & _ & Hs) Hal]. split.
    - exists (S n). split_and!; [lia|done|]. cbn. by rewrite Hs, Es', Es, <- app_assoc.
    - intros Hb Hl. change (answers d1) with (answers d) in Ha. rewrite Ha, fmap_app, concat_app in Hl |- *.
      rewrite length_app in Hl. apply answered_app_r, (Hal Hb). lia. }
  pose proof (reply_got d1) as Hr. destruct (reply d1) as [d2 got]. destruct Hr as (Hs & taken & Ha & Hg).
  change (answers d1) with (answers d) in *. case_bool_decide as Hgot; [|destruct (answered got) eqn:Eo].
  - match goal with |- context [attempts _ _ _ _ ?d'] => specialize (Hnext d' _ ltac:(rewrite <- Hs; apply sent_printf) ltac:(by exists taken) eq_refl) end.
    by destruct (attempts _ _ _ _ _).
  - split; [|intros _ Hl].
    + exists 1%nat. unfold row. rewrite !sent_printf, Hs, Es. split_and!; [lia|done|done].
    + rewrite (Hg Hl) in Eo. rewrite Ha, fmap_app, concat_app. by apply answered_app_l.
  - match goal with |- context [attempts _ _ _ _ ?d'] => specialize (Hnext d' _ ltac:(rewrite <- Hs; apply sent_printf) ltac:(by exists taken) eq_refl) end.
    by destruct (attempts _ _ _ _ _).
Qed.

(** A rate that is found alive is one whose port opened and over which the module was
    heard to say OK. *)
Lemma ProbeBaud_alive port baud d d' : ProbeBaud port baud d = (d', true) →
  opens port = true ∧
  ((length (concat (came <$> reads port)) <= kRoom)%nat → answered (concat (came <$> reads port)) = true).
Proof.
  unfold ProbeBaud. destruct (opens port); cbn [negb]; [|done].
  set (d0 := sleep_for 300 _). pose proof (noise_ends d0) as Hn.
  destruct (noise_loop (S kRoom) [] d0) as [d1 noise]. destruct Hn as (_ & _ & (taken & Ha) & _).
  set (d2 := if bool_decide (noise = []) then d1 else _). assert (answers d2 = answers d1) as E2 by (unfold d2; by case_bool_decide).
  intros H. split; [done|]. intros Hl. pose proof (attempts_spec (writes port) baud 1 3 d2) as Hs. rewrite H in Hs.
  destruct Hs as [_ Hs]. change (answers d0) with (reads port) in Ha. rewrite Ha, fmap_app, concat_app, <- E2 in Hl |- *.
  rewrite length_app in Hl. apply answered_app_r, Hs; [done|lia].
Qed.

Lemma sent_ProbeBaud port baud d : ∃ n, (n <= 3)%nat ∧ sent (ProbeBaud port baud d).1 = sent d ++ repeat (lit "AT" ++ CRLF) n.
Proof.
  unfold ProbeBaud. destruct (opens port); cbn [negb].
  2: { exists 0%nat. split; [lia|]. cbn [fst repeat]. unfold row. by rewrite sent_printf, app_nil_r. }
  set (d0 := sleep_for 300 _). pose proof (noise_ends d0) as Hn.
  destruct (noise_loop (S kRoom) [] d0) as [d1 noise]. destruct Hn as (_ & He & _).
  set (d2 := if bool_decide (noise = []) then d1 else _).
  assert (sent d2 = sent d) as E2.
  { transitivity (sent d1); [unfold d2, row; case_bool_decide; [done|apply sent_printf]|]. unfold sent. by rewrite He. }
  pose proof (attempts_spec (writes port) baud 1 3 d2) as Hs. destruct (attempts _ _ _ _ _) as [d' alive].
  destruct Hs as [(n & Hn & _ & Hs) _]. exists n. by rewrite <- E2.
Qed.

Lemma try_rates_spec ports rates d : let '(d', found) := try_rates ports rates d in
  (∃ n, (n <= 3 * length rates)%nat ∧ sent d' = sent d ++ repeat (lit "AT" ++ CRLF) n) ∧
  match found with
  | Some baud => ∃ before after_, rates = before ++ baud :: after_ ∧ opens (ports baud) = true ∧
      ((length (concat (came <$> reads (ports baud))) <= kRoom)%nat → answered (concat (came <$> reads (ports baud))) = true)
  | None => ∀ baud, baud ∈ rates → ∃ d1 d2, ProbeBaud (ports baud) baud d1 = (d2, false)
  end.
Proof.
  revert d. induction rates as [|baud rates IH]; intros d; cbn [try_rates].
  { split; [exists 0%nat; by rewrite app_nil_r|]. by intros baud ?%elem_of_nil. }
  destruct (sent_ProbeBaud (ports baud) baud d) as (n & Hn & Hs).
  destruct (ProbeBaud (ports baud) baud d) as [d1 alive] eqn:E. destruct alive.
  - split; [exists n; cbn; split; [lia|done]|]. exists [], rates. split; [done|]. by apply (ProbeBaud_alive _ baud d d1).
  - specialize (IH d1). destruct (try_rates ports rates d1) as [d' found]. destruct IH as [(m & Hm & Hs') Hf]. split.
    + exists (n + m)%nat. cbn. split; [lia|]. cbn in Hs. by rewrite Hs', Hs, repeat_app, app_assoc.
    + destruct found as [b|].
      * destruct Hf as (bef & aft & -> & Hf). by exists (baud :: bef), aft.
      * intros b [->|Hb]%elem_of_cons; [by exists d, d1|by apply Hf].
Qed.

(** The probe asks each rate at most three times, and sends nothing else. It exits
    with 0 only for a rate whose port opened and over which the module said OK, and
    with 1 only after every rate was tried and found dead. *)
Lemma serial_probe_result ports args d d' code : sent d = [] → main ports args d = (d', code) →
  let rates := match args !! 2%nat with Some a => [atoi a] | None => usual_rates end in
  (∃ n, (n <= 3 * length rates)%nat ∧ sent d' = repeat (lit "AT" ++ CRLF) n) ∧
  (code = 0 ∧ (∃ baud, baud ∈ rates ∧ opens (ports baud) = true ∧
     ((length (concat (came <$> reads (ports baud))) <= kRoom)%nat → answered (concat (came <$> reads (ports baud))) = true)) ∨
   code = 1 ∧ ∀ baud, baud ∈ rates → ∃ d1 d2, ProbeBaud (ports baud) baud d1 = (d2, false)).
Proof.
  intros Hd Hm rates. unfold main in Hm. fold rates in Hm. set (d0 := printf _ d) in Hm.
  assert (sent d0 = []) as Hd0 by (unfold d0; by rewrite sent_printf).
  pose proof (try_rates_spec ports rates d0) as Hs. destruct (try_rates ports rates d0) as [d1 found].
  destruct Hs as [(n & Hn & Hs) Hf]. rewrite Hd0 in Hs.
  destruct found as [baud|]; injection Hm as <- <-; (split; [exists n; by rewrite sent_printf|]).
  - left. split; [done|]. destruct Hf as (bef & aft & -> & Hf). exists baud. split; [|done]. set_solver.
  - by right.
Qed.

(** A module that talks noise at 115200 and answers the second [AT] at 9600. *)
Example finds_9600 :
  (main (λ baud, MkPort true (λ _, true)
     (if baud =? 9600 then MkAnswer 200 [] :: repeat (MkAnswer 200 []) 5 ++ [MkAnswer 10 (CRLF ++ lit "O"); MkAnswer 10 (lit "K" ++ CRLF)]
      else [MkAnswer 10 (z2b <$> [254; 0])]))
     [lit "serial_probe"] blank).2 = 0.
Proof. by_vm. Qed.

End SerialProbe.

(** * The raw TCP trace over an ML307 (src/tools/tcp_trace.cpp): it writes the lines of
    one HTTP request by hand and shows every byte that comes back. *)
Module TcpTrace.

Definition visible (c : ascii) : bytes :=
  if decide (c = CR) then lit "\r"
  else if decide (c = LF) then lit "\n" ++ [LF]
  else if printable c then [c]
  else escaped c.
Definition ToVisible (raw : bytes) : bytes := raw ≫= visible.

Definition SendLine (line : bytes) : act := printf (lit ">> " ++ line ++ [LF]) >> port_send (line ++ CRLF).

Definition listen_round (s : desk * unit) : desk * unit * bool :=
  let '(d, data) := Receive 1024 200 s.1 in
  if bool_decide (data = []) then (d, (), false) else (printf (lit "<< " ++ ToVisible data ++ [LF]) d, (), false).
Definition Listen (window : Z) : act := λ d, (while_before (rounds window d) (clock_ms d + window) listen_round (d, ())).1.

Definition heading (title : bytes) : act := printf ([LF] ++ lit "-- " ++ title ++ lit " --" ++ [LF]).

(** [char open_cmd[256]] *)
Definition open_cmd (host : bytes) (tcp_port : Z) : bytes :=
  snprintf_ 256 (lit "AT+MIPOPEN=0," ++ quoted (lit "TCP") ++ lit "," ++ quoted host ++ lit "," ++ to_string tcp_port ++ lit ",,0").
Definition trace_request (host : bytes) : bytes :=
  lit "GET / HTTP/1.0" ++ CRLF ++ lit "Host: " ++ host ++ CRLF ++ lit "Connection: close" ++ CRLF ++ CRLF.
Definition send_cmd (request : bytes) : bytes :=
  lit "AT+MIPSEND=0," ++ to_string (Z.of_nat (length request)) ++ lit "," ++ EncodeHex request.

(** The arguments are numbered from the program's name; the result is the exit code. *)
Definition main (opened : bool) (args : list bytes) (d : desk) : desk * Z :=
  let port := default (lit "COM8") (args !! 1%nat) in
  let apn := default (lit "cmnet") (args !! 2%nat) in
  let host := default (lit "example.com") (args !! 3%nat) in
  let tcp_port := default 80 (atoi <$> args !! 4%nat) in
  if negb opened then (printf (lit "Could not open " ++ port ++ [LF]) d, 1) else
  ((printf (lit "Raw tracing " ++ port ++ lit " at " ++ to_string 115200 ++ lit " baud" ++ [LF; LF]) >>
    SendLine (lit "ATE0") >> Listen 500 >>
    heading (lit "PDP") >>
    SendLine (lit "AT+CGDCONT=1," ++ quoted (lit "IP") ++ lit "," ++ quoted apn) >> Listen 1000 >>
    SendLine (lit "AT+MIPCALL=1,1") >> Listen 3000 >>
    heading (lit "socket setup") >>
    SendLine (lit "AT+MIPCFG=" ++ quoted (lit "ssl") ++ lit ",0,0,0") >> Listen 1000 >>
    SendLine (lit "AT+MIPCFG=" ++ quoted (lit "encoding") ++ lit ",0,1,1") >> Listen 1000 >>
    heading (lit "open") >>
    SendLine (open_cmd host tcp_port) >> Listen 5000 >>
    heading (lit "send") >>
    SendLine (send_cmd (trace_request host)) >>
    printf ([LF] ++ lit "-- listening 20s for the inbound-data URC --" ++ [LF]) >> Listen 20000 >>
    heading (lit "close") >>
    SendLine (lit "AT+MIPCLOSE=0") >> Listen 2000) d, 0).

(** ** What the trace sends *)

Lemma sent_Listen window d : sent (Listen window d) = sent d.
Proof.
  unfold Listen. set (P := λ s : desk * unit, sent s.1 = sent d).
  apply (while_before_keeps P); [|done]. intros [d1 []] H; unfold P in *; cbn in *. unfold listen_round.
  pose proof (sent_Receive 1024 200 d1) as E. cbn [fst]. destruct (Receive 1024 200 d1) as [d2 data]; cbn in E.
  case_bool_decide; cbn [fst]; rewrite ?sent_printf; congruence.
Qed.
Lemma sent_SendLine line d : sent (SendLine line d) = sent d ++ [line ++ CRLF].
Proof. unfold SendLine, seq_act. by rewrite sent_port_send, sent_printf. Qed.

(** Listening lasts for the whole of its window. *)
Lemma Listen_ends window d : clock_ms d + window <= clock_ms (Listen window d).
Proof.
  unfold Listen. destruct (while_before_ends (clock_ms d + window) listen_round (rounds window d) (d, ())) as [H|(s0 & H & _)].
  - intros [d' []] Hc. unfold listen_round. pose proof (remaining_Receive _ 1024 200 d' ltac:(done) Hc) as Hr. cbn [fst].
    destruct (Receive 1024 200 d'); cbn in Hr. by case_bool_decide.
  - apply rounds_enough.
  - done.
  - unfold listen_round in H. destruct (Receive 1024 200 s0.1). by case_bool_decide.
Qed.

(** The lines of one request over socket 0, whatever comes back. *)
Lemma trace_sends args d : sent d = [] →
  let host := default (lit "example.com") (args !! 3%nat) in
  sent (main true args d).1 = (λ l, l ++ CRLF) <$>
    [lit "ATE0"; lit "AT+CGDCONT=1," ++ quoted (lit "IP") ++ lit "," ++ quoted (default (lit "cmnet") (args !! 2%nat));
     lit "AT+MIPCALL=1,1"; lit "AT+MIPCFG=" ++ quoted (lit "ssl") ++ lit ",0,0,0";
     lit "AT+MIPCFG=" ++ quoted (lit "encoding") ++ lit ",0,1,1"; open_cmd host (default 80 (atoi <$> args !! 4%nat));
     send_cmd (trace_request host); lit "AT+MIPCLOSE=0"].
Proof.
  intros Hd host. unfold main, seq_act, heading. cbn [negb fst].
  repeat rewrite ?sent_Listen, ?sent_SendLine, ?sent_printf. rewrite Hd. done.
Qed.

(** The send names as many bytes as its hex carries, and carries the request. *)
Lemma send_cmd_carries host : let request := trace_request host in ∃ hex,
  send_cmd request = lit "AT+MIPSEND=0," ++ to_string (Z.of_nat (length request)) ++ lit "," ++ hex ∧
  ParseHex hex = request ∧ length hex = (2 * length request)%nat.
Proof.
  intros request. exists (EncodeHex request). split_and!; [done|apply ParseHex_EncodeHex|].
  unfold EncodeHex. induction request as [|c r IH]; [done|]. cbn. rewrite IH. lia.
Qed.

(** The open is built in 256 bytes, and a host name of the length DNS allows loses the
    port and the closing quote. *)
Example long_host_open_cut : last (open_cmd (repeat "a"%char 250) 80) = Some "a"%char.
Proof. by_vm. Qed.

End TcpTrace.

(** * The AT-layer trace (src/tools/at_trace.cpp): commands run over the channel, with
    the response buffer and its lines shown after each. *)
Module AtTrace.

Definition visible (c : ascii) : bytes :=
  if decide (c = CR) then lit "\r"
  else if decide (c = LF) then lit "\n" ++ [LF] ++ lit "      "
  else if printable c then [c]
  else escaped c.
Definition ToVisible (raw : bytes) : bytes := raw ≫= visible.

(** [static_cast<int>(error.code)] *)
Definition AtErrc_int (c : AtErrc) : Z :=
  match c with
  | kAtErrTimeout => 0 | kCommandError => 1 | kCmeError => 2 | kCmsError => 3
  | kAtTransmitFailed => 4 | kAtNotInitialized => 5 | kAtNotSupported => 6
  end.

(** The channel with what is to come over it, and what was printed. *)
Record tracer := MkTracer { at_ : AtUart * uart_script; shown : list bytes }.
Definition show (text : bytes) (t : tracer) : tracer := MkTracer (at_ t) (shown t ++ [text]).

Fixpoint show_lines (i : nat) (lines : list bytes) (t : tracer) : tracer :=
  match lines with
  | [] => t
  | l :: lines => show_lines (S i) lines (show (lit "      line[" ++ to_string (Z.of_nat i) ++ lit "]: '" ++ l ++ lit "'" ++ [LF]) t)
  end.

Definition Run (cmd : bytes) (timeout_ms : Z) (t : tracer) : tracer :=
  let '(at', result) := ch_send (at_ t) cmd timeout_ms in
  let t := MkTracer at' (shown t) in
  let t := show (lit "  " ++ pad_right 16 cmd ++ lit " -> " ++ (match result with Ok _ => lit "OK" | Err _ => lit "FAILED" end) ++ [LF]) t in
  let raw := GetResponse (at_ t).1 in
  let t := if bool_decide (raw = []) then show (lit "      (empty response buffer)" ++ [LF]) t
           else show (lit "      raw: " ++ ToVisible raw ++ [LF]) t in
  let t := show_lines 0 (GetResponseLines (at_ t).1) t in
  match result with
  | Ok _ => t
  | Err e => show (lit "      error: " ++ AtError_ToString e ++ lit " (AtErrc=" ++ to_string (AtErrc_int (at_code e)) ++ lit ")" ++ [LF]) t
  end.

Definition initialize_sequence : list (bytes * Z) :=
  [(lit "ATE0", 5000); (lit "AT+CFUN=1", 5000); (lit "AT+MIPCFG=" ++ quoted (lit "recv_format") ++ lit ",1", 5000)].
Definition detect_sequence : list (bytes * Z) := [(lit "AT", 1000); (lit "AT+CGMR", 1000)].
Definition query_sweep : list (bytes * Z) :=
  [(lit "AT+CGSN", 2000); (lit "AT+CPIN?", 2000); (lit "AT+CSQ", 2000); (lit "AT+CEREG?", 2000); (lit "AT+COPS?", 2000)].

Definition run_all (cmds : list (bytes * Z)) (t : tracer) : tracer := fold_left (λ t c, Run c.1 c.2 t) cmds t.

(** [to_come] is what the port answers, if it opens. The arguments are numbered from
    the program's name; the result is the exit code. *)
Definition main (opened : bool) (args : list bytes) (to_come : uart_script) : tracer * Z :=
  let port := default (lit "COM8") (args !! 1%nat) in
  let baud := default 115200 (ToolIo.atoi <$> args !! 2%nat) in
  let t := MkTracer (new_uart baud, to_come) [] in
  if negb opened then (show (lit "Could not open " ++ port ++ [LF]) t, 1) else
  let t := show (lit "Tracing " ++ port ++ lit " at " ++ to_string baud ++ lit " baud" ++ [LF; LF]) t in
  if bool_decide (3 < length args)%nat then (run_all ((λ a, (a, 3000)) <$> drop 3 args) t, 0) else
  let t := run_all initialize_sequence (show (lit "-- initialize sequence --" ++ [LF]) t) in
  let t := run_all detect_sequence (show ([LF] ++ lit "-- detect sequence --" ++ [LF]) t) in
  let t := run_all query_sweep (show ([LF] ++ lit "-- query sweep --" ++ [LF]) t) in
  (t, 0).

(** ** What is sent *)

Lemma SendCommand_writes c cmd sent reads : written (SendCommand c cmd sent reads).1 = written c ++ [cmd ++ CRLF].
Proof.
  unfold SendCommand. destruct (negb (send_ok sent (cmd ++ CRLF))); [done|]. unfold take_done.
  destruct (ev_response_done _); cbn; by rewrite receive_all_written.
Qed.

Lemma at_show text t : at_ (show text t) = at_ t.
Proof. done. Qed.
Lemma at_show_lines i lines t : at_ (show_lines i lines t) = at_ t.
Proof. revert i t. induction lines as [|l lines IH]; intros i t; [done|]. cbn [show_lines]. by rewrite IH. Qed.

Lemma at_Run cmd timeout t : at_ (Run cmd timeout t) = (ch_send (at_ t) cmd timeout).1.
Proof.
  unfold Run. destruct (ch_send (at_ t) cmd timeout) as [at' result]. cbn [fst].
  destruct result; rewrite ?at_show, at_show_lines; by case_bool_decide.
Qed.

Lemma Run_writes cmd timeout t : written (at_ (Run cmd timeout t)).1 = written (at_ t).1 ++ [cmd ++ CRLF].
Proof.
  rewrite at_Run. destruct (at_ t) as [u script]. cbn.
  destruct script as [|[sent reads] script];
    (match goal with |- context [SendCommand ?c ?x ?s ?r] => rewrite <- (SendCommand_writes c x s r); by destruct (SendCommand c x s r) end).
Qed.
Lemma run_all_writes cmds t : written (at_ (run_all cmds t)).1 = written (at_ t).1 ++ ((λ c, c.1 ++ CRLF) <$> cmds).
Proof.
  revert t. induction cmds as [|c cmds IH]; intros t; cbn; [by rewrite app_nil_r|].
  change (fold_left _ cmds ?t) with (run_all cmds t). by rewrite IH, Run_writes, <- app_assoc.
Qed.

(** Every command asked for is sent once and in order, whatever the module answers -
    a refusal, silence or a port that fails - and the exit code is 0. *)
Lemma trace_runs_all args to_come : let r := main true args to_come in
  r.2 = 0 ∧ written (at_ r.1).1 = (λ c, c ++ CRLF) <$>
    (if decide (3 < length args)%nat then drop 3 args else fst <$> initialize_sequence ++ detect_sequence ++ query_sweep).
Proof.
  intros r. unfold r, main, negb. case_bool_decide as E; cbn [fst snd]; (split; [done|]).
  - rewrite decide_True by done. rewrite run_all_writes, at_show. cbn. by rewrite <- list_fmap_compose.
  - rewrite decide_False by done. rewrite (run_all_writes query_sweep), at_show, (run_all_writes detect_sequence), at_show,
      (run_all_writes initialize_sequence), at_show. reflexivity.
Qed.

(** The sequence it calls exactly what [Ml307Hal::Initialize] sends has a command more:
    over a module that accepts everything, the HAL sends these two. *)
Example initialize_sends_less :
  written (lk_uart (link (sample_ml307 [] [])).1) = [lit "ATE0" ++ CRLF; lit "AT+CFUN=1" ++ CRLF] ∧
  length initialize_sequence = 3%nat.
Proof. split; by_vm. Qed.

End AtTrace.
