(* ===== verification/SmokeTools.v ===== *)
(** The smoke tests over real hardware (src/tools/{hw,tcp,udp}_smoke_test.cpp): what
    they ask of a device, what they print, and the exit code they end with.

    A tool runs on a console over the system it drives; a [return] from the middle of
    [main] is an [Exit], and a call through a null pointer is [Stuck]. *)
From stdpp Require Import base decidable list strings gmap.
From Stdlib Require Import ZArith Ascii Lia.
From S2P Require Import Prelude Errors CommonTypes StateResult TcpTransport AtParser AtChannel ModemLink CellularDevice.
From S2P Require Import ToolIo.

(** [static_cast<int>] of the error code *)
Definition code_number (code : NetworkErrc) : Z :=
  match code with
  | kInvalidArgument => 0 | kNotInitialized => 1 | kNotSupported => 2 | kTimeout => 3 | kCanceled => 4
  | kResourceBusy => 5 | kNoResources => 6 | kDnsFailed => 7 | kAlreadyConnected => 8 | kNotConnected => 9
  | kConnectFailed => 10 | kConnectionRefused => 11 | kConnectionReset => 12 | kConnectionLost => 13
  | kTlsHandshakeFailed => 14 | kTlsCertificateInvalid => 15 | kTlsCertificateExpired => 16 | kTlsHostnameMismatch => 17
  | kAuthRejected => 18 | kAuthTimeout => 19 | kTransmitFailed => 20 | kReceiveFailed => 21 | kBufferOverflow => 22
  | kNetworkUnavailable => 23 | kNetworkDetached => 24 | kRoamingNotAllowed => 25 | kProtocolError => 26
  | kHttpErrorStatus => 27 | kMqttNotAuthorized => 28 | kWsHandshakeFailed => 29 | kAtCommandError => 30
  | kAtCmeError => 31 | kAtCmsError => 32 | kAtTimeout => 33 | kModemNotResponding => 34 | kSimNotDetected => 35
  | kSimPinRequired => 36 | kSimPukRequired => 37 | kUnknown => 38
  end.

(** * The console *)

Inductive tool_end := Exit (code : Z) | Stuck.
Record console (S : Type) := MkConsole { shown : list bytes; g_failures : Z; sys : S }.
Arguments MkConsole {S}. Arguments shown {S}. Arguments g_failures {S}. Arguments sys {S}.

Section Console.
Context {S : Type}.
Local Abbreviation tool := (op (console S) tool_end).

Definition say (text : bytes) : tool unit := modify (λ c, MkConsole (shown c ++ [text]) (g_failures c) (sys c)).
Definition count_failure : tool unit := modify (λ c, MkConsole (shown c) (g_failures c + 1) (sys c)).
Definition call {A} (f : S → S * A) : tool A := λ c, let '(s, a) := f (sys c) in (MkConsole (shown c) (g_failures c) s, Ok a).
Definition call_through {A} (f : S → option (S * A)) : tool A := λ c,
  match f (sys c) with Some (s, a) => (MkConsole (shown c) (g_failures c) s, Ok a) | None => (c, Err Stuck) end.

(** What a run shows, and how it ends; a [main] that falls off its end has returned. *)
Definition outcome {T} (m : op (console T) tool_end Z) (c : console T) : list bytes * option Z :=
  let '(c, r) := m c in (shown c, match r with Ok code => Some code | Err (Exit code) => Some code | Err Stuck => None end).
End Console.
Abbreviation tool S := (op (console S) tool_end).

Definition argument (args : list bytes) (i : nat) (dflt : bytes) : bytes := default dflt (args !! i).
Definition argument_int (args : list bytes) (i : nat) (dflt : Z) : Z := default dflt (atoi <$> args !! i).
Definition text (s : bytes) : bytes := c_text s.

(** * hw_smoke_test *)

Section Hardware.
Context {H C : Type} `{IAtChannel C} `{IHal H C}.
(** The HAL's constant answers. *)
Context (GetCapabilities : H → ModuleCapabilities) (GetModuleType : H → ModuleType).
Local Abbreviation device := (H * C)%type.

Definition Section_ (name : bytes) : tool device unit := say ([LF] ++ lit "--- " ++ name ++ lit " ---" ++ [LF]).

Definition failed (label : bytes) (e : NetworkError) : bytes :=
  lit "  " ++ pad_right 14 label ++ lit " FAILED: " ++ Message (ne_code e) ++ lit " (code=" ++ to_string (code_number (ne_code e)) ++ lit ")" ++ [LF].

Definition Show (label : bytes) (result : Result bytes) : tool device unit :=
  match result with
  | Ok v => say (lit "  " ++ pad_right 14 label ++ lit " " ++ text v ++ [LF])
  | Err e => say (failed label e) ;;; count_failure
  end.

Definition SimStateName (state : SimState) : bytes :=
  lit (match state with
       | kSimReady => "READY" | kPinRequired => "PIN required" | kPukRequired => "PUK required"
       | kNotInserted => "not inserted" | kSimError => "error" | kSimUnknown => "unknown"
       end).
Definition RegStateName (state : RegistrationState) : bytes :=
  lit (match state with
       | kNotRegistered => "not registered" | kRegisteredHome => "registered (home)" | kSearching => "searching"
       | kRegistrationDenied => "denied" | kRegisteredRoaming => "registered (roaming)" | kRegistrationUnknown => "unknown"
       end).
Definition ModuleName (type : ModuleType) : bytes :=
  lit (match type with kMl307 => "ML307" | kEc801E => "EC801E" | kAir780E => "AIR780E" | _ => "unknown" end).

Definition flag (b : bool) : bytes := to_string (if b then 1 else 0).

(** Thirty seconds of a poll a second. *)
Definition kPolls : nat := Z.to_nat (30000 / 1000 + 2).

(** The device's queries cannot fail, so the branches that say they did are not there. *)
Definition query_device : tool device Z :=
  let! d := gets sys in
  let caps := GetCapabilities d.1 in
  say (lit "  module         " ++ ModuleName (GetModuleType d.1) ++ [LF]) ;;;
  say (lit "  max conns      " ++ to_string (cap_max_connections caps) ++ lit ", max baud " ++ to_string (cap_max_baud_rate caps) ++ [LF]) ;;;
  say (lit "  caps           tcp=" ++ flag (cap_tcp caps) ++ lit " udp=" ++ flag (cap_udp caps) ++ lit " ssl=" ++ flag (cap_ssl_tcp caps)
       ++ lit " http=" ++ flag (cap_http caps) ++ lit " mqtt=" ++ flag (cap_mqtt caps) ++ lit " lp=" ++ flag (cap_low_power caps) ++ [LF]) ;;;
  Section_ (lit "identity") ;;;
  let! revision := call_through hal_revision in Show (lit "revision") revision ;;;
  let! imei := call_through hal_imei in Show (lit "imei") imei ;;;
  let! iccid := call_through hal_iccid in Show (lit "iccid") iccid ;;;
  let! carrier := call_through hal_carrier in Show (lit "carrier") carrier ;;;
  Section_ (lit "sim + network") ;;;
  let! sim := call hal_sim in
  say (lit "  " ++ pad_right 14 (lit "sim") ++ lit " " ++ SimStateName sim ++ [LF]) ;;;
  let! reg := call hal_registration in
  say (lit "  " ++ pad_right 14 (lit "registration") ++ lit " " ++ RegStateName reg ++ [LF]) ;;;
  let! signal := call GetSignalStrength in
  (match signal with
   | Ok rssi => say (lit "  " ++ pad_right 14 (lit "signal") ++ lit " " ++ to_string rssi ++ lit " (" ++ to_string (-113 + 2 * rssi) ++ lit " dBm)"
                     ++ (if rssi =? 99 then lit " [no signal]" else []) ++ [LF])
   | Err _ => say (lit "  " ++ pad_right 14 (lit "signal") ++ lit " FAILED" ++ [LF]) ;;; count_failure
   end) ;;;
  Section_ (lit "wait for registration (up to 30s)") ;;;
  let! wait := call_through (WaitForNetwork kPolls 30000) in
  (match wait with
   | Ok state => say (lit "  " ++ pad_right 14 (lit "network") ++ lit " " ++ RegStateName state ++ [LF])
   | Err e => say (lit "  " ++ pad_right 14 (lit "network") ++ lit " " ++ Message (ne_code e) ++ [LF]) ;;; count_failure
   end) ;;;
  let! failures := gets g_failures in
  say ([LF] ++ lit (if failures =? 0 then "PASS" else "FAIL") ++ lit " (" ++ to_string failures ++ lit " failures)" ++ [LF]) ;;;
  ret (if failures =? 0 then 0 else 1).

(** [CreateUart] and [Detect] on a port: the device, or what went wrong. *)
Definition Detected (entries : list (ModuleEntry C H)) (create_uart : option C) (port : bytes) : option (result NetworkError device) :=
  match DetectOn entries create_uart port with
  | None => None
  | Some (Err e) => Some (Err e)
  | Some (Ok (inr (_, e))) => Some (Err e)
  | Some (Ok (inl d)) => Some (Ok d)
  end.

Definition hw_opening (port : bytes) (baud : Z) : list bytes :=
  [lit "Opening " ++ text port ++ lit " at " ++ to_string baud ++ lit " baud" ++ [LF];
   [LF] ++ lit "--- detect + initialize ---" ++ [LF]].
Definition hw_not_found (e : NetworkError) : list bytes :=
  [lit "  detect FAILED: " ++ Message (ne_code e) ++ lit " (code=" ++ to_string (code_number (ne_code e)) ++ lit ")" ++ [LF];
   [LF] ++ lit "No module answered. Check the port name, that no other program holds it open, and that the module is powered." ++ [LF]].

Definition hw_main (entries : list (ModuleEntry C H)) (create_uart : bytes → Z → option C) (args : list bytes) : list bytes * option Z :=
  let port := argument args 1 (lit "COM8") in
  let baud := argument_int args 2 115200 in
  match Detected entries (create_uart port baud) port with
  | None => (hw_opening port baud, None)
  | Some (Err e) => (hw_opening port baud ++ hw_not_found e, Some 1)
  | Some (Ok d) => outcome query_device (MkConsole (hw_opening port baud) 0 d)
  end.

(** * The bring-up the socket tests share *)

Definition revision_shown (r : Result bytes) : bytes := match r with Ok v => v | Err _ => lit "?" end.

(** From the module's name to registration, a registration that fails being reported
    and no more. *)
Definition bring_up_network (describe : NetworkError → bytes) (apn_failed : NetworkError → bytes) (name : bytes) : tool device unit :=
  let! revision := call_through hal_revision in
  say (lit "  module: " ++ text (revision_shown revision) ++ [LF]) ;;;
  say ([LF] ++ lit "Activating PDP with APN " ++ quoted (text name) ++ [LF]) ;;;
  let! activated := call (hal_configure_apn (MkApnConfig name [] [])) in
  match activated with
  | Err e => say (lit "  APN setup FAILED: " ++ apn_failed e ++ [LF]) ;;; fail (Exit 1)
  | Ok _ =>
      say (lit "  PDP activated" ++ [LF]) ;;;
      say ([LF] ++ lit "Waiting for registration" ++ [LF]) ;;;
      let! wait := call_through (WaitForNetwork kPolls 30000) in
      match wait with
      | Err e => say (lit "  not registered: " ++ describe e ++ [LF])
      | Ok _ => say (lit "  registered" ++ [LF])
      end
  end.

Definition plain_message (e : NetworkError) : bytes := Message (ne_code e).
Definition full_message (e : NetworkError) : bytes :=
  Message (ne_code e) ++ lit " (code=" ++ to_string (code_number (ne_code e)) ++ lit " native=" ++ to_string (ne_native e)
  ++ lit " ctx='" ++ text (ne_context e) ++ lit "')".

(** A test's run: the device is brought up, and the test proper runs on what the network
    interface makes of it. *)
Definition on_network {S} (entries : list (ModuleEntry C H)) (uart : option C) (port apn : bytes) (opening : bytes)
    (detect_failed describe apn_failed : NetworkError → bytes) (make : device → S * Result unit) (announce : list bytes)
    (make_failed : NetworkError → bytes) (body : tool S Z) : list bytes * option Z :=
  match Detected entries uart port with
  | None => ([opening], None)
  | Some (Err e) => ([opening; detect_failed e], Some 1)
  | Some (Ok d) =>
      match bring_up_network describe apn_failed apn (MkConsole [opening] 0 d) with
      | (c, Err (Exit code)) => (shown c, Some code)
      | (c, Err Stuck) => (shown c, None)
      | (c, Ok _) =>
          match make (sys c) with
          | (_, Err e) => (shown c ++ announce ++ [make_failed e], Some 1)
          | (s, Ok _) => outcome body (MkConsole (shown c ++ announce) 0 s)
          end
      end
  end.
End Hardware.

(** * tcp_smoke_test *)

Section Tcp.
Context {W : Type} `{ITransport W}.

(** What the callbacks keep; [OnError] only prints. *)
Record ears := MkEars { g_received : bytes; g_closed : bool }.
Local Abbreviation world := (W * ears)%type.

Definition heard_by (tool_name : string) (e : tcp_event) (c : console world) : console world :=
  let g := (sys c).2 in
  match e with
  | EvData d => MkConsole (shown c) (g_failures c) ((sys c).1, MkEars (g_received g ++ d) (g_closed g))
  | EvDisconnected => MkConsole (shown c) (g_failures c) ((sys c).1, MkEars (g_received g) true)
  | EvError e => MkConsole (shown c ++ [lit "  " ++ lit tool_name ++ lit " error: " ++ Message (ne_code e) ++ [LF]]) (g_failures c) (sys c)
  end.

(** A call of the client, with what its callbacks were told by the time it returned. *)
Definition told_by {A} (f : W → W * list tcp_event * A) : tool world A := λ c,
  let '(w, evs, a) := f (sys c).1 in
  (fold_left (λ c e, heard_by "tcp" e c) evs (MkConsole (shown c) (g_failures c) (w, (sys c).2)), Ok a).

Definition tcp_visible (c : ascii) : bytes :=
  if decide (c = CR) then lit "\r"
  else if decide (c = LF) then lit "\n" ++ [LF] ++ lit "      "
  else if printable c then [c]
  else escaped c.
Definition TcpToVisible (raw : bytes) : bytes :=
  (take 400 raw ≫= tcp_visible) ++ (if (400 <? length raw)%nat then lit "..." else []).

Definition Http10Request (host : bytes) : bytes := lit "GET / HTTP/1.0" ++ CRLF ++ lit "Host: " ++ host ++ CRLF ++ lit "Connection: close" ++ CRLF ++ CRLF.

Definition Disconnect_ : tool world unit := modify (λ c, MkConsole (shown c) (g_failures c) (tcp_disconnect (sys c).1, (sys c).2)).

Definition tcp_test (host : bytes) (port : Z) : tool world Z :=
  let! connect := told_by (tcp_connect host port) in
  match connect with
  | Err e => say (lit "  Connect FAILED: " ++ plain_message e ++ [LF]) ;;; ret 1
  | Ok _ =>
      say (lit "  connected" ++ [LF]) ;;;
      let! sent := told_by (tcp_send (Http10Request host)) in
      match sent with
      | Err e => say (lit "  Send FAILED: " ++ plain_message e ++ [LF]) ;;; Disconnect_ ;;; ret 1
      | Ok n =>
          say (lit "  sent " ++ to_string n ++ lit " bytes" ++ [LF]) ;;;
          say ([LF] ++ lit "Waiting for response (up to 20s)" ++ [LF]) ;;;
          let! g := gets (λ c, (sys c).2) in
          (if g_closed g || negb (bool_decide (g_received g = [])) then ret ()
           else told_by (λ w, (await 20000 w, ()))) ;;;
          let! g := gets (λ c, (sys c).2) in
          let received := g_received g in
          say ([LF] ++ lit "Received " ++ to_string (Z.of_nat (length received)) ++ lit " bytes:" ++ [LF] ++ lit "      "
               ++ text (TcpToVisible received) ++ [LF]) ;;;
          let got_http := bool_decide (find_sub (lit "HTTP/") received ≠ None) in
          say ([LF] ++ lit (if got_http then "PASS - HTTP response decoded correctly" else "FAIL - no HTTP response") ++ [LF]) ;;;
          Disconnect_ ;;;
          ret (if got_http then 0 else 1)
      end
  end.
End Tcp.
Arguments ears : clear implicits.

(** * udp_smoke_test *)

(** [UdpClient], as the test uses it; an operation also says what the callbacks were
    told by the time it returned. *)
Inductive udp_event := UMessage (host : bytes) (port : Z) (data : bytes) | UError (e : NetworkError).
Class IDatagram (W : Type) := {
  udp_connect : bytes → Z → W → W * list udp_event * Result unit;
  udp_send : bytes → W → W * list udp_event * Result Z;
  udp_disconnect : W → W;
  udp_await : Z → W → W * list udp_event;
}.

Section Udp.
Context {W : Type} `{IDatagram W}.
(** With what [OnMessage] keeps. *)
Local Abbreviation world := (W * bytes)%type.

Definition on_udp (e : udp_event) (c : console world) : console world :=
  match e with
  | UMessage host port data =>
      MkConsole (shown c ++ [lit "  datagram from " ++ text host ++ lit ":" ++ to_string port ++ [LF]]) (g_failures c) ((sys c).1, (sys c).2 ++ data)
  | UError e => MkConsole (shown c ++ [lit "  udp error: " ++ Message (ne_code e) ++ [LF]]) (g_failures c) (sys c)
  end.
Definition udp_told_by {A} (f : W → W * list udp_event * A) : tool world A := λ c,
  let '(w, evs, a) := f (sys c).1 in
  (fold_left (λ c e, on_udp e c) evs (MkConsole (shown c) (g_failures c) (w, (sys c).2)), Ok a).
Definition UdpDisconnect_ : tool world unit := modify (λ c, MkConsole (shown c) (g_failures c) (udp_disconnect (sys c).1, (sys c).2)).

Definition udp_visible (c : ascii) : bytes := if printable c then [c] else escaped c.
Definition UdpToVisible (raw : bytes) : bytes :=
  (take 200 raw ≫= udp_visible) ++ (if (200 <? length raw)%nat then lit "..." else []).

(** The NTP request. *)
Definition query : bytes := z2b 27 :: repeat zero 47.

Definition udp_test (host : bytes) (port : Z) : tool world Z :=
  let! connect := udp_told_by (udp_connect host port) in
  match connect with
  | Err e => say (lit "  Connect FAILED: " ++ plain_message e ++ [LF]) ;;; ret 1
  | Ok _ =>
      say (lit "  opened" ++ [LF]) ;;;
      let! sent := udp_told_by (udp_send query) in
      match sent with
      | Err e => say (lit "  Send FAILED: " ++ plain_message e ++ [LF]) ;;; UdpDisconnect_ ;;; ret 1
      | Ok n =>
          say (lit "  sent " ++ to_string n ++ lit " bytes" ++ [LF]) ;;;
          say ([LF] ++ lit "Waiting for datagram (up to 20s)" ++ [LF]) ;;;
          let! g := gets (λ c, (sys c).2) in
          (if negb (bool_decide (g = [])) then ret () else udp_told_by (λ w, (udp_await 20000 w, ()))) ;;;
          let! received := gets (λ c, (sys c).2) in
          say ([LF] ++ lit "Received " ++ to_string (Z.of_nat (length received)) ++ lit " bytes:" ++ [LF] ++ lit "      "
               ++ text (UdpToVisible received) ++ [LF]) ;;;
          let got_reply := bool_decide (length received = length query) in
          say ([LF] ++ lit (if got_reply then "PASS - UDP datagram decoded correctly"
                            else "FAIL - no datagram, or unexpected length") ++ [LF]) ;;;
          (if negb (bool_decide (received = [])) && negb got_reply
           then say (lit "  (got " ++ to_string (Z.of_nat (length received)) ++ lit " bytes, expected "
                     ++ to_string (Z.of_nat (length query)) ++ lit ")" ++ [LF])
           else ret ()) ;;;
          UdpDisconnect_ ;;;
          ret (if got_reply then 0 else 1)
      end
  end.
End Udp.

(** * The two mains *)

Section Mains.
Context {H C W : Type} `{IAtChannel C} `{IHal H C}.
Context (entries : list (ModuleEntry C H)) (create_uart : bytes → Z → option C).

Definition tcp_main `{ITransport W} (create_tcp : H * C → W * Result unit) (args : list bytes) : list bytes * option Z :=
  let port := argument args 1 (lit "COM8") in
  let apn := argument args 2 (lit "cmnet") in
  let host := argument args 3 (lit "example.com") in
  let tcp_port := u16 (argument_int args 4 80) in
  on_network entries (create_uart port 115200) port apn (lit "Opening " ++ text port ++ [LF])
    (λ e, lit "detect FAILED: " ++ plain_message e ++ [LF]) plain_message full_message (λ d, let '(w, r) := create_tcp d in ((w, MkEars [] false), r))
    [[LF] ++ lit "Opening TCP to " ++ text host ++ lit ":" ++ to_string tcp_port ++ [LF]]
    (λ e, lit "  CreateTcp FAILED: " ++ plain_message e ++ [LF]) (tcp_test host tcp_port).

Definition udp_main `{IDatagram W} (create_udp : H * C → W * Result unit) (args : list bytes) : list bytes * option Z :=
  let port := argument args 1 (lit "COM8") in
  let apn := argument args 2 (lit "cmnet") in
  let host := argument args 3 (lit "203.107.6.88") in
  let udp_port := u16 (argument_int args 4 123) in
  on_network entries (create_uart port 115200) port apn (lit "Opening " ++ text port ++ [LF])
    (λ e, lit "detect FAILED: " ++ plain_message e ++ [LF]) plain_message full_message (λ d, let '(w, r) := create_udp d in ((w, []), r))
    [[LF] ++ lit "Opening UDP to " ++ text host ++ lit ":" ++ to_string udp_port ++ [LF]]
    (λ e, lit "  CreateUdp FAILED: " ++ plain_message e ++ [LF]) (udp_test host udp_port).
End Mains.

(** * What a passing run means *)

Section Passing.
Context {H C : Type} `{IAtChannel C} `{IHal H C}.

(** A device that answers everything the hardware test counts. *)
Definition healthy (d : H * C) : Prop :=
  ∃ d1 d2 d3 d4 d7 revision imei iccid carrier state,
    hal_revision d = Some (d1, Ok revision) ∧ hal_imei d1 = Some (d2, Ok imei) ∧ hal_iccid d2 = Some (d3, Ok iccid) ∧
    hal_carrier d3 = Some (d4, Ok carrier) ∧
    WaitForNetwork kPolls 30000 (hal_signal (hal_registration (hal_sim d4).1).1).1 = Some (d7, Ok state).

Lemma outcome_bind {T A} (m : op (console T) tool_end A) (k : A → op (console T) tool_end Z) c :
  outcome (bind m k) c = match m c with
  | (c', Ok a) => outcome (k a) c'
  | (c', Err (Exit code)) => (shown c', Some code)
  | (c', Err Stuck) => (shown c', None)
  end.
Proof. unfold outcome, bind. destruct (m c) as [c' [a|[]]]; done. Qed.

Definition fails {A} (r : Result A) : Z := match r with Ok _ => 0 | Err _ => 1 end.

Lemma wp_say {S} text (Q : result tool_end unit → console S → Prop) c :
  Q (Ok ()) (MkConsole (shown c ++ [text]) (g_failures c) (sys c)) → wp (say text) Q c.
Proof. done. Qed.
Lemma wp_Show label r Q (c : console (H * C)) :
  (∀ out, Q (Ok ()) (MkConsole out (g_failures c + fails r) (sys c))) → wp (Show label r) Q c.
Proof.
  intros HQ. destruct r; cbn [Show fails] in *.
  - apply wp_say. rewrite Z.add_0_r in HQ. apply HQ.
  - apply wp_bind, wp_say. unfold count_failure. apply wp_modify. apply HQ.
Qed.
Lemma wp_call {S A} (f : S → S * A) (Q : result tool_end A → console S → Prop) c :
  Q (Ok (f (sys c)).2) (MkConsole (shown c) (g_failures c) (f (sys c)).1) → wp (call f) Q c.
Proof. unfold wp, call. by destruct (f (sys c)). Qed.
Lemma wp_call_through {S A} (f : S → option (S * A)) (Q : result tool_end A → console S → Prop) c :
  (f (sys c) = None → Q (Err Stuck) c) →
  (∀ s a, f (sys c) = Some (s, a) → Q (Ok a) (MkConsole (shown c) (g_failures c) s)) → wp (call_through f) Q c.
Proof. unfold wp, call_through. intros Hn Hs. destruct (f (sys c)) as [[s a]|]; [by apply Hs|by apply Hn]. Qed.

(** The exit code, and what was counted. *)
Lemma query_device_counts (caps : H → ModuleCapabilities) (type : H → ModuleType) c d : sys c = d → g_failures c = 0 →
  wp (query_device caps type) (λ r c', match r with
    | Err e => e = Stuck
    | Ok code => ∃ d1 d2 d3 d4 d7 revision imei iccid carrier state,
        hal_revision d = Some (d1, revision) ∧ hal_imei d1 = Some (d2, imei) ∧ hal_iccid d2 = Some (d3, iccid) ∧
        hal_carrier d3 = Some (d4, carrier) ∧
        WaitForNetwork kPolls 30000 (hal_signal (hal_registration (hal_sim d4).1).1).1 = Some (d7, state) ∧
        code = if fails revision + fails imei + fails iccid + fails carrier + fails state =? 0 then 0 else 1
    end) c.
Proof.
  intros <- Hz. unfold query_device, Section_. apply wp_bind, wp_gets. do 4 apply wp_bind, wp_say.
  apply wp_bind, wp_call_through; [done|]. intros d1 revision E1. apply wp_bind, wp_Show. intros o1.
  apply wp_bind, wp_call_through; [done|]. intros d2 imei E2. apply wp_bind, wp_Show. intros o2.
  apply wp_bind, wp_call_through; [done|]. intros d3 iccid E3. apply wp_bind, wp_Show. intros o3.
  apply wp_bind, wp_call_through; [done|]. intros d4 carrier E4. apply wp_bind, wp_Show. intros o4. cbn [sys shown g_failures] in *.
  do 3 (first [apply wp_bind, wp_say | apply wp_bind, wp_call]; cbn [sys shown g_failures]).
  do 2 (first [apply wp_bind, wp_say | apply wp_bind, wp_call]; cbn [sys shown g_failures]).
  apply wp_bind, wp_call. cbn [sys shown g_failures]. unfold GetSignalStrength at 1 2.
  destruct (hal_signal (hal_registration (hal_sim d4).1).1) as [d5 signal] eqn:E5. cbn [fst snd].
  apply wp_bind, wp_say. apply wp_bind, wp_say. cbn [sys shown g_failures].
  apply wp_bind, wp_call_through; [done|]. cbn [sys]. intros d7 state E7. apply wp_bind.
  apply (wp_mono _ (λ r c', r = Ok () ∧ g_failures c' = fails revision + fails imei + fails iccid + fails carrier + fails state)).
  { cbn [g_failures]. rewrite Hz. destruct state as [st|e]; [apply wp_say|apply wp_bind, wp_say; unfold count_failure; apply wp_modify];
      (split; [done|]); cbn [g_failures fails]; lia. }
  intros r c' [-> Hf]. apply wp_bind, wp_gets. apply wp_bind, wp_say. apply wp_ret. rewrite Hf.
  exists d1, d2, d3, d4, d7, revision, imei, iccid, carrier, state. rewrite E5. by split_and!.
Qed.

(** The hardware test exits 0 exactly when a module was identified and every identity
    query and the wait for the network succeeded on it, and 1 otherwise. *)
Lemma hw_main_exit (caps : H → ModuleCapabilities) (type : H → ModuleType) entries create_uart args out code :
  hw_main caps type entries create_uart args = (out, Some code) →
  let port := argument args 1 (lit "COM8") in
  (code = 0 ∨ code = 1) ∧
  (code = 0 ↔ ∃ d, Detected entries (create_uart port (argument_int args 2 115200)) port = Some (Ok d) ∧ healthy d).
Proof.
  unfold hw_main. set (port := argument args 1 _). intros E. cbv zeta. destruct (Detected _ _ _) as [[d|e]|]; [| |done].
  2: { injection E as _ <-. split; [by right|]. split; [done|]. intros (d & [=] & _). }
  unfold outcome in E. pose proof (query_device_counts caps type (MkConsole (hw_opening port (argument_int args 2 115200)) 0 d) d eq_refl eq_refl) as Hq.
  unfold wp in Hq. destruct (query_device caps type _) as [c' [code'|e]]; cbn [fst snd] in Hq.
  2: { subst e. done. }
  injection E as _ <-. destruct Hq as (d1 & d2 & d3 & d4 & d7 & rv & im & ic & ca & st & E1 & E2 & E3 & E4 & E7 & ->).
  split; [destruct (_ =? 0); auto|]. destruct (Z.eqb_spec (fails rv + fails im + fails ic + fails ca + fails st) 0) as [Hz|Hz].
  - split; [intros _|done]. exists d. split; [done|]. unfold healthy. destruct rv, im, ic, ca, st; cbn in Hz; try lia.
    by do 10 eexists.
  - split; [done|]. intros (d' & [= <-] & f1 & f2 & f3 & f4 & f7 & ? & ? & ? & ? & ? & F1 & F2 & F3 & F4 & F7). exfalso. apply Hz.
    rewrite F1 in E1. injection E1 as <- <-. rewrite F2 in E2. injection E2 as <- <-. rewrite F3 in E3. injection E3 as <- <-.
    rewrite F4 in E4. injection E4 as <- <-. rewrite F7 in E7. by injection E7 as <- <-.
Qed.

(** A socket test that exits 0 found a device, activated its context, was given a client
    and passed on it. *)
Lemma on_network_passes {S} entries uart port name opening detect_failed describe apn_failed (make : H * C → S * Result unit)
    announce make_failed (body : tool S Z) out :
  on_network entries uart port name opening detect_failed describe apn_failed make announce make_failed body = (out, Some 0) →
  ∃ d d1 d2 d3 s shown0, Detected entries uart port = Some (Ok d) ∧ hal_configure_apn (MkApnConfig name [] []) d1 = (d2, Ok ()) ∧
    make d3 = (s, Ok ()) ∧ outcome body (MkConsole shown0 0 s) = (out, Some 0).
Proof.
  unfold on_network. destruct (Detected _ _ _) as [[d|e]|]; [|done|done]. intros E.
  assert (wp (bring_up_network describe apn_failed name) (λ r _, match r with
    | Ok _ => ∃ d1 d2, hal_configure_apn (MkApnConfig name [] []) d1 = (d2, Ok ()) | Err e => e = Exit 1 ∨ e = Stuck end)
    (MkConsole [opening] 0 d)) as Hb.
  { unfold bring_up_network. apply wp_bind, wp_call_through; [by right|]. intros d1 rv _. do 2 apply wp_bind, wp_say.
    apply wp_bind, wp_call. cbn [sys shown g_failures]. destruct (hal_configure_apn _ d1) as [d2 [[]|e]] eqn:Ea; cbn [fst snd].
    2: { apply wp_bind, wp_say, wp_fail. by left. }
    do 2 apply wp_bind, wp_say. apply wp_bind, wp_call_through; [by right|]. intros d3 state _. destruct state; apply wp_say; eauto. }
  unfold wp in Hb. destruct (bring_up_network _ _ _ _) as [c [[]|e]] eqn:Ec; cbn [fst snd] in Hb.
  2: { by destruct Hb as [-> | ->]. }
  destruct Hb as (d1 & d2 & Ea). destruct (make (sys c)) as [s [[]|e]] eqn:Em; [|done].
  exists d, d1, d2, (sys c), s. eexists. by split_and!.
Qed.
End Passing.

(** ** Over a recorded transport *)

Definition bytes_heard (l : list action) : bytes :=
  l ≫= λ a, match a with AHeard evs => evs ≫= λ e, match e with EvData d => d | _ => [] end | _ => [] end.

Section Heard.
Context {W : Type} `{ITransport W}.
Local Abbreviation world := ((W * list action) * ears)%type.
Implicit Types c : console world.

Definition log_of c : list action := (sys c).1.2.

Lemma ears_heard_all evs c : let c' := fold_left (λ c e, heard_by "tcp" e c) evs c in
  (sys c').1 = (sys c).1 ∧ g_received (sys c').2 = g_received (sys c).2 ++ (evs ≫= λ e, match e with EvData d => d | _ => [] end).
Proof.
  cbv zeta. revert c; induction evs as [|e evs IH]; intros c; [by rewrite app_nil_r|]. cbn [fold_left]. destruct (IH (heard_by "tcp" e c)) as [-> ->].
  destruct e; cbn; [by rewrite <- app_assoc|done|done].
Qed.

(** What a piece of a test added to the record is what it heard. *)
Definition kept_up c c' l : Prop := log_of c' = log_of c ++ l ∧ g_received (sys c').2 = g_received (sys c).2 ++ bytes_heard l.

Lemma kept_up_trans c1 c2 c3 l l' : kept_up c1 c2 l → kept_up c2 c3 l' → kept_up c1 c3 (l ++ l').
Proof.
  intros [E1 E2] [F1 F2]. split; [by rewrite F1, E1, <- app_assoc|]. rewrite F2, E2, <- app_assoc. unfold bytes_heard. by rewrite bind_app.
Qed.

Lemma wp_told_by {A} (f : W * list action → (W * list action) * list tcp_event * A) (acts : list tcp_event → list action) c :
  (∀ w, (f w).1.1.2 = w.2 ++ acts (f w).1.2) → (∀ evs, bytes_heard (acts evs) = evs ≫= λ e, match e with EvData d => d | _ => [] end) →
  wp (told_by f) (λ r c', ∃ evs a, r = Ok a ∧ kept_up c c' (acts evs)) c.
Proof.
  intros Hf Hb. unfold wp, told_by. specialize (Hf (sys c).1). destruct (f (sys c).1) as [[w evs] a]. cbn [fst snd] in *.
  exists evs, a. split; [done|].
  destruct (ears_heard_all evs (MkConsole (shown c) (g_failures c) (w, (sys c).2))) as [E1 E2]. cbn [sys fst snd] in E1, E2.
  unfold kept_up, log_of. rewrite E1, E2, Hf, Hb. by split.
Qed.

Lemma kept_up_say c text : kept_up c (MkConsole (shown c ++ [text]) (g_failures c) (sys c)) [].
Proof. split; by rewrite app_nil_r. Qed.

Lemma wp_Disconnect_ c : wp (Disconnect_ : tool world unit) (λ r c', r = Ok () ∧ kept_up c c' [ADisconnect]) c.
Proof. split; [done|]. split; [done|]. by rewrite app_nil_r. Qed.

(** A test that passes heard the marker, on the socket it opened, after sending the
    request and nothing else; and every socket it opened it closed. *)
Lemma tcp_test_passes host port c : wp (tcp_test host port) (λ r c', ∀ code, r = Ok code → ∃ l, kept_up c c' l ∧
  (code = 0 → sends l = [Http10Request host] ∧ find_sub (lit "HTTP/") (g_received (sys c').2) ≠ None) ∧
  ((∃ evs, l = [AConnect host port; AHeard evs] ∧ code = 1) ∨ last l = Some ADisconnect)) c.
Proof.
  unfold tcp_test. apply wp_bind. eapply wp_mono.
  { apply (wp_told_by (tcp_connect host port) (λ evs, [AConnect host port; AHeard evs])); [|intros evs; apply app_nil_r].
    intros w. cbn. by destruct (tcp_connect host port w.1) as [[? ?] ?]. }
  cbv beta. intros r1 c1 (ev1 & [[]|e] & -> & K1); cycle 1.
  { apply wp_bind, wp_say, wp_ret. intros code [= <-]. eexists. split; [exact K1|]. split; [done|]. left. eauto. }
  apply wp_bind, wp_say. apply wp_bind. eapply wp_mono.
  { apply (wp_told_by (tcp_send (Http10Request host)) (λ evs, [ASend (Http10Request host); AHeard evs])); [|intros evs; apply app_nil_r].
    intros w. cbn [tcp_send recorded]. by destruct (tcp_send (Http10Request host) w.1) as [[? ?] ?]. }
  cbv beta. intros r2 c2 (ev2 & [n|e] & -> & K2); pose proof (kept_up_trans _ _ _ _ _ K1 K2) as K12; clear K1 K2; cycle 1.
  { apply wp_bind, wp_say. apply wp_bind. eapply wp_mono; [apply wp_Disconnect_|]. cbv beta. intros r3 c3 (-> & K3).
    pose proof (kept_up_trans _ _ _ _ _ K12 K3) as K. apply wp_ret. intros code [= <-]. eexists. split; [exact K|]. split; [done|]. by right. }
  do 2 apply wp_bind, wp_say. apply wp_bind, wp_gets. apply wp_bind.
  apply (wp_mono _ (λ r c3, r = Ok () ∧ ∃ l, kept_up c2 c3 l ∧ sends l = [])).
  { destruct (_ || _); [apply wp_ret; split; [done|]; exists []; split; [split; by rewrite app_nil_r|done]|].
    eapply wp_mono; [apply (wp_told_by (λ w, (await 20000 w, ())) (λ evs, [AHeard evs]));
      [intros w; cbn [await recorded]; by destruct (await 20000 w.1)|intros evs; apply app_nil_r]|].
    cbv beta. intros r c3 (evs & [] & -> & K). split; [done|]. by exists [AHeard evs]. }
  intros r3 c3 (-> & l & K3 & Hl). apply wp_bind, wp_gets. cbv zeta. apply wp_bind, wp_say. apply wp_bind, wp_say.
  apply wp_bind. eapply wp_mono; [apply wp_Disconnect_|]. cbv beta. intros r4 c4 (-> & K4). apply wp_ret. intros code [= <-].
  pose proof (kept_up_trans _ _ _ _ _ (kept_up_trans _ _ _ _ _ K12 K3) K4) as K. eexists. split; [exact K|]. split.
  - case_bool_decide as Hf; [|done]. intros _. split; [by rewrite !sends_app, Hl|].
    destruct K4 as [_ ->]. cbn [bytes_heard]. by rewrite app_nil_r.
  - right. by rewrite last_snoc.
Qed.
End Heard.

(** A response whose first read is shorter than the marker is reported as none: the
    wait is over at the first byte. *)
Example short_first_read_fails :
  let network := MkScript [] [([], Ok ())] [([], Ok 39)] [[EvData (lit "HTT")]; [EvData (lit "P/1.0 200 OK")]] in
  (outcome (tcp_test (lit "example.com") 80) (MkConsole [] 0 (network, MkEars [] false))).2 = Some 1.
Proof. intros network. by_vm. Qed.
