(* ===== verification/HttpSmoke.v ===== *)
(** The HTTP engine test over real hardware (src/tools/http_smoke_test.cpp): the checks
    it makes of the engine, over any transport.

    The strings are the source's. A body is read in as many reads as the server's bytes
    take; [reads] is a bound on them ([Drain_ends]). *)
From stdpp Require Import base decidable list strings gmap sorting.
From Stdlib Require Import ZArith Ascii Lia.
From S2P Require Import Prelude Errors CommonTypes StateResult TcpTransport AtParser HttpParser AtChannel ModemLink.
From S2P Require Import CellularDevice HttpRequest HttpClient HttpStream ToolIo SmokeTools.

Definition Elide (s : bytes) (limit : nat) : bytes :=
  ((λ c, if decide (c = CR ∨ c = LF) then " "%char else c) <$> take limit s) ++ (if (limit <? length s)%nat then lit "..." else []).

Definition Describe (error : NetworkError) : bytes :=
  Message (ne_code error) ++ lit " (code=" ++ to_string (code_number (ne_code error)) ++ lit " native=" ++ to_string (ne_native error)
  ++ (if decide (ne_context error = []) then [] else lit " ctx='" ++ ne_context error ++ lit "'") ++ lit ")".

Definition got (status : Z) : bytes := lit "got " ++ to_string status.
Definition status_text (status : Z) : bytes := lit "status " ++ to_string status.

(** The order of [std::map]. *)
Fixpoint bytes_leb (a b : bytes) : bool :=
  match a, b with
  | [], _ => true
  | _, [] => false
  | x :: a, y :: b => (b2z x <? b2z y) || ((b2z x =? b2z y) && bytes_leb a b)
  end.
Definition key_le (x y : bytes * bytes) : Prop := bytes_leb x.1 y.1 = true.
#[export] Instance key_le_dec : RelDecision key_le := λ x y, decide (bytes_leb x.1 y.1 = true).
Definition in_order (m : gmap bytes bytes) : list (bytes * bytes) := merge_sort key_le (map_to_list m).

Section Test.
Context {W : Type} `{ITransport W} (sm : size_model) (reads : nat).
Local Abbreviation client := (SoftwareHttpClient W).
Local Abbreviation tool := (tool client).

Definition Check_ (name : bytes) (ok : bool) (detail : bytes) : tool unit :=
  say (lit "  [" ++ lit (if ok then "PASS" else "FAIL") ++ lit "] " ++ name
       ++ (if decide (detail = []) then [] else lit " - " ++ text detail) ++ [LF]) ;;;
  if ok then ret () else count_failure.

(** A call of the engine. *)
Definition ask {A} (m : op client NetworkError A) : tool (Result A) := call m.
Definition set (f : client → client) : tool unit := modify (λ c, MkConsole (shown c) (g_failures c) (f (sys c))).

(** A redirect chain is never cut off by the model's bound; were it, the run would stop. *)
Definition Execute_ (method url : bytes) : tool (Result HttpResponse) :=
  let! r := ask (Execute sm method url) in
  match r with Err e => ret (Err e) | Ok (Some response) => ret (Ok response) | Ok None => fail Stuck end.
Definition Open_ (method url : bytes) : tool (Result unit) :=
  let! r := ask (Open sm method url) in
  match r with Err e => ret (Err e) | Ok true => ret (Ok ()) | Ok false => fail Stuck end.

Record DrainResult := MkDrain { dr_ok : bool; dr_body : bytes; dr_error : bytes }.

Fixpoint drain_loop (n : nat) (body : bytes) : tool DrainResult :=
  match n with
  | O => fail Stuck
  | S k =>
      let! read := ask (Read sm 256) in
      match read with
      | Err e => ret (MkDrain false body (Describe e))
      | Ok [] => ret (MkDrain true body [])
      | Ok data => drain_loop k (body ++ data)
      end
  end.
Definition Drain : tool DrainResult := drain_loop reads [].

(** 1. A whole response, buffered *)
Definition buffered (root : bytes) : tool bytes :=
  say ([LF] ++ lit "Executing GET " ++ text root ++ [LF]) ;;;
  let! response := Execute_ (lit "GET") root in
  match response with
  | Err e => Check_ (lit "Execute completes") false (Describe e) ;;; ret []
  | Ok r =>
      say (lit "  status " ++ to_string (hr_status_code r) ++ lit ", " ++ to_string (Z.of_nat (size (hr_headers r))) ++ lit " header(s), "
           ++ to_string (Z.of_nat (length (hr_body r))) ++ lit " body byte(s)" ++ [LF]) ;;;
      foldr (λ kv rest, say (lit "    " ++ text kv.1 ++ lit ": " ++ text (Elide kv.2 80) ++ [LF]) ;;; rest) (ret ()) (in_order (hr_headers r)) ;;;
      Check_ (lit "status is 200") (hr_status_code r =? 200) (got (hr_status_code r)) ;;;
      Check_ (lit "body is not empty") (negb (bool_decide (hr_body r = []))) [] ;;;
      Check_ (lit "Content-Type was parsed") (bool_decide (hr_headers r !! lit "content-type" ≠ None)) [] ;;;
      ret (hr_body r)
  end.

(** 2. The same request, streamed *)
Definition streamed (root buffered_body : bytes) : tool unit :=
  say ([LF] ++ lit "Streaming GET " ++ text root ++ [LF]) ;;;
  let! opened := Open_ (lit "GET") root in
  match opened with
  | Err e => Check_ (lit "Open returns after headers") false (Describe e)
  | Ok _ =>
      let! status := gets (λ c, GetStatusCode (sys c)) in
      Check_ (lit "status available after Open") (match status with Ok s => s =? 200 | Err _ => false end)
        (match status with Ok s => got s | Err e => Describe e end) ;;;
      let! len := gets (λ c, GetContentLength (sys c)) in
      say (lit "  Content-Length: " ++ to_string len ++ [LF]) ;;;
      let! drained := Drain in
      Check_ (lit "Read streams the whole body") (dr_ok drained) (dr_error drained) ;;;
      (if dr_ok drained && negb (bool_decide (buffered_body = []))
       then Check_ (lit "streamed body matches buffered body") (bool_decide (dr_body drained = buffered_body))
              (lit "streamed " ++ to_string (Z.of_nat (length (dr_body drained))) ++ lit " vs "
               ++ to_string (Z.of_nat (length buffered_body)) ++ lit " bytes")
       else ret ()) ;;;
      (if dr_ok drained && negb (bool_decide (dr_body drained = []))
       then say (lit "  body: " ++ text (Elide (dr_body drained) 160) ++ [LF]) else ret ())
  end.

(** 3. Status codes are reported, not turned into errors *)
Definition absent (base : bytes) : tool unit :=
  let missing := base ++ lit "/esp-modem-link-no-such-page" in
  say ([LF] ++ lit "Executing GET " ++ text missing ++ [LF]) ;;;
  let! response := Execute_ (lit "GET") missing in
  match response with
  | Err e => Check_ (lit "a 404 is a response, not an error") false (Describe e)
  | Ok r => Check_ (lit "absent page reports 404") (hr_status_code r =? 404) (got (hr_status_code r))
  end.

Definition is_200 (r : Result HttpResponse) : bool := match r with Ok r => hr_status_code r =? 200 | Err _ => false end.
Definition status_or_error (r : Result HttpResponse) : bytes :=
  match r with Ok r => status_text (hr_status_code r) | Err e => Describe e end.

(** 4. Keep-alive: a second request on the same socket *)
Definition kept_alive (root : bytes) : tool unit :=
  say ([LF] ++ lit "Keep-alive: two requests on one connection" ++ [LF]) ;;;
  set (λ c, SetKeepAlive c true) ;;;
  let! first := Execute_ (lit "GET") root in
  let! second := Execute_ (lit "GET") root in
  Check_ (lit "first request on a kept-alive connection") (is_200 first) (status_or_error first) ;;;
  Check_ (lit "second request reuses the connection") (is_200 second) (status_or_error second) ;;;
  set Close.

(** 5. A body the client has to send *)
Definition posted (root : bytes) : tool unit :=
  say ([LF] ++ lit "Executing POST " ++ text root ++ [LF]) ;;;
  set (λ c, SetKeepAlive c false) ;;;
  set (λ c, SetFollowRedirects c false) ;;;
  set (λ c, SetHeader c (lit "Content-Type") (lit "text/plain")) ;;;
  set (λ c, SetBody c (lit "esp-modem-link")) ;;;
  let! response := Execute_ (lit "POST") root in
  match response with
  | Err e => Check_ (lit "POST completes") false (Describe e)
  | Ok r =>
      Check_ (lit "POST is answered") (0 <? hr_status_code r) (status_text (hr_status_code r)) ;;;
      match hr_headers r !! lit "location" with
      | Some location => say (lit "  answered with a redirect to " ++ text (Elide location 100) ++ [LF])
      | None => ret ()
      end
  end.

(** 5b. The other half: that redirect, followed *)
Definition redirected (root : bytes) : tool unit :=
  say ([LF] ++ lit "Executing POST " ++ text root ++ lit " following redirects" ++ [LF]) ;;;
  set (λ c, SetFollowRedirects c true) ;;;
  let! response := Execute_ (lit "POST") root in
  match response with
  | Ok r => Check_ (lit "the redirect is followed") (0 <? hr_status_code r) (status_text (hr_status_code r))
  | Err e =>
      if decide (ne_code e = kTlsHandshakeFailed) then
        say (lit "  note: the redirect leads into HTTPS, and the module will not perform that handshake: " ++ text (Describe e) ++ [LF]
             ++ lit "      see the HTTPS check below" ++ [LF])
      else Check_ (lit "the redirect is followed") false (Describe e)
  end.

(** 5c. A body streamed as chunks *)
Definition pieces : list bytes := [lit "esp-modem"; lit "-"; lit "link " ++ repeat "x"%char 300].

(** Whether all was written, and whether the server answered first. *)
Fixpoint write_pieces (ps : list bytes) : tool (bool * bool) :=
  match ps with
  | [] => ret (true, false)
  | piece :: ps =>
      let! wrote := ask (Write sm (Some piece) (Z.of_nat (length piece))) in
      match wrote with
      | Err e =>
          let answered_early := bool_decide (ne_code e = kProtocolError) || bool_decide (ne_code e = kConnectionLost) in
          Check_ (lit "every chunk is accepted") answered_early (Describe e) ;;;
          let! status := gets (λ c, GetStatusCode (sys c)) in
          (if negb answered_early && negb (is_ok status) then
             say (lit "      note: the host hung up before the body was finished. This host answers 302 to a POST to / and closes immediately, and this firmware drops a closed socket's buffered bytes, so an answer that arrives in that window can be lost with them. Running this against a host that reads the whole body first - httpbin.org, which answers 405 only after the terminator - passes."
                  ++ [LF])
           else ret ()) ;;;
          ret (false, answered_early)
      | Ok n =>
          if negb (n =? Z.of_nat (length piece)) then
            Check_ (lit "every chunk is accepted") false (lit "short write") ;;; ret (false, false)
          else write_pieces ps
      end
  end.

Definition chunked_upload (root : bytes) : tool unit :=
  say ([LF] ++ lit "Streaming a chunked POST " ++ text root ++ [LF]) ;;;
  set (λ c, SetKeepAlive c false) ;;;
  set (λ c, SetFollowRedirects c false) ;;;
  set (λ c, SetHeader c (lit "Content-Type") (lit "text/plain")) ;;;
  set (λ c, SetBody c []) ;;;
  set (λ c, SetChunkedUpload c true) ;;;
  let! opened := Open_ (lit "POST") root in
  (match opened with
   | Err e => Check_ (lit "a chunked request opens") false (Describe e)
   | Ok _ =>
       let! written := write_pieces pieces in
       let '(wrote_all, answered_early) := written in
       (if wrote_all : bool then
          Check_ (lit "every chunk is accepted") true [] ;;;
          let! status := gets (λ c, GetStatusCode (sys c)) in
          Check_ (lit "no response before the body ends") (negb (is_ok status)) [] ;;;
          let! ended := ask (EndBody sm) in
          match ended with
          | Err e => Check_ (lit "the body ends and the server answers") false (Describe e)
          | Ok _ => ret ()
          end
        else if answered_early : bool then say (lit "  the server answered before the body was finished" ++ [LF])
        else ret ()) ;;;
       let! status := gets (λ c, GetStatusCode (sys c)) in
       let code := match status with Ok s => s | Err _ => 0 end in
       Check_ (lit "the server answers a chunked request") (is_ok status)
         (match status with Ok _ => status_text code | Err e => Describe e end) ;;;
       Check_ (lit "the chunked framing is accepted") (negb (code =? 400) && negb (code =? 411)) (status_text code) ;;;
       (if 0 <? code then say (lit "  answered " ++ to_string code ++ lit " after " ++ lit (if answered_early then "part of" else "all of")
                               ++ lit " the body" ++ [LF])
        else ret ()) ;;;
       Drain ;;;
       set Close
   end) ;;;
  set (λ c, SetChunkedUpload c false).

(** 6. TLS through the same engine *)
Definition secured (secure : bytes) : tool unit :=
  say ([LF] ++ lit "Executing GET " ++ text secure ++ [LF]) ;;;
  let! response := Execute_ (lit "GET") secure in
  match response with
  | Err e =>
      Check_ (lit "HTTPS through the software engine") false (Describe e) ;;;
      if decide (ne_code e = kConnectionLost) then
        say (lit "      note: this firmware discards a TLS socket's unread bytes when the peer closes it, so only what was read before the close arrives. A page this size cannot be read fast enough to be whole; the connection is reported lost rather than the body being passed off as complete."
             ++ [LF])
      else ret ()
  | Ok r => Check_ (lit "HTTPS returns 200") (hr_status_code r =? 200) (status_text (hr_status_code r))
  end.

Definition verified (secure : bytes) : tool unit :=
  set (λ c, SetTlsConfig c (MkTlsConfig true true [] [] [] [] 10)) ;;;
  say ([LF] ++ lit "Executing GET " ++ text secure ++ lit " asking for verification" ++ [LF]) ;;;
  let! response := Execute_ (lit "GET") secure in
  match response with
  | Ok r => Check_ (lit "HTTPS with verification returns 200") (hr_status_code r =? 200) (status_text (hr_status_code r))
  | Err e =>
      if decide (ne_code e = kTlsHandshakeFailed ∨ ne_code e = kNotSupported) then
        say (lit "  note: the module will not perform a verified handshake: " ++ text (Describe e) ++ [LF]
             ++ lit "      this firmware offers no way to install a certificate authority, so there is nothing to check a server against. A TlsConfig that asks for verification therefore cannot be honoured here; the connection above succeeded because the default asks for none."
             ++ [LF])
      else Check_ (lit "HTTPS with verification") false (Describe e)
  end.

Definition http_test (host base : bytes) : tool Z :=
  let root := base ++ lit "/" in
  let secure := lit "https://" ++ host ++ lit "/" in
  set (λ c, SetTimeout c 20000) ;;;
  let! body := buffered root in
  streamed root body ;;;
  absent base ;;;
  kept_alive root ;;;
  posted root ;;;
  redirected root ;;;
  chunked_upload root ;;;
  secured secure ;;;
  verified secure ;;;
  let! failures := gets g_failures in
  say ([LF] ++ lit (if failures =? 0 then "PASS - all checks passed" else "FAIL - see the checks above") ++ [LF]) ;;;
  ret (if failures =? 0 then 0 else 1).
End Test.

(** * [main] *)

Section Main.
Context {H C W : Type} `{IAtChannel C} `{IHal H C} `{ITransport W} (sm : size_model) (reads : nat).

Definition is_trace (arg : bytes) : bool := bool_decide (arg = lit "trace").
Definition is_baud (arg : bytes) : bool := negb (is_trace arg) && starts_with (lit "baud=") arg.
Definition baud_of (args : list bytes) : Z :=
  match last (filter (λ a, is_baud a = true) args) with Some a => atoi (drop 5 a) | None => 115200 end.
Definition positional (args : list bytes) : list bytes := filter (λ a, is_trace a || is_baud a = false) args.

(** [argv] without the program's name; a trace changes nothing but the log. *)
Definition http_main (entries : list (ModuleEntry C H)) (create_uart : bytes → Z → option C) (create_http : H * C → W * Result unit)
    (argv : list bytes) : list bytes * option Z :=
  let args := positional argv in
  let baud := baud_of argv in
  let port := argument args 0 (lit "COM8") in
  let apn := argument args 1 (lit "cmnet") in
  let host := argument args 2 (lit "example.com") in
  let base := lit "http://" ++ host ++ (match args !! 3%nat with Some p => lit ":" ++ p | None => [] end) in
  on_network entries (create_uart port baud) port apn
    (lit "Opening " ++ text port ++ lit " at " ++ to_string baud ++ lit " baud" ++ [LF])
    (λ e, lit "detect FAILED: " ++ text (Describe e) ++ [LF]) (λ e, text (Describe e)) (λ e, text (Describe e))
    (λ d, let '(w, r) := create_http d in (new_http_client w, r)) []
    (λ e, [LF] ++ lit "CreateHttp FAILED: " ++ text (Describe e) ++ [LF]) (http_test sm reads host base).
End Main.

(** * Lemmas *)

Section Facts.
Context {W : Type} `{ITransport W} (sm : size_model) (reads : nat).
Local Abbreviation client := (SoftwareHttpClient W).
Implicit Types c : console client.

(** Failures are only ever added to. *)
Definition counts {A} (m : tool client A) : Prop := ∀ n, keeps (λ c, n <= g_failures c) m.

Lemma counts_ret {A} (a : A) : counts (ret a).
Proof. intros n. apply keeps_ret. Qed.
Lemma counts_fail {A} e : counts (fail e : tool client A).
Proof. intros n. apply keeps_fail. Qed.
Lemma counts_bind {A B} (m : tool client A) (k : A → tool client B) : counts m → (∀ a, counts (k a)) → counts (bind m k).
Proof. intros Hm Hk n. apply keeps_bind; [apply Hm|intros a; apply Hk]. Qed.
Lemma counts_gets {A} (f : console client → A) : counts (gets f).
Proof. intros n. apply keeps_gets. Qed.
Lemma counts_say t : counts (say t : tool client unit).
Proof. intros n. by apply keeps_modify. Qed.
Lemma counts_failure : counts (count_failure : tool client unit).
Proof. intros n. apply keeps_modify. intros c. cbn. lia. Qed.
Lemma counts_set f : counts (set f : tool client unit).
Proof. intros n. by apply keeps_modify. Qed.
Lemma counts_ask {A} (m : op client NetworkError A) : counts (ask m).
Proof. intros n c Hc. unfold ask, call. by destruct (m (sys c)). Qed.
Lemma counts_if {A} (b : bool) (m k : tool client A) : counts m → counts k → counts (if b then m else k).
Proof. by destruct b. Qed.
Lemma counts_Check name ok detail : counts (Check_ name ok detail : tool client unit).
Proof. apply counts_bind; [apply counts_say|]. intros _. destruct ok; [apply counts_ret|apply counts_failure]. Qed.
End Facts.

Create HintDb smoke.
#[export] Hint Resolve counts_ret counts_fail counts_bind counts_gets counts_say counts_failure counts_set counts_ask counts_if
  counts_Check : smoke.

(** Walks through a test. *)
Ltac counting :=
  repeat first
    [ progress intros
    | lazymatch goal with
      | |- counts (bind _ _) => apply counts_bind
      | |- counts (match ?x with _ => _ end) => destruct x
      | |- counts _ => solve [auto with smoke nocore]
      end ].

Section Passing.
Context {W : Type} `{ITransport W} (sm : size_model) (reads : nat).
Local Abbreviation client := (SoftwareHttpClient W).
Implicit Types c : console client.

Lemma counts_Execute method url : counts (Execute_ sm method url : tool client _).
Proof. unfold Execute_. counting. Qed.
Lemma counts_Open method url : counts (Open_ sm method url : tool client _).
Proof. unfold Open_. counting. Qed.
Hint Resolve counts_Execute counts_Open : smoke.

Lemma counts_Drain : counts (Drain sm reads : tool client _).
Proof.
  unfold Drain. generalize (@nil ascii). induction reads as [|k IH]; intros body; cbn [drain_loop]; [counting|].
  apply counts_bind; [auto with smoke nocore|]. intros [[|x data]|e]; [counting|apply IH|counting].
Qed.
Hint Resolve counts_Drain : smoke.

Lemma counts_headers (hs : list (bytes * bytes)) : counts (foldr (λ kv rest, say (lit "    " ++ text kv.1 ++ lit ": " ++ text (Elide kv.2 80) ++ [LF]) ;;; rest)
  (ret ()) hs : tool client unit).
Proof. induction hs as [|h hs IH]; cbn [foldr]; counting. Qed.
Hint Resolve counts_headers : smoke.
Lemma counts_buffered root : counts (buffered sm root : tool client _).
Proof. unfold buffered. counting. Qed.
Lemma counts_streamed root body : counts (streamed sm reads root body : tool client _).
Proof. unfold streamed. counting. Qed.
Lemma counts_absent base : counts (absent sm base : tool client _).
Proof. unfold absent. cbv zeta. counting. Qed.
Lemma counts_kept_alive root : counts (kept_alive sm root : tool client _).
Proof. unfold kept_alive. counting. Qed.
Lemma counts_posted root : counts (posted sm root : tool client _).
Proof. unfold posted. counting. Qed.
Lemma counts_redirected root : counts (redirected sm root : tool client _).
Proof. unfold redirected. counting. Qed.
Lemma counts_write_pieces ps : counts (write_pieces sm ps : tool client _).
Proof. induction ps as [|p ps IH]; cbn [write_pieces]; cbv zeta; counting; exact IH. Qed.
Hint Resolve counts_write_pieces : smoke.
Lemma counts_chunked_upload root : counts (chunked_upload sm reads root : tool client _).
Proof. unfold chunked_upload. cbv zeta. counting. Qed.
Lemma counts_secured secure : counts (secured sm secure : tool client _).
Proof. unfold secured. counting. Qed.
Lemma counts_verified secure : counts (verified sm secure : tool client _).
Proof. unfold verified. counting. Qed.

(** A body, read to its end. *)
Inductive read_out : client → list bytes → client → Prop :=
| read_end k k' : Read sm 256 k = (k', Ok []) → read_out k [] k'
| read_more k d k1 ds k' : d ≠ [] → Read sm 256 k = (k1, Ok d) → read_out k1 ds k' → read_out k (d :: ds) k'.

Lemma wp_ask {A} (m : op client NetworkError A) (Q : result tool_end (Result A) → console client → Prop) c :
  Q (Ok (m (sys c)).2) (MkConsole (shown c) (g_failures c) (m (sys c)).1) → wp (ask m) Q c.
Proof. apply wp_call. Qed.

Lemma wp_Check name ok detail (Q : result tool_end unit → console client → Prop) c :
  (∀ out, Q (Ok ()) (MkConsole out (g_failures c + (if ok : bool then 0 else 1)) (sys c))) → wp (Check_ name ok detail) Q c.
Proof.
  intros HQ. apply wp_bind, wp_say. destruct ok; [apply wp_ret|unfold count_failure; apply wp_modify].
  - rewrite Z.add_0_r in HQ. apply HQ.
  - apply HQ.
Qed.

Lemma wp_Drain c : wp (Drain sm reads) (λ r c', ∀ d, r = Ok d → g_failures c' = g_failures c ∧
  (dr_ok d = true → ∃ ds, read_out (sys c) ds (sys c') ∧ dr_body d = concat ds)) c.
Proof.
  unfold Drain. enough (∀ body c, wp (drain_loop sm reads body) (λ r c', ∀ d, r = Ok d → g_failures c' = g_failures c ∧
    (dr_ok d = true → ∃ ds, read_out (sys c) ds (sys c') ∧ dr_body d = body ++ concat ds)) c) as Hd by exact (Hd [] c).
  induction reads as [|k IH]; intros body c1; cbn [drain_loop]; [by apply wp_fail|].
  apply wp_bind, wp_ask. destruct (Read sm 256 (sys c1)) as [c2 [[|x data]|e]] eqn:E; cbn [fst snd].
  - apply wp_ret. intros d [= <-]. split; [done|]. intros _. exists []. split; [by constructor|by rewrite app_nil_r].
  - eapply wp_mono; [apply IH|]. cbv beta. intros r c' Hr d Hd. destruct (Hr d Hd) as [Hf Hok]. split; [done|]. intros Hk.
    destruct (Hok Hk) as (ds & Hro & Hb). exists ((x :: data) :: ds). split; [by econstructor|]. cbn [concat]. by rewrite Hb, app_assoc.
  - apply wp_ret. intros d [= <-]. split; [done|done].
Qed.

Lemma wp_Execute method url (Q : result tool_end (Result HttpResponse) → console client → Prop) c :
  Q (Err Stuck) (MkConsole (shown c) (g_failures c) (Execute sm method url (sys c)).1) →
  (∀ k1 r, Execute sm method url (sys c) = (k1, r) → r ≠ Ok None →
    Q (Ok (match r with Ok (Some x) => Ok x | Ok None => Err exhausted | Err e => Err e end)) (MkConsole (shown c) (g_failures c) k1)) →
  wp (Execute_ sm method url) Q c.
Proof.
  intros Hs HQ. apply wp_bind, wp_ask. destruct (Execute sm method url (sys c)) as [c1 r] eqn:E. cbn [fst snd].
  specialize (HQ c1 r eq_refl). destruct r as [[x|]|e]; [by apply HQ|exact Hs|by apply HQ].
Qed.

(** A response that has come in whole is read in no more reads than it has bytes, and
    one more. *)
Lemma Drain_ends c : parser_complete (parser_ (sys c)) = true → parse_failed_ (sys c) = false → (length (pending_ (sys c)) < reads)%nat →
  wp (Drain sm reads) (λ r _, r = Ok (MkDrain true (pending_ (sys c)) [])) c.
Proof.
  unfold Drain. enough (∀ body c, parser_complete (parser_ (sys c)) = true → parse_failed_ (sys c) = false →
    (length (pending_ (sys c)) < reads)%nat →
    wp (drain_loop sm reads body) (λ r _, r = Ok (MkDrain true (body ++ pending_ (sys c)) [])) c) as Hd by exact (Hd [] c).
  induction reads as [|k IH]; intros body c1 Hp Hf Hlen; [lia|]. cbn [drain_loop]. apply wp_bind, wp_ask.
  set (k1 := sys c1) in *. assert (Read sm 256 k1 = if decide (pending_ k1 = []) then (k1, Ok [])
    else (set_pending k1 (drop (Nat.min 256 (length (pending_ k1))) (pending_ k1)), Ok (take (Nat.min 256 (length (pending_ k1))) (pending_ k1)))) as ->.
  { unfold Read, wait_for, bind, gets, body_ready, id. rewrite Hp, orb_true_r. cbv beta iota. rewrite Hp, Hf. by destruct (decide _). }
  destruct (decide (pending_ k1 = [])) as [E|Hne]; cbn [fst snd].
  { apply wp_ret. by rewrite E, app_nil_r. }
  set (n := Nat.min 256 (length (pending_ k1))). assert (length (pending_ k1) ≠ 0)%nat by (by intros ?%length_zero_iff_nil).
  assert (0 < n)%nat as Hn by (unfold n; lia).
  assert (n <= length (pending_ k1))%nat as Hle by (unfold n; lia). clearbody n.
  destruct (take n (pending_ k1)) as [|x data] eqn:Et.
  { apply (f_equal length) in Et. rewrite length_take in Et. change (length []) with O in Et. lia. }
  rewrite <- Et. replace (body ++ pending_ k1) with ((body ++ take n (pending_ k1)) ++ drop n (pending_ k1))
    by (by rewrite <- app_assoc, take_drop).
  refine (IH _ (MkConsole _ _ (set_pending k1 (drop n (pending_ k1)))) _ _ _); [exact Hp|exact Hf|].
  cbn [sys pending_ set_pending]. rewrite length_drop. lia.
Qed.

(** The headers are shown, and nothing else happens. *)
Lemma wp_headers (hs : list (bytes * bytes)) (Q : result tool_end unit → console client → Prop) c :
  (∀ out, Q (Ok ()) (MkConsole out (g_failures c) (sys c))) →
  wp (foldr (λ kv rest, say (lit "    " ++ text kv.1 ++ lit ": " ++ text (Elide kv.2 80) ++ [LF]) ;;; rest) (ret ()) hs) Q c.
Proof.
  intros HQ. revert c HQ. induction hs as [|h hs IH]; intros c HQ; cbn [foldr].
  - apply wp_ret. destruct c. apply HQ.
  - apply wp_bind, wp_say. apply IH. intros out. apply HQ.
Qed.

(** What the first part of the test has established when nothing has failed. *)
Definition fetched (root : bytes) (c0 c1 : client) (response : HttpResponse) : Prop :=
  Execute sm (lit "GET") root c0 = (c1, Ok (Some response)) ∧ hr_status_code response = 200 ∧ hr_body response ≠ [] ∧
  hr_headers response !! lit "content-type" ≠ None.

Lemma buffered_fetched root c : wp (buffered sm root) (λ r c', ∀ body, r = Ok body → g_failures c' <= g_failures c →
  ∃ response, fetched root (sys c) (sys c') response ∧ body = hr_body response) c.
Proof.
  unfold buffered. apply wp_bind, wp_say, wp_bind, wp_Execute; [done|]. cbn [sys shown g_failures]. intros c1 r E Hr.
  destruct r as [[x|]|e]; [|done|].
  2: { apply wp_bind, wp_Check. intros out. apply wp_ret. intros body _ Hf. cbn in Hf. lia. }
  apply wp_bind, wp_say, wp_bind, wp_headers. intros o1. do 3 (apply wp_bind, wp_Check; intros ?). apply wp_ret.
  cbn [sys shown g_failures]. intros body [= <-] Hf. exists x. split; [|done].
  destruct (Z.eqb_spec (hr_status_code x) 200); [|repeat case_match; lia].
  destruct (bool_decide_reflect (hr_body x = [])); [cbn [negb] in Hf; repeat case_match; lia|].
  destruct (bool_decide_reflect (hr_headers x !! lit "content-type" ≠ None)); [done|repeat case_match; lia].
Qed.

Lemma streamed_same root body c : body ≠ [] → wp (streamed sm reads root body) (λ r c', r = Ok () → g_failures c' <= g_failures c →
  ∃ k2 ds, Open sm (lit "GET") root (sys c) = (k2, Ok true) ∧ GetStatusCode k2 = Ok 200 ∧ read_out k2 ds (sys c') ∧ concat ds = body) c.
Proof.
  intros Hb. unfold streamed. apply wp_bind, wp_say. apply wp_bind. unfold Open_ at 1. apply wp_bind, wp_ask. cbn [sys shown g_failures].
  destruct (Open sm (lit "GET") root (sys c)) as [c2 [[]|e]]; cbn [fst snd]; [apply wp_ret|by apply wp_fail|apply wp_ret].
  2: { apply wp_Check. intros out _ Hf. cbn in Hf. lia. }
  apply wp_bind, wp_gets, wp_bind, wp_Check. intros o1. apply wp_bind, wp_gets, wp_bind, wp_say. cbn [sys shown g_failures].
  apply wp_bind. eapply wp_mono; [apply wp_Drain|]. cbv beta. cbn [sys shown g_failures]. intros [d|e] c3 Hd; [|done].
  destruct (Hd d eq_refl) as [Hf3 Hok]. clear Hd. apply wp_bind, wp_Check. intros o2. apply wp_bind.
  eapply (wp_mono _ (λ r c', r = Ok () ∧ sys c' = sys c3 ∧ g_failures c' = g_failures c3 + (if dr_ok d then 0 else 1) +
    (if dr_ok d && negb (bool_decide (dr_body d = body)) then 1 else 0))).
  { rewrite bool_decide_false by done. rewrite andb_true_r. destruct (dr_ok d); cbn [andb].
    - apply wp_Check. intros out. split_and!; [done|done|]. cbn [g_failures]. destruct (bool_decide _); cbn; lia.
    - apply wp_ret. split_and!; [done|done|]. cbn [g_failures]. lia. }
  intros r c4 (-> & Es & Hf4). rewrite Hf3 in Hf4.
  assert (∀ c5, sys c5 = sys c4 → g_failures c5 = g_failures c4 → g_failures c5 <= g_failures c →
    ∃ k2 ds, (c2, @Ok NetworkError bool true) = (k2, Ok true) ∧ GetStatusCode k2 = Ok 200 ∧ read_out k2 ds (sys c5) ∧ concat ds = body) as Hfin.
  { intros c5 E5 F5 Hle. rewrite F5, Hf4 in Hle. destruct (GetStatusCode c2) as [st|e] eqn:Est; [|repeat case_match; lia].
    destruct (Z.eqb_spec st 200) as [->|]; [|repeat case_match; lia].
    destruct (dr_ok d); [|cbn in Hle; lia]. destruct (Hok eq_refl) as (ds & Hro & Hdb). destruct (bool_decide_reflect (dr_body d = body)) as [Hsame|]; [|cbn in Hle; lia].
    exists c2, ds. rewrite E5, Es. split_and!; [done|done|done|congruence]. }
  destruct (dr_ok d && negb (bool_decide (dr_body d = []))); [apply wp_say|apply wp_ret]; intros _ Hle; by eapply Hfin.
Qed.

(** A test that exits 0 fetched the page twice, in full and in pieces, and the pieces
    make up the same body; each answer was a 200. *)
Lemma http_test_passes host base c : g_failures c = 0 → wp (http_test sm reads host base) (λ r c', r = Ok 0 →
  ∃ response k1 k2 ds k3, fetched (base ++ lit "/") (SetTimeout (sys c) 20000) k1 response ∧
    Open sm (lit "GET") (base ++ lit "/") k1 = (k2, Ok true) ∧ GetStatusCode k2 = Ok 200 ∧
    read_out k2 ds k3 ∧ concat ds = hr_body response) c.
Proof.
  intros H0. unfold http_test. cbv zeta. set (root := base ++ lit "/").
  apply wp_bind. unfold set. apply wp_modify. set (c0 := MkConsole _ _ _).
  apply wp_bind, wp_intro. intros c1 r1 E1. pose proof (buffered_fetched root c0) as Hb. unfold wp in Hb. rewrite E1 in Hb.
  cbn [fst snd] in Hb. destruct r1 as [body|e]; [|done]. specialize (Hb body eq_refl).
  assert (counts (streamed sm reads root body : tool client unit)) as Hcs by apply counts_streamed.
  specialize (Hcs (g_failures c1) c1 (Z.le_refl _)). pose proof (streamed_same root body c1) as Hst. unfold wp in Hst.
  apply wp_bind, wp_intro. intros c2 r2 E2. rewrite E2 in Hst, Hcs. cbn [fst snd] in Hst, Hcs. destruct r2 as [[]|e]; [|done].
  pose proof (counts_buffered root (g_failures c0) c0 (Z.le_refl _)) as Hcb. rewrite E1 in Hcb. cbn [fst] in Hcb.
  change (g_failures c0) with (g_failures c) in *. set (P := λ v : console client, g_failures c2 <= g_failures v).
  assert (∀ (m : tool client unit) (k : tool client Z) v Q, counts m → P v → (∀ v', P v' → wp k Q v') →
    (∀ e v', Q (Err e) v') → wp (m ;;; k) Q v) as Hseq.
  { intros m k v Q Hm Hv Hk He. apply wp_bind. eapply wp_mono; [by apply (wp_keeps P); [apply Hm|]|]. cbv beta.
    intros [[]|e] v' Hv'; auto. }
  assert (P c2) as H2 by (unfold P; lia).
  do 7 (apply Hseq; [auto using counts_absent, counts_kept_alive, counts_posted, counts_redirected, counts_chunked_upload,
    counts_secured, counts_verified|done| |done]; clear H2; intros ? H2).
  apply wp_bind, wp_gets, wp_bind, wp_say, wp_ret. unfold P in H2. match goal with |- context [g_failures ?v =? 0] => destruct (Z.eqb_spec (g_failures v) 0) as [Hz|]; [|done] end.
  intros _. destruct Hb as (response & Hfe & ->); [change (g_failures c0) with (g_failures c); lia|].
  destruct (Hst (proj1 (proj2 (proj2 Hfe))) eq_refl) as (k2 & ds & Ho & Hg & Hro & Hcat); [lia|].
  exists response, (sys c1), k2, ds, (sys c2). by split_and!.
Qed.
End Passing.

(** * A run *)

(** A server with one page, which answers when it is waited for. *)
Record web := MkWeb { asked_for : bytes }.
Definition page (status : string) : bytes :=
  lit "HTTP/1.1 " ++ lit status ++ CRLF ++ lit "Content-Type: text/plain" ++ CRLF ++ lit "Content-Length: 5" ++ CRLF ++ CRLF ++ lit "hello".
#[export] Instance web_transport : ITransport web := {|
  make_transport _ _ w := (w, Ok ());
  tcp_connect _ _ w := (w, [], Ok ());
  tcp_send data w := (if starts_with (lit "GET ") data || starts_with (lit "POST ") data then MkWeb data else w, [], Ok (Z.of_nat (length data)));
  tcp_disconnect w := w;
  await _ w := (w, [EvData (page (if decide (find_sub (lit "no-such-page") (asked_for w) = None) then "200 OK" else "404 Not Found"))]);
|}.

Example one_page_passes :
  (outcome (http_test Size32 3 (lit "h") (lit "http://h")) (MkConsole [] 0 (new_http_client (MkWeb [])))).2 = Some 0.
Proof. by_vm. Qed.
